(* ===== verification/_CoqProject ===== *)
-Q . S2P
Prelude.v
Crypto.v
Json.v
JsonFacts.v
JsonParse.v
JsonTyped.v
Types.v
Transaction.v
Block.v
State.v
DB.v
StateDB.v
Events.v
Vm.v
Economy.v
AssetModule.v
Market.v
SessionModule.v
Executor.v
Ledger.v
Invariants.v
Determinism.v
Mempool.v
Blockchain.v
Files.v
Config.v
Tls.v
Certgen.v
Transit.v
Node.v
Frame.v
Indexer.v
Consensus.v
Startup.v
Peer.v
Network.v
Sync.v
Thread.v
ThreadVm.v
Threads.v
Catchup.v
Rpc.v
Wire.v
Wallet.v
Main.v
Life.v
Instances.v
Witnesses.v
NodeWitnesses.v
ChainWitnesses.v
EdgeWitnesses.v
LifeWitnesses.v
CertWitnesses.v
ThreadWitnesses.v
