(* ===== verification/Prelude.v ===== *)
(** * TOL Chain: verification library

    A development beside the Go sources under [src/].  It models the node of
    the chain, from the bytes of a transaction to two nodes that exchange
    blocks, and proves what makes it correct.  [src/] below is the root of the
    repository; every definition keeps the name of the Go function, method or
    type it translates where it can.

    ** The program

    Users sign transactions ([core/transaction.go]) with their wallets
    ([wallet/]) and hand them to a node over JSON-RPC ([rpc/]).  The node keeps
    them in its mempool ([core/mempool.go]) and gossips them to its peers
    ([network/node.go]).  The validator whose turn it is ([consensus/poa.go])
    takes transactions from the pool, executes them ([vm/executor.go] with the
    modules under [vm/modules/]) against the world state
    ([storage/statedb.go], a write buffer with snapshots over a key-value
    store), signs the block ([core/block.go]), stores it
    ([core/blockchain.go], [storage/leveldb.go]), flushes the state and tells
    the indexer ([indexer/]) through events ([events/]).  Other nodes fetch
    blocks from their peers ([network/sync.go]), judge them, execute them and
    compare state roots.  [cmd/node/main.go] puts the parts together from a
    configuration ([config/]) and a keystore, and makes keys and, with
    [crypto/certgen/], the certificates nodes speak TLS with.

    ** The library

    - Foundations.  This file: errors, outcomes, the state monad, machine
      integers, lists and strings.  [Crypto] ([crypto/*.go]): hexadecimal,
      hashes, keys, signatures.  [Json], [JsonFacts], [JsonParse],
      [JsonTyped]: the part of encoding/json the program uses, and its round
      trips.  [Files]: reading and writing small files.
    - Data.  [Types] ([core/state.go], payloads), [Transaction], [Block], and
      their passage through JSON in [Transit].
    - World state.  [State]: [core.State] as a class, the abstract world that
      specifies it, and [refines], the simulation between the two.  [DB]: the
      key-value interface with its contract, the LevelDB wrapper and the
      in-memory store.  [StateDB]: [storage/statedb.go], proved to implement
      the abstract world over any [DB].
    - Execution.  [Events], [Vm] ([vm/*.go]), [Economy], [AssetModule],
      [Market], [SessionModule] (the nine handlers), [Executor] (the assembled
      machine and its refinement), [Ledger] (the effect of each transaction
      type), [Invariants] (what every chain of blocks keeps), [Determinism]
      (independence of Go's map orders).
    - The node.  [Mempool], [Blockchain], [Config] ([config/config.go],
      [config/genesis.go]), [Tls] ([config/tls.go]), [Certgen]
      ([crypto/certgen/certgen.go]), [Node] (the one store that state, blocks
      and index share), [Frame] (what execution leaves alone), [Indexer],
      [Consensus], [Startup] (restoring or creating the chain), [Wallet], [Main]
      ([cmd/node/main.go]: its three modes, serving and shutting down).
    - The network.  [Peer] (framing, dialling), [Network] ([network/node.go]),
      [Sync] ([network/sync.go]), [Catchup] (a follower and a leader run
      together), [Rpc] ([rpc/handler.go] and the judging of requests), [Wire]
      ([rpc/server.go]: what is written back, starting and stopping).
    - All of it.  [Life]: a node under any sequence of ticks, requests,
      connections, messages and crashes between them.  [Thread]: goroutines as
      sequences of actions; [ThreadVm]: the executor, the handlers and the
      indexer in that form, one action per call of the state or the store;
      [Threads]: the goroutines of a node under any schedule.
    - Witnesses.  [Instances] makes every parameter concrete and builds a
      scenario; [Witnesses], [NodeWitnesses], [ChainWitnesses],
      [EdgeWitnesses], [LifeWitnesses], [CertWitnesses] and [ThreadWitnesses]
      evaluate the theorems there.

    ** How code becomes definitions

    A Go function that returns [(T, error)] and mutates an object of type [S]
    is a computation in [M S T]: a panic is an outcome of its own, and
    mutations made before an error stay.  Pointers that several parts hold
    ([*StateDB], [*Blockchain], [*Mempool], [*Peer]) are fields of one record
    ([Node], [Host]) that all methods run on, so what one part changes the
    others see.  [uint64], [int64] and [int] are [Z] with the wrap-around
    written out.  A string or [[]byte] is a [string] of bytes.  A map is a
    [gmap]; a range over a map takes its order from the class [MapOrder], so
    that every theorem holds for every order.  Time, random bytes, the faults
    of files, connections and stores are arguments or parts of the state.

    The parameters stand for code outside the repository.  Each is a class
    with a class of laws: [Crypto] (SHA-256 with 32-byte results, Ed25519 with
    its sizes and correctness, and no unforgeability: where injectivity matters
    a theorem names the two texts that would collide), [FloatFmt] (strconv on
    floats), [GoLevelDB] (point reads and writes, ordered scans, atomic
    batches), [KeyCipher] (PBKDF2 and AES-GCM), [PEM] (the parsers crypto/tls
    uses on certificate files), [X509] (creating and parsing certificates).
    [Net] is what the operating system yields to dialling and listening.
    [DB], [BlockStore], [State] are interfaces of the program itself; the
    theorems are proved against their laws and the implementations here
    discharge them.

    ** What the theorems show

    - The whole ([Life.node_life]): from an empty store on, through any
      sequence of events, with crashes between two of them, the node keeps a
      consistent chain of blocks sealed by the scheduled validators, the supply
      of its allocation, and a stored state with the root its tip names (if it
      names one).  A crash inside an event, between storing a block and flushing
      the state, breaks the last of these: [Startup.crash_before_commit].
      [Threads.interleaving_keeps_chain]: no interleaving of its goroutines,
      also inside a transaction, breaks the chain, the buffer's form or the
      pool.
    - Replication ([Catchup], [Sync], [Consensus]): a follower reaches the
      tip, chain and world of its leader; whatever blocks a peer sends, only
      valid successors with the state root they name are kept; producing a
      block either extends everything or reports an error and leaves chain and
      pool, or, on a faulty store only, ends the process; a healthy validator in
      its turn produces; what it produces validates.
    - Execution ([Executor], [StateDB], [Determinism], [Transit]): a rejected
      transaction changes nothing; the executor over the real store refines
      the abstract one; the state root determines the world; commits preserve
      it; no map order matters; blocks read from any text are well typed.
    - Economics ([Invariants]): tokens are conserved, replays are rejected,
      only owners move assets, listings and assets agree, sessions open and
      close once and pay out what they hold.
    - Identity ([Block], [Transaction], [Peer], [Wallet], [Config]): hashes
      and IDs bind what is executed; blocks, messages, keys and configurations
      survive their encodings, and a key file that broke off is no key file;
      generated certificates load and carry the authority's signature
      ([Certgen]).
    - Life of a node ([Startup], [Main], [Blockchain], [Mempool], [Network],
      [Indexer], [Rpc], [Wire]): fresh starts, shutdowns, restarts and crashes;
      a linked chain that can be read back; a bounded pool that hands out its
      transactions in the order they came; a peer table in step with its
      connections; read loops that end; lists of owners that follow the
      transactions; requests that change at most the pool and are answered with what
      the world holds.

    The flaws that came to light are theorems too, for instance
    [Startup.crash_before_commit] (a block stored before its state is
    flushed), [Consensus.failed_block_stalls] (one failing transaction stops
    production), [Threads.racing_readers_exit] (two peers that answer with the
    same block can end the process), [Invariants.tx_supply_change] (a block
    without a proposer burns its fees) and [Wallet.bad_nonce_panics].

    ** Bounds and fuel

    The scanner of JSON runs with fuel twice the length of the text plus one:
    each level of nesting consumes a byte.  A read loop runs with fuel one more
    than the bytes to read, since each message takes at least its four-byte
    length ([Network.read_loop_ends] shows that it returns).  The leader
    collects at most the requested number of blocks, which it caps.  [Catchup.follower_catches_up] needs one exchange
    for each fifty missing blocks, and one to learn that none is missing.
    Everything else is structural.

    ** Not modelled

    - The grain of concurrency.  Outside [ThreadVm] and [Threads] every step of
      a goroutine is one atomic computation; there a goroutine is cut at every
      call that takes a lock (state, chain, mempool) or goes to the store (the
      indexer).  Mutexes themselves appear nowhere: the methods hold them
      throughout, but for [Mempool.Add], which judges the transaction before it
      locks the pool and reads nothing of it there, and [Broadcast] and [Emit],
      which copy the peers or subscribers under the lock and call them without
      it.  Requests that only read, and the exchange of messages with peers, are
      not among the goroutines of [Threads].
    - Crashes in the middle of a step of [Life].  The one window in which they
      matter, after a block is stored and before its state is flushed, is
      [Startup.crash_before_commit]; every write to the store is atomic.
    - A write to a connection that is cut off midway: [Send] writes a whole frame
      or none.
    - The difference between nil and empty slices in encodings ([null] and []),
      and what encoding/json leaves in a slice of structs when one object repeats
      a key and the later array has null elements ([Json.dec_slice] starts from
      zero values).
    - The operating system: what dialling, listening, accepting, making
      directories and opening the database yield are arguments.
    - Parsing of flags (their values are an argument), signals, the timeouts of
      the HTTP server and its routing, deadlines of connections but as faults.
    - Log output. *)
From Stdlib Require Import Ascii.
From stdpp Require Import base gmap strings list sorting.
From Stdlib Require Import Lia ZArith.

(** ** Errors, outcomes and the state monad

    Go functions return [(value, error)] and mutate the objects they are
    methods of.  [error] keeps the shape of a Go error chain (a sentinel, a
    fresh message, a message wrapped with [%w]); [outcome] is a returned value,
    a returned error, or a panic; [M S A] is a computation over a mutable
    object of type [S] whose mutations survive a returned error. *)

Declare Scope go_scope.
Delimit Scope go_scope with go.
Open Scope Z_scope.

Inductive error : Type :=
| ErrNotFound
| EMsg (msg : string)
| EWrap (msg : string) (inner : error).

#[export] Instance error_eq_dec : EqDecision error.
Proof. solve_decision. Defined.

(** [errors.Is(err, core.ErrNotFound)]: walks the chain of wrapped errors. *)
Fixpoint is_not_found (e : error) : bool :=
  match e with
  | ErrNotFound => true
  | EMsg _ => false
  | EWrap _ e' => is_not_found e'
  end.

Inductive outcome (A : Type) : Type :=
| Ret (a : A)
| Fail (e : error)
| Panic (msg : string).
Arguments Ret {A} a.
Arguments Fail {A} e.
Arguments Panic {A} msg.

#[export] Instance outcome_eq_dec `{EqDecision A} : EqDecision (outcome A).
Proof. solve_decision. Defined.

#[export] Instance outcome_ret : MRet outcome := λ A a, Ret a.
#[export] Instance outcome_bind : MBind outcome := λ A B f o,
  match o with Ret a => f a | Fail e => Fail e | Panic m => Panic m end.
#[export] Instance outcome_fmap : FMap outcome := λ A B f o,
  match o with Ret a => Ret (f a) | Fail e => Fail e | Panic m => Panic m end.

(** [fmt.Errorf("msg: %w", err)] on the error path. *)
Definition wrapO {A} (msg : string) (o : outcome A) : outcome A :=
  match o with Fail e => Fail (EWrap msg e) | _ => o end.

(** A lookup that fails with a given error. *)
Definition of_option {A} (e : error) (o : option A) : outcome A :=
  match o with Some a => Ret a | None => Fail e end.

Definition M (S A : Type) : Type := S → S * outcome A.

#[export] Instance M_ret {S} : MRet (M S) := λ A a s, (s, Ret a).
#[export] Instance M_bind {S} : MBind (M S) := λ A B f m s,
  match m s with
  | (s', Ret a) => f a s'
  | (s', Fail e) => (s', Fail e)
  | (s', Panic msg) => (s', Panic msg)
  end.

Definition fail {S A} (e : error) : M S A := λ s, (s, Fail e).
Definition panic {S A} (msg : string) : M S A := λ s, (s, Panic msg).
Definition liftO {S A} (o : outcome A) : M S A := λ s, (s, o).
Definition wrap {S A} (msg : string) (m : M S A) : M S A := λ s,
  let '(s', o) := m s in (s', wrapO msg o).
(** Runs [m] and hands its outcome to the caller, as Go code that inspects
    [err] does. *)
Definition attempt {S A} (m : M S A) : M S (outcome A) := λ s,
  let '(s', o) := m s in (s', Ret o).
(** A method of a component, run on the whole object that owns it. *)
Definition on_part {W S A} (get : W → S) (put : S → W → W) (m : M S A) : M W A := λ w,
  let '(s', o) := m (get w) in (put s' w, o).
(** [if cond { return err }] *)
Definition reject_if {S} (cond : bool) (e : error) : M S unit :=
  if cond then fail e else mret tt.

(** [for _, x := range l { if err := f(x); err != nil { return err } }] *)
Fixpoint for_each {S A} (f : A → M S unit) (l : list A) : M S unit :=
  match l with
  | [] => mret tt
  | x :: l' => f x;; for_each f l'
  end.
(** [defer recover()]: whatever [m] does, the caller goes on. *)
Definition recover {S} (m : M S unit) : M S unit := λ s, ((m s).1, Ret tt).
(** [if err := m; err != nil { log.Printf(...) }]: errors are logged; a panic
    goes on. *)
Definition logged {S A} (m : M S A) : M S unit := λ s,
  match m s with
  | (s', Panic msg) => (s', Panic msg)
  | (s', _) => (s', Ret tt)
  end.
(** [_, err := m]: the object must be absent; an error other than
    [core.ErrNotFound] is reported as such. *)
Definition expect_absent {S A} (m : M S A) (exists_err : error) (msg : string) : M S unit := λ s,
  match m s with
  | (s', Ret _) => (s', Fail exists_err)
  | (s', Fail e) => if is_not_found e then (s', Ret tt) else (s', Fail (EWrap msg e))
  | (s', Panic p) => (s', Panic p)
  end.

(** A Go map is ranged over in an order that is chosen anew for each loop:
    [range n m] is the order of the [n]-th loop of a function. *)
Class MapOrder := {
  range {A : Type} : nat → gmap string A → list (string * A);
  range_perm {A : Type} n (m : gmap string A) : range n m ≡ₚ map_to_list m
}.

(** [if err != nil { return fmt.Errorf("msg: %w", err) }] *)
Notation "m 'errorf' msg" := (wrap msg m) (at level 54, left associativity) : go_scope.
Open Scope go_scope.

Definition is_ret {A} (o : outcome A) : bool :=
  match o with Ret _ => true | _ => false end.

(** ** Machine integers *)

Definition two64 : Z := 18446744073709551616.
Definition max_uint64 : Z := 18446744073709551615.
Definition min_int64 : Z := -9223372036854775808.
Definition max_int64 : Z := 9223372036854775807.

(** [uint64] arithmetic is modulo 2^64; [int64] arithmetic wraps around the
    two's complement range. *)
Definition add64 (a b : Z) : Z := (a + b) mod two64.
Definition sub64 (a b : Z) : Z := (a - b) mod two64.
Definition mul64 (a b : Z) : Z := (a * b) mod two64.
Definition wrap_int64 (z : Z) : Z := (z + 9223372036854775808) mod two64 - 9223372036854775808.
Definition addi64 (a b : Z) : Z := wrap_int64 (a + b).
Definition subi64 (a b : Z) : Z := wrap_int64 (a - b).

Definition is_u64 (z : Z) : Prop := 0 ≤ z ≤ max_uint64.
Definition is_i64 (z : Z) : Prop := min_int64 ≤ z ≤ max_int64.
#[export] Instance is_u64_dec z : Decision (is_u64 z).
Proof. unfold is_u64. apply _. Defined.
#[export] Instance is_i64_dec z : Decision (is_i64 z).
Proof. unfold is_i64. apply _. Defined.

(** ** Strings (Go strings and byte slices are byte sequences) *)

(** The part of [s] after the prefix [p]; [None] when [p] is not a prefix. *)
Fixpoint strip_prefix (p s : string) : option string :=
  match p, s with
  | EmptyString, _ => Some s
  | String a p', String b s' => if decide (a = b) then strip_prefix p' s' else None
  | String _ _, EmptyString => None
  end.

Fixpoint string_take (n : nat) (s : string) : string :=
  match n, s with
  | S n', String c s' => String c (string_take n' s')
  | _, _ => EmptyString
  end.

Fixpoint string_drop (n : nat) (s : string) : string :=
  match n, s with
  | S n', String _ s' => string_drop n' s'
  | _, _ => s
  end.

Fixpoint string_forall (f : ascii → bool) (s : string) : bool :=
  match s with
  | EmptyString => true
  | String c s' => f c && string_forall f s'
  end.

(** The byte with value [z mod 256], and the value of a byte. *)
Definition byte_of (z : Z) : ascii := ascii_of_N (Z.to_N (z mod 256)).
Definition byte_val (c : ascii) : Z := Z.of_N (N_of_ascii c).

(** [binary.BigEndian.PutUint32(buf, uint32(n))]: the conversion to [uint32]
    wraps modulo 2^32. *)
Definition be32 (n : Z) : string :=
  let n := n mod 4294967296 in
  String (byte_of (n / 16777216)) (String (byte_of (n / 65536))
    (String (byte_of (n / 256)) (String (byte_of n) EmptyString))).

(** [binary.BigEndian.Uint32]: defined on four bytes. *)
Definition read_be32 (s : string) : option (Z * string) :=
  match s with
  | String a (String b (String c (String d r))) =>
      Some (byte_val a * 16777216 + byte_val b * 65536 + byte_val c * 256 + byte_val d, r)
  | _ => None
  end.

Definition zlen (s : string) : Z := Z.of_nat (String.length s).

(** A byte string with its length in front, four bytes big-endian. *)
Definition frame (s : string) : string := be32 (zlen s) +:+ s.

(** ** Shared lemmas *)

Section Monad.
Context {S A B : Type}.

Lemma bind_Ret_inv (m : M S A) (f : A → M S B) s s' b :
  (m ≫= f) s = (s', Ret b) ↔ ∃ s1 a, m s = (s1, Ret a) ∧ f a s1 = (s', Ret b).
Proof.
  unfold mbind, M_bind. destruct (m s) as [s1 [a|e|msg]]; split.
  all: try (intros (? & ? & ? & ?); by simplify_eq/=).
  all: intros; simplify_eq/=; eauto.
Qed.

Lemma bind_Ret (m : M S A) (f : A → M S B) s s1 a :
  m s = (s1, Ret a) → (m ≫= f) s = f a s1.
Proof. unfold mbind, M_bind. by intros ->. Qed.

Lemma bind_Fail (m : M S A) (f : A → M S B) s s1 e :
  m s = (s1, Fail e) → (m ≫= f) s = (s1, Fail e).
Proof. unfold mbind, M_bind. by intros ->. Qed.

Lemma wrap_Ret_inv msg (m : M S A) s s' a :
  wrap msg m s = (s', Ret a) ↔ m s = (s', Ret a).
Proof. unfold wrap. destruct (m s) as [? []]; simpl; split; congruence. Qed.

Lemma attempt_Ret_inv (m : M S A) s s' o :
  attempt m s = (s', Ret o) ↔ m s = (s', o).
Proof. unfold attempt. destruct (m s); split; congruence. Qed.

Lemma reject_if_Ret_inv c e (s s' : S) u :
  reject_if c e s = (s', Ret u) ↔ c = false ∧ s' = s.
Proof. unfold reject_if, fail. destruct c, u; split; [done|by intros []|by intros [= ->]|by intros [_ ->]]. Qed.

Lemma reject_run (c : bool) e (s : S) : c = false → reject_if c e s = (s, Ret tt).
Proof. by intros ->. Qed.

Lemma on_part_Ret_inv {W} (get : W → S) (put : S → W → W) (m : M S A) w w' a :
  on_part get put m w = (w', Ret a) ↔ ∃ s', m (get w) = (s', Ret a) ∧ w' = put s' w.
Proof.
  unfold on_part. destruct (m (get w)); split; [intros [= <- ->]; eauto|].
  by intros (? & [= <- ->] & ->).
Qed.

Lemma expect_absent_Ret_inv (m : M S A) e msg s s' u :
  expect_absent m e msg s = (s', Ret u) ↔ ∃ err, m s = (s', Fail err) ∧ is_not_found err = true.
Proof.
  unfold expect_absent. destruct u, (m s) as [s1 [a|err|p]].
  - split; [done|]. by intros (? & ? & _).
  - destruct (is_not_found err) eqn:E; split; try done; [by intros [= ->]; eauto| |].
    + by intros (? & [= -> <-] & _).
    + intros (? & [= -> <-] & ?). congruence.
  - split; [done|]. by intros (? & ? & _).
Qed.

Lemma mret_Ret_inv (s s' : S) (a b : A) :
  (mret a : M S A) s = (s', Ret b) ↔ s' = s ∧ b = a.
Proof. split; [by intros [= <- <-]|]. by intros [-> ->]. Qed.

Lemma liftO_Ret_inv (o : outcome A) (s s' : S) a :
  liftO o s = (s', Ret a) ↔ o = Ret a ∧ s' = s.
Proof. unfold liftO. split; [by intros [= <- ->]|]. by intros [-> ->]. Qed.
End Monad.

Lemma for_each_cons_inv {S A} (f : A → M S unit) x l s s' u :
  for_each f (x :: l) s = (s', Ret u) →
  ∃ s1, f x s = (s1, Ret tt) ∧ for_each f l s1 = (s', Ret u).
Proof. simpl. intros (s1 & [] & H1 & H2)%bind_Ret_inv. eauto. Qed.

(** [run_inv]: turns [m s = (s', Ret x)] into the steps [m] took. *)
Ltac run_inv_step :=
  match goal with
  | H : (_ ≫= _) _ = (_, Ret _) |- _ =>
      apply bind_Ret_inv in H as (? & ? & ? & H)
  | H : wrap _ _ _ = (_, Ret _) |- _ => apply wrap_Ret_inv in H
  | H : attempt _ _ = (_, Ret _) |- _ => apply attempt_Ret_inv in H
  | H : reject_if _ _ _ = (_, Ret _) |- _ =>
      apply reject_if_Ret_inv in H as [H ?]; subst
  | H : on_part _ _ _ _ = (_, Ret _) |- _ =>
      apply on_part_Ret_inv in H as (? & H & ?); subst
  | H : mret _ _ = (_, Ret _) |- _ => apply mret_Ret_inv in H as [? ?]; subst
  | H : liftO _ _ = (_, Ret _) |- _ => apply liftO_Ret_inv in H as [H ?]; subst
  | H : expect_absent _ _ _ _ = (_, Ret _) |- _ =>
      apply expect_absent_Ret_inv in H as (? & H & ?)
  | H : fail _ _ = (_, Ret _) |- _ => discriminate H
  | H : panic _ _ = (_, Ret _) |- _ => discriminate H
  | H : bool_decide _ = false |- _ => apply bool_decide_eq_false in H
  | H : bool_decide _ = true |- _ => apply bool_decide_eq_true in H
  | H : ¬ (_ ≠ _) |- _ => apply dec_stable in H
  | H : negb _ = false |- _ => apply negb_false_iff in H
  | H : negb _ = true |- _ => apply negb_true_iff in H
  end.
Ltac run_inv := repeat run_inv_step.

(** Splits boolean conjunctions among the hypotheses. *)
Ltac split_andb :=
  repeat match goal with
  | H : _ && _ = true |- _ => apply andb_true_iff in H as [? ?]
  end.

(** Machine arithmetic that stays in range is ordinary arithmetic. *)
Ltac solve_int :=
  unfold add64, sub64, mul64, addi64, subi64, wrap_int64, is_u64, is_i64,
    two64, max_uint64, min_int64, max_int64 in *;
  try (rewrite Z.mod_small by lia); lia.

Lemma add64_exact a b : is_u64 a → is_u64 b → a ≤ max_uint64 - b → add64 a b = a + b.
Proof. intros. solve_int. Qed.

Lemma sub64_exact a b : is_u64 a → is_u64 b → b ≤ a → sub64 a b = a - b.
Proof. intros. solve_int. Qed.

Lemma mul64_exact a b : 0 ≤ a → 0 ≤ b → a * b ≤ max_uint64 → mul64 a b = a * b.
Proof. intros. unfold mul64, two64, max_uint64 in *. apply Z.mod_small. nia. Qed.

Lemma add64_u64 a b : is_u64 (add64 a b).
Proof.
  unfold add64, is_u64, max_uint64. pose proof (Z.mod_pos_bound (a + b) two64 eq_refl).
  unfold two64 in *. lia.
Qed.

Lemma sub64_u64 a b : is_u64 (sub64 a b).
Proof.
  unfold sub64, is_u64, max_uint64. pose proof (Z.mod_pos_bound (a - b) two64 eq_refl).
  unfold two64 in *. lia.
Qed.

Lemma addi64_exact a b : is_i64 (a + b) → addi64 a b = a + b.
Proof. intros. solve_int. Qed.

Lemma subi64_exact a b : is_i64 (a - b) → subi64 a b = a - b.
Proof. intros. solve_int. Qed.

Section Strings.
Implicit Types s p r : string.

Lemma sapp_cons c s r : String c s +:+ r = String c (s +:+ r).
Proof. done. Qed.

Lemma sapp_nil_l s : "" +:+ s = s.
Proof. done. Qed.

Lemma sapp_nil_r s : s +:+ "" = s.
Proof. induction s as [|c s IH]; [done|]. by rewrite sapp_cons, IH. Qed.

Lemma sapp_assoc p s r : (p +:+ s) +:+ r = p +:+ (s +:+ r).
Proof. induction p as [|c p IH]; [done|]. by rewrite !sapp_cons, IH. Qed.

Lemma slength_app s r : String.length (s +:+ r) = (String.length s + String.length r)%nat.
Proof. induction s as [|c s IH]; [done|]. rewrite sapp_cons. simpl. by rewrite IH. Qed.

Lemma sapp_inj_len s1 s2 r1 r2 :
  String.length s1 = String.length s2 → s1 +:+ r1 = s2 +:+ r2 → s1 = s2 ∧ r1 = r2.
Proof.
  revert s2. induction s1 as [|c s1 IH]; intros [|c2 s2] Hl; try discriminate Hl.
  - done.
  - rewrite !sapp_cons. intros [= -> H]. apply IH in H as [-> ->]; [done|]. by injection Hl.
Qed.

Lemma strip_prefix_Some p s r : strip_prefix p s = Some r ↔ s = p +:+ r.
Proof.
  revert s. induction p as [|c p IH]; intros s; simpl.
  - rewrite sapp_nil_l. naive_solver.
  - rewrite sapp_cons. destruct s as [|c' s]; [naive_solver|].
    case_decide; subst; rewrite ?IH; naive_solver.
Qed.

Lemma strip_prefix_app p s : strip_prefix p (p +:+ s) = Some s.
Proof. by apply strip_prefix_Some. Qed.

Lemma string_forall_app f s r :
  string_forall f (s +:+ r) = string_forall f s && string_forall f r.
Proof.
  induction s as [|c s IH]; [done|]. rewrite sapp_cons. simpl. rewrite IH.
  by rewrite andb_assoc.
Qed.

Lemma string_take_app s r : string_take (String.length s) (s +:+ r) = s.
Proof. induction s as [|c s IH]; [by destruct r|]. rewrite sapp_cons. simpl. by rewrite IH. Qed.

Lemma string_drop_app s r : string_drop (String.length s) (s +:+ r) = r.
Proof. induction s as [|c s IH]; [by destruct r|]. rewrite sapp_cons. simpl. by rewrite IH. Qed.

Lemma string_drop_length n s : String.length (string_drop n s) = (String.length s - n)%nat.
Proof. revert n. induction s as [|c s IH]; intros [|n]; simpl; auto. Qed.

Lemma zlen_nonneg s : 0 ≤ zlen s.
Proof. unfold zlen. lia. Qed.
End Strings.

Lemma byte_val_of z : byte_val (byte_of z) = z mod 256.
Proof.
  unfold byte_val, byte_of. pose proof (Z.mod_pos_bound z 256 eq_refl).
  rewrite N_ascii_embedding by lia. rewrite Z2N.id; lia.
Qed.

Lemma byte_of_val c : byte_of (byte_val c) = c.
Proof.
  unfold byte_val, byte_of. pose proof (N_ascii_bounded c).
  rewrite Z.mod_small by lia. by rewrite N2Z.id, ascii_N_embedding.
Qed.

Lemma byte_val_range c : 0 ≤ byte_val c < 256.
Proof. unfold byte_val. pose proof (N_ascii_bounded c). lia. Qed.

Lemma read_be32_app n r : 0 ≤ n < 4294967296 → read_be32 (be32 n +:+ r) = Some (n, r).
Proof.
  intros Hn. unfold be32. rewrite (Z.mod_small n) by done.
  rewrite !sapp_cons, sapp_nil_l. simpl. rewrite !byte_val_of. do 2 f_equal.
  pose proof (Z.div_mod n 16777216). pose proof (Z.div_mod n 65536).
  Z.div_mod_to_equations. lia.
Qed.

(** Length framing is prefix-free: a framed string can be read back from the
    front of any stream. *)
Lemma frame_app_inj s1 s2 r1 r2 :
  zlen s1 < 4294967296 → zlen s2 < 4294967296 →
  frame s1 +:+ r1 = frame s2 +:+ r2 → s1 = s2 ∧ r1 = r2.
Proof.
  intros H1 H2. unfold frame. rewrite !sapp_assoc. intros H.
  apply (f_equal read_be32) in H.
  pose proof (zlen_nonneg s1). pose proof (zlen_nonneg s2).
  rewrite !read_be32_app in H by done. injection H as Hl Hr.
  apply sapp_inj_len in Hr; [done|]. unfold zlen in Hl. lia.
Qed.

Lemma frame_length s : String.length (frame s) = (4 + String.length s)%nat.
Proof. unfold frame. by rewrite slength_app. Qed.
