(* ===== verification/Crypto.v ===== *)
(** * Hexadecimal, hashes, keys and signatures

    Models [src/crypto/hash.go], [src/crypto/keys.go] and
    [src/crypto/signature.go].  [encoding/hex] is written out.  The two
    primitives of the Go library, SHA-256 and Ed25519, are the operations of
    the class [Crypto]; [CryptoLaws] lists what the code relies on: the lengths
    of their results, and that a signature made with a key pair verifies. *)
From Stdlib Require Import Ascii Lia ZArith.
From stdpp Require Import base strings list.
From S2P Require Import Prelude.

(** ** encoding/hex *)

Definition hex_digit (z : Z) : ascii :=
  byte_of (if bool_decide (z < 10) then 48 + z else 87 + z).

Definition from_hex_char (c : ascii) : option Z :=
  let z := byte_val c in
  if bool_decide (48 ≤ z ≤ 57) then Some (z - 48)
  else if bool_decide (97 ≤ z ≤ 102) then Some (z - 87)
  else if bool_decide (65 ≤ z ≤ 70) then Some (z - 55)
  else None.

(** [hex.EncodeToString] *)
Fixpoint hex_EncodeToString (s : string) : string :=
  match s with
  | EmptyString => EmptyString
  | String c s' =>
      String (hex_digit (byte_val c / 16))
        (String (hex_digit (byte_val c mod 16)) (hex_EncodeToString s'))
  end.

(** [hex.DecodeString]: accepts both letter cases; an odd length or a byte
    that is not a digit is an error. *)
Fixpoint hex_DecodeString (s : string) : option string :=
  match s with
  | EmptyString => Some EmptyString
  | String _ EmptyString => None
  | String a (String b s') =>
      x ← from_hex_char a; y ← from_hex_char b; r ← hex_DecodeString s';
      Some (String (byte_of (x * 16 + y)) r)
  end.

(** ** The primitives *)

Definition PublicKeySize : nat := 32.
Definition PrivateKeySize : nat := 64.
Definition SignatureSize : nat := 64.

Class Crypto := {
  sha256_Sum256 : string → string;
  (** the public key of a 32-byte seed *)
  ed25519_pub_of_seed : string → string;
  (** on a 64-byte private key *)
  ed25519_Sign : string → string → string;
  (** on a 32-byte public key; public key, message, signature *)
  ed25519_Verify : string → string → string → bool
}.

(** An Ed25519 private key is a seed followed by its public key. *)
Definition is_keypair `{Crypto} (priv : string) : Prop :=
  ∃ seed, String.length seed = 32%nat ∧ priv = seed +:+ ed25519_pub_of_seed seed.

Class CryptoLaws `{C : Crypto} : Prop := {
  sha256_length m : String.length (sha256_Sum256 m) = 32%nat;
  ed25519_pub_length seed :
    String.length seed = 32%nat → String.length (ed25519_pub_of_seed seed) = PublicKeySize;
  ed25519_sign_length priv m :
    String.length priv = PrivateKeySize → String.length (ed25519_Sign priv m) = SignatureSize;
  ed25519_sign_verify seed m :
    String.length seed = 32%nat →
    let pub := ed25519_pub_of_seed seed in
    ed25519_Verify pub m (ed25519_Sign (seed +:+ pub) m) = true
}.

(** ** package crypto *)

Section Crypto.
Context `{C : Crypto}.

Definition HashBytes (data : string) : string := sha256_Sum256 data.

Definition Hash (data : string) : string := hex_EncodeToString (sha256_Sum256 data).

(** [GenerateKeyPair], given what the random source yields: a 32-byte seed or
    a read error. *)
Definition GenerateKeyPair (rand : option string) : outcome (string * string) :=
  match rand with
  | None => Fail (EMsg "rand")
  | Some seed => let pub := ed25519_pub_of_seed seed in Ret (seed +:+ pub, pub)
  end.

Definition Address (pub : string) : string :=
  hex_EncodeToString (string_take 20 (HashBytes pub)).

Definition PublicKey_Hex (pub : string) : string := hex_EncodeToString pub.
Definition PrivateKey_Hex (priv : string) : string := hex_EncodeToString priv.

(** [ed25519.PrivateKey.Public] copies [priv[32:]] into a zeroed 32-byte
    buffer; the slice expression panics on a key shorter than 32 bytes. *)
Definition Public (priv : string) : outcome string :=
  if bool_decide (String.length priv < 32)%nat then Panic "slice bounds out of range"
  else
    let tail := string_drop 32 priv in
    Ret (string_take 32 (tail +:+ String.concat "" (replicate 32 (String (byte_of 0) "")))).

Definition PubKeyFromHex (s : string) : outcome string :=
  match hex_DecodeString s with
  | None => Fail (EMsg "invalid pubkey hex")
  | Some b =>
      if bool_decide (String.length b ≠ PublicKeySize) then Fail (EMsg "pubkey must be 32 bytes")
      else Ret b
  end.

Definition PrivKeyFromHex (s : string) : outcome string :=
  match hex_DecodeString s with
  | None => Fail (EMsg "invalid privkey hex")
  | Some b =>
      if bool_decide (String.length b ≠ PrivateKeySize) then Fail (EMsg "privkey must be 64 bytes")
      else Ret b
  end.

(** [ed25519.Sign] panics on a private key of the wrong length. *)
Definition Sign (priv data : string) : outcome string :=
  if bool_decide (String.length priv ≠ PrivateKeySize) then Panic "ed25519: bad private key length"
  else Ret (hex_EncodeToString (ed25519_Sign priv data)).

(** [ed25519.Verify] panics on a public key of the wrong length and rejects a
    signature of the wrong length. *)
Definition Verify (pub data sigHex : string) : outcome unit :=
  match hex_DecodeString sigHex with
  | None => Fail (EMsg "invalid signature hex")
  | Some sig =>
      if bool_decide (String.length pub ≠ PublicKeySize)
      then Panic "ed25519: bad public key length"
      else if bool_decide (String.length sig = SignatureSize) && ed25519_Verify pub data sig
      then Ret tt
      else Fail (EMsg "signature verification failed")
  end.
End Crypto.

(** ** Lemmas *)

Lemma from_hex_digit z : 0 ≤ z < 16 → from_hex_char (hex_digit z) = Some z.
Proof.
  intros Hz. unfold from_hex_char, hex_digit. rewrite byte_val_of.
  destruct (decide (z < 10));
    [rewrite (bool_decide_eq_true_2 (z < 10)) by done
    |rewrite (bool_decide_eq_false_2 (z < 10)) by done];
    rewrite Z.mod_small by lia; repeat case_bool_decide;
    first [f_equal; lia | exfalso; lia].
Qed.

Lemma hex_decode_encode s : hex_DecodeString (hex_EncodeToString s) = Some s.
Proof.
  induction s as [|c s IH]; [done|]. simpl.
  pose proof (byte_val_range c).
  pose proof (Z.mod_pos_bound (byte_val c) 16 eq_refl).
  assert (0 ≤ byte_val c / 16 < 16) by (Z.div_mod_to_equations; lia).
  rewrite !from_hex_digit by lia. simpl. rewrite IH. simpl. do 2 f_equal.
  rewrite <- (byte_of_val c) at 3. f_equal. Z.div_mod_to_equations; lia.
Qed.

Lemma hex_encode_length s :
  String.length (hex_EncodeToString s) = (2 * String.length s)%nat.
Proof. induction s as [|c s IH]; [done|]. simpl. rewrite IH. lia. Qed.

Lemma hex_decode_length s r :
  hex_DecodeString s = Some r → String.length s = (2 * String.length r)%nat.
Proof.
  revert s. induction r as [|c r IH]; intros [|a [|b s]]; simpl; try done.
  - destruct (from_hex_char a), (from_hex_char b), (hex_DecodeString s); done.
  - destruct (from_hex_char a), (from_hex_char b); [|done..]. simpl.
    destruct (hex_DecodeString s) eqn:E; [|done]. intros [= _ ->].
    rewrite (IH s E). lia.
Qed.

Lemma hex_encode_inj s1 s2 : hex_EncodeToString s1 = hex_EncodeToString s2 → s1 = s2.
Proof.
  intros H. apply (f_equal hex_DecodeString) in H.
  rewrite !hex_decode_encode in H. congruence.
Qed.

Section CryptoFacts.
Context `{C : Crypto}.

Lemma PubKeyFromHex_Ret_inv s pub :
  PubKeyFromHex s = Ret pub → hex_DecodeString s = Some pub ∧ String.length pub = PublicKeySize.
Proof.
  unfold PubKeyFromHex. destruct (hex_DecodeString s) as [b|]; [|done].
  case_bool_decide as Hb; [done|]. intros [= <-]. split; [done|]. lia.
Qed.

Lemma PubKeyFromHex_nonempty s pub : PubKeyFromHex s = Ret pub → s ≠ "".
Proof. intros [H Hl]%PubKeyFromHex_Ret_inv ->. simpl in H. by simplify_eq. Qed.

Lemma PubKeyFromHex_Hex pub :
  String.length pub = PublicKeySize → PubKeyFromHex (PublicKey_Hex pub) = Ret pub.
Proof.
  intros Hl. unfold PubKeyFromHex, PublicKey_Hex. rewrite hex_decode_encode.
  by rewrite bool_decide_eq_false_2 by (by intros []).
Qed.

Context `{!CryptoLaws}.

Lemma keypair_length priv : is_keypair priv → String.length priv = PrivateKeySize.
Proof.
  intros (seed & Hl & ->). rewrite slength_app, Hl, ed25519_pub_length by done. done.
Qed.

Lemma keypair_Public priv :
  is_keypair priv →
  ∃ seed, String.length seed = 32%nat ∧ priv = seed +:+ ed25519_pub_of_seed seed ∧
    Public priv = Ret (ed25519_pub_of_seed seed).
Proof.
  intros Hk. pose proof (keypair_length _ Hk) as Hlen. destruct Hk as (seed & Hl & ->).
  exists seed. split; [done|]. split; [done|]. unfold Public.
  rewrite bool_decide_eq_false_2 by (rewrite Hlen; unfold PrivateKeySize; lia).
  f_equal. pose proof (ed25519_pub_length seed Hl) as Hp.
  rewrite <- Hl at 2. rewrite string_drop_app.
  unfold PublicKeySize in Hp. rewrite <- Hp at 1. by rewrite string_take_app.
Qed.

Lemma Sign_Verify priv pub m :
  is_keypair priv → Public priv = Ret pub →
  ∃ sig, Sign priv m = Ret sig ∧ Verify pub m sig = Ret tt.
Proof.
  intros Hk HP. destruct (keypair_Public _ Hk) as (seed & Hl & -> & HP').
  rewrite HP in HP'. injection HP' as ->. pose proof (keypair_length _ Hk) as Hlen.
  unfold Sign. rewrite bool_decide_eq_false_2 by (by intros []).
  eexists. split; [done|]. unfold Verify. rewrite hex_decode_encode.
  rewrite bool_decide_eq_false_2 by (rewrite ed25519_pub_length by done; by intros []).
  rewrite bool_decide_eq_true_2 by (by apply ed25519_sign_length).
  by rewrite ed25519_sign_verify.
Qed.

Lemma Hash_length m : String.length (Hash m) = 64%nat.
Proof. unfold Hash. by rewrite hex_encode_length, sha256_length. Qed.

Lemma Hash_eq_inv m1 m2 : Hash m1 = Hash m2 → sha256_Sum256 m1 = sha256_Sum256 m2.
Proof. apply hex_encode_inj. Qed.
End CryptoFacts.

(** Two different inputs with the same digest. *)
Definition sha256_collision `{Crypto} (m1 m2 : string) : Prop :=
  m1 ≠ m2 ∧ sha256_Sum256 m1 = sha256_Sum256 m2.

(** A collision among given messages: those the program hashed in the run a
    statement is about. *)
Definition collision_in `{Crypto} (ms : list string) : Prop :=
  ∃ m1 m2, m1 ∈ ms ∧ m2 ∈ ms ∧ sha256_collision m1 m2.

Lemma collision_in_mono `{Crypto} ms1 ms2 : ms1 ⊆ ms2 → collision_in ms1 → collision_in ms2.
Proof. intros Hs (m1 & m2 & H1 & H2 & Hc). exists m1, m2. split_and!; [by apply Hs..|done]. Qed.

(** Equal digests of two messages: equal messages, or a collision of the two. *)
Lemma Hash_inj_or `{Crypto} m1 m2 : Hash m1 = Hash m2 → m1 = m2 ∨ collision_in [m1; m2].
Proof.
  intros E%Hash_eq_inv. destruct (decide (m1 = m2)) as [|Hne]; [by left|right].
  exists m1, m2. rewrite !elem_of_cons. split_and!; [by left|by right; left|done..].
Qed.
