(* ===== verification/Json.v ===== *)
(** * The part of encoding/json the program uses

    Every persistent object, network message and transaction payload of the
    program goes through [json.Marshal] and [json.Unmarshal].  A JSON document
    is parsed into a tree [jv] that keeps number literals and string contents
    as they are written; [parse] is the scanner's grammar, [print] the compact
    form [json.Marshal] writes, [quote] and [unquote] the conversion between a
    Go string and the text between the quotes.  The typed decoders fill a
    value in place ([json.Unmarshal] into a variable): an absent key and a
    [null] leave a field as it was, a repeated key overwrites, an unknown key
    is skipped, a key matches a field name exactly or up to letter case.

    Not modelled: the nesting limit of 10000, the text of the errors, and the
    whitespace inside a [json.RawMessage], which no consumer observes
    ([raw_text_parse]).  A nil slice and an empty slice are the same list. *)
From Stdlib Require Import Ascii Lia ZArith DecimalString.
From stdpp Require Import base gmap strings list sorting.
From S2P Require Import Prelude Crypto.

Inductive jv : Type :=
| VNull
| VBool (b : bool)
| VNum (lit : string)
| VStr (raw : string)
| VArr (vs : list jv)
| VObj (ms : list (string * jv)).

Definition c_quote : ascii := "034".
Definition c_back : ascii := "092".

(** ** UTF-8 *)

Definition is_cont (c : ascii) : bool := bool_decide (128 ≤ byte_val c ≤ 191).

(** The second byte of a three- or four-byte sequence: overlong forms, UTF-16
    surrogates and values above U+10FFFF are excluded. *)
Definition second_ok (x : Z) (c : ascii) : bool :=
  let y := byte_val c in
  let lo := if bool_decide (x = 224) then 160 else if bool_decide (x = 240) then 144 else 128 in
  let hi := if bool_decide (x = 237) then 159 else if bool_decide (x = 244) then 143 else 191 in
  bool_decide (lo ≤ y ≤ hi).

(** The number of bytes of the well-formed sequence [s] starts with; 0 when
    [utf8.DecodeRune] reports an error. *)
Definition utf8_width (s : string) : nat :=
  match s with
  | EmptyString => 0%nat
  | String a r =>
      let x := byte_val a in
      if bool_decide (x < 128) then 1%nat
      else match r with
      | EmptyString => 0%nat
      | String b r2 =>
          if bool_decide (194 ≤ x ≤ 223) then (if is_cont b then 2%nat else 0%nat)
          else match r2 with
          | EmptyString => 0%nat
          | String c r3 =>
              if bool_decide (224 ≤ x ≤ 239) then
                (if second_ok x b && is_cont c then 3%nat else 0%nat)
              else match r3 with
              | EmptyString => 0%nat
              | String d _ =>
                  if bool_decide (240 ≤ x ≤ 244) && second_ok x b && is_cont c && is_cont d
                  then 4%nat else 0%nat
              end
          end
      end
  end.

Fixpoint valid_utf8 (s : string) : bool :=
  match s with
  | EmptyString => true
  | String a r =>
      match utf8_width s with
      | 1%nat => valid_utf8 r
      | 2%nat => match r with String _ r2 => valid_utf8 r2 | _ => false end
      | 3%nat => match r with String _ (String _ r3) => valid_utf8 r3 | _ => false end
      | 4%nat => match r with String _ (String _ (String _ r4)) => valid_utf8 r4 | _ => false end
      | _ => false
      end
  end.

Definition rune_error : string :=
  String (byte_of 239) (String (byte_of 191) (String (byte_of 189) "")).

(** [utf8.EncodeRune] on a scalar value. *)
Definition encode_rune (r : Z) : string :=
  if bool_decide (r < 128) then String (byte_of r) ""
  else if bool_decide (r < 2048) then
    String (byte_of (192 + r / 64)) (String (byte_of (128 + r mod 64)) "")
  else if bool_decide (r < 65536) then
    String (byte_of (224 + r / 4096))
      (String (byte_of (128 + (r / 64) mod 64)) (String (byte_of (128 + r mod 64)) ""))
  else
    String (byte_of (240 + r / 262144))
      (String (byte_of (128 + (r / 4096) mod 64))
         (String (byte_of (128 + (r / 64) mod 64)) (String (byte_of (128 + r mod 64)) ""))).

(** ** Strings between quotes *)

(** One ASCII byte as [json.Marshal] writes it, HTML characters escaped. *)
Definition esc_ascii (c : ascii) : string :=
  let x := byte_val c in
  if bool_decide (x = 34 ∨ x = 92) then String c_back (String c "")
  else if bool_decide (x = 8) then String c_back "b"
  else if bool_decide (x = 12) then String c_back "f"
  else if bool_decide (x = 10) then String c_back "n"
  else if bool_decide (x = 13) then String c_back "r"
  else if bool_decide (x = 9) then String c_back "t"
  else if bool_decide (x < 32 ∨ x = 60 ∨ x = 62 ∨ x = 38) then
    String c_back (String "u" (String "0" (String "0"
      (String (hex_digit (x / 16)) (String (hex_digit (x mod 16)) "")))))
  else String c "".

(** U+2028 and U+2029, the two other characters that are escaped. *)
Definition esc_three (a b c : ascii) : string :=
  if bool_decide (byte_val a = 226 ∧ byte_val b = 128 ∧ (byte_val c = 168 ∨ byte_val c = 169))
  then String c_back (String "u" (String "2" (String "0" (String "2"
         (String (hex_digit (byte_val c mod 16)) "")))))
  else String a (String b (String c "")).

Definition esc_error : string := String c_back "ufffd".

Fixpoint quote (s : string) : string :=
  match s with
  | EmptyString => EmptyString
  | String a r =>
      match utf8_width s with
      | 1%nat => esc_ascii a +:+ quote r
      | 2%nat => match r with
                 | String b r2 => String a (String b (quote r2))
                 | _ => EmptyString end
      | 3%nat => match r with
                 | String b (String c r3) => esc_three a b c +:+ quote r3
                 | _ => EmptyString end
      | 4%nat => match r with
                 | String b (String c (String d r4)) =>
                     String a (String b (String c (String d (quote r4))))
                 | _ => EmptyString end
      | _ => esc_error +:+ quote r
      end
  end.

Definition hex4 (a b c d : ascii) : option Z :=
  x ← from_hex_char a; y ← from_hex_char b; z ← from_hex_char c; w ← from_hex_char d;
  Some (x * 4096 + y * 256 + z * 16 + w).

Definition is_surrogate (r : Z) : bool := bool_decide (55296 ≤ r < 57344).

(** [utf16.DecodeRune]: [None] stands for the replacement character. *)
Definition utf16_pair (r1 r2 : Z) : option Z :=
  if bool_decide (55296 ≤ r1 < 56320 ∧ 56320 ≤ r2 < 57344)
  then Some ((r1 - 55296) * 1024 + (r2 - 56320) + 65536) else None.

(** The low half of a surrogate pair at the front of [s]. *)
Definition low_surrogate (r1 : Z) (s : string) : option Z :=
  match s with
  | String p (String q (String a (String b (String c (String d _))))) =>
      if bool_decide (p = c_back ∧ q = "u"%char)
      then r2 ← hex4 a b c d; utf16_pair r1 r2 else None
  | _ => None
  end.

Definition simple_unescape (e : ascii) : option ascii :=
  if bool_decide (e = c_quote ∨ e = c_back ∨ e = "/"%char) then Some e
  else if bool_decide (e = "b"%char) then Some (byte_of 8)
  else if bool_decide (e = "f"%char) then Some (byte_of 12)
  else if bool_decide (e = "n"%char) then Some (byte_of 10)
  else if bool_decide (e = "r"%char) then Some (byte_of 13)
  else if bool_decide (e = "t"%char) then Some (byte_of 9)
  else None.

(** The Go string a string literal denotes; used on text [scan_string]
    accepted. *)
Fixpoint unquote (s : string) : string :=
  match s with
  | EmptyString => EmptyString
  | String p r =>
      if bool_decide (p = c_back) then
        match r with
        | EmptyString => EmptyString
        | String e r1 =>
            match simple_unescape e with
            | Some c => String c (unquote r1)
            | None =>
                match r1 with
                | String a (String b (String c (String d r2))) =>
                    let rr := default 0 (hex4 a b c d) in
                    if is_surrogate rr then
                      match low_surrogate rr r2 with
                      | Some rune =>
                          match r2 with
                          | String _ (String _ (String _ (String _ (String _ (String _ r3))))) =>
                              encode_rune rune +:+ unquote r3
                          | _ => EmptyString
                          end
                      | None => rune_error +:+ unquote r2
                      end
                    else encode_rune rr +:+ unquote r2
                | _ => EmptyString
                end
            end
        end
      else
        match utf8_width s with
        | 1%nat => String p (unquote r)
        | 2%nat => match r with
                   | String b r2 => String p (String b (unquote r2))
                   | _ => EmptyString end
        | 3%nat => match r with
                   | String b (String c r3) => String p (String b (String c (unquote r3)))
                   | _ => EmptyString end
        | 4%nat => match r with
                   | String b (String c (String d r4)) =>
                       String p (String b (String c (String d (unquote r4))))
                   | _ => EmptyString end
        | _ => rune_error +:+ unquote r
        end
  end.

(** The text of a string literal up to its closing quote, and what follows. *)
Fixpoint scan_string (s : string) : option (string * string) :=
  match s with
  | EmptyString => None
  | String p r =>
      if bool_decide (p = c_quote) then Some (EmptyString, r)
      else if bool_decide (p = c_back) then
        match r with
        | EmptyString => None
        | String e r1 =>
            match simple_unescape e with
            | Some _ => '(t, rest) ← scan_string r1; Some (String p (String e t), rest)
            | None =>
                if bool_decide (e = "u"%char) then
                  match r1 with
                  | String a (String b (String c (String d r2))) =>
                      _ ← hex4 a b c d;
                      '(t, rest) ← scan_string r2;
                      Some (String p (String e (String a (String b (String c (String d t))))), rest)
                  | _ => None
                  end
                else None
            end
        end
      else if bool_decide (byte_val p < 32) then None
      else '(t, rest) ← scan_string r; Some (String p t, rest)
  end.

(** ** Number literals *)

Definition is_digit (c : ascii) : bool := bool_decide (48 ≤ byte_val c ≤ 57).

Fixpoint skip_digits (s : string) : string :=
  match s with
  | String c r => if is_digit c then skip_digits r else s
  | EmptyString => s
  end.

Definition valid_exp (s : string) : bool :=
  match s with
  | EmptyString => true
  | String e r =>
      if bool_decide (e = "e"%char ∨ e = "E"%char) then
        let r' := match r with
                  | String g r1 =>
                      if bool_decide (g = "+"%char ∨ g = "-"%char) then r1 else r
                  | EmptyString => r
                  end in
        match r' with
        | String d r2 => is_digit d && bool_decide (skip_digits r2 = "")
        | EmptyString => false
        end
      else false
  end.

Definition valid_frac (s : string) : bool :=
  match s with
  | String p (String d r) =>
      if bool_decide (p = "."%char) then is_digit d && valid_exp (skip_digits r)
      else valid_exp s
  | _ => valid_exp s
  end.

(** An optional minus; a zero, or digits not starting with zero; optionally a
    point and digits; optionally an exponent. *)
Definition valid_number (s : string) : bool :=
  let s' := match s with
            | String m r => if bool_decide (m = "-"%char) then r else s
            | EmptyString => s
            end in
  match s' with
  | String d r =>
      if bool_decide (d = "0"%char) then valid_frac r
      else is_digit d && valid_frac (skip_digits r)
  | EmptyString => false
  end.

Definition is_num_char (c : ascii) : bool :=
  is_digit c || bool_decide (c ∈ ["+"; "-"; "."; "e"; "E"]%char).

Fixpoint span_num (s : string) : string * string :=
  match s with
  | EmptyString => (EmptyString, EmptyString)
  | String c r =>
      if is_num_char c then let '(l, rest) := span_num r in (String c l, rest)
      else (EmptyString, s)
  end.

(** ** Printing and parsing *)

Definition quoted (raw : string) : string := String c_quote (raw +:+ String c_quote "").

Fixpoint join (l : list string) : string :=
  match l with
  | [] => ""
  | [x] => x
  | x :: l' => x +:+ String "," (join l')
  end.

Fixpoint print (v : jv) : string :=
  match v with
  | VNull => "null"
  | VBool true => "true"
  | VBool false => "false"
  | VNum lit => lit
  | VStr raw => quoted raw
  | VArr vs => String "[" (join (map print vs) +:+ "]")
  | VObj ms => String "{" (join (map (λ '(k, x), quoted k +:+ String ":" (print x)) ms) +:+ "}")
  end.

(** The layout of [json.MarshalIndent], written inside a line
    indented by [pre]: an element or member per line, two more spaces for each
    level; empty arrays and objects stay on one line. *)
Definition c_newline : string := String (byte_of 10) "".

Fixpoint print_indent (pre : string) (v : jv) : string :=
  match v with
  | VArr [] | VObj [] => print v
  | VArr vs =>
      String "[" (join (map (λ x, (c_newline +:+ pre +:+ "  ") +:+ print_indent (pre +:+ "  ") x) vs)
        +:+ (c_newline +:+ pre) +:+ "]")
  | VObj ms =>
      String "{" (join (map (λ '(k, x), (c_newline +:+ pre +:+ "  ") +:+ quoted k +:+
                               String ":" (" " +:+ print_indent (pre +:+ "  ") x)) ms)
        +:+ (c_newline +:+ pre) +:+ "}")
  | _ => print v
  end.

Definition is_ws (c : ascii) : bool :=
  bool_decide (byte_val c ∈ [32; 9; 10; 13]).

Fixpoint skip_ws (s : string) : string :=
  match s with
  | String c r => if is_ws c then skip_ws r else s
  | EmptyString => s
  end.

(** Recursive descent; each call consumes one unit of [n], and the length of
    the text bounds the calls a successful parse makes. *)
Fixpoint parse_value (n : nat) (s : string) {struct n} : option (jv * string) :=
  match n with
  | O => None
  | S n =>
      match skip_ws s with
      | EmptyString => None
      | String c r =>
          if bool_decide (c = "{"%char) then
            match skip_ws r with
            | String d r1 =>
                if bool_decide (d = "}"%char) then Some (VObj [], r1)
                else '(ms, rest) ← parse_members n r; Some (VObj ms, rest)
            | EmptyString => None
            end
          else if bool_decide (c = "["%char) then
            match skip_ws r with
            | String d r1 =>
                if bool_decide (d = "]"%char) then Some (VArr [], r1)
                else '(vs, rest) ← parse_elems n r; Some (VArr vs, rest)
            | EmptyString => None
            end
          else if bool_decide (c = c_quote) then
            '(raw, rest) ← scan_string r; Some (VStr raw, rest)
          else
            match strip_prefix "null" (String c r), strip_prefix "true" (String c r),
                  strip_prefix "false" (String c r) with
            | Some rest, _, _ => Some (VNull, rest)
            | _, Some rest, _ => Some (VBool true, rest)
            | _, _, Some rest => Some (VBool false, rest)
            | _, _, _ =>
                let '(lit, rest) := span_num (String c r) in
                if valid_number lit then Some (VNum lit, rest) else None
            end
      end
  end
with parse_elems (n : nat) (s : string) {struct n} : option (list jv * string) :=
  match n with
  | O => None
  | S n =>
      '(v, r) ← parse_value n s;
      match skip_ws r with
      | String d r1 =>
          if bool_decide (d = ","%char) then
            '(vs, rest) ← parse_elems n r1; Some (v :: vs, rest)
          else if bool_decide (d = "]"%char) then Some ([v], r1)
          else None
      | EmptyString => None
      end
  end
with parse_members (n : nat) (s : string) {struct n} : option (list (string * jv) * string) :=
  match n with
  | O => None
  | S n =>
      match skip_ws s with
      | String q r =>
          if bool_decide (q = c_quote) then
            '(k, r1) ← scan_string r;
            match skip_ws r1 with
            | String d r2 =>
                if bool_decide (d = ":"%char) then
                  '(v, r3) ← parse_value n r2;
                  match skip_ws r3 with
                  | String e r4 =>
                      if bool_decide (e = ","%char) then
                        '(ms, rest) ← parse_members n r4; Some ((k, v) :: ms, rest)
                      else if bool_decide (e = "}"%char) then Some ([(k, v)], r4)
                      else None
                  | EmptyString => None
                  end
                else None
            | EmptyString => None
            end
          else None
      | EmptyString => None
      end
  end.

(** A whole document: one value, nothing after it but whitespace. *)
Definition parse (s : string) : option jv :=
  '(v, rest) ← parse_value (S (2 * String.length s)) s;
  if bool_decide (skip_ws rest = "") then Some v else None.

(** ** Typed values *)

Definition dec_of_Z (z : Z) : string := NilZero.string_of_int (Z.to_int z).

(** [strconv.ParseUint(lit, 10, 64)] and [strconv.ParseInt(lit, 10, 64)] *)
Definition ParseUint (lit : string) : option Z :=
  u ← NilZero.uint_of_string lit;
  let z := Z.of_uint u in
  if bool_decide (is_u64 z) then Some z else None.
Definition ParseInt (lit : string) : option Z :=
  i ← NilZero.int_of_string lit;
  let z := Z.of_int i in
  if bool_decide (is_i64 z) then Some z else None.

Definition enc_string (s : string) : jv := VStr (quote s).
Definition enc_int (z : Z) : jv := VNum (dec_of_Z z).
Definition enc_bool (b : bool) : jv := VBool b.

Definition dec_string (old : string) (v : jv) : option string :=
  match v with VNull => Some old | VStr raw => Some (unquote raw) | _ => None end.
Definition dec_u64 (old : Z) (v : jv) : option Z :=
  match v with VNull => Some old | VNum lit => ParseUint lit | _ => None end.
Definition dec_i64 (old : Z) (v : jv) : option Z :=
  match v with VNull => Some old | VNum lit => ParseInt lit | _ => None end.
Definition dec_bool (old : bool) (v : jv) : option bool :=
  match v with VNull => Some old | VBool b => Some b | _ => None end.

(** [[]T], each element decoded into a zero value.  A key that occurs twice in an
    object makes Go decode its second array into the elements of the first, so
    that a [null] there keeps the former element; here it yields the zero value. *)
Definition dec_slice {A} (zero : A) (dec : A → jv → option A) (v : jv) : option (list A) :=
  match v with VNull => Some [] | VArr vs => mapM (dec zero) vs | _ => None end.
Definition enc_slice {A} (enc : A → jv) (l : list A) : jv := VArr (map enc l).

(** The entries of a Go map in the order [json.Marshal] writes them and
    [StateDB.ComputeRoot] hashes them: by key. *)
Definition sorted_entries {A} (m : gmap string A) : list (string * A) :=
  omap (λ k, pair k <$> m !! k) (merge_sort String.le (map_to_list m).*1).

(** [map[string]uint64]; [None] is the nil map. *)
Definition enc_map_u64 (m : option (gmap string Z)) : jv :=
  match m with
  | None => VNull
  | Some m => VObj (map (λ '(k, z), (quote k, enc_int z)) (sorted_entries m))
  end.
Definition dec_map_u64 (old : option (gmap string Z)) (v : jv) : option (option (gmap string Z)) :=
  match v with
  | VNull => Some None
  | VObj ms =>
      Some <$> foldl (λ acc '(k, x), m ← acc; z ← dec_u64 0 x; Some (<[unquote k := z]> m))
                 (Some (default ∅ old)) ms
  | _ => None
  end.

(** Values of type [any], as [json.Unmarshal] builds them.  A number is a
    [float64]; it is represented by the literal [json.Marshal] writes for it. *)
Inductive anyv : Type :=
| ANil
| ABool (b : bool)
| ANum (lit : string)
| AStr (s : string)
| AArr (l : list anyv)
| AObj (l : list (string * anyv)).

(** [strconv.ParseFloat] followed by the shortest formatting of the result;
    [None] when the literal is out of range. *)
Class FloatFmt := float_norm : string → option string.
Class FloatLaws `{F : FloatFmt} : Prop := {
  float_norm_idem l l' : float_norm l = Some l' → float_norm l' = Some l';
  float_norm_valid l l' : float_norm l = Some l' → valid_number l' = true
}.

(** Insertion into a map kept as a list sorted by key. *)
Fixpoint kv_insert {A} (k : string) (x : A) (l : list (string * A)) : list (string * A) :=
  match l with
  | [] => [(k, x)]
  | (k', x') :: l' =>
      if bool_decide (k = k') then (k, x) :: l'
      else if String.leb k k' then (k, x) :: l
      else (k', x') :: kv_insert k x l'
  end.

Section Members.
Context {A : Type} (f : jv → option A).

(** The elements of an array, decoded in order. *)
Definition decode_elems := fix go (vs : list jv) : option (list A) :=
  match vs with
  | [] => Some []
  | x :: vs' => a ← f x; l ← go vs'; Some (a :: l)
  end.

(** The members of an object, stored into a map in order. *)
Definition decode_members := fix go (acc : list (string * A)) (ms : list (string * jv))
    : option (list (string * A)) :=
  match ms with
  | [] => Some acc
  | (k, x) :: ms' => a ← f x; go (kv_insert (unquote k) a acc) ms'
  end.
End Members.

Section Any.
Context `{F : FloatFmt}.

Fixpoint any_of (v : jv) : option anyv :=
  match v with
  | VNull => Some ANil
  | VBool b => Some (ABool b)
  | VNum lit => ANum <$> float_norm lit
  | VStr raw => Some (AStr (unquote raw))
  | VArr vs => AArr <$> decode_elems any_of vs
  | VObj ms => AObj <$> decode_members any_of [] ms
  end.

(** [map[string]any], kept sorted by key; [None] is the nil map. *)
Definition dec_map_any (old : option (list (string * anyv))) (v : jv)
    : option (option (list (string * anyv))) :=
  match v with
  | VNull => Some None
  | VObj ms => Some <$> decode_members any_of (default [] old) ms
  | _ => None
  end.
End Any.

Fixpoint jv_of_any (a : anyv) : jv :=
  match a with
  | ANil => VNull
  | ABool b => VBool b
  | ANum lit => VNum lit
  | AStr s => enc_string s
  | AArr l => VArr (map jv_of_any l)
  | AObj l => VObj (map (λ '(k, x), (quote k, jv_of_any x)) l)
  end.
Definition enc_map_any (m : option (list (string * anyv))) : jv :=
  match m with
  | None => VNull
  | Some l => VObj (map (λ '(k, x), (quote k, jv_of_any x)) l)
  end.

(** ** Structs *)

(** Letter case is folded as [strings.EqualFold] does on names of ASCII
    letters: U+017F folds to S and U+212A to K. *)
Fixpoint fold_name (s : string) : string :=
  match s with
  | EmptyString => EmptyString
  | String a r =>
      let x := byte_val a in
      match r with
      | String b r2 =>
          if bool_decide (x = 197 ∧ byte_val b = 191) then String "S" (fold_name r2)
          else match r2 with
          | String c r3 =>
              if bool_decide (x = 226 ∧ byte_val b = 132 ∧ byte_val c = 170)
              then String "K" (fold_name r3)
              else String (if bool_decide (97 ≤ x ≤ 122) then byte_of (x - 32) else a) (fold_name r)
          | EmptyString =>
              String (if bool_decide (97 ≤ x ≤ 122) then byte_of (x - 32) else a) (fold_name r)
          end
      | EmptyString =>
          String (if bool_decide (97 ≤ x ≤ 122) then byte_of (x - 32) else a) EmptyString
      end
  end.

(** A field of a struct: its JSON name, and how a value is stored into it. *)
Abbreviation field A := (string * (A → jv → option A))%type.

(** The field a key of the document denotes: the one of that very name, else
    the first whose name differs only in letter case. *)
Definition resolve {A} (fields : list (field A)) (key : string) : option (A → jv → option A) :=
  match list_find (λ f, f.1 = key) fields with
  | Some (_, f) => Some f.2
  | None => (λ p, p.2.2) <$> list_find (λ f, fold_name f.1 = fold_name key) fields
  end.

Definition dec_members {A} (fields : list (field A)) (old : A) (ms : list (string * jv))
    : option A :=
  foldl (λ acc '(k, x), a ← acc;
           match resolve fields (unquote k) with
           | Some store => store a x
           | None => Some a
           end) (Some old) ms.

Definition dec_struct {A} (fields : list (field A)) (old : A) (v : jv) : option A :=
  match v with
  | VNull => Some old
  | VObj ms => dec_members fields old ms
  | _ => None
  end.

(** [json.Unmarshal(data, &x)] with [x] holding [zero]. *)
Definition Unmarshal {A} (dec : A → jv → option A) (zero : A) (data : string) : option A :=
  v ← parse data; dec zero v.

(** ** json.RawMessage *)

(** HTML characters inside the string literals of a raw message, which
    [json.Marshal] escapes when it compacts the message. *)
Fixpoint esc_html (s : string) : string :=
  match s with
  | EmptyString => EmptyString
  | String a r =>
      let x := byte_val a in
      if bool_decide (x = 60 ∨ x = 62 ∨ x = 38) then esc_ascii a +:+ esc_html r
      else match r with
      | String b (String c r3) =>
          if bool_decide (x = 226 ∧ byte_val b = 128 ∧ (byte_val c = 168 ∨ byte_val c = 169))
          then esc_three a b c +:+ esc_html r3
          else String a (esc_html r)
      | _ => String a (esc_html r)
      end
  end.

Fixpoint esc_jv (v : jv) : jv :=
  match v with
  | VStr raw => VStr (esc_html raw)
  | VArr vs => VArr (map esc_jv vs)
  | VObj ms => VObj (map (λ '(k, x), (esc_html k, esc_jv x)) ms)
  | _ => v
  end.

(** The tree a raw message is written as; the nil message is [null], and text
    that is not JSON is an error. *)
Definition enc_raw (raw : string) : option jv :=
  if bool_decide (raw = "") then Some VNull else esc_jv <$> parse raw.
(** The text a raw message receives. *)
Definition dec_raw (old : string) (v : jv) : option string := Some (print v).
