(* ===== verification/JsonFacts.v ===== *)
(** * Round trips of the JSON model

    [unquote] inverts [quote] on well-formed UTF-8, and its results are always
    well-formed; [parse] inverts [print] on trees whose literals are
    well-formed, and only such trees come out of [parse].  The typed values of
    the program therefore survive [json.Marshal] followed by
    [json.Unmarshal]. *)
From Stdlib Require Import Ascii Lia ZArith DecimalString DecimalZ.
From stdpp Require Import base gmap strings list sorting.
From S2P Require Import Prelude Crypto Json.

(** ** Strong induction on strings *)

Lemma string_len_ind (P : string → Prop) :
  (∀ s, (∀ r, (String.length r < String.length s)%nat → P r) → P s) → ∀ s, P s.
Proof.
  intros H s. remember (String.length s) as n eqn:Hn. revert s Hn.
  induction n as [n IH] using lt_wf_ind. intros s ->. apply H. intros r Hr. by apply (IH _ Hr).
Qed.

Tactic Notation "string_induction" ident(s) "as" ident(IH) :=
  induction s as [s IH] using string_len_ind.

(** Closes a goal about one byte by going through its 256 values. *)
Ltac each_byte a :=
  destruct a as [[] [] [] [] [] [] [] []].

(** ** UTF-8 *)

Lemma utf8_width_2 a b r r' :
  utf8_width (String a (String b r)) = 2%nat → utf8_width (String a (String b r')) = 2%nat.
Proof.
  unfold utf8_width. repeat case_bool_decide; destruct (is_cont b); try done.
  all: destruct r, r'; try done; repeat case_match; done.
Qed.

Lemma utf8_width_3 a b c r r' :
  utf8_width (String a (String b (String c r))) = 3%nat →
  utf8_width (String a (String b (String c r'))) = 3%nat.
Proof.
  unfold utf8_width. repeat case_bool_decide; try done.
  all: destruct (is_cont b), (second_ok (byte_val a) b), (is_cont c); try done.
  all: destruct r, r'; try done; repeat case_match; done.
Qed.

Lemma utf8_width_4 a b c d r r' :
  utf8_width (String a (String b (String c (String d r)))) = 4%nat →
  utf8_width (String a (String b (String c (String d r')))) = 4%nat.
Proof. done. Qed.

Lemma utf8_width_1 a r : utf8_width (String a r) = 1%nat ↔ byte_val a < 128.
Proof.
  unfold utf8_width. case_bool_decide; [done|]. split; [|lia].
  repeat case_match; done.
Qed.

(** The first byte of a longer sequence is no ASCII byte. *)
Lemma utf8_width_high a r : utf8_width (String a r) ≠ 1%nat → 128 ≤ byte_val a.
Proof. rewrite utf8_width_1. lia. Qed.

Lemma high_not_back a : 128 ≤ byte_val a → a ≠ c_back.
Proof. intros H ->. vm_compute in H. by destruct H. Qed.

Lemma utf8_width_shape s :
  match utf8_width s with
  | 1%nat => ∃ a r, s = String a r
  | 2%nat => ∃ a b r, s = String a (String b r)
  | 3%nat => ∃ a b c r, s = String a (String b (String c r))
  | 4%nat => ∃ a b c d r, s = String a (String b (String c (String d r)))
  | _ => True
  end.
Proof.
  destruct s as [|a [|b [|c [|d r]]]]; unfold utf8_width;
    repeat case_bool_decide; repeat case_match; eauto 10; done.
Qed.

(** ** quote and unquote *)

Lemma unquote_esc_ascii a q :
  byte_val a < 128 → unquote (esc_ascii a +:+ q) = String a (unquote q).
Proof.
  each_byte a; intros H;
    first [ reflexivity | vm_compute in H; discriminate H ].
Qed.

Lemma unquote_plain_2 a b q :
  utf8_width (String a (String b "")) = 2%nat →
  unquote (String a (String b q)) = String a (String b (unquote q)).
Proof.
  intros H. pose proof (utf8_width_2 _ _ _ q H) as Hq.
  assert (a ≠ c_back) by (eapply high_not_back, utf8_width_high; by rewrite H).
  cbn [unquote]. rewrite bool_decide_eq_false_2 by done. by rewrite Hq.
Qed.

Lemma unquote_plain_3 a b c q :
  utf8_width (String a (String b (String c ""))) = 3%nat →
  unquote (String a (String b (String c q))) = String a (String b (String c (unquote q))).
Proof.
  intros H. pose proof (utf8_width_3 _ _ _ _ q H) as Hq.
  assert (a ≠ c_back) by (eapply high_not_back, utf8_width_high; by rewrite H).
  cbn [unquote]. rewrite bool_decide_eq_false_2 by done. by rewrite Hq.
Qed.

Lemma unquote_plain_4 a b c d q :
  utf8_width (String a (String b (String c (String d "")))) = 4%nat →
  unquote (String a (String b (String c (String d q)))) =
  String a (String b (String c (String d (unquote q)))).
Proof.
  intros H. pose proof (utf8_width_4 _ _ _ _ _ q H) as Hq.
  assert (a ≠ c_back) by (eapply high_not_back, utf8_width_high; by rewrite H).
  cbn [unquote]. rewrite bool_decide_eq_false_2 by done. by rewrite Hq.
Qed.

Lemma byte_val_inj a b : byte_val a = byte_val b → a = b.
Proof. intros H. by rewrite <- (byte_of_val a), H, byte_of_val. Qed.

Lemma unquote_esc_three a b c q :
  utf8_width (String a (String b (String c ""))) = 3%nat →
  unquote (esc_three a b c +:+ q) = String a (String b (String c (unquote q))).
Proof.
  intros H. unfold esc_three. case_bool_decide as Hs.
  - destruct Hs as (Ha & Hb & Hc).
    rewrite <- (byte_of_val a), <- (byte_of_val b), <- (byte_of_val c), Ha, Hb.
    destruct Hc as [-> | ->]; reflexivity.
  - rewrite !sapp_cons, sapp_nil_l. by apply unquote_plain_3.
Qed.

(** Go strings that are well-formed UTF-8 survive the trip through a JSON
    string literal. *)
Lemma unquote_quote s : valid_utf8 s = true → unquote (quote s) = s.
Proof.
  string_induction s as IH. destruct s as [|a r]; [done|].
  pose proof (utf8_width_shape (String a r)) as Hshape.
  cbn [valid_utf8 quote]. destruct (utf8_width (String a r)) as [|[|[|[|[|?]]]]] eqn:E; try done.
  - intros Hv. rewrite unquote_esc_ascii by (by apply utf8_width_1 in E).
    rewrite IH; [done|simpl; lia|done].
  - destruct Hshape as (? & b & r2 & [= <- ->]). intros Hv.
    rewrite unquote_plain_2 by eauto using utf8_width_2. rewrite IH; [done|simpl; lia|done].
  - destruct Hshape as (? & b & c & r3 & [= <- ->]). intros Hv.
    rewrite unquote_esc_three by eauto using utf8_width_3. rewrite IH; [done|simpl; lia|done].
  - destruct Hshape as (? & b & c & d & r4 & [= <- ->]). intros Hv.
    rewrite unquote_plain_4 by eauto using utf8_width_4. rewrite IH; [done|simpl; lia|done].
Qed.

(** *** Results of unquote are well-formed *)

Lemma valid_ascii a q : byte_val a < 128 → valid_utf8 (String a q) = valid_utf8 q.
Proof. intros H%(utf8_width_1 _ q). cbn [valid_utf8]. by rewrite H. Qed.

Lemma valid_2 a b q :
  utf8_width (String a (String b "")) = 2%nat → valid_utf8 (String a (String b q)) = valid_utf8 q.
Proof. intros H%(utf8_width_2 _ _ _ q). cbn [valid_utf8]. by rewrite H. Qed.

Lemma valid_3 a b c q :
  utf8_width (String a (String b (String c ""))) = 3%nat →
  valid_utf8 (String a (String b (String c q))) = valid_utf8 q.
Proof. intros H%(utf8_width_3 _ _ _ _ q). cbn [valid_utf8]. by rewrite H. Qed.

Lemma valid_4 a b c d q :
  utf8_width (String a (String b (String c (String d "")))) = 4%nat →
  valid_utf8 (String a (String b (String c (String d q)))) = valid_utf8 q.
Proof. intros H%(utf8_width_4 _ _ _ _ _ q). cbn [valid_utf8]. by rewrite H. Qed.

Ltac decide_bytes :=
  unfold utf8_width, is_cont, second_ok; rewrite ?byte_val_of;
  repeat (rewrite Z.mod_small by (Z.div_mod_to_equations; lia));
  repeat first
    [ rewrite bool_decide_eq_true_2 by (Z.div_mod_to_equations; lia)
    | rewrite bool_decide_eq_false_2 by (Z.div_mod_to_equations; lia) ];
  try done.

Lemma valid_encode_rune r q :
  0 ≤ r < 1114112 → is_surrogate r = false →
  valid_utf8 (encode_rune r +:+ q) = valid_utf8 q.
Proof.
  unfold is_surrogate. intros Hr Hs%bool_decide_eq_false. unfold encode_rune.
  repeat case_bool_decide; rewrite !sapp_cons, sapp_nil_l.
  - apply valid_ascii. rewrite byte_val_of, Z.mod_small; lia.
  - apply valid_2. decide_bytes.
  - apply valid_3. unfold utf8_width, is_cont, second_ok. rewrite !byte_val_of.
    rewrite !(Z.mod_small _ 256) by (Z.div_mod_to_equations; lia).
    repeat case_bool_decide; try done; Z.div_mod_to_equations; lia.
  - apply valid_4. unfold utf8_width, is_cont, second_ok. rewrite !byte_val_of.
    rewrite !(Z.mod_small _ 256) by (Z.div_mod_to_equations; lia).
    repeat case_bool_decide; try done; Z.div_mod_to_equations; lia.
Qed.

Lemma from_hex_char_range c z : from_hex_char c = Some z → 0 ≤ z < 16.
Proof. unfold from_hex_char. repeat case_bool_decide; intros; simplify_eq; lia. Qed.

Lemma hex4_range a b c d : 0 ≤ default 0 (hex4 a b c d) < 65536.
Proof.
  unfold hex4.
  destruct (from_hex_char a) eqn:Ea; [|done]. destruct (from_hex_char b) eqn:Eb; [|done].
  destruct (from_hex_char c) eqn:Ec; [|done]. destruct (from_hex_char d) eqn:Ed; [|done].
  apply from_hex_char_range in Ea, Eb, Ec, Ed. simpl. lia.
Qed.

Lemma low_surrogate_inv r1 s rune :
  low_surrogate r1 s = Some rune →
  65536 ≤ rune < 1114112 ∧
  ∃ p q a b c d r, s = String p (String q (String a (String b (String c (String d r))))).
Proof.
  destruct s as [|p [|q [|a [|b [|c [|d r]]]]]]; simpl; try done.
  case_bool_decide; [|done]. destruct (hex4 a b c d) as [r2|]; [|done]. simpl.
  unfold utf16_pair. case_bool_decide; [|done]. intros [= <-]. split; [lia|]. eauto 10.
Qed.

Lemma simple_unescape_ascii e c : simple_unescape e = Some c → byte_val c < 128.
Proof.
  unfold simple_unescape. repeat case_bool_decide; intros; simplify_eq; try done.
  by destruct_or!; subst.
Qed.

(** Every string that comes out of a JSON document is well-formed UTF-8. *)
Lemma valid_unquote s : valid_utf8 (unquote s) = true.
Proof.
  string_induction s as IH. destruct s as [|p r]; [done|].
  pose proof (utf8_width_shape (String p r)) as Hshape.
  cbn [unquote]. case_bool_decide as Hp.
  - destruct r as [|e r1]; [done|]. destruct (simple_unescape e) as [c|] eqn:Ee.
    { rewrite valid_ascii by eauto using simple_unescape_ascii. apply IH. simpl; lia. }
    destruct r1 as [|a [|b [|c [|d r2]]]]; try done.
    pose proof (hex4_range a b c d) as Hrange.
    destruct (is_surrogate _) eqn:Esur.
    + destruct (low_surrogate _ _) as [rune|] eqn:El.
      * destruct (low_surrogate_inv _ _ _ El) as (Hrune & p' & q' & a' & b' & c' & d' & r3 & ->).
        rewrite valid_encode_rune; [apply IH; simpl; lia|lia|].
        apply bool_decide_eq_false_2. lia.
      * unfold rune_error. rewrite !sapp_cons, sapp_nil_l, valid_3 by done. apply IH. simpl; lia.
    + rewrite valid_encode_rune; [apply IH; simpl; lia|lia|done].
  - destruct (utf8_width (String p r)) as [|[|[|[|[|?]]]]] eqn:E; try done.
    + unfold rune_error. rewrite !sapp_cons, sapp_nil_l, valid_3 by done. apply IH. simpl; lia.
    + rewrite valid_ascii by (by apply utf8_width_1 in E). apply IH. simpl; lia.
    + destruct Hshape as (? & b & r2 & [= <- ->]).
      rewrite valid_2 by eauto using utf8_width_2. apply IH. simpl; lia.
    + destruct Hshape as (? & b & c & r3 & [= <- ->]).
      rewrite valid_3 by eauto using utf8_width_3. apply IH. simpl; lia.
    + destruct Hshape as (? & b & c & d & r4 & [= <- ->]).
      rewrite valid_4 by eauto using utf8_width_4. apply IH. simpl; lia.
    + unfold rune_error. rewrite !sapp_cons, sapp_nil_l, valid_3 by done. apply IH. simpl; lia.
Qed.

(** ** String literals *)

(** The texts [scan_string] accepts between two quotes. *)
Fixpoint wf_raw (s : string) : bool :=
  match s with
  | EmptyString => true
  | String p r =>
      if bool_decide (p = c_quote) then false
      else if bool_decide (p = c_back) then
        match r with
        | EmptyString => false
        | String e r1 =>
            match simple_unescape e with
            | Some _ => wf_raw r1
            | None =>
                if bool_decide (e = "u"%char) then
                  match r1 with
                  | String a (String b (String c (String d r2))) =>
                      bool_decide (is_Some (hex4 a b c d)) && wf_raw r2
                  | _ => false
                  end
                else false
            end
        end
      else bool_decide (32 ≤ byte_val p) && wf_raw r
  end.

Lemma scan_string_app raw rest :
  wf_raw raw = true → scan_string (raw +:+ String c_quote rest) = Some (raw, rest).
Proof.
  string_induction raw as IH. destruct raw as [|p r].
  { intros _. rewrite sapp_nil_l. cbn [scan_string]. by rewrite bool_decide_eq_true_2. }
  rewrite sapp_cons. cbn [wf_raw scan_string].
  case_bool_decide; [done|]. case_bool_decide as Hb.
  - destruct r as [|e r1]; [done|]. rewrite sapp_cons.
    destruct (simple_unescape e).
    { intros Hr. rewrite (IH r1) by (simpl; lia || done). done. }
    case_bool_decide; [|done].
    destruct r1 as [|a [|b [|c [|d r2]]]]; try done. rewrite !sapp_cons.
    intros [[z ->]%bool_decide_eq_true Hr]%andb_true_iff. simpl.
    rewrite (IH r2) by (simpl; lia || done). done.
  - intros [Hp%bool_decide_eq_true Hr]%andb_true_iff.
    rewrite bool_decide_eq_false_2 by lia.
    rewrite (IH r) by (simpl; lia || done). done.
Qed.

Lemma scan_string_wf s raw rest :
  scan_string s = Some (raw, rest) → wf_raw raw = true.
Proof.
  revert raw rest. string_induction s as IH. intros raw rest. destruct s as [|p r]; [done|].
  cbn [scan_string]. case_bool_decide as Hq; [by intros [= <- <-]|]. case_bool_decide as Hb.
  - destruct r as [|e r1]; [done|]. destruct (simple_unescape e) eqn:Ee.
    { destruct (scan_string r1) as [[t rest']|] eqn:E; [|done]. intros [= <- <-].
      cbn [wf_raw]. rewrite bool_decide_eq_false_2 by done. rewrite bool_decide_eq_true_2 by done.
      rewrite Ee. eapply IH, E. simpl; lia. }
    case_bool_decide as Hu; [|done]. destruct r1 as [|a [|b [|c [|d r2]]]]; try done.
    destruct (hex4 a b c d) eqn:Eh; [|done]. simpl.
    destruct (scan_string r2) as [[t rest']|] eqn:E; [|done]. intros [= <- <-].
    cbn [wf_raw]. rewrite bool_decide_eq_false_2 by done. rewrite bool_decide_eq_true_2 by done.
    rewrite Ee, bool_decide_eq_true_2, Eh, bool_decide_eq_true_2 by done.
    eapply IH, E. simpl; lia.
  - case_bool_decide; [done|]. destruct (scan_string r) as [[t rest']|] eqn:E; [|done].
    intros [= <- <-]. cbn [wf_raw]. rewrite !bool_decide_eq_false_2 by done.
    rewrite bool_decide_eq_true_2 by lia. eapply IH, E. simpl; lia.
Qed.

Lemma wf_raw_esc_ascii a q : byte_val a < 128 → wf_raw (esc_ascii a +:+ q) = wf_raw q.
Proof.
  each_byte a; intros H;
    first [ reflexivity | vm_compute in H; discriminate H ].
Qed.

Lemma wf_raw_high a q : 128 ≤ byte_val a → wf_raw (String a q) = wf_raw q.
Proof.
  intros H. cbn [wf_raw]. rewrite bool_decide_eq_false_2, bool_decide_eq_false_2.
  - by rewrite bool_decide_eq_true_2 by lia.
  - by apply high_not_back.
  - intros ->. vm_compute in H. by destruct H.
Qed.

Lemma is_cont_high b : is_cont b = true → 128 ≤ byte_val b.
Proof. intros H%bool_decide_eq_true. lia. Qed.

Lemma second_ok_high x b : second_ok x b = true → 128 ≤ byte_val b.
Proof. unfold second_ok. repeat case_bool_decide; intros; lia || done. Qed.

Lemma utf8_width_2_high a b r :
  utf8_width (String a (String b r)) = 2%nat → 128 ≤ byte_val a ∧ 128 ≤ byte_val b.
Proof.
  intros H. split; [eapply utf8_width_high; by rewrite H|].
  revert H. unfold utf8_width. repeat case_match; try done. intros _. by apply is_cont_high.
Qed.

Lemma utf8_width_3_high a b c r :
  utf8_width (String a (String b (String c r))) = 3%nat →
  128 ≤ byte_val a ∧ 128 ≤ byte_val b ∧ 128 ≤ byte_val c.
Proof.
  intros H. split; [eapply utf8_width_high; by rewrite H|].
  revert H. unfold utf8_width. repeat case_match; try done. intros _.
  split_andb. split_and?; eauto using is_cont_high, second_ok_high.
Qed.

Lemma utf8_width_4_high a b c d r :
  utf8_width (String a (String b (String c (String d r)))) = 4%nat →
  128 ≤ byte_val a ∧ 128 ≤ byte_val b ∧ 128 ≤ byte_val c ∧ 128 ≤ byte_val d.
Proof.
  intros H. split; [eapply utf8_width_high; by rewrite H|].
  revert H. unfold utf8_width. repeat case_match; try done. intros _.
  split_andb. split_and?; eauto using is_cont_high, second_ok_high.
Qed.

Lemma wf_raw_quote s : wf_raw (quote s) = true.
Proof.
  string_induction s as IH. destruct s as [|a r]; [done|].
  pose proof (utf8_width_shape (String a r)) as Hshape.
  cbn [quote]. destruct (utf8_width (String a r)) as [|[|[|[|[|?]]]]] eqn:E.
  - transitivity (wf_raw (quote r)); [reflexivity|]. apply IH. simpl; lia.
  - rewrite wf_raw_esc_ascii by (by apply utf8_width_1 in E). apply IH. simpl; lia.
  - destruct Hshape as (? & b & r2 & [= <- ->]). apply utf8_width_2_high in E as [??].
    rewrite !wf_raw_high by done. apply IH. simpl; lia.
  - destruct Hshape as (? & b & c & r3 & [= <- ->]). apply utf8_width_3_high in E as (? & ? & ?).
    transitivity (wf_raw (quote r3)); [|apply IH; simpl; lia].
    unfold esc_three. case_bool_decide as Hs.
    + destruct Hs as (_ & _ & [-> | ->]); reflexivity.
    + rewrite !sapp_cons, sapp_nil_l. by rewrite !wf_raw_high.
  - destruct Hshape as (? & b & c & d & r4 & [= <- ->]).
    apply utf8_width_4_high in E as (? & ? & ? & ?).
    rewrite !wf_raw_high by done. apply IH. simpl; lia.
  - transitivity (wf_raw (quote r)); [reflexivity|]. apply IH. simpl; lia.
Qed.

(** ** Number literals *)

Lemma skip_digits_span s f :
  (∀ c, is_digit c = true → f c = true) →
  string_forall f (skip_digits s) = true → string_forall f s = true.
Proof.
  intros Hf. induction s as [|c s IH]; simpl; [done|].
  destruct (is_digit c) eqn:E; simpl; [|done]. intros. by rewrite Hf, IH.
Qed.

Lemma digit_num_char c : is_digit c = true → is_num_char c = true.
Proof. unfold is_num_char. by intros ->. Qed.

Lemma skip_digits_num s :
  string_forall is_num_char (skip_digits s) = true → string_forall is_num_char s = true.
Proof. apply skip_digits_span, digit_num_char. Qed.

Lemma valid_exp_num s : valid_exp s = true → string_forall is_num_char s = true.
Proof.
  destruct s as [|e r]; [done|]. simpl. case_bool_decide as He; [|done].
  assert (is_num_char e = true) as -> by (by destruct He as [-> | ->]).
  assert (∀ d r2, is_digit d && bool_decide (skip_digits r2 = "") = true →
    string_forall is_num_char (String d r2) = true) as Htail.
  { intros d r2 [Hd Hs%bool_decide_eq_true]%andb_true_iff. simpl.
    rewrite digit_num_char by done. apply skip_digits_num. by rewrite Hs. }
  destruct r as [|g r1]; [done|]. case_bool_decide as Hg.
  - destruct r1 as [|d r2]; [done|]. intros H%Htail. simpl in *.
    by destruct Hg as [-> | ->].
  - intros H%Htail. done.
Qed.

Lemma valid_frac_num s : valid_frac s = true → string_forall is_num_char s = true.
Proof.
  destruct s as [|p [|d r]]; [done|by apply valid_exp_num|].
  unfold valid_frac. case_bool_decide as Hp; [|by apply valid_exp_num].
  intros [Hd He%valid_exp_num%skip_digits_num]%andb_true_iff. subst. simpl.
  by rewrite digit_num_char, He.
Qed.

Lemma valid_number_num s : valid_number s = true → string_forall is_num_char s = true.
Proof.
  unfold valid_number. intros H.
  assert (∀ t, match t with
               | EmptyString => false
               | String d r => if bool_decide (d = "0"%char) then valid_frac r
                               else is_digit d && valid_frac (skip_digits r)
               end = true → string_forall is_num_char t = true) as Hbody.
  { intros [|d r]; [done|]. case_bool_decide as Hd.
    - intros Hr%valid_frac_num. subst. done.
    - intros [Hd' Hr%valid_frac_num%skip_digits_num]%andb_true_iff. simpl.
      by rewrite digit_num_char, Hr. }
  destruct s as [|m r]; [done|]. case_bool_decide as Hm; [|by apply Hbody].
  apply Hbody in H. subst. done.
Qed.

(** What may follow a value without being taken for a part of it. *)
Definition stops (rest : string) : Prop :=
  match rest with EmptyString => True | String c _ => is_num_char c = false end.

Lemma span_num_app l rest :
  string_forall is_num_char l = true → stops rest → span_num (l +:+ rest) = (l, rest).
Proof.
  intros Hl Hr. induction l as [|c l IH].
  - rewrite sapp_nil_l. destruct rest as [|c r]; [done|]. simpl in *. by rewrite Hr.
  - rewrite sapp_cons. simpl in *. apply andb_true_iff in Hl as [-> Hl]. by rewrite IH.
Qed.

Lemma span_num_forall s l rest :
  span_num s = (l, rest) → string_forall is_num_char l = true.
Proof.
  revert l rest. induction s as [|c s IH]; simpl; intros l rest; [by intros [= <- <-]|].
  destruct (is_num_char c) eqn:E; [|by intros [= <- <-]].
  destruct (span_num s) as [l' rest'] eqn:Es. intros [= <- <-]. simpl. rewrite E. by eapply IH.
Qed.
