(* ===== verification/JsonParse.v ===== *)
(** * parse inverts print

    A tree whose literals are well-formed is read back from the text [print] or
    [print_indent] writes for it, whatever follows that text; [parse] produces
    only such trees. *)
From Stdlib Require Import Ascii Lia ZArith DecimalString DecimalFacts DecimalPos DecimalN DecimalZ.
From stdpp Require Import base gmap strings list sorting.
From S2P Require Import Prelude Crypto Json JsonFacts.

(** Induction on trees, through the lists of children. *)
Lemma jv_tree_ind (P : jv → Prop) :
  P VNull → (∀ b, P (VBool b)) → (∀ lit, P (VNum lit)) → (∀ raw, P (VStr raw)) →
  (∀ vs, Forall P vs → P (VArr vs)) →
  (∀ ms, Forall (λ m, P m.2) ms → P (VObj ms)) → ∀ v, P v.
Proof.
  intros Hn Hb Hnum Hs Ha Ho.
  refine (fix go (v : jv) : P v := _). destruct v as [|b|lit|raw|vs|ms]; [exact Hn|apply Hb|apply Hnum|apply Hs|..].
  - apply Ha. induction vs as [|x vs IH]; constructor; [apply go|exact IH].
  - apply Ho. induction ms as [|[k x] ms IH]; constructor; [apply go|exact IH].
Qed.

Fixpoint wf_jv (v : jv) : bool :=
  match v with
  | VNull | VBool _ => true
  | VNum lit => valid_number lit
  | VStr raw => wf_raw raw
  | VArr vs => forallb wf_jv vs
  | VObj ms => forallb (λ '(k, x), wf_raw k && wf_jv x) ms
  end.

(** ** First characters *)

Definition is_lead (c : ascii) : bool := negb (is_ws c) && bool_decide (c ≠ "]"%char).

Definition leads (s : string) : bool :=
  match s with EmptyString => false | String c _ => is_lead c end.

Lemma num_char_lead c : is_num_char c = true → is_lead c = true.
Proof.
  each_byte c; first [reflexivity | intros H; vm_compute in H; discriminate H].
Qed.

Lemma valid_number_cons lit : valid_number lit = true → ∃ c l, lit = String c l ∧ is_num_char c = true.
Proof.
  intros H. pose proof (valid_number_num _ H) as Hn. destruct lit as [|c l]; [done|].
  simpl in Hn. apply andb_true_iff in Hn as [Hn _]. eauto.
Qed.

Lemma print_leads v rest : wf_jv v = true → leads (print v +:+ rest) = true.
Proof.
  destruct v as [|[]|lit|raw|vs|ms]; simpl; try done.
  intros (c & l & -> & Hc)%valid_number_cons. rewrite sapp_cons. by apply num_char_lead.
Qed.

Lemma leads_skip_ws s : leads s = true → skip_ws s = s.
Proof.
  destruct s as [|c s]; [done|]. simpl. unfold is_lead.
  intros [H _]%andb_true_iff. apply negb_true_iff in H. by rewrite H.
Qed.

Lemma is_ws_space c s : is_ws c = false → skip_ws (String c s) = String c s.
Proof. simpl. by intros ->. Qed.

Lemma print_length_pos v : wf_jv v = true → (1 ≤ String.length (print v))%nat.
Proof.
  intros H. pose proof (print_leads v "" H) as Hl. rewrite sapp_nil_r in Hl.
  destruct (print v); simpl in *; [done|lia].
Qed.

Lemma num_char_not_special c :
  is_num_char c = true → c ≠ "{"%char ∧ c ≠ "["%char ∧ c ≠ c_quote ∧
    c ≠ "n"%char ∧ c ≠ "t"%char ∧ c ≠ "f"%char ∧ is_ws c = false.
Proof.
  each_byte c; intros H;
    first [ vm_compute in H; discriminate H | repeat split; discriminate ].
Qed.

(** ** Values *)

Definition blank (ws : string) : bool := string_forall is_ws ws.

Lemma skip_ws_blank ws s : blank ws = true → skip_ws (ws +:+ s) = skip_ws s.
Proof.
  induction ws as [|c ws IH]; [done|]. cbn [blank string_forall]. rewrite sapp_cons.
  intros [Hc Hws]%andb_true_iff. cbn [skip_ws]. rewrite Hc. by apply IH.
Qed.

Lemma leads_skip_app t rest : leads (skip_ws t) = true → leads (skip_ws (t +:+ rest)) = true.
Proof.
  induction t as [|c t IH]; [done|]. rewrite sapp_cons. cbn [skip_ws].
  destruct (is_ws c) eqn:E; [done|]. done.
Qed.

(** The text [t], whitespace in front of it included, is read as [v], whatever
    comes after it. *)
Definition reads_as (t : string) (v : jv) : Prop :=
  leads (skip_ws t) = true ∧
  ∀ n rest, (2 * String.length t ≤ n)%nat → stops rest → parse_value n (t +:+ rest) = Some (v, rest).

Lemma parse_value_blank n ws s : blank ws = true → parse_value n (ws +:+ s) = parse_value n s.
Proof. intros H. destruct n as [|n]; [done|]. cbn [parse_value]. by rewrite skip_ws_blank. Qed.

Lemma reads_as_blank ws t v : blank ws = true → reads_as t v → reads_as (ws +:+ t) v.
Proof.
  intros Hws [Hl Hp]. split; [by rewrite skip_ws_blank|]. intros n rest Hn Hs.
  rewrite slength_app in Hn. rewrite sapp_assoc, parse_value_blank by done. apply Hp; [lia|done].
Qed.

Lemma reads_num lit : valid_number lit = true → reads_as lit (VNum lit).
Proof.
  intros Hwf. pose proof (print_leads (VNum lit) "" Hwf) as Hl. simpl in Hl. rewrite sapp_nil_r in Hl.
  split; [by rewrite leads_skip_ws|]. clear Hl. intros n rest Hn Hs.
  pose proof (valid_number_num _ Hwf) as Hall.
  destruct (valid_number_cons _ Hwf) as (c & l & -> & Hc).
  destruct n as [|n]; [simpl in Hn; lia|].
  destruct (num_char_not_special _ Hc) as (? & ? & ? & ? & ? & ? & Hws).
  cbn [parse_value]. rewrite sapp_cons, is_ws_space by done.
  rewrite !bool_decide_eq_false_2 by done. simpl strip_prefix.
  rewrite !decide_False by done. rewrite <- sapp_cons.
  rewrite span_num_app by done. by rewrite Hwf.
Qed.

Lemma reads_str raw : wf_raw raw = true → reads_as (quoted raw) (VStr raw).
Proof.
  intros Hwf. split; [done|]. intros n rest Hn Hs. destruct n as [|n]; [simpl in Hn; lia|].
  unfold quoted. rewrite sapp_cons, sapp_assoc, sapp_cons, sapp_nil_l.
  cbn [parse_value]. rewrite is_ws_space by done.
  rewrite !bool_decide_eq_false_2 by done. rewrite bool_decide_eq_true_2 by done.
  by rewrite scan_string_app.
Qed.

(** ** Lists *)

#[local] Arguments join : simpl never.

Lemma join_one x : join [x] = x.
Proof. done. Qed.

Lemma join_cons2 x y l : join (x :: y :: l) = x +:+ String "," (join (y :: l)).
Proof. done. Qed.

(** What closes a list: whitespace and a bracket. *)
Lemma stops_blank fin c rest :
  blank fin = true → is_num_char c = false → stops (fin +:+ String c rest).
Proof.
  destruct fin as [|d fin]; [done|]. cbn [blank string_forall]. intros [Hd _]%andb_true_iff _.
  rewrite sapp_cons. simpl. destruct (is_num_char d) eqn:E; [|done].
  destruct (num_char_not_special _ E) as (_ & _ & _ & _ & _ & _ & ?). congruence.
Qed.

Lemma skip_ws_close fin c rest :
  blank fin = true → is_ws c = false → skip_ws (fin +:+ String c rest) = String c rest.
Proof. intros Hf Hc. by rewrite skip_ws_blank, is_ws_space. Qed.

Lemma parse_elems_reads fin ts vs t v :
  blank fin = true → Forall2 reads_as (t :: ts) (v :: vs) → ∀ n rest,
  (2 * String.length (join (t :: ts)) + 1 ≤ n)%nat →
  parse_elems n (join (t :: ts) +:+ fin +:+ String "]" rest) = Some (v :: vs, rest).
Proof.
  intros Hfin H. remember (t :: ts) as l eqn:El. remember (v :: vs) as l' eqn:El'.
  revert t ts v vs El El'. induction H as [|t v ts vs [_ HP] H IH]; [done|].
  intros ? ? ? ? [= <- <-] [= <- <-] n rest Hn. destruct n as [|n]; [lia|]. cbn [parse_elems].
  inversion H as [|t2 v2 ts2 vs2 ? ?]; subst.
  - rewrite join_one in *. rewrite HP by (lia || by apply stops_blank). simpl mbind.
    by rewrite skip_ws_close.
  - rewrite join_cons2 in *. rewrite slength_app in Hn. simpl String.length in Hn.
    rewrite sapp_assoc, sapp_cons. rewrite HP by (done || lia). simpl mbind.
    rewrite (IH t2 ts2 v2 vs2) by (done || lia). done.
Qed.

(** A member of an object: a name, a colon and a value. *)
Definition reads_member (t : string) (m : string * jv) : Prop :=
  ∃ ws t', t = ws +:+ quoted m.1 +:+ String ":" t' ∧ blank ws = true ∧ wf_raw m.1 = true ∧ reads_as t' m.2.

Lemma reads_member_text ws k t rest :
  (ws +:+ quoted k +:+ String ":" t) +:+ rest =
  ws +:+ String c_quote (k +:+ String c_quote (String ":" (t +:+ rest))).
Proof. unfold quoted. by rewrite sapp_assoc, !sapp_cons, !sapp_assoc, !sapp_cons. Qed.

Lemma reads_member_length ws k t :
  (3 + String.length t ≤ String.length (ws +:+ quoted k +:+ String ":" t))%nat.
Proof. unfold quoted. rewrite !slength_app. simpl. rewrite slength_app. simpl. lia. Qed.

Lemma parse_members_reads fin ts ms t m :
  blank fin = true → Forall2 reads_member (t :: ts) (m :: ms) → ∀ n rest,
  (2 * String.length (join (t :: ts)) + 1 ≤ n)%nat →
  parse_members n (join (t :: ts) +:+ fin +:+ String "}" rest) = Some (m :: ms, rest).
Proof.
  intros Hfin H. remember (t :: ts) as l eqn:El. remember (m :: ms) as l' eqn:El'.
  revert t ts m ms El El'.
  induction H as [|t m ts ms (ws & t' & -> & Hws & Hk & _ & HP) H IH]; [done|].
  intros ? ? ? ? [= <- <-] [= <- <-] n rest Hn. destruct n as [|n]; [lia|]. cbn [parse_members].
  pose proof (reads_member_length ws m.1 t') as Hlen. destruct m as [k v].
  cbn [fst snd] in HP, Hk, Hlen, Hn |- *.
  inversion H as [|t2 m2 ts2 ms2 ? ?]; subst.
  - rewrite join_one in *. rewrite reads_member_text, skip_ws_close by done.
    rewrite bool_decide_eq_true_2, scan_string_app by done. simpl mbind.
    rewrite HP by (lia || by apply stops_blank). simpl mbind. by rewrite skip_ws_close.
  - rewrite join_cons2 in *. rewrite slength_app in Hn. simpl String.length in Hn.
    rewrite sapp_assoc, reads_member_text, skip_ws_close by done.
    rewrite bool_decide_eq_true_2, scan_string_app by done. simpl mbind. rewrite sapp_cons.
    rewrite HP by (done || lia). simpl mbind.
    rewrite (IH t2 ts2 m2 ms2) by (done || lia). done.
Qed.

Lemma join_head t ts : ∃ r, join (t :: ts) = t +:+ r.
Proof.
  destruct ts as [|t2 ts]; [exists ""; by rewrite join_one, sapp_nil_r|].
  rewrite join_cons2. eauto.
Qed.

Lemma reads_array fin t ts v vs :
  blank fin = true → Forall2 reads_as (t :: ts) (v :: vs) →
  reads_as (String "[" (join (t :: ts) +:+ fin +:+ "]")) (VArr (v :: vs)).
Proof.
  intros Hfin H. split; [done|]. intros n rest Hn Hs. destruct n as [|n]; [simpl in Hn; lia|].
  rewrite sapp_cons, !sapp_assoc. cbn [parse_value]. rewrite is_ws_space by done.
  rewrite bool_decide_eq_false_2, bool_decide_eq_true_2 by done.
  assert (leads (skip_ws (join (t :: ts) +:+ fin +:+ "]" +:+ rest)) = true) as Hl.
  { destruct (join_head t ts) as [r ->]. rewrite sapp_assoc. apply leads_skip_app.
    apply Forall2_cons in H as [[? _] _]. done. }
  destruct (skip_ws _) as [|c r]; [done|].
  simpl in Hl. apply andb_true_iff in Hl as [_ Hc%bool_decide_eq_true].
  rewrite bool_decide_eq_false_2 by done.
  rewrite sapp_cons, sapp_nil_l. simpl in Hn. rewrite slength_app in Hn.
  rewrite (parse_elems_reads fin ts vs t v) by (done || lia). done.
Qed.

Lemma reads_object fin t ts m ms :
  blank fin = true → Forall2 reads_member (t :: ts) (m :: ms) →
  reads_as (String "{" (join (t :: ts) +:+ fin +:+ "}")) (VObj (m :: ms)).
Proof.
  intros Hfin H. split; [done|]. intros n rest Hn Hs. destruct n as [|n]; [simpl in Hn; lia|].
  rewrite sapp_cons, !sapp_assoc. cbn [parse_value]. rewrite is_ws_space by done.
  rewrite bool_decide_eq_true_2 by done.
  assert (∃ r, skip_ws (join (t :: ts) +:+ fin +:+ "}" +:+ rest) = String c_quote r) as [r ->].
  { destruct (join_head t ts) as [r ->].
    apply Forall2_cons in H as [(ws & t' & -> & Hws & _) _].
    rewrite sapp_assoc, reads_member_text, skip_ws_close by done. eauto. }
  rewrite bool_decide_eq_false_2 by done.
  rewrite sapp_cons, sapp_nil_l. simpl in Hn. rewrite slength_app in Hn.
  rewrite (parse_members_reads fin ts ms t m) by (done || lia). done.
Qed.

Lemma Forall2_map_self {A B} (R : B → A → Prop) (f : A → B) l :
  Forall (λ x, R (f x) x) l → Forall2 R (map f l) l.
Proof. induction 1; constructor; done. Qed.

Lemma wf_members_Forall (ms : list (string * jv)) (P : jv → Prop) :
  forallb (λ '(k, x), wf_raw k && wf_jv x) ms = true →
  Forall (λ m, wf_jv m.2 = true → P m.2) ms → Forall (λ m, wf_raw m.1 = true ∧ P m.2) ms.
Proof.
  intros Hwf. induction 1 as [|[k v] ms H Hms IH]; [constructor|]. cbn [forallb] in Hwf.
  apply andb_true_iff in Hwf as [[Hk Hv]%andb_true_iff Hwf]. constructor; [split; auto|auto].
Qed.

Lemma wf_elems_Forall (vs : list jv) (P : jv → Prop) :
  forallb wf_jv vs = true → Forall (λ v, wf_jv v = true → P v) vs → Forall P vs.
Proof.
  intros Hwf. induction 1 as [|v vs H Hvs IH]; [constructor|]. cbn [forallb] in Hwf.
  apply andb_true_iff in Hwf as [Hv Hwf]. constructor; auto.
Qed.

Lemma reads_atom v :
  match v with VNull | VBool _ | VArr [] | VObj [] => True | _ => False end → reads_as (print v) v.
Proof.
  intros Hv. split; [by destruct v as [|[]|lit|raw|[]|[]]|].
  intros [|n] rest Hn Hs; destruct v as [|[]|lit|raw|[]|[]]; try done; simpl in Hn; lia.
Qed.

(** The text [json.Marshal] writes. *)
Lemma reads_print v : wf_jv v = true → reads_as (print v) v.
Proof.
  induction v as [|b|lit|raw|vs IH|ms IH] using jv_tree_ind; intros Hwf.
  - by apply reads_atom.
  - by apply reads_atom.
  - by apply reads_num.
  - by apply reads_str.
  - destruct vs as [|v vs]; [by apply reads_atom|]. apply (reads_array ""); [done|].
    apply (Forall2_map_self reads_as print (v :: vs)). by apply wf_elems_Forall.
  - destruct ms as [|m ms]; [by apply reads_atom|]. apply (reads_object ""); [done|].
    eapply (Forall2_map_self reads_member (λ '(k, x), quoted k +:+ String ":" (print x)) (m :: ms)),
      Forall_impl; [by apply (wf_members_Forall (m :: ms) (λ x, reads_as (print x) x))|].
    intros [k v] [Hk Hv]. exists "", (print v). by rewrite sapp_nil_l.
Qed.

Lemma parse_reads t v : reads_as t v → parse t = Some v.
Proof.
  intros [_ H]. unfold parse. specialize (H (S (2 * String.length t)) "").
  rewrite sapp_nil_r in H. rewrite H by (done || lia). done.
Qed.

(** What [json.Marshal] writes for a tree, [json.Unmarshal] reads back. *)
Lemma parse_print v : wf_jv v = true → parse (print v) = Some v.
Proof. intros H. by apply parse_reads, reads_print. Qed.

(** ** The indented form *)

Lemma blank_app p q : blank p = true → blank q = true → blank (p +:+ q) = true.
Proof.
  intros Hp Hq. induction p as [|c p IH]; [by rewrite sapp_nil_l|]. rewrite sapp_cons.
  cbn [blank string_forall] in *. apply andb_true_iff in Hp as [-> Hp]. by apply IH.
Qed.

Lemma reads_print_indent v : wf_jv v = true → ∀ pre, blank pre = true → reads_as (print_indent pre v) v.
Proof.
  induction v as [|b|lit|raw|vs IH|ms IH] using jv_tree_ind; intros Hwf pre Hpre.
  - by apply reads_atom.
  - by apply reads_atom.
  - by apply reads_num.
  - by apply reads_str.
  - destruct vs as [|v vs]; [by apply reads_atom|]. cbn [print_indent].
    apply reads_array; [by apply blank_app|].
    eapply (Forall2_map_self reads_as
      (λ x, (c_newline +:+ pre +:+ "  ") +:+ print_indent (pre +:+ "  ") x) (v :: vs)), Forall_impl.
    { apply (wf_elems_Forall (v :: vs) (λ v, ∀ pre, blank pre = true → reads_as (print_indent pre v) v)); done. }
    intros x Hx. apply reads_as_blank; [by repeat apply blank_app|]. apply Hx. by apply blank_app.
  - destruct ms as [|m ms]; [by apply reads_atom|]. cbn [print_indent].
    apply reads_object; [by apply blank_app|].
    eapply (Forall2_map_self reads_member
      (λ '(k, x), (c_newline +:+ pre +:+ "  ") +:+ quoted k +:+
                    String ":" (" " +:+ print_indent (pre +:+ "  ") x)) (m :: ms)), Forall_impl.
    { apply (wf_members_Forall (m :: ms) (λ v, ∀ pre, blank pre = true → reads_as (print_indent pre v) v)); done. }
    intros [k x] [Hk Hx]. eexists (c_newline +:+ pre +:+ "  "), _.
    split; [done|]. split; [by repeat apply blank_app|]. split; [done|].
    apply (reads_as_blank " "); [done|]. apply Hx. by apply blank_app.
Qed.

(** What [json.MarshalIndent] writes, [json.Unmarshal] reads back. *)
Lemma parse_print_indent v : wf_jv v = true → parse (print_indent "" v) = Some v.
Proof. intros H. by apply parse_reads, reads_print_indent. Qed.

(** ** Only well-formed trees come out of parse *)

Lemma parse_wf_mutual n :
  (∀ s v rest, parse_value n s = Some (v, rest) → wf_jv v = true) ∧
  (∀ s vs rest, parse_elems n s = Some (vs, rest) → forallb wf_jv vs = true) ∧
  (∀ s ms rest, parse_members n s = Some (ms, rest) →
     forallb (λ '(k, x), wf_raw k && wf_jv x) ms = true).
Proof.
  induction n as [|n (IHv & IHe & IHm)]; [done|]. split; [|split].
  - intros s v rest. cbn [parse_value]. destruct (skip_ws s) as [|c r]; [done|].
    case_bool_decide.
    { destruct (skip_ws r) as [|d r1]; [done|]. case_bool_decide; [by intros [= <- _]|].
      destruct (parse_members n r) as [[ms rest']|] eqn:E; [|done]. intros [= <- _].
      by eapply IHm. }
    case_bool_decide.
    { destruct (skip_ws r) as [|d r1]; [done|]. case_bool_decide; [by intros [= <- _]|].
      destruct (parse_elems n r) as [[vs rest']|] eqn:E; [|done]. intros [= <- _].
      by eapply IHe. }
    case_bool_decide.
    { destruct (scan_string r) as [[raw rest']|] eqn:E; [|done]. intros [= <- _].
      by eapply scan_string_wf. }
    destruct (strip_prefix "null" _); [by intros [= <- _]|].
    destruct (strip_prefix "true" _); [by intros [= <- _]|].
    destruct (strip_prefix "false" _); [by intros [= <- _]|].
    destruct (span_num _) as [lit rest']. destruct (valid_number lit) eqn:E; [|done].
    by intros [= <- _].
  - intros s vs rest. cbn [parse_elems].
    destruct (parse_value n s) as [[v r]|] eqn:Ev; [|done]. simpl.
    destruct (skip_ws r) as [|d r1]; [done|]. case_bool_decide.
    + destruct (parse_elems n r1) as [[vs' rest']|] eqn:E; [|done]. intros [= <- _].
      simpl. by rewrite (IHv _ _ _ Ev), (IHe _ _ _ E).
    + case_bool_decide; [|done]. intros [= <- _]. simpl. by rewrite (IHv _ _ _ Ev).
  - intros s ms rest. cbn [parse_members]. destruct (skip_ws s) as [|q r]; [done|].
    case_bool_decide; [|done].
    destruct (scan_string r) as [[k r1]|] eqn:Ek; [|done]. apply scan_string_wf in Ek. simpl.
    destruct (skip_ws r1) as [|d r2]; [done|]. case_bool_decide; [|done].
    destruct (parse_value n r2) as [[v r3]|] eqn:Ev; [|done]. simpl.
    destruct (skip_ws r3) as [|e r4]; [done|]. case_bool_decide.
    + destruct (parse_members n r4) as [[ms' rest']|] eqn:E; [|done]. intros [= <- _].
      simpl. by rewrite Ek, (IHv _ _ _ Ev), (IHm _ _ _ E).
    + case_bool_decide; [|done]. intros [= <- _]. simpl. by rewrite Ek, (IHv _ _ _ Ev).
Qed.

Lemma parse_wf s v : parse s = Some v → wf_jv v = true.
Proof.
  unfold parse. destruct (parse_value _ s) as [[v' rest]|] eqn:E; [|done]. simpl.
  case_bool_decide; [|done]. intros [= <-]. by eapply parse_wf_mutual.
Qed.

(** ** An object needs its closing brace *)

Section Suffixes.
Variable f : ascii → bool.
#[local] Abbreviation all := (string_forall f).

(** What the scanners leave is a part of what they were given. *)
Lemma all_skip_ws s : all s = true → all (skip_ws s) = true.
Proof. induction s as [|c s IH]; [done|]. cbn. intros H. destruct (is_ws c); [|done]. apply IH. by apply andb_true_iff in H as [_ ?]. Qed.

Lemma all_cons c s : all (String c s) = true → f c = true ∧ all s = true.
Proof. apply andb_true_iff. Qed.

Lemma all_scan_string s t rest : scan_string s = Some (t, rest) → all s = true → all rest = true.
Proof.
  revert s rest. induction t as [t IH] using (induction_ltof1 _ String.length). unfold ltof in IH.
  intros [|p r] rest; [done|]. cbn [scan_string]. intros E [_ H]%all_cons.
  case_bool_decide; [by injection E as _ <-|]. case_bool_decide.
  - destruct r as [|e r1]; [done|]. apply all_cons in H as [_ H]. destruct (simple_unescape e).
    + destruct (scan_string r1) as [[t1 rest1]|] eqn:E1; [|done]. injection E as <- <-.
      eapply (IH t1); [simpl; lia|done|done].
    + case_bool_decide; [|done]. destruct r1 as [|a [|b [|c [|d r2]]]]; try done.
      destruct (hex4 a b c d); [|done]. simpl in E.
      destruct (scan_string r2) as [[t1 rest1]|] eqn:E1; [|done]. injection E as <- <-.
      do 4 apply all_cons in H as [_ H]. eapply (IH t1); [simpl; lia|done|done].
  - case_bool_decide; [done|]. destruct (scan_string r) as [[t1 rest1]|] eqn:E1; [|done]. injection E as <- <-.
    eapply (IH t1); [simpl; lia|done|done].
Qed.

Lemma all_strip_prefix p s rest : strip_prefix p s = Some rest → all s = true → all rest = true.
Proof. intros ->%strip_prefix_Some. rewrite string_forall_app. by intros [_ ?]%andb_true_iff. Qed.

Lemma all_span_num s lit rest : span_num s = (lit, rest) → all s = true → all rest = true.
Proof.
  revert lit. induction s as [|c s IH]; intros lit; cbn [span_num]; [by intros [= _ <-]|].
  destruct (is_num_char c); [|by intros [= _ <-]]. destruct (span_num s) as [l r]. intros [= _ <-] [_ H]%all_cons.
  by eapply IH.
Qed.
End Suffixes.

Definition no_brace : string → bool := string_forall (λ c, bool_decide (c ≠ "}"%char)).

Lemma no_brace_head d s : no_brace (String d s) = true → d ≠ "}"%char ∧ no_brace s = true.
Proof. intros [H1 H2]%all_cons. split; [by apply bool_decide_eq_true_1 in H1|done]. Qed.

Lemma parse_no_brace n :
  (∀ s v rest, parse_value n s = Some (v, rest) → no_brace s = true → no_brace rest = true) ∧
  (∀ s vs rest, parse_elems n s = Some (vs, rest) → no_brace s = true → no_brace rest = true) ∧
  (∀ s, no_brace s = true → parse_members n s = None).
Proof.
  induction n as [|n (IHv & IHe & IHm)]; [done|]. split; [|split].
  - intros s v rest. cbn [parse_value]. intros E Hs. apply all_skip_ws in Hs.
    destruct (skip_ws s) as [|c r]; [done|]. pose proof Hs as [_ Hr]%no_brace_head. pose proof Hr as Hr'%all_skip_ws.
    case_bool_decide.
    { destruct (skip_ws r) as [|d r1]; [done|]. apply no_brace_head in Hr' as [Hd _].
      rewrite bool_decide_eq_false_2 in E by done. by rewrite (IHm r Hr) in E. }
    case_bool_decide.
    { destruct (skip_ws r) as [|d r1]; [done|]. apply no_brace_head in Hr' as [_ Hr1].
      case_bool_decide; [by injection E as _ <-|].
      destruct (parse_elems n r) as [[vs rest']|] eqn:E1; [|done]. injection E as _ <-. by eapply IHe. }
    case_bool_decide.
    { destruct (scan_string r) as [[raw rest']|] eqn:E1; [|done]. injection E as _ <-. by eapply all_scan_string. }
    destruct (strip_prefix "null" _) eqn:E1; [injection E as _ <-; by eapply all_strip_prefix|].
    destruct (strip_prefix "true" _) eqn:E2; [injection E as _ <-; by eapply all_strip_prefix|].
    destruct (strip_prefix "false" _) eqn:E3; [injection E as _ <-; by eapply all_strip_prefix|].
    destruct (span_num _) as [lit rest'] eqn:E4. destruct (valid_number lit); [|done]. injection E as _ <-.
    by eapply all_span_num.
  - intros s vs rest. cbn [parse_elems]. intros E Hs.
    destruct (parse_value n s) as [[v r]|] eqn:Ev; [|done]. simpl in E.
    pose proof (all_skip_ws _ _ (IHv _ _ _ Ev Hs)) as Hr. destruct (skip_ws r) as [|d r1]; [done|].
    apply no_brace_head in Hr as [_ Hr]. case_bool_decide.
    + destruct (parse_elems n r1) as [[vs' rest']|] eqn:E1; [|done]. injection E as _ <-. by eapply IHe.
    + case_bool_decide; [|done]. by injection E as _ <-.
  - intros s Hs%all_skip_ws. cbn [parse_members]. destruct (skip_ws s) as [|q r]; [done|].
    apply no_brace_head in Hs as [_ Hr]. case_bool_decide; [|done].
    destruct (scan_string r) as [[k r1]|] eqn:Ek; [|done]. simpl.
    pose proof (all_skip_ws _ _ (all_scan_string _ _ _ _ Ek Hr)) as Hr1. destruct (skip_ws r1) as [|d r2]; [done|].
    apply no_brace_head in Hr1 as [_ Hr2]. case_bool_decide; [|done].
    destruct (parse_value n r2) as [[v r3]|] eqn:Ev; [|done]. simpl.
    pose proof (all_skip_ws _ _ (IHv _ _ _ Ev Hr2)) as Hr3. destruct (skip_ws r3) as [|e r4]; [done|].
    apply no_brace_head in Hr3 as [He Hr4]. rewrite (bool_decide_eq_false_2 (e = "}"%char)) by done.
    case_bool_decide; [|done]. by rewrite (IHm r4 Hr4).
Qed.

(** Hence a text that begins an object and stops before any brace closes it is
    not JSON. *)
Lemma parse_open_object s : no_brace s = true → parse (String "{" s) = None.
Proof.
  intros Hs. unfold parse. assert (parse_value (S (2 * String.length (String "{" s))) (String "{" s) = None) as ->; [|done].
  cbn [parse_value]. change (skip_ws (String "{" s)) with (String "{" s). cbn iota. rewrite bool_decide_eq_true_2 by done.
  pose proof (all_skip_ws _ _ Hs) as Hs'. destruct (skip_ws s) as [|d r1]; [done|].
  apply no_brace_head in Hs' as [Hd _]. rewrite bool_decide_eq_false_2 by done.
  by rewrite (proj2 (proj2 (parse_no_brace _)) s Hs).
Qed.

(** A decoded raw message denotes the tree it was decoded from: the whitespace
    dropped by [dec_raw] has no meaning. *)
Lemma raw_text_parse old v raw :
  wf_jv v = true → dec_raw old v = Some raw → parse raw = Some v.
Proof. intros Hv [= <-]. by apply parse_print. Qed.

(** ** Typed values *)

Lemma dec_enc_string old s : valid_utf8 s = true → dec_string old (enc_string s) = Some s.
Proof. intros H. simpl. by rewrite unquote_quote. Qed.

Lemma dec_enc_bool old b : dec_bool old (enc_bool b) = Some b.
Proof. done. Qed.

Lemma Z_to_int_N n : Z.to_int (Z.of_N n) = Decimal.Pos (N.to_uint n).
Proof. by destruct n. Qed.

Lemma Z_of_uint_N u : Z.of_uint u = Z.of_N (N.of_uint u).
Proof. done. Qed.

Lemma N_to_uint_nonnil n : N.to_uint n ≠ Decimal.Nil.
Proof. destruct n; [done|]. apply DecimalPos.Unsigned.to_uint_nonnil. Qed.

Lemma ParseUint_dec z : is_u64 z → ParseUint (dec_of_Z z) = Some z.
Proof.
  intros Hz. unfold ParseUint, dec_of_Z.
  rewrite <- (Z2N.id z) by (unfold is_u64 in Hz; lia). rewrite Z_to_int_N. simpl.
  rewrite NilZero.usu by apply N_to_uint_nonnil. simpl.
  rewrite Z_of_uint_N, DecimalN.Unsigned.of_to, Z2N.id by (unfold is_u64 in Hz; lia).
  by rewrite bool_decide_eq_true_2.
Qed.

Lemma dec_enc_u64 old z : is_u64 z → dec_u64 old (enc_int z) = Some z.
Proof. apply ParseUint_dec. Qed.

Lemma Z_to_int_nonnil z : Z.to_int z ≠ Decimal.Pos Decimal.Nil ∧ Z.to_int z ≠ Decimal.Neg Decimal.Nil.
Proof.
  destruct z; simpl; split; try done; intros [= E]; by apply DecimalPos.Unsigned.to_uint_nonnil in E.
Qed.

Lemma ParseInt_dec z : is_i64 z → ParseInt (dec_of_Z z) = Some z.
Proof.
  intros Hz. unfold ParseInt, dec_of_Z. destruct (Z_to_int_nonnil z).
  rewrite NilZero.isi by done. simpl. rewrite DecimalZ.of_to. by rewrite bool_decide_eq_true_2.
Qed.

Lemma dec_enc_i64 old z : is_i64 z → dec_i64 old (enc_int z) = Some z.
Proof. apply ParseInt_dec. Qed.

Lemma ParseUint_range lit z : ParseUint lit = Some z → is_u64 z.
Proof.
  unfold ParseUint. destruct (NilZero.uint_of_string lit); [|done]. simpl.
  by case_bool_decide; intros [= <-].
Qed.

Lemma dec_u64_range old v z : is_u64 old → dec_u64 old v = Some z → is_u64 z.
Proof. destruct v; simpl; try done; [by intros ? [= <-]|]. intros _. apply ParseUint_range. Qed.

Lemma dec_string_valid old v s :
  valid_utf8 old = true → dec_string old v = Some s → valid_utf8 s = true.
Proof.
  destruct v; simpl; try done; [by intros ? [= <-]|]. intros _ [= <-]. apply valid_unquote.
Qed.

(** *** Decimal literals are JSON numbers *)

Lemma string_of_uint_digits u :
  string_forall is_digit (NilEmpty.string_of_uint u) = true.
Proof. induction u; simpl; try rewrite IHu; done. Qed.

Lemma skip_digits_all s : string_forall is_digit s = true → skip_digits s = "".
Proof.
  induction s as [|c s IH]; [done|]. simpl. intros [Hc Hs]%andb_true_iff. rewrite Hc. by apply IH.
Qed.

#[local] Instance uint_eq_dec : EqDecision Decimal.uint.
Proof. solve_decision. Defined.

Lemma valid_digits u :
  u ≠ Decimal.Nil → Decimal.unorm u = u →
  match NilEmpty.string_of_uint u with
  | EmptyString => false
  | String d r => if bool_decide (d = "0"%char) then valid_frac r
                  else is_digit d && valid_frac (skip_digits r)
  end = true.
Proof.
  intros Hn Hu. pose proof (string_of_uint_digits u) as Hd.
  destruct u as [|u|u|u|u|u|u|u|u|u|u]; [done|..]; simpl in Hd |- *.
  { rewrite DecimalFacts.unorm_D0 in Hu. destruct (decide (u = Decimal.Nil)) as [->|Hnil]; [done|].
    pose proof (DecimalFacts.nb_digits_unorm u Hnil) as Hle. rewrite Hu in Hle. simpl in Hle. lia. }
  all: by rewrite skip_digits_all.
Qed.

Lemma valid_uint_literal n : valid_number (NilZero.string_of_uint (N.to_uint n)) = true.
Proof.
  pose proof (N_to_uint_nonnil n) as Hn.
  assert (Decimal.unorm (N.to_uint n) = N.to_uint n) as Hu.
  { rewrite <- DecimalN.Unsigned.to_of. by rewrite DecimalN.Unsigned.of_to. }
  pose proof (valid_digits _ Hn Hu) as Hv.
  unfold NilZero.string_of_uint. destruct (N.to_uint n) eqn:E; try done.
Qed.

Lemma valid_int_literal z : valid_number (dec_of_Z z) = true.
Proof.
  unfold dec_of_Z. destruct (Z_le_dec 0 z).
  - rewrite <- (Z2N.id z), Z_to_int_N by lia. apply valid_uint_literal.
  - destruct z as [|p|p]; [lia|lia|]. simpl.
    pose proof (valid_uint_literal (N.pos p)) as H. simpl in H.
    pose proof (DecimalPos.Unsigned.to_uint_nonnil p) as Hn.
    unfold valid_number in *. rewrite bool_decide_eq_true_2 by done.
    revert H. unfold NilZero.string_of_uint. destruct (Pos.to_uint p); done.
Qed.

Lemma wf_enc_int z : wf_jv (enc_int z) = true.
Proof. apply valid_int_literal. Qed.

Lemma wf_enc_string s : wf_jv (enc_string s) = true.
Proof. apply wf_raw_quote. Qed.
