(* ===== verification/JsonTyped.v ===== *)
(** * Round trips of maps and of values of type any

    [map[string]uint64], [map[string]any] and the values inside it: what
    [json.Marshal] writes is read back to the same value, and what
    [json.Unmarshal] builds is always such a value. *)
From Stdlib Require Import Ascii Lia ZArith.
From stdpp Require Import base gmap strings list sorting.
From S2P Require Import Prelude Crypto Json JsonFacts JsonParse.

(** ** Entries by key *)

Section Entries.
Context {A : Type}.
Implicit Types m : gmap string A.

Lemma omap_lookup_keys m (l : list (string * A)) :
  (∀ k x, (k, x) ∈ l → m !! k = Some x) → omap (λ k, pair k <$> m !! k) l.*1 = l.
Proof.
  induction l as [|[k x] l IH]; [done|]. intros H. simpl.
  rewrite (H k x) by set_solver. simpl. f_equal. apply IH. set_solver.
Qed.

Lemma sorted_entries_perm m : sorted_entries m ≡ₚ map_to_list m.
Proof.
  unfold sorted_entries. rewrite merge_sort_Permutation.
  rewrite omap_lookup_keys; [done|]. intros k x. apply elem_of_map_to_list.
Qed.

Lemma elem_of_sorted_entries m k x : (k, x) ∈ sorted_entries m ↔ m !! k = Some x.
Proof. by rewrite sorted_entries_perm, elem_of_map_to_list. Qed.

Lemma sorted_entries_NoDup m : NoDup (sorted_entries m).*1.
Proof. rewrite sorted_entries_perm. apply NoDup_fst_map_to_list. Qed.

Lemma sorted_entries_to_map m : list_to_map (sorted_entries m) = m.
Proof.
  rewrite <- (list_to_map_to_list m) at 2. apply list_to_map_proper.
  - apply sorted_entries_NoDup.
  - apply sorted_entries_perm.
Qed.

(** The entries determine the map. *)
Lemma sorted_entries_inj m1 m2 : sorted_entries m1 = sorted_entries m2 → m1 = m2.
Proof. intros H. by rewrite <- (sorted_entries_to_map m1), H, sorted_entries_to_map. Qed.

Lemma foldl_insert_entries (l : list (string * A)) m :
  NoDup l.*1 → foldl (λ m '(k, x), <[k := x]> m) m l = list_to_map l ∪ m.
Proof.
  revert m. induction l as [|[k x] l IH]; intros m; simpl.
  - intros _. by rewrite (left_id_L ∅ (∪)).
  - rewrite NoDup_cons. intros [Hk Hl]. rewrite IH by done.
    rewrite <- insert_union_l. rewrite insert_union_r; [done|].
    by apply not_elem_of_list_to_map_1.
Qed.
End Entries.

(** ** map[string]uint64 *)

Definition valid_map_u64 (m : option (gmap string Z)) : Prop :=
  match m with
  | None => True
  | Some m => ∀ k z, m !! k = Some z → valid_utf8 k = true ∧ is_u64 z
  end.

Lemma dec_map_u64_entries l (m : gmap string Z) :
  Forall (λ '(k, z), valid_utf8 k = true ∧ is_u64 z) l →
  foldl (λ acc '(k, x), m ← acc; z ← dec_u64 0 x; Some (<[unquote k := z]> m)) (Some m)
    (map (λ '(k, z), (quote k, enc_int z)) l) =
  Some (foldl (λ m '(k, z), <[k := z]> m) m l).
Proof.
  revert m. induction l as [|[k z] l IH]; intros m; [done|].
  intros [[Hk Hz] Hl]%Forall_cons. simpl.
  rewrite ParseUint_dec by done. simpl. rewrite unquote_quote by done. by apply IH.
Qed.

Lemma dec_enc_map_u64 m :
  valid_map_u64 m → dec_map_u64 None (enc_map_u64 m) = Some m.
Proof.
  destruct m as [m|]; [|done]. intros Hv. cbn [enc_map_u64 dec_map_u64 default].
  rewrite dec_map_u64_entries.
  - rewrite foldl_insert_entries by apply sorted_entries_NoDup.
    rewrite sorted_entries_to_map, (right_id_L ∅ (∪)). done.
  - apply Forall_forall. intros [k z] ?%elem_of_sorted_entries. by apply Hv.
Qed.

Lemma wf_enc_map_u64 m : wf_jv (enc_map_u64 m) = true.
Proof.
  destruct m as [m|]; [|done]. simpl. induction (sorted_entries m) as [|[k z] l IH]; [done|].
  simpl. by rewrite wf_raw_quote, valid_int_literal.
Qed.

Lemma dec_map_u64_valid old v m :
  valid_map_u64 old → dec_map_u64 old v = Some m → valid_map_u64 m.
Proof.
  intros Hold. destruct v as [| | | | |ms]; simpl; try done; [by intros [= <-]|].
  assert (valid_map_u64 (Some (default ∅ old))) as Hm.
  { destruct old; [done|]. intros k z H. simpl in H. by rewrite lookup_empty in H. }
  revert Hm. generalize (default ∅ old : gmap string Z). induction ms as [|[k x] ms IH]; intros m0 Hm0.
  { simpl. by intros [= <-]. }
  cbn [foldl]. simpl mbind. destruct (dec_u64 0 x) as [z|] eqn:Ez.
  - simpl. apply IH. intros k' z'. rewrite lookup_insert. case_decide.
    + intros [= <-]. subst. split; [apply valid_unquote|]. eapply dec_u64_range, Ez. done.
    + apply Hm0.
  - simpl. intros H. exfalso. clear -H. induction ms as [|[? ?] ms IH]; done.
Qed.

(** ** any *)

Lemma anyv_tree_ind (P : anyv → Prop) :
  P ANil → (∀ b, P (ABool b)) → (∀ lit, P (ANum lit)) → (∀ s, P (AStr s)) →
  (∀ l, Forall P l → P (AArr l)) →
  (∀ l, Forall (λ m, P m.2) l → P (AObj l)) → ∀ a, P a.
Proof.
  intros Hn Hb Hnum Hs Ha Ho.
  refine (fix go (a : anyv) : P a := _).
  destruct a as [|b|lit|s|l|l]; [exact Hn|apply Hb|apply Hnum|apply Hs|..].
  - apply Ha. induction l as [|x l IH]; constructor; [apply go|exact IH].
  - apply Ho. induction l as [|[k x] l IH]; constructor; [apply go|exact IH].
Qed.

(** Strictly increasing keys. *)
Definition key_lt {A} (p q : string * A) : Prop := p.1 ≠ q.1 ∧ String.le p.1 q.1.
Definition kv_sorted {A} (l : list (string * A)) : Prop := StronglySorted key_lt l.

Section Kv.
Context {A : Type}.
Implicit Types l : list (string * A).

Lemma key_lt_trans (p q r : string * A) : key_lt p q → key_lt q r → key_lt p r.
Proof.
  intros [Hne1 Hle1] [Hne2 Hle2]. split; [|by etrans].
  intros E. apply Hne1. apply (anti_symm String.le); [done|]. by rewrite E.
Qed.

Lemma kv_insert_elem k x l p : p ∈ kv_insert k x l → p = (k, x) ∨ p ∈ l.
Proof.
  induction l as [|[k' x'] l IH]; simpl; [set_solver|].
  case_bool_decide; [set_solver|]. destruct (String.leb k k'); set_solver.
Qed.

Lemma kv_insert_sorted k x l : kv_sorted l → kv_sorted (kv_insert k x l).
Proof.
  unfold kv_sorted. induction l as [|[k' x'] l IH]; simpl; intros Hs.
  { repeat constructor. }
  apply StronglySorted_inv in Hs as [Hs Hall]. case_bool_decide as Hk.
  { subst. by constructor. }
  destruct (String.leb k k') eqn:E.
  - assert (key_lt (k, x) (k', x')) as Hlt by (split; [done|]; by apply Is_true_true_2).
    constructor; [by constructor|]. constructor; [done|].
    eapply Forall_impl; [exact Hall|]. intros q Hq. by eapply key_lt_trans.
  - assert (key_lt (k', x') (k, x)) as Hlt.
    { split; [done|]. destruct (total String.le k k') as [H|H]; [|done].
      unfold String.le in H. by rewrite E in H. }
    constructor; [by apply IH|]. apply Forall_forall. intros q [->|Hq]%kv_insert_elem; [done|].
    by eapply Forall_forall in Hall.
Qed.

Lemma kv_insert_snoc k x l :
  Forall (λ p, key_lt p (k, x)) l → kv_insert k x l = l ++ [(k, x)].
Proof.
  induction l as [|[k' x'] l IH]; simpl; [done|]. intros [[Hne Hle] Hl]%Forall_cons. simpl in *.
  rewrite bool_decide_eq_false_2 by done.
  destruct (String.leb k k') eqn:E.
  - exfalso. apply Hne. apply (anti_symm String.le); [done|]. unfold String.le. by rewrite E.
  - by rewrite IH.
Qed.

(** Reading back the members of a sorted map. *)
Lemma decode_members_sorted (f : jv → option A) (g : A → jv) l acc :
  Forall (λ '(k, x), valid_utf8 k = true ∧ f (g x) = Some x) l → kv_sorted (acc ++ l) →
  decode_members f acc (map (λ '(k, x), (quote k, g x)) l) = Some (acc ++ l).
Proof.
  revert acc. induction l as [|[k x] l IH]; intros acc Hl Hs; simpl.
  { by rewrite app_nil_r. }
  apply Forall_cons in Hl as [[Hk Hx] Hl]. rewrite Hx. simpl.
  rewrite unquote_quote by done. rewrite kv_insert_snoc.
  - rewrite (cons_middle (k, x) acc l) in Hs |- *. rewrite (assoc_L (++)) in Hs |- *.
    by apply IH.
  - apply Forall_forall. intros p Hp.
    eapply StronglySorted_app_1_elem_of; [exact Hs|done|set_solver].
Qed.

Lemma decode_members_kv_sorted (f : jv → option A) ms acc l :
  kv_sorted acc → decode_members f acc ms = Some l → kv_sorted l.
Proof.
  revert acc. induction ms as [|[k v] ms IH]; intros acc Hs; simpl; [by intros [= <-]|].
  destruct (f v); [|done]. simpl. apply IH. by apply kv_insert_sorted.
Qed.

Lemma decode_members_Forall (P : string * A → Prop) (f : jv → option A) ms acc l :
  Forall P acc → (∀ k v a, (k, v) ∈ ms → f v = Some a → P (unquote k, a)) →
  decode_members f acc ms = Some l → Forall P l.
Proof.
  revert acc. induction ms as [|[k v] ms IH]; intros acc Hacc Hf; simpl; [by intros [= <-]|].
  destruct (f v) as [a|] eqn:E; [|done]. simpl. apply IH.
  - apply Forall_forall. intros p [->|Hp]%kv_insert_elem; [apply (Hf k v); set_solver|].
    by eapply Forall_forall in Hacc.
  - set_solver.
Qed.
End Kv.

Section AnyFacts.
Context `{F : FloatFmt}.

Fixpoint valid_any (a : anyv) : Prop :=
  match a with
  | ANil | ABool _ => True
  | ANum lit => float_norm lit = Some lit ∧ valid_number lit = true
  | AStr s => valid_utf8 s = true
  | AArr l => foldr (λ x P, valid_any x ∧ P) True l
  | AObj l => foldr (λ p P, (valid_utf8 p.1 = true ∧ valid_any p.2) ∧ P) True l ∧ kv_sorted l
  end.

Definition valid_kv (p : string * anyv) : Prop := valid_utf8 p.1 = true ∧ valid_any p.2.

(** [map[string]any] values the program stores. *)
Definition valid_map_any (m : option (list (string * anyv))) : Prop :=
  match m with None => True | Some l => Forall valid_kv l ∧ kv_sorted l end.

Lemma foldr_Forall {A} (P : A → Prop) (l : list A) :
  foldr (λ x Q, P x ∧ Q) True l ↔ Forall P l.
Proof. induction l as [|x l IH]; simpl; [done|]. by rewrite IH, Forall_cons. Qed.

Lemma valid_any_arr l : valid_any (AArr l) ↔ Forall valid_any l.
Proof. apply foldr_Forall. Qed.

Lemma valid_any_obj l : valid_any (AObj l) ↔ Forall valid_kv l ∧ kv_sorted l.
Proof. simpl. by rewrite (foldr_Forall valid_kv). Qed.

Lemma decode_elems_map {A} (f : jv → option A) (g : A → jv) l :
  Forall (λ x, f (g x) = Some x) l → decode_elems f (map g l) = Some l.
Proof. induction 1 as [|x l Hx _ IH]; simpl; [done|]. by rewrite Hx; simpl; rewrite IH. Qed.

Lemma any_of_jv a : valid_any a → any_of (jv_of_any a) = Some a.
Proof.
  induction a as [|b|lit|s|l IH|l IH] using anyv_tree_ind; try done.
  - intros [H _]. simpl. by rewrite H.
  - intros H. simpl. by rewrite unquote_quote.
  - rewrite valid_any_arr. intros H. cbn [jv_of_any any_of].
    rewrite decode_elems_map; [done|]. rewrite Forall_forall in *. eauto.
  - rewrite valid_any_obj. intros [H Hs]. cbn [jv_of_any any_of].
    rewrite decode_members_sorted; [done| |done].
    rewrite Forall_forall in *. intros [k x] Hin. destruct (H _ Hin). split; [done|].
    by apply (IH _ Hin).
Qed.

Lemma wf_jv_of_any a : valid_any a → wf_jv (jv_of_any a) = true.
Proof.
  induction a as [|b|lit|s|l IH|l IH] using anyv_tree_ind; try done.
  - by intros [_ H].
  - intros _. apply wf_raw_quote.
  - rewrite valid_any_arr. intros H. simpl. apply forallb_forall.
    intros v (x & <- & Hin)%in_map_iff. rewrite <- list_elem_of_In in Hin.
    rewrite Forall_forall in *. eauto.
  - rewrite valid_any_obj. intros [H _]. simpl. apply forallb_forall.
    intros v ([k x] & <- & Hin)%in_map_iff. rewrite <- list_elem_of_In in Hin.
    rewrite Forall_forall in *. rewrite wf_raw_quote. destruct (H _ Hin). by apply (IH _ Hin).
Qed.

Lemma dec_enc_map_any m :
  valid_map_any m → dec_map_any None (enc_map_any m) = Some m.
Proof.
  destruct m as [l|]; [|done]. intros [H Hs]. cbn [enc_map_any dec_map_any default].
  rewrite decode_members_sorted; [done| |done]. rewrite Forall_forall in *.
  intros [k x] Hin. destruct (H _ Hin). split; [done|]. by apply any_of_jv.
Qed.

Lemma wf_enc_map_any m : valid_map_any m → wf_jv (enc_map_any m) = true.
Proof.
  destruct m as [l|]; [|done]. intros H. apply (wf_jv_of_any (AObj l)). by apply valid_any_obj.
Qed.

Context `{!FloatLaws}.

Lemma any_of_valid v a : any_of v = Some a → valid_any a.
Proof.
  revert a. induction v as [|b|lit|raw|vs IH|ms IH] using jv_tree_ind; intros a; simpl.
  - by intros [= <-].
  - by intros [= <-].
  - destruct (float_norm lit) as [l|] eqn:E; [|done]. intros [= <-]. simpl.
    split; [by eapply float_norm_idem|by eapply float_norm_valid].
  - intros [= <-]. apply valid_unquote.
  - destruct (decode_elems any_of vs) as [l|] eqn:E; [|done]. intros [= <-].
    apply valid_any_arr. revert l E. induction IH as [|x vs Hx _ IH]; simpl; [by intros ? [= <-]|].
    intros l. destruct (any_of x) as [y|] eqn:Ex; [|done]. simpl.
    destruct (decode_elems any_of vs) as [l'|]; [|done]. intros [= <-].
    constructor; [by apply Hx|by apply IH].
  - destruct (decode_members any_of [] ms) as [l|] eqn:E; [|done]. intros [= <-].
    apply valid_any_obj. rewrite Forall_forall in IH. split.
    + apply (decode_members_Forall valid_kv any_of ms [] l); [constructor| |exact E].
      intros k v a Hin Ha. split; [apply valid_unquote|]. by apply (IH (k, v)).
    + eapply decode_members_kv_sorted, E. constructor.
Qed.

Lemma dec_map_any_valid old v m :
  valid_map_any old → dec_map_any old v = Some m → valid_map_any m.
Proof.
  intros Hold. destruct v as [| | | | |ms]; simpl; try done; [by intros [= <-]|].
  assert (Forall valid_kv (default [] old) ∧ kv_sorted (default [] old)) as [Hf Hs].
  { destruct old; [done|]. split; constructor. }
  destruct (decode_members any_of _ ms) as [l|] eqn:E; [|done]. intros [= <-]. split.
  - apply (decode_members_Forall valid_kv any_of ms (default [] old) l); [done| |done].
    intros k v a _ Ha. split; [apply valid_unquote|]. by eapply any_of_valid.
  - by eapply decode_members_kv_sorted.
Qed.
End AnyFacts.

(** ** Structs and slices *)

Lemma dec_members_None {A} (fields : list (field A)) ms :
  foldl (λ acc '(k, x), a ← acc;
           match resolve fields (unquote k) with
           | Some store => store a x
           | None => Some a
           end) None ms = None.
Proof. induction ms as [|[k x] ms IH]; done. Qed.

(** One step of a decoder: the key names a field, and the field's decoder
    accepts the value. *)
Lemma dec_members_cons {A} (fields : list (field A)) old k x ms store a :
  unquote k = k → resolve fields k = Some store → store old x = Some a →
  dec_members fields old ((k, x) :: ms) = dec_members fields a ms.
Proof. intros Hk Hf Ha. unfold dec_members. simpl. by rewrite Hk, Hf, Ha. Qed.

Lemma dec_members_cons_inv {A} (fields : list (field A)) old k x ms a :
  dec_members fields old ((k, x) :: ms) = Some a →
  ∃ a', (resolve fields (unquote k) = None ∧ a' = old ∨
         ∃ store, resolve fields (unquote k) = Some store ∧ store old x = Some a') ∧
        dec_members fields a' ms = Some a.
Proof.
  unfold dec_members. simpl. destruct (resolve fields (unquote k)) as [store|] eqn:E.
  - destruct (store old x) as [a'|] eqn:Es; [eauto 10|].
    by rewrite dec_members_None.
  - eauto 10.
Qed.

Lemma resolve_elem {A} (fields : list (field A)) k store :
  resolve fields k = Some store → ∃ name, (name, store) ∈ fields.
Proof.
  unfold resolve. case_match eqn:E.
  - case_match; subst. intros [= <-]. apply list_find_Some in E as (E & _).
    match type of E with _ = Some ?f => exists f.1; destruct f end.
    eapply list_elem_of_lookup_2, E.
  - intros ([i [n f]] & E' & ->)%fmap_Some. apply list_find_Some in E' as (E' & _).
    exists n. eapply list_elem_of_lookup_2, E'.
Qed.

(** A property every field's decoder preserves holds of the decoded struct. *)
Lemma dec_struct_invariant {A} (P : A → Prop) (fields : list (field A)) old v a :
  P old → Forall (λ f : field A, ∀ x y b, P x → f.2 x y = Some b → P b) fields →
  dec_struct fields old v = Some a → P a.
Proof.
  intros Hold Hf. destruct v as [| | | | |ms]; simpl; try done; [by intros [= <-]|].
  revert old Hold. induction ms as [|[k x] ms IH]; intros old Hold; [by intros [= <-]|].
  intros (a' & [[_ ->]|(store & Hr & Hs)] & H)%dec_members_cons_inv; [by eapply IH|].
  eapply IH, H. apply resolve_elem in Hr as [n Hr].
  rewrite Forall_forall in Hf. by apply (Hf _ Hr old x).
Qed.

Lemma resolve_exact {A} (fields : list (field A)) k i f :
  list_find (λ n, n = k) fields.*1 = Some (i, k) → fields !! i = Some f →
  resolve fields k = Some f.2.
Proof.
  intros (Hk & _ & Hmin)%list_find_Some Hf.
  rewrite list_lookup_fmap, Hf in Hk. injection Hk as Hk.
  assert (list_find (λ g : field A, g.1 = k) fields = Some (i, f)) as E.
  { apply list_find_Some. split; [done|]. split; [done|]. intros j g Hj Hlt.
    apply (Hmin j); [|done]. by rewrite list_lookup_fmap, Hj. }
  unfold resolve. by rewrite E.
Qed.

Lemma dec_members_at {A} (fields : list (field A)) i old k x ms f a :
  unquote k = k → list_find (λ n, n = k) fields.*1 = Some (i, k) → fields !! i = Some f →
  f.2 old x = Some a → dec_members fields old ((k, x) :: ms) = dec_members fields a ms.
Proof. intros Hk Hi Hf Ha. eapply dec_members_cons; [done| |done]. by eapply resolve_exact. Qed.

(** Decodes the next member of an encoded struct: its key is computed to be
    that of a field, and the field's decoder remains to be run. *)
Ltac dec_field_step :=
  match goal with
  | |- dec_members ?fields _ ((?k, _) :: _) = _ =>
      let r := eval vm_compute in (list_find (λ n, n = k) fields.*1) in
      match r with
      | Some (?i, _) =>
          erewrite (dec_members_at fields i);
          [ | vm_compute; reflexivity | vm_compute; reflexivity | simpl; reflexivity
          | cbn beta iota delta [snd] ]
      end
  end.

Lemma dec_enc_strings l :
  Forall (λ s, valid_utf8 s = true) l → dec_slice "" dec_string (enc_slice enc_string l) = Some l.
Proof.
  intros H. simpl. induction H as [|s l Hs _ IH]; [done|]. simpl. rewrite unquote_quote by done.
  simpl in *. by rewrite IH.
Qed.

Lemma wf_enc_strings l : wf_jv (enc_slice enc_string l) = true.
Proof. simpl. induction l as [|s l IH]; [done|]. simpl. by rewrite wf_raw_quote, IH. Qed.

Lemma dec_strings_valid v l :
  dec_slice "" dec_string v = Some l → Forall (λ s, valid_utf8 s = true) l.
Proof.
  destruct v as [| | | |vs|]; simpl; try done; [by intros [= <-]|].
  intros H%mapM_Some. induction H as [|x y vs ys Hxy _ IH]; constructor; [|done].
  by eapply (dec_string_valid "").
Qed.
