(* ===== verification/Types.v ===== *)
(** * The data of package core

    The structs of [src/core/state.go] and the payloads of
    [src/core/transaction.go], each with its JSON decoder ([_dec], the fields'
    [json] tags), its encoder ([_enc]) and the values the program can hold in
    it ([valid_]): strings that are well-formed UTF-8 and integers in the range
    of their Go type.  A valid value survives [json.Marshal] followed by
    [json.Unmarshal]; a decoded payload is valid. *)
From Stdlib Require Import Ascii Lia ZArith.
From stdpp Require Import base gmap strings list sorting.
From S2P Require Import Prelude Crypto Json JsonFacts JsonParse JsonTyped.

Definition dec_strings (old : list string) (v : jv) : option (list string) :=
  dec_slice "" dec_string v.

(** ** State objects (core/state.go) *)

(** A participant's token balance and nonce. *)
Record Account : Type := mkAccount {
  acc_Address : string;
  acc_Balance : Z;
  acc_Nonce : Z
}.

Definition Account_zero : Account := mkAccount "" 0 0.

(** A game asset; [ast_ActiveListingID] is empty while it is not listed. *)
Record Asset : Type := mkAsset {
  ast_ID : string;
  ast_TemplateID : string;
  ast_Owner : string;
  ast_Properties : option (list (string * anyv));
  ast_Tradeable : bool;
  ast_MintedAt : Z;
  ast_ActiveListingID : string
}.

Definition Asset_zero : Asset := mkAsset "" "" "" None false 0 "".

(** The rules of a class of assets. *)
Record AssetTemplate : Type := mkAssetTemplate {
  tmpl_ID : string;
  tmpl_Name : string;
  tmpl_Schema : option (list (string * anyv));
  tmpl_Tradeable : bool;
  tmpl_Creator : string
}.

Definition AssetTemplate_zero : AssetTemplate := mkAssetTemplate "" "" None false "".

(** A game match; [sess_Status] is open or closed. *)
Record Session : Type := mkSession {
  sess_ID : string;
  sess_GameID : string;
  sess_Creator : string;
  sess_Players : list string;
  sess_Stakes : Z;
  sess_Status : string;
  sess_Outcome : option (gmap string Z);
  sess_CreatedAt : Z;
  sess_ClosedAt : Z
}.

Definition Session_zero : Session := mkSession "" "" "" [] 0 "" None 0 0.

(** A sale offer. *)
Record MarketListing : Type := mkMarketListing {
  lst_ID : string;
  lst_AssetID : string;
  lst_Seller : string;
  lst_Price : Z;
  lst_Active : bool;
  lst_CreatedAt : Z
}.

Definition MarketListing_zero : MarketListing := mkMarketListing "" "" "" 0 false 0.

(** ** Transaction payloads (core/transaction.go) *)

(** Transfers native tokens. *)
Record TransferPayload : Type := mkTransferPayload {
  tp_To : string;
  tp_Amount : Z
}.

Definition TransferPayload_zero : TransferPayload := mkTransferPayload "" 0.

(** Mints an asset from a template. *)
Record MintAssetPayload : Type := mkMintAssetPayload {
  mp_TemplateID : string;
  mp_Owner : string;
  mp_Properties : option (list (string * anyv))
}.

Definition MintAssetPayload_zero : MintAssetPayload := mkMintAssetPayload "" "" None.

(** Destroys an asset. *)
Record BurnAssetPayload : Type := mkBurnAssetPayload {
  bp_AssetID : string
}.

Definition BurnAssetPayload_zero : BurnAssetPayload := mkBurnAssetPayload "".

(** Moves an asset to a new owner. *)
Record TransferAssetPayload : Type := mkTransferAssetPayload {
  tap_AssetID : string;
  tap_To : string
}.

Definition TransferAssetPayload_zero : TransferAssetPayload := mkTransferAssetPayload "" "".

(** Defines a class of assets. *)
Record RegisterTemplatePayload : Type := mkRegisterTemplatePayload {
  rp_ID : string;
  rp_Name : string;
  rp_Schema : option (list (string * anyv));
  rp_Tradeable : bool
}.

Definition RegisterTemplatePayload_zero : RegisterTemplatePayload := mkRegisterTemplatePayload "" "" None false.

(** Opens a session and locks stakes. *)
Record SessionOpenPayload : Type := mkSessionOpenPayload {
  so_SessionID : string;
  so_GameID : string;
  so_Players : list string;
  so_Stakes : Z
}.

Definition SessionOpenPayload_zero : SessionOpenPayload := mkSessionOpenPayload "" "" [] 0.

(** Closes a session and distributes rewards. *)
Record SessionResultPayload : Type := mkSessionResultPayload {
  sr_SessionID : string;
  sr_Outcome : option (gmap string Z)
}.

Definition SessionResultPayload_zero : SessionResultPayload := mkSessionResultPayload "" None.

(** Lists an asset for sale. *)
Record ListMarketPayload : Type := mkListMarketPayload {
  lm_AssetID : string;
  lm_Price : Z
}.

Definition ListMarketPayload_zero : ListMarketPayload := mkListMarketPayload "" 0.

(** Buys a listing. *)
Record BuyMarketPayload : Type := mkBuyMarketPayload {
  bm_ListingID : string
}.

Definition BuyMarketPayload_zero : BuyMarketPayload := mkBuyMarketPayload "".

(** ** Codecs *)

Section Codecs.
Context `{F : FloatFmt}.

Definition Account_fields : list (field Account) := [
  ("address", λ r v, x ← dec_string r.(acc_Address) v;
     Some (mkAccount x r.(acc_Balance) r.(acc_Nonce)));
  ("balance", λ r v, x ← dec_u64 r.(acc_Balance) v;
     Some (mkAccount r.(acc_Address) x r.(acc_Nonce)));
  ("nonce", λ r v, x ← dec_u64 r.(acc_Nonce) v;
     Some (mkAccount r.(acc_Address) r.(acc_Balance) x))].
Definition Account_dec : Account → jv → option Account := dec_struct Account_fields.
Definition Account_enc (r : Account) : jv := VObj [
  ("address", enc_string r.(acc_Address));
  ("balance", enc_int r.(acc_Balance));
  ("nonce", enc_int r.(acc_Nonce))].
Definition valid_Account (r : Account) : Prop :=
  valid_utf8 r.(acc_Address) = true ∧
  is_u64 r.(acc_Balance) ∧
  is_u64 r.(acc_Nonce).

Definition Asset_fields : list (field Asset) := [
  ("id", λ r v, x ← dec_string r.(ast_ID) v;
     Some (mkAsset x r.(ast_TemplateID) r.(ast_Owner) r.(ast_Properties) r.(ast_Tradeable) r.(ast_MintedAt) r.(ast_ActiveListingID)));
  ("template_id", λ r v, x ← dec_string r.(ast_TemplateID) v;
     Some (mkAsset r.(ast_ID) x r.(ast_Owner) r.(ast_Properties) r.(ast_Tradeable) r.(ast_MintedAt) r.(ast_ActiveListingID)));
  ("owner", λ r v, x ← dec_string r.(ast_Owner) v;
     Some (mkAsset r.(ast_ID) r.(ast_TemplateID) x r.(ast_Properties) r.(ast_Tradeable) r.(ast_MintedAt) r.(ast_ActiveListingID)));
  ("properties", λ r v, x ← dec_map_any r.(ast_Properties) v;
     Some (mkAsset r.(ast_ID) r.(ast_TemplateID) r.(ast_Owner) x r.(ast_Tradeable) r.(ast_MintedAt) r.(ast_ActiveListingID)));
  ("tradeable", λ r v, x ← dec_bool r.(ast_Tradeable) v;
     Some (mkAsset r.(ast_ID) r.(ast_TemplateID) r.(ast_Owner) r.(ast_Properties) x r.(ast_MintedAt) r.(ast_ActiveListingID)));
  ("minted_at", λ r v, x ← dec_i64 r.(ast_MintedAt) v;
     Some (mkAsset r.(ast_ID) r.(ast_TemplateID) r.(ast_Owner) r.(ast_Properties) r.(ast_Tradeable) x r.(ast_ActiveListingID)));
  ("active_listing_id", λ r v, x ← dec_string r.(ast_ActiveListingID) v;
     Some (mkAsset r.(ast_ID) r.(ast_TemplateID) r.(ast_Owner) r.(ast_Properties) r.(ast_Tradeable) r.(ast_MintedAt) x))].
Definition Asset_dec : Asset → jv → option Asset := dec_struct Asset_fields.
Definition Asset_enc (r : Asset) : jv := VObj ([
  ("id", enc_string r.(ast_ID));
  ("template_id", enc_string r.(ast_TemplateID));
  ("owner", enc_string r.(ast_Owner));
  ("properties", enc_map_any r.(ast_Properties));
  ("tradeable", enc_bool r.(ast_Tradeable));
  ("minted_at", enc_int r.(ast_MintedAt))]
  ++ (if bool_decide (r.(ast_ActiveListingID) = "") then []
      else [("active_listing_id", enc_string r.(ast_ActiveListingID))])).
Definition valid_Asset (r : Asset) : Prop :=
  valid_utf8 r.(ast_ID) = true ∧
  valid_utf8 r.(ast_TemplateID) = true ∧
  valid_utf8 r.(ast_Owner) = true ∧
  valid_map_any r.(ast_Properties) ∧
  is_i64 r.(ast_MintedAt) ∧
  valid_utf8 r.(ast_ActiveListingID) = true.

Definition AssetTemplate_fields : list (field AssetTemplate) := [
  ("id", λ r v, x ← dec_string r.(tmpl_ID) v;
     Some (mkAssetTemplate x r.(tmpl_Name) r.(tmpl_Schema) r.(tmpl_Tradeable) r.(tmpl_Creator)));
  ("name", λ r v, x ← dec_string r.(tmpl_Name) v;
     Some (mkAssetTemplate r.(tmpl_ID) x r.(tmpl_Schema) r.(tmpl_Tradeable) r.(tmpl_Creator)));
  ("schema", λ r v, x ← dec_map_any r.(tmpl_Schema) v;
     Some (mkAssetTemplate r.(tmpl_ID) r.(tmpl_Name) x r.(tmpl_Tradeable) r.(tmpl_Creator)));
  ("tradeable", λ r v, x ← dec_bool r.(tmpl_Tradeable) v;
     Some (mkAssetTemplate r.(tmpl_ID) r.(tmpl_Name) r.(tmpl_Schema) x r.(tmpl_Creator)));
  ("creator", λ r v, x ← dec_string r.(tmpl_Creator) v;
     Some (mkAssetTemplate r.(tmpl_ID) r.(tmpl_Name) r.(tmpl_Schema) r.(tmpl_Tradeable) x))].
Definition AssetTemplate_dec : AssetTemplate → jv → option AssetTemplate := dec_struct AssetTemplate_fields.
Definition AssetTemplate_enc (r : AssetTemplate) : jv := VObj [
  ("id", enc_string r.(tmpl_ID));
  ("name", enc_string r.(tmpl_Name));
  ("schema", enc_map_any r.(tmpl_Schema));
  ("tradeable", enc_bool r.(tmpl_Tradeable));
  ("creator", enc_string r.(tmpl_Creator))].
Definition valid_AssetTemplate (r : AssetTemplate) : Prop :=
  valid_utf8 r.(tmpl_ID) = true ∧
  valid_utf8 r.(tmpl_Name) = true ∧
  valid_map_any r.(tmpl_Schema) ∧
  valid_utf8 r.(tmpl_Creator) = true.

Definition Session_fields : list (field Session) := [
  ("id", λ r v, x ← dec_string r.(sess_ID) v;
     Some (mkSession x r.(sess_GameID) r.(sess_Creator) r.(sess_Players) r.(sess_Stakes) r.(sess_Status) r.(sess_Outcome) r.(sess_CreatedAt) r.(sess_ClosedAt)));
  ("game_id", λ r v, x ← dec_string r.(sess_GameID) v;
     Some (mkSession r.(sess_ID) x r.(sess_Creator) r.(sess_Players) r.(sess_Stakes) r.(sess_Status) r.(sess_Outcome) r.(sess_CreatedAt) r.(sess_ClosedAt)));
  ("creator", λ r v, x ← dec_string r.(sess_Creator) v;
     Some (mkSession r.(sess_ID) r.(sess_GameID) x r.(sess_Players) r.(sess_Stakes) r.(sess_Status) r.(sess_Outcome) r.(sess_CreatedAt) r.(sess_ClosedAt)));
  ("players", λ r v, x ← dec_strings r.(sess_Players) v;
     Some (mkSession r.(sess_ID) r.(sess_GameID) r.(sess_Creator) x r.(sess_Stakes) r.(sess_Status) r.(sess_Outcome) r.(sess_CreatedAt) r.(sess_ClosedAt)));
  ("stakes", λ r v, x ← dec_u64 r.(sess_Stakes) v;
     Some (mkSession r.(sess_ID) r.(sess_GameID) r.(sess_Creator) r.(sess_Players) x r.(sess_Status) r.(sess_Outcome) r.(sess_CreatedAt) r.(sess_ClosedAt)));
  ("status", λ r v, x ← dec_string r.(sess_Status) v;
     Some (mkSession r.(sess_ID) r.(sess_GameID) r.(sess_Creator) r.(sess_Players) r.(sess_Stakes) x r.(sess_Outcome) r.(sess_CreatedAt) r.(sess_ClosedAt)));
  ("outcome", λ r v, x ← dec_map_u64 r.(sess_Outcome) v;
     Some (mkSession r.(sess_ID) r.(sess_GameID) r.(sess_Creator) r.(sess_Players) r.(sess_Stakes) r.(sess_Status) x r.(sess_CreatedAt) r.(sess_ClosedAt)));
  ("created_at", λ r v, x ← dec_i64 r.(sess_CreatedAt) v;
     Some (mkSession r.(sess_ID) r.(sess_GameID) r.(sess_Creator) r.(sess_Players) r.(sess_Stakes) r.(sess_Status) r.(sess_Outcome) x r.(sess_ClosedAt)));
  ("closed_at", λ r v, x ← dec_i64 r.(sess_ClosedAt) v;
     Some (mkSession r.(sess_ID) r.(sess_GameID) r.(sess_Creator) r.(sess_Players) r.(sess_Stakes) r.(sess_Status) r.(sess_Outcome) r.(sess_CreatedAt) x))].
Definition Session_dec : Session → jv → option Session := dec_struct Session_fields.
Definition Session_enc (r : Session) : jv := VObj [
  ("id", enc_string r.(sess_ID));
  ("game_id", enc_string r.(sess_GameID));
  ("creator", enc_string r.(sess_Creator));
  ("players", enc_slice enc_string r.(sess_Players));
  ("stakes", enc_int r.(sess_Stakes));
  ("status", enc_string r.(sess_Status));
  ("outcome", enc_map_u64 r.(sess_Outcome));
  ("created_at", enc_int r.(sess_CreatedAt));
  ("closed_at", enc_int r.(sess_ClosedAt))].
Definition valid_Session (r : Session) : Prop :=
  valid_utf8 r.(sess_ID) = true ∧
  valid_utf8 r.(sess_GameID) = true ∧
  valid_utf8 r.(sess_Creator) = true ∧
  Forall (λ s, valid_utf8 s = true) r.(sess_Players) ∧
  is_u64 r.(sess_Stakes) ∧
  valid_utf8 r.(sess_Status) = true ∧
  valid_map_u64 r.(sess_Outcome) ∧
  is_i64 r.(sess_CreatedAt) ∧
  is_i64 r.(sess_ClosedAt).

Definition MarketListing_fields : list (field MarketListing) := [
  ("id", λ r v, x ← dec_string r.(lst_ID) v;
     Some (mkMarketListing x r.(lst_AssetID) r.(lst_Seller) r.(lst_Price) r.(lst_Active) r.(lst_CreatedAt)));
  ("asset_id", λ r v, x ← dec_string r.(lst_AssetID) v;
     Some (mkMarketListing r.(lst_ID) x r.(lst_Seller) r.(lst_Price) r.(lst_Active) r.(lst_CreatedAt)));
  ("seller", λ r v, x ← dec_string r.(lst_Seller) v;
     Some (mkMarketListing r.(lst_ID) r.(lst_AssetID) x r.(lst_Price) r.(lst_Active) r.(lst_CreatedAt)));
  ("price", λ r v, x ← dec_u64 r.(lst_Price) v;
     Some (mkMarketListing r.(lst_ID) r.(lst_AssetID) r.(lst_Seller) x r.(lst_Active) r.(lst_CreatedAt)));
  ("active", λ r v, x ← dec_bool r.(lst_Active) v;
     Some (mkMarketListing r.(lst_ID) r.(lst_AssetID) r.(lst_Seller) r.(lst_Price) x r.(lst_CreatedAt)));
  ("created_at", λ r v, x ← dec_i64 r.(lst_CreatedAt) v;
     Some (mkMarketListing r.(lst_ID) r.(lst_AssetID) r.(lst_Seller) r.(lst_Price) r.(lst_Active) x))].
Definition MarketListing_dec : MarketListing → jv → option MarketListing := dec_struct MarketListing_fields.
Definition MarketListing_enc (r : MarketListing) : jv := VObj [
  ("id", enc_string r.(lst_ID));
  ("asset_id", enc_string r.(lst_AssetID));
  ("seller", enc_string r.(lst_Seller));
  ("price", enc_int r.(lst_Price));
  ("active", enc_bool r.(lst_Active));
  ("created_at", enc_int r.(lst_CreatedAt))].
Definition valid_MarketListing (r : MarketListing) : Prop :=
  valid_utf8 r.(lst_ID) = true ∧
  valid_utf8 r.(lst_AssetID) = true ∧
  valid_utf8 r.(lst_Seller) = true ∧
  is_u64 r.(lst_Price) ∧
  is_i64 r.(lst_CreatedAt).

Definition TransferPayload_fields : list (field TransferPayload) := [
  ("to", λ r v, x ← dec_string r.(tp_To) v;
     Some (mkTransferPayload x r.(tp_Amount)));
  ("amount", λ r v, x ← dec_u64 r.(tp_Amount) v;
     Some (mkTransferPayload r.(tp_To) x))].
Definition TransferPayload_dec : TransferPayload → jv → option TransferPayload := dec_struct TransferPayload_fields.
Definition TransferPayload_enc (r : TransferPayload) : jv := VObj [
  ("to", enc_string r.(tp_To));
  ("amount", enc_int r.(tp_Amount))].
Definition valid_TransferPayload (r : TransferPayload) : Prop :=
  valid_utf8 r.(tp_To) = true ∧
  is_u64 r.(tp_Amount).

Definition MintAssetPayload_fields : list (field MintAssetPayload) := [
  ("template_id", λ r v, x ← dec_string r.(mp_TemplateID) v;
     Some (mkMintAssetPayload x r.(mp_Owner) r.(mp_Properties)));
  ("owner", λ r v, x ← dec_string r.(mp_Owner) v;
     Some (mkMintAssetPayload r.(mp_TemplateID) x r.(mp_Properties)));
  ("properties", λ r v, x ← dec_map_any r.(mp_Properties) v;
     Some (mkMintAssetPayload r.(mp_TemplateID) r.(mp_Owner) x))].
Definition MintAssetPayload_dec : MintAssetPayload → jv → option MintAssetPayload := dec_struct MintAssetPayload_fields.
Definition valid_MintAssetPayload (r : MintAssetPayload) : Prop :=
  valid_utf8 r.(mp_TemplateID) = true ∧
  valid_utf8 r.(mp_Owner) = true ∧
  valid_map_any r.(mp_Properties).

Definition BurnAssetPayload_fields : list (field BurnAssetPayload) := [
  ("asset_id", λ r v, x ← dec_string r.(bp_AssetID) v;
     Some (mkBurnAssetPayload x))].
Definition BurnAssetPayload_dec : BurnAssetPayload → jv → option BurnAssetPayload := dec_struct BurnAssetPayload_fields.
Definition valid_BurnAssetPayload (r : BurnAssetPayload) : Prop :=
  valid_utf8 r.(bp_AssetID) = true.

Definition TransferAssetPayload_fields : list (field TransferAssetPayload) := [
  ("asset_id", λ r v, x ← dec_string r.(tap_AssetID) v;
     Some (mkTransferAssetPayload x r.(tap_To)));
  ("to", λ r v, x ← dec_string r.(tap_To) v;
     Some (mkTransferAssetPayload r.(tap_AssetID) x))].
Definition TransferAssetPayload_dec : TransferAssetPayload → jv → option TransferAssetPayload := dec_struct TransferAssetPayload_fields.
Definition valid_TransferAssetPayload (r : TransferAssetPayload) : Prop :=
  valid_utf8 r.(tap_AssetID) = true ∧
  valid_utf8 r.(tap_To) = true.

Definition RegisterTemplatePayload_fields : list (field RegisterTemplatePayload) := [
  ("id", λ r v, x ← dec_string r.(rp_ID) v;
     Some (mkRegisterTemplatePayload x r.(rp_Name) r.(rp_Schema) r.(rp_Tradeable)));
  ("name", λ r v, x ← dec_string r.(rp_Name) v;
     Some (mkRegisterTemplatePayload r.(rp_ID) x r.(rp_Schema) r.(rp_Tradeable)));
  ("schema", λ r v, x ← dec_map_any r.(rp_Schema) v;
     Some (mkRegisterTemplatePayload r.(rp_ID) r.(rp_Name) x r.(rp_Tradeable)));
  ("tradeable", λ r v, x ← dec_bool r.(rp_Tradeable) v;
     Some (mkRegisterTemplatePayload r.(rp_ID) r.(rp_Name) r.(rp_Schema) x))].
Definition RegisterTemplatePayload_dec : RegisterTemplatePayload → jv → option RegisterTemplatePayload := dec_struct RegisterTemplatePayload_fields.
Definition valid_RegisterTemplatePayload (r : RegisterTemplatePayload) : Prop :=
  valid_utf8 r.(rp_ID) = true ∧
  valid_utf8 r.(rp_Name) = true ∧
  valid_map_any r.(rp_Schema).

Definition SessionOpenPayload_fields : list (field SessionOpenPayload) := [
  ("session_id", λ r v, x ← dec_string r.(so_SessionID) v;
     Some (mkSessionOpenPayload x r.(so_GameID) r.(so_Players) r.(so_Stakes)));
  ("game_id", λ r v, x ← dec_string r.(so_GameID) v;
     Some (mkSessionOpenPayload r.(so_SessionID) x r.(so_Players) r.(so_Stakes)));
  ("players", λ r v, x ← dec_strings r.(so_Players) v;
     Some (mkSessionOpenPayload r.(so_SessionID) r.(so_GameID) x r.(so_Stakes)));
  ("stakes", λ r v, x ← dec_u64 r.(so_Stakes) v;
     Some (mkSessionOpenPayload r.(so_SessionID) r.(so_GameID) r.(so_Players) x))].
Definition SessionOpenPayload_dec : SessionOpenPayload → jv → option SessionOpenPayload := dec_struct SessionOpenPayload_fields.
Definition valid_SessionOpenPayload (r : SessionOpenPayload) : Prop :=
  valid_utf8 r.(so_SessionID) = true ∧
  valid_utf8 r.(so_GameID) = true ∧
  Forall (λ s, valid_utf8 s = true) r.(so_Players) ∧
  is_u64 r.(so_Stakes).

Definition SessionResultPayload_fields : list (field SessionResultPayload) := [
  ("session_id", λ r v, x ← dec_string r.(sr_SessionID) v;
     Some (mkSessionResultPayload x r.(sr_Outcome)));
  ("outcome", λ r v, x ← dec_map_u64 r.(sr_Outcome) v;
     Some (mkSessionResultPayload r.(sr_SessionID) x))].
Definition SessionResultPayload_dec : SessionResultPayload → jv → option SessionResultPayload := dec_struct SessionResultPayload_fields.
Definition valid_SessionResultPayload (r : SessionResultPayload) : Prop :=
  valid_utf8 r.(sr_SessionID) = true ∧
  valid_map_u64 r.(sr_Outcome).

Definition ListMarketPayload_fields : list (field ListMarketPayload) := [
  ("asset_id", λ r v, x ← dec_string r.(lm_AssetID) v;
     Some (mkListMarketPayload x r.(lm_Price)));
  ("price", λ r v, x ← dec_u64 r.(lm_Price) v;
     Some (mkListMarketPayload r.(lm_AssetID) x))].
Definition ListMarketPayload_dec : ListMarketPayload → jv → option ListMarketPayload := dec_struct ListMarketPayload_fields.
Definition valid_ListMarketPayload (r : ListMarketPayload) : Prop :=
  valid_utf8 r.(lm_AssetID) = true ∧
  is_u64 r.(lm_Price).

Definition BuyMarketPayload_fields : list (field BuyMarketPayload) := [
  ("listing_id", λ r v, x ← dec_string r.(bm_ListingID) v;
     Some (mkBuyMarketPayload x))].
Definition BuyMarketPayload_dec : BuyMarketPayload → jv → option BuyMarketPayload := dec_struct BuyMarketPayload_fields.
Definition valid_BuyMarketPayload (r : BuyMarketPayload) : Prop :=
  valid_utf8 r.(bm_ListingID) = true.

(** ** Round trips *)

Lemma Unmarshal_print {A} (dec : A → jv → option A) zero v a :
  wf_jv v = true → dec zero v = Some a → Unmarshal dec zero (print v) = Some a.
Proof. intros Hv Hd. unfold Unmarshal. by rewrite parse_print. Qed.

Lemma Unmarshal_Some {A} (dec : A → jv → option A) zero data a :
  Unmarshal dec zero data = Some a → ∃ v, parse data = Some v ∧ dec zero v = Some a.
Proof. unfold Unmarshal. destruct (parse data); naive_solver. Qed.

#[local] Arguments dec_string : simpl never.
#[local] Arguments dec_u64 : simpl never.
#[local] Arguments dec_i64 : simpl never.
#[local] Arguments dec_bool : simpl never.
#[local] Arguments dec_map_u64 : simpl never.
#[local] Arguments dec_map_any : simpl never.
#[local] Arguments dec_strings : simpl never.
#[local] Arguments enc_string : simpl never.
#[local] Arguments enc_int : simpl never.
#[local] Arguments enc_bool : simpl never.
#[local] Arguments enc_map_u64 : simpl never.
#[local] Arguments enc_map_any : simpl never.
#[local] Arguments enc_slice : simpl never.

#[local] Ltac solve_dec :=
  repeat (dec_field_step;
    [ | first [ rewrite dec_enc_string by done | rewrite dec_enc_u64 by done
              | rewrite dec_enc_i64 by done | rewrite dec_enc_bool
              | rewrite dec_enc_map_u64 by done | rewrite dec_enc_map_any by done
              | unfold dec_strings; rewrite dec_enc_strings by done ];
        simpl; reflexivity ]);
  reflexivity.

#[local] Ltac solve_wf :=
  cbn [wf_jv forallb];
  repeat first
    [ rewrite wf_enc_string | rewrite wf_enc_int | rewrite wf_enc_map_u64
    | rewrite wf_enc_map_any by done | rewrite wf_enc_strings
    | rewrite wf_raw_quote | rewrite valid_int_literal ];
  reflexivity.

Lemma Account_roundtrip r : valid_Account r → Account_dec Account_zero (Account_enc r) = Some r.
Proof.
  destruct r as [x0 x1 x2]. unfold valid_Account. simpl. intros. destruct_and?.
  unfold Account_enc, Account_dec, dec_struct. simpl. solve_dec.
Qed.

Lemma Account_wf r : wf_jv (Account_enc r) = true.
Proof.
  destruct r as [x0 x1 x2]. unfold Account_enc. solve_wf.
Qed.

Lemma Asset_roundtrip r : valid_Asset r → Asset_dec Asset_zero (Asset_enc r) = Some r.
Proof.
  destruct r as [x0 x1 x2 x3 x4 x5 x6]. unfold valid_Asset. simpl. intros. destruct_and?.
  unfold Asset_enc, Asset_dec, dec_struct. simpl. case_bool_decide; subst; simpl app.
  all: solve_dec.
Qed.

Lemma Asset_wf r : valid_Asset r → wf_jv (Asset_enc r) = true.
Proof.
  destruct r as [x0 x1 x2 x3 x4 x5 x6]. unfold Asset_enc, valid_Asset. simpl. intros. destruct_and?.
  case_bool_decide; simpl app. all: solve_wf.
Qed.

Lemma AssetTemplate_roundtrip r : valid_AssetTemplate r → AssetTemplate_dec AssetTemplate_zero (AssetTemplate_enc r) = Some r.
Proof.
  destruct r as [x0 x1 x2 x3 x4]. unfold valid_AssetTemplate. simpl. intros. destruct_and?.
  unfold AssetTemplate_enc, AssetTemplate_dec, dec_struct. simpl. solve_dec.
Qed.

Lemma AssetTemplate_wf r : valid_AssetTemplate r → wf_jv (AssetTemplate_enc r) = true.
Proof.
  destruct r as [x0 x1 x2 x3 x4]. unfold AssetTemplate_enc, valid_AssetTemplate. simpl. intros. destruct_and?. solve_wf.
Qed.

Lemma Session_roundtrip r : valid_Session r → Session_dec Session_zero (Session_enc r) = Some r.
Proof.
  destruct r as [x0 x1 x2 x3 x4 x5 x6 x7 x8]. unfold valid_Session. simpl. intros. destruct_and?.
  unfold Session_enc, Session_dec, dec_struct. simpl. solve_dec.
Qed.

Lemma Session_wf r : wf_jv (Session_enc r) = true.
Proof.
  destruct r as [x0 x1 x2 x3 x4 x5 x6 x7 x8]. unfold Session_enc. solve_wf.
Qed.

Lemma MarketListing_roundtrip r : valid_MarketListing r → MarketListing_dec MarketListing_zero (MarketListing_enc r) = Some r.
Proof.
  destruct r as [x0 x1 x2 x3 x4 x5]. unfold valid_MarketListing. simpl. intros. destruct_and?.
  unfold MarketListing_enc, MarketListing_dec, dec_struct. simpl. solve_dec.
Qed.

Lemma MarketListing_wf r : wf_jv (MarketListing_enc r) = true.
Proof.
  destruct r as [x0 x1 x2 x3 x4 x5]. unfold MarketListing_enc. solve_wf.
Qed.

Lemma TransferPayload_roundtrip r : valid_TransferPayload r → TransferPayload_dec TransferPayload_zero (TransferPayload_enc r) = Some r.
Proof.
  destruct r as [x0 x1]. unfold valid_TransferPayload. simpl. intros. destruct_and?.
  unfold TransferPayload_enc, TransferPayload_dec, dec_struct. simpl. solve_dec.
Qed.

Lemma TransferPayload_wf r : wf_jv (TransferPayload_enc r) = true.
Proof.
  destruct r as [x0 x1]. unfold TransferPayload_enc. solve_wf.
Qed.

(** ** Decoded payloads are valid *)

Context `{!FloatLaws}.

#[local] Ltac solve_valid :=
  apply dec_struct_invariant;
  [ repeat split; (done || constructor)
  | repeat (apply Forall_cons; split; [|]); [..|apply Forall_nil; done];
    intros r y b Hr (x & Hx & [= <-])%bind_Some;
    match goal with |- ?P _ => unfold P in * end; simpl in *;
    unfold dec_strings in *; destruct_and?; split_and?;
    eauto using dec_string_valid, dec_u64_range, dec_map_u64_valid, dec_map_any_valid,
      dec_strings_valid ].

Lemma TransferPayload_dec_valid v p : TransferPayload_dec TransferPayload_zero v = Some p → valid_TransferPayload p.
Proof. unfold TransferPayload_dec. solve_valid. Qed.

Lemma MintAssetPayload_dec_valid v p : MintAssetPayload_dec MintAssetPayload_zero v = Some p → valid_MintAssetPayload p.
Proof. unfold MintAssetPayload_dec. solve_valid. Qed.

Lemma BurnAssetPayload_dec_valid v p : BurnAssetPayload_dec BurnAssetPayload_zero v = Some p → valid_BurnAssetPayload p.
Proof. unfold BurnAssetPayload_dec. solve_valid. Qed.

Lemma TransferAssetPayload_dec_valid v p : TransferAssetPayload_dec TransferAssetPayload_zero v = Some p → valid_TransferAssetPayload p.
Proof. unfold TransferAssetPayload_dec. solve_valid. Qed.

Lemma RegisterTemplatePayload_dec_valid v p : RegisterTemplatePayload_dec RegisterTemplatePayload_zero v = Some p → valid_RegisterTemplatePayload p.
Proof. unfold RegisterTemplatePayload_dec. solve_valid. Qed.

Lemma SessionOpenPayload_dec_valid v p : SessionOpenPayload_dec SessionOpenPayload_zero v = Some p → valid_SessionOpenPayload p.
Proof. unfold SessionOpenPayload_dec. solve_valid. Qed.

Lemma SessionResultPayload_dec_valid v p : SessionResultPayload_dec SessionResultPayload_zero v = Some p → valid_SessionResultPayload p.
Proof. unfold SessionResultPayload_dec. solve_valid. Qed.

Lemma ListMarketPayload_dec_valid v p : ListMarketPayload_dec ListMarketPayload_zero v = Some p → valid_ListMarketPayload p.
Proof. unfold ListMarketPayload_dec. solve_valid. Qed.

Lemma BuyMarketPayload_dec_valid v p : BuyMarketPayload_dec BuyMarketPayload_zero v = Some p → valid_BuyMarketPayload p.
Proof. unfold BuyMarketPayload_dec. solve_valid. Qed.

End Codecs.
