(* ===== verification/Transaction.v ===== *)
(** * Transactions: hashing, signing, verification

    Models [Transaction], [signingBody] and their methods
    ([src/core/transaction.go]).  The theorems: a transaction signed with the
    key of its sender verifies; a transaction that verifies carries the hash of
    its own body as ID, so two verified transactions with the same ID have the
    same body unless they exhibit a SHA-256 collision; the JSON form of a
    transaction is read back to the same transaction. *)
From Stdlib Require Import Ascii Lia ZArith DecimalString DecimalZ.
From stdpp Require Import base gmap strings list sorting.
From S2P Require Import Prelude Crypto Json JsonFacts JsonParse JsonTyped Types.

(** ** Transaction types *)

Definition TxTransfer : string := "transfer".
Definition TxMintAsset : string := "mint_asset".
Definition TxBurnAsset : string := "burn_asset".
Definition TxTransferAsset : string := "transfer_asset".
Definition TxRegisterTemplate : string := "register_template".
Definition TxSessionOpen : string := "session_open".
Definition TxSessionResult : string := "session_result".
Definition TxListMarket : string := "list_market".
Definition TxBuyMarket : string := "buy_market".

Record Transaction : Type := mkTransaction {
  tx_ID : string;
  tx_ChainID : string;
  tx_Type : string;
  tx_From : string;
  tx_Nonce : Z;
  tx_Fee : Z;
  tx_Timestamp : Z;
  tx_Payload : string;
  tx_Signature : string
}.

(** The fields the signature covers. *)
Record signingBody : Type := mkSigningBody {
  sb_ChainID : string;
  sb_Type : string;
  sb_From : string;
  sb_Nonce : Z;
  sb_Fee : Z;
  sb_Timestamp : Z;
  sb_Payload : string
}.

Definition body_of (tx : Transaction) : signingBody :=
  mkSigningBody tx.(tx_ChainID) tx.(tx_Type) tx.(tx_From) tx.(tx_Nonce) tx.(tx_Fee)
    tx.(tx_Timestamp) tx.(tx_Payload).

Definition signingBody_enc (b : signingBody) : option jv :=
  p ← enc_raw b.(sb_Payload);
  Some (VObj [
    ("chain_id", enc_string b.(sb_ChainID));
    ("type", enc_string b.(sb_Type));
    ("from", enc_string b.(sb_From));
    ("nonce", enc_int b.(sb_Nonce));
    ("fee", enc_int b.(sb_Fee));
    ("timestamp", enc_int b.(sb_Timestamp));
    ("payload", p)]).

Definition Transaction_enc (t : Transaction) : option jv :=
  p ← enc_raw t.(tx_Payload);
  Some (VObj [
    ("id", enc_string t.(tx_ID));
    ("chain_id", enc_string t.(tx_ChainID));
    ("type", enc_string t.(tx_Type));
    ("from", enc_string t.(tx_From));
    ("nonce", enc_int t.(tx_Nonce));
    ("fee", enc_int t.(tx_Fee));
    ("timestamp", enc_int t.(tx_Timestamp));
    ("payload", p);
    ("signature", enc_string t.(tx_Signature))]).

Definition Transaction_zero : Transaction := mkTransaction "" "" "" "" 0 0 0 "" "".

Definition set_ID (t : Transaction) (x : string) : Transaction :=
  mkTransaction x t.(tx_ChainID) t.(tx_Type) t.(tx_From) t.(tx_Nonce) t.(tx_Fee)
    t.(tx_Timestamp) t.(tx_Payload) t.(tx_Signature).
Definition set_Signature (t : Transaction) (x : string) : Transaction :=
  mkTransaction t.(tx_ID) t.(tx_ChainID) t.(tx_Type) t.(tx_From) t.(tx_Nonce) t.(tx_Fee)
    t.(tx_Timestamp) t.(tx_Payload) x.

Definition Transaction_fields : list (field Transaction) := [
  ("id", λ t v, x ← dec_string t.(tx_ID) v; Some (set_ID t x));
  ("chain_id", λ t v, x ← dec_string t.(tx_ChainID) v;
     Some (mkTransaction t.(tx_ID) x t.(tx_Type) t.(tx_From) t.(tx_Nonce) t.(tx_Fee)
             t.(tx_Timestamp) t.(tx_Payload) t.(tx_Signature)));
  ("type", λ t v, x ← dec_string t.(tx_Type) v;
     Some (mkTransaction t.(tx_ID) t.(tx_ChainID) x t.(tx_From) t.(tx_Nonce) t.(tx_Fee)
             t.(tx_Timestamp) t.(tx_Payload) t.(tx_Signature)));
  ("from", λ t v, x ← dec_string t.(tx_From) v;
     Some (mkTransaction t.(tx_ID) t.(tx_ChainID) t.(tx_Type) x t.(tx_Nonce) t.(tx_Fee)
             t.(tx_Timestamp) t.(tx_Payload) t.(tx_Signature)));
  ("nonce", λ t v, x ← dec_u64 t.(tx_Nonce) v;
     Some (mkTransaction t.(tx_ID) t.(tx_ChainID) t.(tx_Type) t.(tx_From) x t.(tx_Fee)
             t.(tx_Timestamp) t.(tx_Payload) t.(tx_Signature)));
  ("fee", λ t v, x ← dec_u64 t.(tx_Fee) v;
     Some (mkTransaction t.(tx_ID) t.(tx_ChainID) t.(tx_Type) t.(tx_From) t.(tx_Nonce) x
             t.(tx_Timestamp) t.(tx_Payload) t.(tx_Signature)));
  ("timestamp", λ t v, x ← dec_i64 t.(tx_Timestamp) v;
     Some (mkTransaction t.(tx_ID) t.(tx_ChainID) t.(tx_Type) t.(tx_From) t.(tx_Nonce) t.(tx_Fee)
             x t.(tx_Payload) t.(tx_Signature)));
  ("payload", λ t v, x ← dec_raw t.(tx_Payload) v;
     Some (mkTransaction t.(tx_ID) t.(tx_ChainID) t.(tx_Type) t.(tx_From) t.(tx_Nonce) t.(tx_Fee)
             t.(tx_Timestamp) x t.(tx_Signature)));
  ("signature", λ t v, x ← dec_string t.(tx_Signature) v; Some (set_Signature t x))].

Definition Transaction_dec : Transaction → jv → option Transaction := dec_struct Transaction_fields.

(** Transactions with the values their Go types allow. *)
Definition valid_Transaction (t : Transaction) : Prop :=
  valid_utf8 t.(tx_ID) = true ∧ valid_utf8 t.(tx_ChainID) = true ∧
  valid_utf8 t.(tx_Type) = true ∧ valid_utf8 t.(tx_From) = true ∧
  is_u64 t.(tx_Nonce) ∧ is_u64 t.(tx_Fee) ∧ is_i64 t.(tx_Timestamp) ∧
  valid_utf8 t.(tx_Signature) = true.

(** ** Methods *)

Section Transaction.
Context `{C : Crypto}.

(** [Transaction.Hash]: panics when the payload is not JSON. *)
Definition tx_Hash (tx : Transaction) : outcome string :=
  match signingBody_enc (body_of tx) with
  | None => Panic "transaction hash marshal failed"
  | Some v => Ret (Hash (print v))
  end.

(** [Transaction.Sign] sets the signature and the ID. *)
Definition tx_Sign (priv : string) (tx : Transaction) : outcome Transaction :=
  hash ← tx_Hash tx;
  sig ← Sign priv hash;
  Ret (set_ID (set_Signature tx sig) hash).

Definition tx_Verify (tx : Transaction) : outcome unit :=
  if bool_decide (tx.(tx_From) = "") then Fail (EMsg "missing from field")
  else
    pub ← wrapO "invalid from (must be ed25519 pubkey hex)" (PubKeyFromHex tx.(tx_From));
    hash ← tx_Hash tx;
    if bool_decide (tx.(tx_ID) ≠ hash) then Fail (EMsg "tx ID mismatch")
    else Verify pub hash tx.(tx_Signature).

(** [NewTransaction], given the JSON tree of its payload argument ([None] when
    [json.Marshal] fails) and the clock. *)
Definition NewTransaction (now : Z) (chainID typ from : string) (nonce fee : Z)
    (payload : option jv) : outcome Transaction :=
  match payload with
  | None => Fail (EWrap "marshal payload" (EMsg "json"))
  | Some v => Ret (mkTransaction "" chainID typ from nonce fee now (print v) "")
  end.
End Transaction.

(** ** Facts *)

Section TransactionFacts.
Context `{C : Crypto}.

Lemma dec_of_Z_inj z1 z2 : dec_of_Z z1 = dec_of_Z z2 → z1 = z2.
Proof.
  unfold dec_of_Z. intros H. apply (f_equal NilZero.int_of_string) in H.
  destruct (Z_to_int_nonnil z1), (Z_to_int_nonnil z2).
  rewrite !NilZero.isi in H by done. injection H as H.
  by rewrite <- (DecimalZ.of_to z1), H, DecimalZ.of_to.
Qed.

Lemma quote_inj s1 s2 :
  valid_utf8 s1 = true → valid_utf8 s2 = true → quote s1 = quote s2 → s1 = s2.
Proof. intros H1 H2 E. by rewrite <- (unquote_quote s1), E, unquote_quote. Qed.

Lemma esc_html_plain a r :
  byte_val a < 128 → byte_val a ≠ 60 → byte_val a ≠ 62 → byte_val a ≠ 38 →
  esc_html (String a r) = String a (esc_html r).
Proof.
  intros. cbn [esc_html]. rewrite bool_decide_eq_false_2 by lia.
  destruct r as [|b [|c r3]]; [done|done|]. by rewrite bool_decide_eq_false_2 by lia.
Qed.

Lemma simple_unescape_plain e c :
  simple_unescape e = Some c →
  byte_val e < 128 ∧ byte_val e ≠ 60 ∧ byte_val e ≠ 62 ∧ byte_val e ≠ 38.
Proof.
  unfold simple_unescape. repeat case_bool_decide; intros; simplify_eq; try done.
  by destruct_or!; subst.
Qed.

Lemma hex_char_plain a z :
  from_hex_char a = Some z →
  byte_val a < 128 ∧ byte_val a ≠ 60 ∧ byte_val a ≠ 62 ∧ byte_val a ≠ 38.
Proof. unfold from_hex_char. repeat case_bool_decide; intros; simplify_eq; lia. Qed.

Lemma hex4_plain a b c d :
  is_Some (hex4 a b c d) → ∃ x y z w, from_hex_char a = Some x ∧ from_hex_char b = Some y ∧
    from_hex_char c = Some z ∧ from_hex_char d = Some w.
Proof.
  unfold hex4. intros [r H].
  repeat (apply bind_Some in H as (? & ? & H)). eauto 10.
Qed.

(** Escaping HTML characters keeps a literal well-formed. *)
Lemma wf_esc_html s : wf_raw s = true → wf_raw (esc_html s) = true.
Proof.
  string_induction s as IH. destruct s as [|p r]; [done|].
  cbn [wf_raw]. case_bool_decide as Hq; [done|]. case_bool_decide as Hb.
  - subst. destruct r as [|e r1]; [done|]. rewrite esc_html_plain by done.
    destruct (simple_unescape e) as [u|] eqn:Ee.
    { intros Hr. destruct (simple_unescape_plain _ _ Ee) as (? & ? & ? & ?).
      rewrite esc_html_plain by done. cbn [wf_raw].
      rewrite bool_decide_eq_false_2, bool_decide_eq_true_2, Ee by done.
      apply IH; [simpl; lia|done]. }
    case_bool_decide as Hu; [|done]. subst. destruct r1 as [|a [|b [|c [|d r2]]]]; try done.
    intros [Hh%bool_decide_eq_true Hr]%andb_true_iff.
    destruct (hex4_plain _ _ _ _ Hh) as (? & ? & ? & ? & Ea & Eb & Ec & Ed).
    apply hex_char_plain in Ea as (? & ? & ? & ?), Eb as (? & ? & ? & ?),
      Ec as (? & ? & ? & ?), Ed as (? & ? & ? & ?).
    rewrite !esc_html_plain by done. cbn [wf_raw].
    rewrite bool_decide_eq_false_2, bool_decide_eq_true_2, Ee, bool_decide_eq_true_2,
      bool_decide_eq_true_2 by done.
    apply IH; [simpl; lia|done].
  - intros [Hp%bool_decide_eq_true Hr]%andb_true_iff. cbn [esc_html].
    case_bool_decide as Hh.
    { rewrite wf_raw_esc_ascii by lia. apply IH; [simpl; lia|done]. }
    assert (wf_raw (String p (esc_html r)) = true) as Hplain.
    { cbn [wf_raw]. rewrite !bool_decide_eq_false_2 by done. rewrite bool_decide_eq_true_2 by done.
      apply IH; [simpl; lia|done]. }
    destruct r as [|b [|c r3]]; [done|done|]. case_bool_decide as Hs; [|done].
    destruct Hs as (Ha & Hb' & Hc). rewrite !wf_raw_high in Hr by lia.
    unfold esc_three. rewrite bool_decide_eq_true_2 by done.
    transitivity (wf_raw (esc_html r3)); [by destruct Hc as [-> | ->]|].
    apply IH; [simpl; lia|done].
Qed.

Lemma wf_esc_jv v : wf_jv v = true → wf_jv (esc_jv v) = true.
Proof.
  induction v as [|b|lit|raw|vs IH|ms IH] using jv_tree_ind; try done.
  - apply wf_esc_html.
  - simpl. rewrite !forallb_forall. intros H x (y & <- & Hy)%in_map_iff.
    rewrite Forall_forall in IH. apply IH; [by apply list_elem_of_In|by apply H].
  - simpl. rewrite !forallb_forall. intros H x ([k y] & <- & Hy)%in_map_iff.
    specialize (H _ Hy). simpl in H. apply andb_true_iff in H as [Hk Hv].
    rewrite wf_esc_html by done. rewrite Forall_forall in IH. simpl.
    apply (IH (k, y)); [by apply list_elem_of_In|done].
Qed.

Lemma wf_enc_raw raw v : enc_raw raw = Some v → wf_jv v = true.
Proof.
  unfold enc_raw. case_bool_decide; [by intros [= <-]|].
  destruct (parse raw) eqn:E; [|done]. intros [= <-]. by eapply wf_esc_jv, parse_wf.
Qed.

Lemma signingBody_wf b v : signingBody_enc b = Some v → wf_jv v = true.
Proof.
  unfold signingBody_enc. intros (p & Hp & [= <-])%bind_Some. apply wf_enc_raw in Hp.
  cbn [wf_jv forallb]. rewrite !wf_enc_string, !wf_enc_int, Hp. done.
Qed.

Definition valid_signingBody (b : signingBody) : Prop :=
  valid_utf8 b.(sb_ChainID) = true ∧ valid_utf8 b.(sb_Type) = true ∧
  valid_utf8 b.(sb_From) = true.

(** Two bodies with the same JSON form agree on every field, the payload up to
    its layout. *)
Lemma signingBody_enc_inj b1 b2 v :
  valid_signingBody b1 → valid_signingBody b2 →
  signingBody_enc b1 = Some v → signingBody_enc b2 = Some v →
  sb_ChainID b1 = sb_ChainID b2 ∧ sb_Type b1 = sb_Type b2 ∧ sb_From b1 = sb_From b2 ∧
  sb_Nonce b1 = sb_Nonce b2 ∧ sb_Fee b1 = sb_Fee b2 ∧ sb_Timestamp b1 = sb_Timestamp b2 ∧
  enc_raw (sb_Payload b1) = enc_raw (sb_Payload b2).
Proof.
  unfold signingBody_enc, valid_signingBody.
  intros (? & ? & ?) (? & ? & ?) (p1 & E1 & Hv1)%bind_Some (p2 & E2 & Hv2)%bind_Some.
  rewrite E1, E2. unfold enc_string, enc_int in *. simplify_eq.
  split_and!; eauto using quote_inj, dec_of_Z_inj.
Qed.

(** *** Compaction is idempotent *)

(** [esc_html] keeps the first byte of a text, or puts a backslash there. *)
Lemma esc_html_head b r : ∃ b' r', esc_html (String b r) = String b' r' ∧ (b' = b ∨ b' = c_back).
Proof.
  cbn [esc_html]. case_bool_decide as Hh.
  { rewrite <- (byte_of_val b). destruct Hh as [-> | [-> | ->]]; eauto. }
  destruct r as [|c [|d r3]]; eauto. case_bool_decide as Hs; eauto.
  unfold esc_three. rewrite bool_decide_eq_true_2 by done. eauto.
Qed.

Lemma esc_html_keep a r :
  byte_val a ≠ 60 → byte_val a ≠ 62 → byte_val a ≠ 38 →
  (∀ b c r3, r = String b (String c r3) →
     ¬ (byte_val a = 226 ∧ byte_val b = 128 ∧ (byte_val c = 168 ∨ byte_val c = 169))) →
  esc_html (String a r) = String a (esc_html r).
Proof.
  intros ? ? ? Hn. cbn [esc_html]. rewrite bool_decide_eq_false_2 by lia.
  destruct r as [|b [|c r3]]; [done|done|]. by rewrite bool_decide_eq_false_2 by eauto.
Qed.

Lemma esc_html_idem s : esc_html (esc_html s) = esc_html s.
Proof.
  string_induction s as IH. destruct s as [|a r]; [done|]. cbn [esc_html].
  case_bool_decide as Hh.
  { transitivity (esc_ascii a +:+ esc_html (esc_html r)); [|by rewrite IH by (simpl; lia)].
    rewrite <- (byte_of_val a). destruct Hh as [-> | [-> | ->]].
    all: match goal with |- context [esc_ascii ?x] =>
           let e := eval vm_compute in (esc_ascii x) in change (esc_ascii x) with e end.
    all: rewrite !sapp_cons, sapp_nil_l, !esc_html_plain by done; done. }
  assert (esc_html r ≠ "" → (∀ b c r3, r = String b (String c r3) →
      ¬ (byte_val a = 226 ∧ byte_val b = 128 ∧ (byte_val c = 168 ∨ byte_val c = 169))) →
    esc_html (String a (esc_html r)) = String a (esc_html r)) as Hkeep.
  { intros _ Hn. rewrite <- (IH r) at 2 by (simpl; lia). apply esc_html_keep; [lia..|].
    intros b' c' r' Er (Ha & Hb' & Hc').
    destruct r as [|b r2]; [done|].
    destruct (esc_html_head b r2) as (b1 & r1 & E1 & Hb1). rewrite E1 in Er. injection Er as -> ->.
    destruct Hb1 as [-> | ->]; [|vm_compute in Hb'; discriminate].
    rewrite esc_html_keep in E1 by (lia || intros; lia). injection E1 as E1.
    destruct r2 as [|c r3]; [done|].
    destruct (esc_html_head c r3) as (c1 & r4 & E4 & Hc1). rewrite E4 in E1. injection E1 as -> ->.
    destruct Hc1 as [-> | ->]; [by eapply Hn|]. vm_compute in Hc'. destruct Hc'; discriminate. }
  destruct r as [|b r2]; [by apply esc_html_keep; [lia..|]|].
  assert (esc_html (String b r2) ≠ "") as Hne
    by (by destruct (esc_html_head b r2) as (? & ? & -> & _)).
  destruct r2 as [|c r3]; [apply Hkeep; [done|by intros]|].
  case_bool_decide as Hs; [|apply Hkeep; [done|by intros ? ? ? [= -> -> ->]]].
  transitivity (esc_three a b c +:+ esc_html (esc_html r3)); [|by rewrite IH by (simpl; lia)].
  unfold esc_three. rewrite bool_decide_eq_true_2 by done.
  destruct Hs as (_ & _ & [-> | ->]);
    rewrite !sapp_cons, sapp_nil_l, !esc_html_plain by done; done.
Qed.

Lemma esc_jv_idem v : esc_jv (esc_jv v) = esc_jv v.
Proof.
  induction v as [|b|lit|raw|vs IH|ms IH] using jv_tree_ind; try done; simpl; f_equal.
  - apply esc_html_idem.
  - rewrite map_map. apply map_ext_in. intros x Hx. rewrite Forall_forall in IH.
    apply IH. by apply list_elem_of_In.
  - rewrite map_map. apply map_ext_in. intros [k x] Hx. rewrite Forall_forall in IH.
    rewrite esc_html_idem. f_equal. apply (IH (k, x)). by apply list_elem_of_In.
Qed.

(** The compact text of a payload denotes the same tree. *)
Lemma enc_raw_print raw v : enc_raw raw = Some v → enc_raw (print v) = Some v.
Proof.
  intros H. pose proof (wf_enc_raw _ _ H) as Hwf. unfold enc_raw at 1.
  rewrite bool_decide_eq_false_2.
  - rewrite parse_print by done. simpl. f_equal. revert H. unfold enc_raw.
    case_bool_decide; [by intros [= <-]|]. destruct (parse raw); [|done].
    intros [= <-]. apply esc_jv_idem.
  - intros E. pose proof (print_length_pos v Hwf) as Hl. rewrite E in Hl. simpl in Hl. lia.
Qed.

Lemma tx_Verify_Ret_inv tx :
  tx_Verify tx = Ret tt →
  tx.(tx_From) ≠ "" ∧ tx_Hash tx = Ret tx.(tx_ID) ∧
  ∃ pub, PubKeyFromHex tx.(tx_From) = Ret pub ∧ Verify pub tx.(tx_ID) tx.(tx_Signature) = Ret tt.
Proof.
  unfold tx_Verify. case_bool_decide; [done|].
  destruct (PubKeyFromHex _) as [pub| |]; simpl; try done.
  destruct (tx_Hash tx) as [h| |]; simpl; try done.
  case_bool_decide; [done|]. subst. intros HV. eauto.
Qed.
End TransactionFacts.

(** ** Properties *)

Section TransactionProperties.
Context `{C : Crypto}.

(** The text [tx_Hash] hashes, if there is one. *)
Definition body_text (t : Transaction) : list string :=
  match signingBody_enc (body_of t) with Some v => [print v] | None => [] end.

(** Two digests of bodies are equal only if the bodies have the same JSON
    text, or the texts collide. *)
Lemma tx_Hash_inj t1 t2 h :
  valid_signingBody (body_of t1) → valid_signingBody (body_of t2) →
  tx_Hash t1 = Ret h → tx_Hash t2 = Ret h →
  (signingBody_enc (body_of t1) = signingBody_enc (body_of t2)) ∨
  collision_in (body_text t1 ++ body_text t2).
Proof.
  intros Hv1 Hv2. unfold tx_Hash, body_text.
  destruct (signingBody_enc (body_of t1)) as [v1|] eqn:E1; [|done].
  destruct (signingBody_enc (body_of t2)) as [v2|] eqn:E2; [|done].
  intros [= <-] [= [Hp|]%Hash_inj_or]; [left|right].
  - apply (f_equal parse) in Hp. by rewrite !parse_print in Hp by (by eapply signingBody_wf).
  - eapply collision_in_mono; [|done]. set_solver.
Qed.

Definition same_request (t1 t2 : Transaction) : Prop :=
  tx_ChainID t1 = tx_ChainID t2 ∧ tx_Type t1 = tx_Type t2 ∧ tx_From t1 = tx_From t2 ∧
  tx_Nonce t1 = tx_Nonce t2 ∧ tx_Fee t1 = tx_Fee t2 ∧ tx_Timestamp t1 = tx_Timestamp t2 ∧
  enc_raw (tx_Payload t1) = enc_raw (tx_Payload t2).

(** C29: two transactions that pass [Verify] with the same ID ask for the same
    thing: chain, type, sender, nonce, fee, timestamp and payload agree (the
    payload as JSON), unless the texts of their bodies are a SHA-256 collision. *)
Theorem tx_id_binds_request t1 t2 :
  valid_signingBody (body_of t1) → valid_signingBody (body_of t2) →
  tx_Verify t1 = Ret tt → tx_Verify t2 = Ret tt → tx_ID t1 = tx_ID t2 →
  same_request t1 t2 ∨ collision_in (body_text t1 ++ body_text t2).
Proof.
  intros Hv1 Hv2 (_ & H1 & _)%tx_Verify_Ret_inv (_ & H2 & _)%tx_Verify_Ret_inv Hid.
  rewrite Hid in H1. destruct (tx_Hash_inj _ _ _ Hv1 Hv2 H1 H2) as [He|]; [left|by right].
  unfold tx_Hash in H2. destruct (signingBody_enc (body_of t2)) as [v|] eqn:E; [|done].
  exact (signingBody_enc_inj _ _ v Hv1 Hv2 He E).
Qed.

Context `{!CryptoLaws}.

Lemma tx_Sign_Verify priv pub tx :
  is_keypair priv → Public priv = Ret pub → tx_From tx = PublicKey_Hex pub →
  is_Some (enc_raw (tx_Payload tx)) →
  ∃ tx', tx_Sign priv tx = Ret tx' ∧ tx_Verify tx' = Ret tt ∧ body_of tx' = body_of tx.
Proof.
  intros Hk HP Hf [p Hp]. unfold tx_Sign.
  assert (∃ h, tx_Hash tx = Ret h) as [h Hh].
  { unfold tx_Hash, signingBody_enc. simpl. rewrite Hp. simpl. eauto. }
  destruct (Sign_Verify priv pub h Hk HP) as (sig & Hs & HV).
  rewrite Hh. simpl. rewrite Hs. simpl. eexists. split; [done|]. split; [|done].
  destruct (keypair_Public _ Hk) as (seed & Hl & -> & HP'). rewrite HP in HP'.
  injection HP' as ->. pose proof (ed25519_pub_length seed Hl) as Hpl.
  pose proof (PubKeyFromHex_Hex _ Hpl) as HH. unfold tx_Verify. simpl. rewrite Hf.
  rewrite bool_decide_eq_false_2 by (by eapply PubKeyFromHex_nonempty).
  rewrite HH. simpl.
  assert (tx_Hash (set_ID (set_Signature tx sig) h) = Ret h) as -> by (by rewrite <- Hh).
  simpl. by rewrite bool_decide_eq_false_2 by (intros []; done).
Qed.

(** Signing with the key of the sender yields a transaction that passes
    [Verify] and asks for what was signed. *)
Theorem tx_sign_then_verify priv pub tx :
  is_keypair priv → Public priv = Ret pub → tx_From tx = PublicKey_Hex pub →
  is_Some (enc_raw (tx_Payload tx)) →
  ∃ tx', tx_Sign priv tx = Ret tx' ∧ tx_Verify tx' = Ret tt ∧ body_of tx' = body_of tx.
Proof. apply tx_Sign_Verify. Qed.
End TransactionProperties.

(** *** Transactions in transit *)

#[local] Arguments dec_string : simpl never.
#[local] Arguments dec_u64 : simpl never.
#[local] Arguments dec_i64 : simpl never.
#[local] Arguments dec_raw : simpl never.
#[local] Arguments enc_string : simpl never.
#[local] Arguments enc_int : simpl never.

Definition with_payload (t : Transaction) (p : string) : Transaction :=
  mkTransaction t.(tx_ID) t.(tx_ChainID) t.(tx_Type) t.(tx_From) t.(tx_Nonce) t.(tx_Fee)
    t.(tx_Timestamp) p t.(tx_Signature).

Lemma Transaction_wf t v : Transaction_enc t = Some v → wf_jv v = true.
Proof.
  unfold Transaction_enc. intros (p & Hp & [= <-])%bind_Some. apply wf_enc_raw in Hp.
  cbn [wf_jv forallb]. rewrite !wf_enc_string, !wf_enc_int, Hp. done.
Qed.

Lemma Transaction_dec_enc t v :
  valid_Transaction t → Transaction_enc t = Some v →
  ∃ p, enc_raw (tx_Payload t) = Some p ∧
    Transaction_dec Transaction_zero v = Some (with_payload t (print p)).
Proof.
  unfold valid_Transaction, Transaction_enc.
  intros (? & ? & ? & ? & ? & ? & ? & ?) (p & Hp & [= <-])%bind_Some.
  exists p. split; [done|]. destruct t. unfold Transaction_dec, dec_struct. simpl in *.
  repeat (dec_field_step;
    [ | first [ rewrite dec_enc_string by done | rewrite dec_enc_u64 by done
              | rewrite dec_enc_i64 by done | unfold dec_raw ]; simpl; reflexivity ]).
  reflexivity.
Qed.

Section Transit.
Context `{C : Crypto}.

Lemma tx_Hash_with_payload t p :
  enc_raw (tx_Payload t) = Some p → tx_Hash (with_payload t (print p)) = tx_Hash t.
Proof.
  intros Hp. unfold tx_Hash, signingBody_enc. simpl. by rewrite (enc_raw_print _ _ Hp), Hp.
Qed.

Lemma tx_Verify_with_payload t p :
  enc_raw (tx_Payload t) = Some p → tx_Verify (with_payload t (print p)) = tx_Verify t.
Proof. intros Hp. unfold tx_Verify. by rewrite (tx_Hash_with_payload _ _ Hp). Qed.

(** A transaction that is marshalled and read back by another node is the
    same transaction with its payload in compact form, and it hashes and
    verifies there as it did here. *)
Theorem tx_json_transit t v :
  valid_Transaction t → Transaction_enc t = Some v →
  ∃ p t', enc_raw (tx_Payload t) = Some p ∧ t' = with_payload t (print p) ∧
    Unmarshal Transaction_dec Transaction_zero (print v) = Some t' ∧
    tx_Hash t' = tx_Hash t ∧ tx_Verify t' = tx_Verify t.
Proof.
  intros Hv He. destruct (Transaction_dec_enc _ _ Hv He) as (p & Hp & Hd).
  exists p, (with_payload t (print p)). split_and!; try done.
  - apply Unmarshal_print; [by eapply Transaction_wf|done].
  - by apply tx_Hash_with_payload.
  - by apply tx_Verify_with_payload.
Qed.
End Transit.
