(* ===== verification/Block.v ===== *)
(** * Blocks: header hash, proposer signature, transaction root

    Models [src/core/block.go].  A [[]*Transaction] is a list of possibly nil
    pointers, as [json.Unmarshal] builds it from an array with [null] elements;
    following a nil pointer is a panic.  The theorems: a block built and signed
    by the code passes [Verify] and [VerifyIntegrity]; the header hash binds
    every header field and the transaction root binds the sequence of
    transaction IDs, up to SHA-256 collisions; a block read back from its JSON
    form has the same hashes. *)
From Stdlib Require Import Ascii Lia ZArith.
From stdpp Require Import base gmap strings list sorting.
From S2P Require Import Prelude Crypto Json JsonFacts JsonParse JsonTyped Types Transaction.

Record BlockHeader : Type := mkBlockHeader {
  hdr_ChainID : string;
  hdr_Height : Z;
  hdr_PrevHash : string;
  hdr_StateRoot : string;
  hdr_TxRoot : string;
  hdr_Timestamp : Z;
  hdr_Proposer : string
}.

Record Block : Type := mkBlock {
  blk_Header : BlockHeader;
  blk_Transactions : list (option Transaction);
  blk_Hash : string;
  blk_Signature : string
}.

(** Following a pointer. *)
Definition deref {A} (p : option A) : outcome A :=
  match p with
  | Some a => Ret a
  | None => Panic "invalid memory address or nil pointer dereference"
  end.

(** ** JSON *)

Definition BlockHeader_enc (h : BlockHeader) : jv := VObj [
  ("chain_id", enc_string h.(hdr_ChainID));
  ("height", enc_int h.(hdr_Height));
  ("prev_hash", enc_string h.(hdr_PrevHash));
  ("state_root", enc_string h.(hdr_StateRoot));
  ("tx_root", enc_string h.(hdr_TxRoot));
  ("timestamp", enc_int h.(hdr_Timestamp));
  ("proposer", enc_string h.(hdr_Proposer))].

Definition set_StateRoot (h : BlockHeader) (x : string) : BlockHeader :=
  mkBlockHeader h.(hdr_ChainID) h.(hdr_Height) h.(hdr_PrevHash) x h.(hdr_TxRoot)
    h.(hdr_Timestamp) h.(hdr_Proposer).

Definition BlockHeader_fields : list (field BlockHeader) := [
  ("chain_id", λ h v, x ← dec_string h.(hdr_ChainID) v;
     Some (mkBlockHeader x h.(hdr_Height) h.(hdr_PrevHash) h.(hdr_StateRoot) h.(hdr_TxRoot)
             h.(hdr_Timestamp) h.(hdr_Proposer)));
  ("height", λ h v, x ← dec_i64 h.(hdr_Height) v;
     Some (mkBlockHeader h.(hdr_ChainID) x h.(hdr_PrevHash) h.(hdr_StateRoot) h.(hdr_TxRoot)
             h.(hdr_Timestamp) h.(hdr_Proposer)));
  ("prev_hash", λ h v, x ← dec_string h.(hdr_PrevHash) v;
     Some (mkBlockHeader h.(hdr_ChainID) h.(hdr_Height) x h.(hdr_StateRoot) h.(hdr_TxRoot)
             h.(hdr_Timestamp) h.(hdr_Proposer)));
  ("state_root", λ h v, x ← dec_string h.(hdr_StateRoot) v; Some (set_StateRoot h x));
  ("tx_root", λ h v, x ← dec_string h.(hdr_TxRoot) v;
     Some (mkBlockHeader h.(hdr_ChainID) h.(hdr_Height) h.(hdr_PrevHash) h.(hdr_StateRoot) x
             h.(hdr_Timestamp) h.(hdr_Proposer)));
  ("timestamp", λ h v, x ← dec_i64 h.(hdr_Timestamp) v;
     Some (mkBlockHeader h.(hdr_ChainID) h.(hdr_Height) h.(hdr_PrevHash) h.(hdr_StateRoot)
             h.(hdr_TxRoot) x h.(hdr_Proposer)));
  ("proposer", λ h v, x ← dec_string h.(hdr_Proposer) v;
     Some (mkBlockHeader h.(hdr_ChainID) h.(hdr_Height) h.(hdr_PrevHash) h.(hdr_StateRoot)
             h.(hdr_TxRoot) h.(hdr_Timestamp) x))].

Definition BlockHeader_dec : BlockHeader → jv → option BlockHeader := dec_struct BlockHeader_fields.
Definition BlockHeader_zero : BlockHeader := mkBlockHeader "" 0 "" "" "" 0 "".

(** [*Transaction]: nil is written [null] and read from it. *)
Definition enc_tx_ptr (p : option Transaction) : option jv :=
  match p with None => Some VNull | Some t => Transaction_enc t end.
Definition dec_tx_ptr (v : jv) : option (option Transaction) :=
  match v with VNull => Some None | _ => Some <$> Transaction_dec Transaction_zero v end.
Definition dec_tx_ptrs (v : jv) : option (list (option Transaction)) :=
  match v with VNull => Some [] | VArr vs => mapM dec_tx_ptr vs | _ => None end.

(** The list of transactions is written as an array also when it is nil in Go,
    which writes [null]; both are read back as the empty list. *)
Definition Block_enc (b : Block) : option jv :=
  txs ← mapM enc_tx_ptr b.(blk_Transactions);
  Some (VObj [
    ("header", BlockHeader_enc b.(blk_Header));
    ("transactions", VArr txs);
    ("hash", enc_string b.(blk_Hash));
    ("signature", enc_string b.(blk_Signature))]).

Definition Block_fields : list (field Block) := [
  ("header", λ b v, x ← BlockHeader_dec b.(blk_Header) v;
     Some (mkBlock x b.(blk_Transactions) b.(blk_Hash) b.(blk_Signature)));
  ("transactions", λ b v, x ← dec_tx_ptrs v;
     Some (mkBlock b.(blk_Header) x b.(blk_Hash) b.(blk_Signature)));
  ("hash", λ b v, x ← dec_string b.(blk_Hash) v;
     Some (mkBlock b.(blk_Header) b.(blk_Transactions) x b.(blk_Signature)));
  ("signature", λ b v, x ← dec_string b.(blk_Signature) v;
     Some (mkBlock b.(blk_Header) b.(blk_Transactions) b.(blk_Hash) x))].
Definition Block_dec : Block → jv → option Block := dec_struct Block_fields.
Definition Block_zero : Block := mkBlock BlockHeader_zero [] "" "".

Definition valid_BlockHeader (h : BlockHeader) : Prop :=
  valid_utf8 h.(hdr_ChainID) = true ∧ is_i64 h.(hdr_Height) ∧
  valid_utf8 h.(hdr_PrevHash) = true ∧ valid_utf8 h.(hdr_StateRoot) = true ∧
  valid_utf8 h.(hdr_TxRoot) = true ∧ is_i64 h.(hdr_Timestamp) ∧
  valid_utf8 h.(hdr_Proposer) = true.

Definition valid_Block (b : Block) : Prop :=
  valid_BlockHeader b.(blk_Header) ∧
  Forall (λ p, match p with Some t => valid_Transaction t | None => True end)
    b.(blk_Transactions) ∧
  valid_utf8 b.(blk_Hash) = true ∧ valid_utf8 b.(blk_Signature) = true.

(** ** Methods *)

Section Block.
Context `{C : Crypto}.

(** [Block.ComputeHash]: marshalling a header cannot fail. *)
Definition ComputeHash (b : Block) : string := Hash (print (BlockHeader_enc b.(blk_Header))).

Definition blk_Sign (priv : string) (b : Block) : outcome Block :=
  let h := ComputeHash b in
  sig ← Sign priv h;
  Ret (mkBlock b.(blk_Header) b.(blk_Transactions) h sig).

Definition blk_Verify (b : Block) (pub : string) : outcome unit :=
  if bool_decide (b.(blk_Hash) ≠ ComputeHash b) then Fail (EMsg "block hash mismatch")
  else Verify pub b.(blk_Hash) b.(blk_Signature).

(** The bytes [ComputeTxRoot] writes to its buffer. *)
Fixpoint tx_root_bytes (txs : list (option Transaction)) : outcome string :=
  match txs with
  | [] => Ret ""
  | p :: txs' => tx ← deref p; rest ← tx_root_bytes txs'; Ret (frame tx.(tx_ID) +:+ rest)
  end.

Definition ComputeTxRoot (txs : list (option Transaction)) : outcome string :=
  match txs with
  | [] => Ret (Hash "empty")
  | _ => buf ← tx_root_bytes txs; Ret (Hash buf)
  end.

Definition VerifyIntegrity (b : Block) : outcome unit :=
  if bool_decide (b.(blk_Hash) ≠ ComputeHash b) then Fail (EMsg "block hash mismatch")
  else
    txRoot ← ComputeTxRoot b.(blk_Transactions);
    if bool_decide (b.(blk_Header).(hdr_TxRoot) ≠ txRoot) then Fail (EMsg "tx_root mismatch")
    else Ret tt.

Definition NewBlock (now : Z) (chainID : string) (height : Z) (prevHash proposer : string)
    (txs : list (option Transaction)) : outcome Block :=
  txRoot ← ComputeTxRoot txs;
  Ret (mkBlock (mkBlockHeader chainID height prevHash "" txRoot now proposer) txs "" "").
End Block.

(** ** Facts *)

Section BlockFacts.
Context `{C : Crypto}.

Lemma BlockHeader_wf h : wf_jv (BlockHeader_enc h) = true.
Proof.
  unfold BlockHeader_enc. cbn [wf_jv forallb]. by rewrite !wf_enc_string, !wf_enc_int.
Qed.

Lemma BlockHeader_enc_inj h1 h2 :
  valid_BlockHeader h1 → valid_BlockHeader h2 → BlockHeader_enc h1 = BlockHeader_enc h2 → h1 = h2.
Proof.
  destruct h1, h2. unfold valid_BlockHeader, BlockHeader_enc, enc_string, enc_int. simpl.
  intros ? ? [=]. destruct_and!. f_equal; eauto using quote_inj, dec_of_Z_inj.
Qed.

Lemma tx_root_bytes_Some ts :
  tx_root_bytes (Some <$> ts) = Ret (foldr (λ t r, frame (tx_ID t) +:+ r) "" ts).
Proof. induction ts as [|t ts IH]; [done|]. cbn -[frame]. rewrite IH. done. Qed.

(** The root is defined exactly on lists without nil pointers. *)
Lemma ComputeTxRoot_Ret_inv txs r :
  ComputeTxRoot txs = Ret r → ∃ ts, txs = Some <$> ts.
Proof.
  assert (∀ b, tx_root_bytes txs = Ret b → ∃ ts, txs = Some <$> ts) as Hb.
  { induction txs as [|[t|] txs IH]; intros b; cbn -[frame]; [by exists []| |done].
    destruct (tx_root_bytes txs); try done. intros _.
    destruct (IH _ eq_refl) as [ts ->]. by exists (t :: ts). }
  destruct txs as [|p txs]; [by exists []|]. unfold ComputeTxRoot.
  destruct (tx_root_bytes (p :: txs)) eqn:E; [|done..]. intros _. eauto.
Qed.

Lemma ComputeTxRoot_Some ts :
  ComputeTxRoot (Some <$> ts) =
    Ret (Hash (match ts with [] => "empty" | _ => foldr (λ t r, frame (tx_ID t) +:+ r) "" ts end)).
Proof.
  destruct ts as [|t ts]; [done|].
  transitivity (buf ← tx_root_bytes (Some <$> t :: ts); Ret (Hash buf)); [done|].
  by rewrite tx_root_bytes_Some.
Qed.

Definition short_ids (ts : list Transaction) : Prop :=
  Forall (λ t, zlen (tx_ID t) < 4294967296) ts.

Lemma frames_inj ts1 ts2 :
  short_ids ts1 → short_ids ts2 →
  foldr (λ t r, frame (tx_ID t) +:+ r) "" ts1 = foldr (λ t r, frame (tx_ID t) +:+ r) "" ts2 →
  tx_ID <$> ts1 = tx_ID <$> ts2.
Proof.
  intros H1. revert ts2. induction H1 as [|t1 ts1 Ht1 _ IH]; intros ts2 H2; inversion H2; subst.
  - done.
  - cbn -[frame]. intros E%(f_equal String.length). rewrite slength_app, frame_length in E.
    simpl in E. lia.
  - cbn -[frame]. intros E%(f_equal String.length). rewrite slength_app, frame_length in E.
    simpl in E. lia.
  - cbn -[frame]. intros [Hid Hr]%frame_app_inj; [|done..]. rewrite Hid. f_equal.
    by apply IH.
Qed.

(** No list of framed IDs spells the marker of the empty list. *)
Lemma frames_not_empty_marker t ts :
  short_ids (t :: ts) → foldr (λ t r, frame (tx_ID t) +:+ r) "" (t :: ts) ≠ "empty".
Proof.
  intros Hs E. inversion Hs as [|?? Ht _]; subst. cbn -[frame] in E.
  apply (f_equal read_be32) in E. unfold frame in E. rewrite sapp_assoc, read_be32_app in E
    by (pose proof (zlen_nonneg (tx_ID t)); lia).
  vm_compute (read_be32 "empty") in E. injection E as Hl Hr.
  apply (f_equal String.length) in Hr. rewrite slength_app in Hr. unfold zlen in Hl.
  simpl in Hr. lia.
Qed.

(** The texts [ComputeTxRoot] and [ComputeHash] hash. *)
Definition root_text (ts : list Transaction) : string :=
  match ts with [] => "empty" | _ => foldr (λ t r, frame (tx_ID t) +:+ r) "" ts end.
Definition header_text (b : Block) : string := print (BlockHeader_enc (blk_Header b)).

Lemma tx_root_inj ts1 ts2 r :
  short_ids ts1 → short_ids ts2 →
  ComputeTxRoot (Some <$> ts1) = Ret r → ComputeTxRoot (Some <$> ts2) = Ret r →
  tx_ID <$> ts1 = tx_ID <$> ts2 ∨ collision_in [root_text ts1; root_text ts2].
Proof.
  intros H1 H2. rewrite !ComputeTxRoot_Some. intros [= <-] [= E]. symmetry in E.
  apply Hash_inj_or in E as [Heq|]; [left|by right]. unfold root_text in Heq.
  destruct ts1 as [|t1 ts1], ts2 as [|t2 ts2]; cbn match in Heq.
  - done.
  - by destruct (frames_not_empty_marker t2 ts2).
  - by destruct (frames_not_empty_marker t1 ts1).
  - by apply frames_inj.
Qed.

Lemma header_hash_inj b1 b2 :
  valid_BlockHeader (blk_Header b1) → valid_BlockHeader (blk_Header b2) →
  ComputeHash b1 = ComputeHash b2 →
  blk_Header b1 = blk_Header b2 ∨ collision_in [header_text b1; header_text b2].
Proof.
  intros H1 H2 [Hp|]%Hash_inj_or; [left|by right].
  apply (f_equal parse) in Hp. rewrite !parse_print in Hp by apply BlockHeader_wf.
  apply (inj Some) in Hp. by apply BlockHeader_enc_inj.
Qed.

Lemma VerifyIntegrity_Ret_inv b :
  VerifyIntegrity b = Ret tt →
  blk_Hash b = ComputeHash b ∧ ComputeTxRoot (blk_Transactions b) = Ret (hdr_TxRoot (blk_Header b)).
Proof.
  unfold VerifyIntegrity. case_bool_decide; [done|].
  destruct (ComputeTxRoot (blk_Transactions b)) as [r| |]; simpl; try done.
  case_bool_decide; [done|]. by subst.
Qed.
End BlockFacts.

(** ** Properties *)

Section BlockProperties.
Context `{C : Crypto}.

(** C28: two blocks that pass [VerifyIntegrity] and have the same hash have the
    same header and the same sequence of transaction IDs, unless two of the four
    texts hashed for them are a SHA-256 collision. *)
Theorem block_hash_binds_contents b1 b2 ts1 ts2 :
  valid_BlockHeader (blk_Header b1) → valid_BlockHeader (blk_Header b2) →
  blk_Transactions b1 = Some <$> ts1 → blk_Transactions b2 = Some <$> ts2 →
  short_ids ts1 → short_ids ts2 →
  VerifyIntegrity b1 = Ret tt → VerifyIntegrity b2 = Ret tt → blk_Hash b1 = blk_Hash b2 →
  (blk_Header b1 = blk_Header b2 ∧ tx_ID <$> ts1 = tx_ID <$> ts2) ∨
  collision_in [header_text b1; header_text b2; root_text ts1; root_text ts2].
Proof.
  intros Hv1 Hv2 Ht1 Ht2 Hs1 Hs2 [Hh1 Hr1]%VerifyIntegrity_Ret_inv
    [Hh2 Hr2]%VerifyIntegrity_Ret_inv Hh.
  destruct (header_hash_inj b1 b2 Hv1 Hv2) as [He|]; [congruence| |].
  2:{ right. eapply collision_in_mono; [|done]. set_solver. }
  rewrite Ht1 in Hr1. rewrite Ht2, <- He in Hr2.
  destruct (tx_root_inj _ _ _ Hs1 Hs2 Hr1 Hr2); [by left|right].
  eapply collision_in_mono; [|done]. set_solver.
Qed.

(** A block with a nil transaction makes [VerifyIntegrity] panic as soon as
    its hash matches its header, whatever else it carries. *)
Theorem nil_transaction_panics b :
  None ∈ blk_Transactions b → blk_Hash b = ComputeHash b →
  ∃ msg, VerifyIntegrity b = Panic msg.
Proof.
  intros Hin Hh. unfold VerifyIntegrity. rewrite bool_decide_eq_false_2 by (by intros []).
  assert (∃ msg, tx_root_bytes (blk_Transactions b) = Panic msg) as [msg Hm].
  { revert Hin. generalize (blk_Transactions b). intros txs. induction txs as [|[t|] txs IH].
    - by intros ?%elem_of_nil.
    - intros [|Hin]%elem_of_cons; [done|]. destruct (IH Hin) as [msg Hm].
      exists msg. cbn -[frame]. by rewrite Hm.
    - intros _. by eexists. }
  destruct (blk_Transactions b) as [|p txs]; [by apply elem_of_nil in Hin|].
  unfold ComputeTxRoot. rewrite Hm. by eexists.
Qed.

Context `{!CryptoLaws}.

(** A block made by [NewBlock] from transactions, given a state root and
    signed with the proposer's key, passes [Verify] under the proposer's public
    key and [VerifyIntegrity]. *)
Theorem new_block_signed_verifies now chainID height prevHash proposer ts root priv pub :
  is_keypair priv → Public priv = Ret pub →
  ∃ b b', NewBlock now chainID height prevHash proposer (Some <$> ts) = Ret b ∧
    blk_Sign priv (mkBlock (set_StateRoot (blk_Header b) root) (blk_Transactions b) "" "") = Ret b' ∧
    blk_Verify b' pub = Ret tt ∧ VerifyIntegrity b' = Ret tt.
Proof.
  intros Hk HP. unfold NewBlock. rewrite ComputeTxRoot_Some. simpl.
  match goal with |- context [Hash ?x] => set (r := Hash x) end.
  eexists _. unfold blk_Sign. simpl.
  match goal with |- context [Sign priv ?h] => destruct (Sign_Verify priv pub h Hk HP) as (sig & Hs & HV) end.
  eexists _. split; [done|]. rewrite Hs. split; [done|]. split.
  - unfold blk_Verify. simpl. by rewrite bool_decide_eq_false_2 by (intros []; done).
  - unfold VerifyIntegrity. cbn [blk_Hash blk_Header blk_Transactions].
    rewrite bool_decide_eq_false_2 by (intros []; done).
    rewrite ComputeTxRoot_Some. simpl. by rewrite bool_decide_eq_false_2 by (intros []; done).
Qed.
End BlockProperties.

(** *** Blocks in transit *)

#[local] Arguments dec_string : simpl never.
#[local] Arguments dec_i64 : simpl never.
#[local] Arguments enc_string : simpl never.
#[local] Arguments enc_int : simpl never.

Lemma BlockHeader_roundtrip h :
  valid_BlockHeader h → BlockHeader_dec BlockHeader_zero (BlockHeader_enc h) = Some h.
Proof.
  destruct h. unfold valid_BlockHeader. simpl. intros. destruct_and?.
  unfold BlockHeader_enc, BlockHeader_dec, dec_struct. simpl.
  repeat (dec_field_step;
    [ | first [ rewrite dec_enc_string by done | rewrite dec_enc_i64 by done ];
        simpl; reflexivity ]).
  reflexivity.
Qed.

(** What a transaction pointer becomes on the way: its payload is compacted. *)
Definition in_transit (p p' : option Transaction) : Prop :=
  match p, p' with
  | None, None => True
  | Some t, Some t' => ∃ v, enc_raw (tx_Payload t) = Some v ∧ t' = with_payload t (print v)
  | _, _ => False
  end.

Lemma dec_tx_ptrs_enc txs vs :
  Forall (λ p, match p with Some t => valid_Transaction t | None => True end) txs →
  mapM enc_tx_ptr txs = Some vs →
  forallb wf_jv vs = true ∧ ∃ txs', mapM dec_tx_ptr vs = Some txs' ∧ Forall2 in_transit txs txs'.
Proof.
  intros Hv H%mapM_Some. induction H as [|p v txs vs Hp H IH]; [by split; [|exists []]|].
  inversion Hv as [|?? Hvp Hvt]; subst. destruct (IH Hvt) as (Hwf & txs' & Hd & Hf).
  destruct p as [t|]; simpl in Hp.
  - destruct (Transaction_dec_enc _ _ Hvp Hp) as (j & Hj & Hdec). split.
    { simpl. by rewrite (Transaction_wf _ _ Hp), Hwf. }
    exists (Some (with_payload t (print j)) :: txs'). split; [|by constructor; [exists j|]].
    simpl. rewrite Hd. unfold dec_tx_ptr. rewrite Hdec. unfold Transaction_enc in Hp.
    by apply bind_Some in Hp as (? & _ & [= <-]).
  - injection Hp as <-. split; [done|]. exists (None :: txs'). simpl. rewrite Hd. by split; [|constructor].
Qed.

Section BlockTransit.
Context `{C : Crypto}.

Lemma tx_root_transit txs txs' :
  Forall2 in_transit txs txs' → ComputeTxRoot txs = ComputeTxRoot txs'.
Proof.
  intros H. assert (tx_root_bytes txs = tx_root_bytes txs') as Hb.
  { induction H as [|p p' txs txs' Hp _ IH]; [done|].
    destruct p as [t|], p' as [t'|]; try done. destruct Hp as (v & _ & ->).
    cbn -[frame]. by rewrite IH. }
  unfold ComputeTxRoot. destruct H; [done|]. by rewrite Hb.
Qed.

(** What a block becomes on the way. *)
Record block_in_transit (b b' : Block) : Prop := {
  bt_header : blk_Header b' = blk_Header b;
  bt_hash : blk_Hash b' = blk_Hash b;
  bt_signature : blk_Signature b' = blk_Signature b;
  bt_txs : Forall2 in_transit (blk_Transactions b) (blk_Transactions b')
}.

Lemma Block_dec_enc b v :
  valid_Block b → Block_enc b = Some v →
  wf_jv v = true ∧ ∃ b', Block_dec Block_zero v = Some b' ∧ block_in_transit b b'.
Proof.
  destruct b as [h txs hs sg]. unfold valid_Block, Block_enc. simpl.
  intros (Hh & Ht & Hhs & Hsg) (vs & Hvs & [= <-])%bind_Some.
  destruct (dec_tx_ptrs_enc _ _ Ht Hvs) as (Hwf & txs' & Hd & Hf). split.
  { cbn [wf_jv forallb]. rewrite BlockHeader_wf, !wf_enc_string, Hwf. done. }
  exists (mkBlock h txs' hs sg). split; [|done].
  unfold Block_dec, dec_struct. unfold Block_zero.
  dec_field_step; [|rewrite BlockHeader_roundtrip by done; simpl; reflexivity].
  dec_field_step; [|simpl; rewrite Hd; simpl; reflexivity].
  dec_field_step; [|rewrite dec_enc_string by done; simpl; reflexivity].
  dec_field_step; [|rewrite dec_enc_string by done; simpl; reflexivity].
  reflexivity.
Qed.

Lemma Block_transit b v :
  valid_Block b → Block_enc b = Some v →
  ∃ b', Unmarshal Block_dec Block_zero (print v) = Some b' ∧ block_in_transit b b'.
Proof.
  intros Hv He. destruct (Block_dec_enc _ _ Hv He) as (Hw & b' & Hd & Ht). exists b'.
  split; [by apply Unmarshal_print|done].
Qed.

(** C36: a block that is marshalled (to a peer or to the store) is read back
    with the same header, hash and signature and with its transactions'
    payloads compacted; [Verify] and [VerifyIntegrity] decide alike on both. *)
Theorem block_json_transit b v :
  valid_Block b → Block_enc b = Some v →
  ∃ b', Unmarshal Block_dec Block_zero (print v) = Some b' ∧ block_in_transit b b' ∧
    (∀ pub, blk_Verify b' pub = blk_Verify b pub) ∧ VerifyIntegrity b' = VerifyIntegrity b.
Proof.
  intros Hv He. destruct (Block_transit _ _ Hv He) as (b' & Hd & Ht). exists b'. split; [done|].
  split; [done|]. destruct Ht as [Hh Hhs Hsg Hf]. unfold blk_Verify, VerifyIntegrity, ComputeHash.
  rewrite Hh, Hhs, Hsg, (tx_root_transit _ _ Hf). done.
Qed.
End BlockTransit.
