(* ===== verification/State.v ===== *)
(** * The world state: interface, abstract state, refinement

    [core.State] ([src/core/state.go]) is the interface between the executor
    and the storage.  [State W] is that interface, for a program whose mutable
    state is [W].  [AbsState] is what the interface promises: five finite maps
    of well-formed objects and a stack of saved worlds.  [refines] relates a
    computation on [W] to one on [AbsState]: it does the same, or it reports a
    storage fault (an error that is not [core.ErrNotFound], possible only on an
    unhealthy store) and leaves the saved worlds alone; it never panics.  [StateLaws] says that
    every operation of [W] refines its abstract counterpart; the rules below
    extend this to whole handlers. *)
From Stdlib Require Import Ascii Lia ZArith.
From stdpp Require Import base gmap strings list sorting.
From S2P Require Import Prelude Crypto Json JsonFacts JsonParse JsonTyped Types.

(** ** core.State *)

Class State (W : Type) := {
  GetAccount : string → M W Account;
  SetAccount : Account → M W unit;
  GetAsset : string → M W Asset;
  SetAsset : Asset → M W unit;
  DeleteAsset : string → M W unit;
  GetTemplate : string → M W AssetTemplate;
  SetTemplate : AssetTemplate → M W unit;
  GetSession : string → M W Session;
  SetSession : Session → M W unit;
  GetListing : string → M W MarketListing;
  SetListing : MarketListing → M W unit;
  Snapshot : M W Z;
  RevertToSnapshot : Z → M W unit;
  ComputeRoot : W → string;
  Commit : M W unit
}.

(** ** The abstract state *)

Record world : Type := mkWorld {
  accounts : gmap string Account;
  assets : gmap string Asset;
  templates : gmap string AssetTemplate;
  sessions : gmap string Session;
  listings : gmap string MarketListing
}.

Definition empty_world : world := mkWorld ∅ ∅ ∅ ∅ ∅.

Record AbsState : Type := mkAbs { abs_world : world; abs_snaps : list world }.

Definition set_accounts (m : gmap string Account) (w : world) : world :=
  mkWorld m w.(assets) w.(templates) w.(sessions) w.(listings).
Definition set_assets (m : gmap string Asset) (w : world) : world :=
  mkWorld w.(accounts) m w.(templates) w.(sessions) w.(listings).
Definition set_templates (m : gmap string AssetTemplate) (w : world) : world :=
  mkWorld w.(accounts) w.(assets) m w.(sessions) w.(listings).
Definition set_sessions (m : gmap string Session) (w : world) : world :=
  mkWorld w.(accounts) w.(assets) w.(templates) m w.(listings).
Definition set_listings (m : gmap string MarketListing) (w : world) : world :=
  mkWorld w.(accounts) w.(assets) w.(templates) w.(sessions) m.

Definition account_at (w : world) (a : string) : Account :=
  default (mkAccount a 0 0) (w.(accounts) !! a).
Definition balance (w : world) (a : string) : Z := acc_Balance (account_at w a).
Definition nonce (w : world) (a : string) : Z := acc_Nonce (account_at w a).

(** Objects are stored under their own ID, with values their types allow. *)
Definition keyed {A} (id : A → string) (valid : A → Prop) (m : gmap string A) : Prop :=
  map_Forall (λ k x, id x = k ∧ valid x) m.

Record wf_world `{F : FloatFmt} (w : world) : Prop := {
  wf_accounts : keyed acc_Address valid_Account w.(accounts);
  wf_assets : keyed ast_ID valid_Asset w.(assets);
  wf_templates : keyed tmpl_ID valid_AssetTemplate w.(templates);
  wf_sessions : keyed sess_ID valid_Session w.(sessions);
  wf_listings : keyed lst_ID valid_MarketListing w.(listings)
}.

Definition wf_abs `{F : FloatFmt} (s : AbsState) : Prop :=
  wf_world s.(abs_world) ∧ Forall wf_world s.(abs_snaps).

(** ** The state root of a world *)

(** The key prefixes [registerPrefix] collects in [statePrefixes]. *)
Definition prefixAccount : string := "acct:".
Definition prefixAsset : string := "asset:".
Definition prefixTemplate : string := "tmpl:".
Definition prefixSession : string := "sess:".
Definition prefixListing : string := "list:".
Definition statePrefixes : list string :=
  [prefixAccount; prefixAsset; prefixTemplate; prefixSession; prefixListing].

(** Steps 4 and 5 of [ComputeRoot]: the entries in key order, each key and
    value with its length in front. *)
Definition root_bytes (kv : gmap string string) : string :=
  foldr (λ '(k, v) r, frame k +:+ (frame v +:+ r)) "" (sorted_entries kv).

(** The stored form of one of the five maps, and of a world. *)
Definition encode_map {A} (p : string) (enc : A → jv) (m : gmap string A) : gmap string string :=
  kmap (λ k, p +:+ k) ((λ x, print (enc x)) <$> m).
Definition encode_world (w : world) : gmap string string :=
  encode_map prefixAccount Account_enc w.(accounts) ∪
  encode_map prefixAsset Asset_enc w.(assets) ∪
  encode_map prefixTemplate AssetTemplate_enc w.(templates) ∪
  encode_map prefixSession Session_enc w.(sessions) ∪
  encode_map prefixListing MarketListing_enc w.(listings).
Definition world_root `{C : Crypto} (w : world) : string := Hash (root_bytes (encode_world w)).

(** ** The abstract operations *)

Definition lookup_or_fail {A} (o : option A) : outcome A := of_option ErrNotFound o.
Definition update_world (f : world → world) : M AbsState unit := λ s,
  (mkAbs (f s.(abs_world)) s.(abs_snaps), Ret tt).
Definition query {A} (f : world → outcome A) : M AbsState A := λ s, (s, f s.(abs_world)).

Definition abs_Snapshot : M AbsState Z := λ s,
  (mkAbs s.(abs_world) (s.(abs_snaps) ++ [s.(abs_world)]), Ret (Z.of_nat (length s.(abs_snaps)))).
Definition abs_Revert (id : Z) : M AbsState unit := λ s,
  if bool_decide (id < 0 ∨ Z.of_nat (length s.(abs_snaps)) ≤ id)
  then (s, Fail (EMsg "invalid snapshot id"))
  else match s.(abs_snaps) !! Z.to_nat id with
       | Some w => (mkAbs w (take (Z.to_nat id) s.(abs_snaps)), Ret tt)
       | None => (s, Panic "index out of range")
       end.

#[export] Instance abs_State `{C : Crypto} : State AbsState := {
  GetAccount a := query (λ w, Ret (account_at w a));
  SetAccount x := update_world (λ w, set_accounts (<[acc_Address x := x]> w.(accounts)) w);
  GetAsset id := query (λ w, lookup_or_fail (w.(assets) !! id));
  SetAsset x := update_world (λ w, set_assets (<[ast_ID x := x]> w.(assets)) w);
  DeleteAsset id := update_world (λ w, set_assets (delete id w.(assets)) w);
  GetTemplate id := query (λ w, lookup_or_fail (w.(templates) !! id));
  SetTemplate x := update_world (λ w, set_templates (<[tmpl_ID x := x]> w.(templates)) w);
  GetSession id := query (λ w, lookup_or_fail (w.(sessions) !! id));
  SetSession x := update_world (λ w, set_sessions (<[sess_ID x := x]> w.(sessions)) w);
  GetListing id := query (λ w, lookup_or_fail (w.(listings) !! id));
  SetListing x := update_world (λ w, set_listings (<[lst_ID x := x]> w.(listings)) w);
  Snapshot := abs_Snapshot;
  RevertToSnapshot := abs_Revert;
  ComputeRoot s := world_root s.(abs_world);
  Commit := λ s, (mkAbs s.(abs_world) [], Ret tt)
}.

(** ** Refinement *)

(** How a concrete state represents an abstract one.  [st_healthy] holds of a
    store that answers every request. *)
Class Represents (W : Type) := {
  st_inv : W → Prop;
  st_abs : W → AbsState;
  st_healthy : W → Prop
}.

Section Refines.
Context {W : Type} `{R : Represents W}.

Definition refines {A} (Q : A → Prop) (m : M W A) (n : M AbsState A) : Prop :=
  ∀ w w' o, st_inv w → m w = (w', o) →
  st_inv w' ∧ abs_snaps (st_abs w') = abs_snaps (st_abs w) ∧ (st_healthy w → st_healthy w') ∧
  ((n (st_abs w) = (st_abs w', o) ∧ (∀ a, o = Ret a → Q a) ∧ ∀ msg, o ≠ Panic msg) ∨
   (¬ st_healthy w ∧ ∃ e, o = Fail e ∧ is_not_found e = false)).

Lemma refines_ret {A} (Q : A → Prop) a : Q a → refines Q (mret a) (mret a).
Proof.
  intros HQ w w' o Hw [= <- <-]. split_and!; try done. left. split_and!; try done. by intros ? [= <-].
Qed.

Lemma refines_fail {A} (Q : A → Prop) e : refines Q (fail e) (fail e).
Proof. intros w w' o Hw [= <- <-]. split_and!; try done. by left. Qed.

Lemma refines_liftO {A} (Q : A → Prop) o :
  (∀ a, o = Ret a → Q a) → (∀ msg, o ≠ Panic msg) → refines Q (liftO o) (liftO o).
Proof. intros HQ HP w w' o' Hw [= <- <-]. split_and!; try done. by left. Qed.

Lemma refines_reject_if c e (Q : unit → Prop) :
  (c = false → Q tt) → refines Q (reject_if c e) (reject_if c e).
Proof. intros HQ. destruct c; [apply refines_fail|]. apply refines_ret. auto. Qed.

Lemma refines_bind {A B} (Q : A → Prop) (Q' : B → Prop) m n (f : A → M W B) g :
  refines Q m n → (∀ a, Q a → refines Q' (f a) (g a)) → refines Q' (m ≫= f) (n ≫= g).
Proof.
  intros Hm Hf w w' o Hw. unfold mbind, M_bind.
  destruct (m w) as [w1 o1] eqn:E1.
  destruct (Hm _ _ _ Hw E1) as (Hw1 & Hs1 & Hh1 & [(Hn1 & HQ & HP)|(Hu & e & -> & He)]).
  - rewrite Hn1. destruct o1 as [a|e|msg]; [| |by destruct (HP msg)].
    + intros E2. destruct (Hf a (HQ a eq_refl) _ _ _ Hw1 E2) as (Hw2 & Hs2 & Hh2 & Hr).
      split_and!; [done|congruence|by auto|]. destruct Hr as [Hr|[Hx Hr]]; [by left|right].
      split; [by auto|done].
    + intros [= <- <-]. split_and!; try done. by left.
  - intros [= <- <-]. split_and!; try done. right. eauto.
Qed.

Lemma refines_wrap {A} (Q : A → Prop) msg m n : refines Q m n → refines Q (wrap msg m) (wrap msg n).
Proof.
  intros Hm w w' o Hw. unfold wrap. destruct (m w) as [w1 o1] eqn:E1.
  destruct (Hm _ _ _ Hw E1) as (Hw1 & Hs1 & Hh1 & [(Hn1 & HQ & HP)|(Hu & e & -> & He)]).
  - rewrite Hn1. intros [= <- <-]. split_and!; try done. left. split; [done|].
    destruct o1 as [a|e|p]; [| |by destruct (HP p)]; simpl; [|done].
    split; [|done]. intros ? [= <-]. by apply HQ.
  - intros [= <- <-]. split_and!; try done. right. split; [done|]. by exists (EWrap msg e).
Qed.

Lemma refines_expect_absent {A} (Q : A → Prop) m n e msg :
  refines Q m n → refines (λ _, True) (expect_absent m e msg) (expect_absent n e msg).
Proof.
  intros Hm w w' o Hw. unfold expect_absent. destruct (m w) as [w1 o1] eqn:E1.
  destruct (Hm _ _ _ Hw E1) as (Hw1 & Hs1 & Hh1 & [(Hn1 & HQ & HP)|(Hu & e' & -> & He)]).
  - rewrite Hn1. destruct o1 as [a|e'|p]; [| destruct (is_not_found e') |by destruct (HP p)];
      intros [= <- <-]; split_and!; try done; by left.
  - rewrite He. intros [= <- <-]. split_and!; try done. right. split; [done|].
    by exists (EWrap msg e').
Qed.

Lemma refines_for_each {A} (f : A → M W unit) g l :
  (∀ x, x ∈ l → refines (λ _, True) (f x) (g x)) →
  refines (λ _, True) (for_each f l) (for_each g l).
Proof.
  induction l as [|x l IH]; intros Hf; simpl; [by apply refines_ret|].
  eapply refines_bind; [apply Hf; set_solver|]. intros _ _. apply IH. set_solver.
Qed.

(** A computation that changes nothing the abstract state shows. *)
Lemma refines_silent (m : M W unit) :
  (∀ w, st_inv w → (m w).2 = Ret tt ∧ st_inv (m w).1 ∧ st_abs (m w).1 = st_abs w ∧
     (st_healthy w → st_healthy (m w).1)) →
  refines (λ _, True) m (mret tt).
Proof.
  intros Hm w w' o Hw E. destruct (Hm w Hw) as (Ho & Hi & Ha & Hh). rewrite E in *. simpl in *.
  subst o. rewrite Ha. split_and!; try done. by left.
Qed.
End Refines.

(** ** What an implementation of the interface owes *)

(** The getters and setters. *)
Class StateOpLaws (W : Type) `{F : FloatFmt, C : Crypto, HS : State W, HR : Represents W} : Prop := {
  GetAccount_ref a : valid_utf8 a = true →
    refines (λ x, valid_Account x ∧ acc_Address x = a) (GetAccount a) (GetAccount a);
  SetAccount_ref x : valid_Account x → refines (λ _, True) (SetAccount x) (SetAccount x);
  GetAsset_ref id :
    refines (λ x, valid_Asset x ∧ ast_ID x = id) (GetAsset id) (GetAsset id);
  SetAsset_ref x : valid_Asset x → refines (λ _, True) (SetAsset x) (SetAsset x);
  DeleteAsset_ref id : refines (λ _, True) (DeleteAsset id) (DeleteAsset id);
  GetTemplate_ref id :
    refines (λ x, valid_AssetTemplate x ∧ tmpl_ID x = id) (GetTemplate id) (GetTemplate id);
  SetTemplate_ref x : valid_AssetTemplate x → refines (λ _, True) (SetTemplate x) (SetTemplate x);
  GetSession_ref id :
    refines (λ x, valid_Session x ∧ sess_ID x = id) (GetSession id) (GetSession id);
  SetSession_ref x : valid_Session x → refines (λ _, True) (SetSession x) (SetSession x);
  GetListing_ref id :
    refines (λ x, valid_MarketListing x ∧ lst_ID x = id) (GetListing id) (GetListing id);
  SetListing_ref x : valid_MarketListing x → refines (λ _, True) (SetListing x) (SetListing x)
}.

(** All of it: snapshots, root and commit included. *)
Class StateLaws (W : Type) `{F : FloatFmt, C : Crypto, HS : State W, HR : Represents W} : Prop := {
  st_ops :: StateOpLaws W;
  st_wf w : st_inv w → wf_abs (st_abs w);
  Snapshot_ref w : st_inv w →
    ∃ w', Snapshot w = (w', Ret (Z.of_nat (length (abs_snaps (st_abs w))))) ∧ st_inv w' ∧
      st_abs w' = (abs_Snapshot (st_abs w)).1 ∧ (st_healthy w → st_healthy w');
  Revert_ref w id : st_inv w →
    ∃ w' o, RevertToSnapshot id w = (w', o) ∧ st_inv w' ∧
      abs_Revert id (st_abs w) = (st_abs w', o) ∧ (st_healthy w → st_healthy w');
  Root_ref w : st_inv w → st_healthy w → ComputeRoot w = world_root (abs_world (st_abs w));
  Commit_ref w : st_inv w →
    ∃ w' o, Commit w = (w', o) ∧ st_inv w' ∧ abs_world (st_abs w') = abs_world (st_abs w) ∧
      ((o = Ret tt ∧ abs_snaps (st_abs w') = [] ∧ (st_healthy w → st_healthy w')) ∨
       (¬ st_healthy w ∧ ∃ e, o = Fail e ∧ st_abs w' = st_abs w))
}.

(** ** The abstract state implements itself *)

Section AbsLaws.
Context `{F : FloatFmt, C : Crypto}.

(** An abstract state seen with another stack of saved worlds. *)
Definition abs_Rep (f : list world → list world) : Represents AbsState := {|
  st_inv s := wf_abs s;
  st_abs s := mkAbs (abs_world s) (f (abs_snaps s));
  st_healthy _ := True
|}.

Lemma wf_account_at w a :
  wf_world w → valid_utf8 a = true → valid_Account (account_at w a) ∧ acc_Address (account_at w a) = a.
Proof.
  intros [Hw _ _ _ _] Ha. unfold account_at. destruct (accounts w !! a) as [x|] eqn:E; simpl.
  - destruct (Hw _ _ E). done.
  - split; [|done]. unfold valid_Account, is_u64, max_uint64. simpl. by split_and!.
Qed.

Lemma keyed_insert {A} (id : A → string) valid m x :
  keyed id valid m → valid x → keyed id valid (<[id x := x]> m).
Proof. intros Hm Hx. by apply map_Forall_insert_2. Qed.

Lemma query_ref (f : list world → list world) {A} (Q : A → Prop) (q : world → outcome A) :
  (∀ w a, wf_world w → q w = Ret a → Q a) → (∀ w msg, q w ≠ Panic msg) →
  refines (R := abs_Rep f) Q (query q) (query q).
Proof.
  intros HQ HP s s' o [Hw Hs] [= <- <-]. split_and!; try done. left. split_and!; [done| |done].
  intros a Ha. by eapply HQ.
Qed.

Lemma update_ref (f : list world → list world) g :
  (∀ w, wf_world w → wf_world (g w)) →
  refines (R := abs_Rep f) (λ _, True) (update_world g) (update_world g).
Proof.
  intros Hg s s' o [Hw Hs] [= <- <-]. split; [split; [by apply Hg|done]|].
  split; [done|]. split; [done|]. by left.
Qed.

Lemma lookup_ref (f : list world → list world) {A} (id : A → string) valid
    (sel : world → gmap string A) k :
  (∀ w, wf_world w → keyed id valid (sel w)) →
  refines (R := abs_Rep f) (λ x, valid x ∧ id x = k)
    (query (λ w, lookup_or_fail (sel w !! k))) (query (λ w, lookup_or_fail (sel w !! k))).
Proof.
  intros Hk. apply query_ref; [|intros w msg; by destruct (sel w !! k)].
  intros w a Hw. unfold lookup_or_fail, of_option.
  destruct (sel w !! k) eqn:E; [|done]. intros [= <-]. by destruct (Hk w Hw _ _ E).
Qed.

Lemma abs_op_laws f : StateOpLaws AbsState (HR := abs_Rep f).
Proof.
  split.
  - intros a Ha. apply query_ref; [|done]. intros w x Hw [= <-]. by apply wf_account_at.
  - intros x Hx. apply update_ref. intros w []. split; simpl; eauto using keyed_insert.
  - intros id. apply (lookup_ref f ast_ID valid_Asset assets). by intros w [].
  - intros x Hx. apply update_ref. intros w []. split; simpl; eauto using keyed_insert.
  - intros id. apply update_ref. intros w []. split; simpl; try done. by apply map_Forall_delete.
  - intros id. apply (lookup_ref f tmpl_ID valid_AssetTemplate templates). by intros w [].
  - intros x Hx. apply update_ref. intros w []. split; simpl; eauto using keyed_insert.
  - intros id. apply (lookup_ref f sess_ID valid_Session sessions). by intros w [].
  - intros x Hx. apply update_ref. intros w []. split; simpl; eauto using keyed_insert.
  - intros id. apply (lookup_ref f lst_ID valid_MarketListing listings). by intros w [].
  - intros x Hx. apply update_ref. intros w []. split; simpl; eauto using keyed_insert.
Qed.
End AbsLaws.
