(* ===== verification/DB.v ===== *)
(** * Key-value stores

    [DB] is the interface of [src/storage/db.go] as the program uses it: point
    reads and writes, a scan of the keys with a prefix, and a batch that is
    filled and then written in one step.  [DBLaws] is its contract, faults
    included: a store that is not healthy may answer with an error that is not
    [core.ErrNotFound], and a batch is written completely or not at all.
    [MemDB] ([src/internal/testutil/memdb.go]) and [LevelDB]
    ([src/storage/leveldb.go], over the operations of goleveldb) meet it. *)
From Stdlib Require Import Ascii Lia ZArith.
From stdpp Require Import base gmap strings list sorting.
From S2P Require Import Prelude.

(** ** Batches *)

Inductive batch_op : Type :=
| BSet (key value : string)
| BDelete (key : string).

Definition apply_op (m : gmap string string) (op : batch_op) : gmap string string :=
  match op with BSet k v => <[k := v]> m | BDelete k => delete k m end.
Definition apply_ops (ops : list batch_op) (m : gmap string string) : gmap string string :=
  foldl apply_op m ops.

(** ** The interface and its contract *)

Class DB (D : Type) := {
  db_Get : string → M D string;
  db_Set : string → string → M D unit;
  db_Delete : string → M D unit;
  (** the entries an iterator over a prefix yields, and its [Error()] *)
  db_Scan : string → D → list (string * string) * option error;
  (** [NewBatch], the operations, [Write] *)
  db_Write : list batch_op → M D unit;
  db_Close : M D unit
}.

Class DBRep (D : Type) := {
  db_contents : D → gmap string string;
  db_healthy : D → Prop
}.

Definition has_prefix (p k : string) : bool :=
  match strip_prefix p k with Some _ => true | None => false end.

(** A write either happens, or the store is faulty, reports an error and is
    unchanged. *)
Definition write_spec {D} `{DBRep D} (f : gmap string string → gmap string string)
    (m : M D unit) : Prop :=
  ∀ d, ∃ d' o, m d = (d', o) ∧
    ((o = Ret tt ∧ db_contents d' = f (db_contents d) ∧ (db_healthy d → db_healthy d')) ∨
     (¬ db_healthy d ∧ (∃ e, o = Fail e ∧ is_not_found e = false) ∧ db_contents d' = db_contents d)).

Class DBLaws (D : Type) `{HD : DB D, HR : DBRep D} : Prop := {
  Get_law k d :
    db_Get k d = (d, of_option ErrNotFound (db_contents d !! k)) ∨
    (¬ db_healthy d ∧ ∃ e, db_Get k d = (d, Fail e) ∧ is_not_found e = false);
  Set_law k v : write_spec (insert k v) (db_Set k v);
  Delete_law k : write_spec (delete k) (db_Delete k);
  Write_law ops : write_spec (apply_ops ops) (db_Write ops);
  Scan_law p d : db_healthy d →
    ∃ l, db_Scan p d = (l, None) ∧
      l ≡ₚ filter (λ kv, has_prefix p kv.1 = true) (map_to_list (db_contents d));
  (** what was written stays written *)
  Close_law d : db_contents (db_Close d).1 = db_contents d ∧ ∀ msg, (db_Close d).2 ≠ Panic msg
}.

(** ** MemDB *)

Record MemDB : Type := mkMemDB { mem_data : gmap string string }.

Definition NewMemDB : MemDB := mkMemDB ∅.

Section MemDB.
Context `{O : MapOrder}.

Definition mem_Get (key : string) : M MemDB string := λ m,
  match mem_data m !! key with
  | None => (m, Fail ErrNotFound)
  | Some v => (m, Ret v)
  end.
Definition mem_Set (key value : string) : M MemDB unit := λ m,
  (mkMemDB (<[key := value]> (mem_data m)), Ret tt).
Definition mem_Delete (key : string) : M MemDB unit := λ m,
  (mkMemDB (delete key (mem_data m)), Ret tt).
(** [NewIterator] collects the matching entries in map order. *)
Definition mem_NewIterator (prefix : string) (m : MemDB) : list (string * string) :=
  filter (λ kv, has_prefix prefix kv.1 = true) (range 0 (mem_data m)).
(** [memBatch.Write] applies the operations in the order they were added. *)
Definition mem_Write (ops : list batch_op) : M MemDB unit := λ m,
  (mkMemDB (apply_ops ops (mem_data m)), Ret tt).

Definition mem_Close : M MemDB unit := mret tt.

(** The iterator itself: a position in the collected entries. *)
Record memIter : Type := mkIter { it_pairs : list (string * string); it_idx : Z }.

Definition it_Next (it : memIter) : memIter * bool :=
  let idx := it_idx it + 1 in (mkIter (it_pairs it) idx, bool_decide (idx < Z.of_nat (length (it_pairs it)))).
Definition it_at (it : memIter) : outcome (string * string) :=
  if bool_decide (it_idx it < 0) then Panic "index out of range"
  else match it_pairs it !! Z.to_nat (it_idx it) with
       | Some kv => Ret kv
       | None => Panic "index out of range"
       end.
Definition it_Key (it : memIter) : outcome string := kv ← it_at it; Ret kv.1.
Definition it_Value (it : memIter) : outcome string := kv ← it_at it; Ret kv.2.

(** [for iter.Next() { ... iter.Key() ... iter.Value() ... }] *)
Fixpoint drain (fuel : nat) (it : memIter) : outcome (list (string * string)) :=
  match fuel with
  | 0%nat => Ret []
  | S fuel =>
      let '(it, more) := it_Next it in
      if more : bool then k ← it_Key it; v ← it_Value it; l ← drain fuel it; Ret ((k, v) :: l) else Ret []
  end.

#[export] Instance MemDB_DB : DB MemDB := {
  db_Get := mem_Get; db_Set := mem_Set; db_Delete := mem_Delete;
  db_Scan p m := (mem_NewIterator p m, None); db_Write := mem_Write; db_Close := mem_Close
}.
#[export] Instance MemDB_Rep : DBRep MemDB := {
  db_contents := mem_data; db_healthy _ := True
}.

#[export] Instance MemDB_laws : DBLaws MemDB.
Proof.
  split; simpl.
  - intros k d. left. unfold mem_Get. by destruct (mem_data d !! k).
  - intros k v d. eexists _, _. split; [done|]. by left.
  - intros k d. eexists _, _. split; [done|]. by left.
  - intros ops d. eexists _, _. split; [done|]. by left.
  - intros p d _. eexists. split; [done|]. unfold mem_NewIterator. by rewrite range_perm.
  - done.
Qed.

(** Draining an iterator yields what [db_Scan] says, without a panic. *)
Lemma drain_from l pre fuel :
  (length l < fuel)%nat → drain fuel (mkIter (pre ++ l) (Z.of_nat (length pre) - 1)) = Ret l.
Proof.
  revert pre fuel. induction l as [|[k v] l IH]; intros pre [|fuel] Hf; simpl in Hf; try lia;
    cbn [drain it_Next it_pairs it_idx]; rewrite Z.sub_add; rewrite length_app; simpl.
  - by rewrite bool_decide_eq_false_2 by lia.
  - rewrite bool_decide_eq_true_2 by lia. unfold it_Key, it_Value, it_at. cbn [it_pairs it_idx].
    rewrite bool_decide_eq_false_2 by lia. rewrite Nat2Z.id, list_lookup_middle by done. cbn [mbind outcome_bind fst snd].
    specialize (IH (pre ++ [(k, v)]) fuel). rewrite <- app_assoc in IH.
    rewrite length_app in IH. cbn [length app] in IH.
    replace (Z.of_nat (length pre + 1) - 1) with (Z.of_nat (length pre)) in IH by lia.
    by rewrite IH by lia.
Qed.

Lemma iterator_drains prefix m :
  let l := mem_NewIterator prefix m in drain (S (length l)) (mkIter l (-1)) = Ret (db_Scan prefix m).1.
Proof. intros l. apply (drain_from l []). lia. Qed.
End MemDB.

(** ** LevelDB *)

Inductive ldb_error : Type := LErrNotFound | LErr (msg : string).

(** The calls of [github.com/syndtr/goleveldb/leveldb] the wrapper makes on an
    open database of type [L]; [None] is a nil error. *)
Class GoLevelDB (L : Type) := {
  ldb_Get : string → L → L * (string + ldb_error);
  ldb_Put : string → string → L → L * option ldb_error;
  ldb_Delete : string → L → L * option ldb_error;
  ldb_Iterate : string → L → list (string * string) * option ldb_error;
  ldb_Write : list batch_op → L → L * option ldb_error;
  ldb_Close : L → L * option ldb_error
}.

(** Its documented behaviour: reads see the written entries, [Get] answers
    [leveldb.ErrNotFound] for an absent key, a batch is atomic, an iterator
    over [util.BytesPrefix] yields the entries with the prefix, and closing
    loses nothing. *)
Class GoLevelDBLaws (L : Type) `{HL : GoLevelDB L, HR : DBRep L} : Prop := {
  ldb_Get_law k l :
    ldb_Get k l = (l, match db_contents l !! k with Some v => inl v | None => inr LErrNotFound end) ∨
    (¬ db_healthy l ∧ ∃ msg, ldb_Get k l = (l, inr (LErr msg)));
  ldb_write_law (m : L → L * option ldb_error) f :
    (∃ k v, m = ldb_Put k v ∧ f = insert k v) ∨ (∃ k, m = ldb_Delete k ∧ f = delete k) ∨
    (∃ ops, m = ldb_Write ops ∧ f = apply_ops ops) →
    ∀ l, ∃ l' r, m l = (l', r) ∧
      ((r = None ∧ db_contents l' = f (db_contents l) ∧ (db_healthy l → db_healthy l')) ∨
       (¬ db_healthy l ∧ (∃ msg, r = Some (LErr msg)) ∧ db_contents l' = db_contents l));
  ldb_Iterate_law p l : db_healthy l →
    ∃ es, ldb_Iterate p l = (es, None) ∧
      es ≡ₚ filter (λ kv, has_prefix p kv.1 = true) (map_to_list (db_contents l));
  ldb_Close_law l : db_contents (ldb_Close l).1 = db_contents l
}.

Section LevelDB.
Context {L : Type} `{HL : GoLevelDB L}.

Definition of_ldb_error (e : ldb_error) : error :=
  match e with LErrNotFound => EMsg "leveldb: not found" | LErr msg => EMsg msg end.
Definition of_ldb (r : option ldb_error) : outcome unit :=
  match r with None => Ret tt | Some e => Fail (of_ldb_error e) end.

(** [LevelDB.Get] translates the not-found error of the library. *)
Definition level_Get (key : string) : M L string := λ l,
  let '(l', r) := ldb_Get key l in
  (l', match r with
       | inr LErrNotFound => Fail ErrNotFound
       | inr e => Fail (of_ldb_error e)
       | inl v => Ret v
       end).
Definition level_Set (key value : string) : M L unit := λ l,
  let '(l', r) := ldb_Put key value l in (l', of_ldb r).
Definition level_Delete (key : string) : M L unit := λ l,
  let '(l', r) := ldb_Delete key l in (l', of_ldb r).
Definition level_NewIterator (prefix : string) (l : L) : list (string * string) * option error :=
  let '(es, r) := ldb_Iterate prefix l in (es, of_ldb_error <$> r).
Definition level_Write (ops : list batch_op) : M L unit := λ l,
  let '(l', r) := ldb_Write ops l in (l', of_ldb r).

Definition level_Close : M L unit := λ l,
  let '(l', r) := ldb_Close l in (l', of_ldb r).

Definition LevelDB_DB : DB L := {|
  db_Get := level_Get; db_Set := level_Set; db_Delete := level_Delete;
  db_Scan := level_NewIterator; db_Write := level_Write; db_Close := level_Close
|}.

(** [NewLevelDB]; [OpenFile] is what [leveldb.OpenFile] yields for a path. *)
Definition NewLevelDB (OpenFile : string → outcome L) (path : string) : outcome L :=
  wrapO "open leveldb" (OpenFile path).

Lemma LevelDB_laws `{HR : DBRep L, !GoLevelDBLaws L} : DBLaws L (HD := LevelDB_DB).
Proof.
  assert (∀ (m : L → L * option ldb_error) f,
    (∃ k v, m = ldb_Put k v ∧ f = insert k v) ∨ (∃ k, m = ldb_Delete k ∧ f = delete k) ∨
    (∃ ops, m = ldb_Write ops ∧ f = apply_ops ops) →
    write_spec f (λ l, let '(l', r) := m l in (l', of_ldb r))) as Hw.
  { intros m f Hm l. destruct (ldb_write_law m f Hm l) as (l' & r & -> & Hr).
    eexists _, _. split; [done|]. destruct Hr as [(-> & ? & ?)|(? & (msg & ->) & ?)];
      [by left|right]. split_and!; try done. by eexists. }
  split; simpl; [|intros; apply Hw; naive_solver..| |].
  - intros k l. unfold level_Get. destruct (ldb_Get_law k l) as [->|(Hu & msg & ->)].
    + left. by destruct (db_contents l !! k).
    + right. split; [done|]. by eexists.
  - intros p l Hl. destruct (ldb_Iterate_law p l Hl) as (es & He & Hp).
    exists es. unfold level_NewIterator. by rewrite He.
  - intros l. unfold level_Close. rewrite <- (ldb_Close_law l). by destruct (ldb_Close l) as [? []].
Qed.
End LevelDB.
