(* ===== verification/StateDB.v ===== *)
(** * StateDB: the write buffer over a key-value store

    Models [src/storage/statedb.go] over any [DB]: the buffer of dirty and
    deleted keys, the snapshot stack, the state root and the commit.  The
    section [Refinement] shows that every method implements the abstract
    interface of [State.v], over a store that meets [DBLaws]. *)
From Stdlib Require Import Ascii Lia ZArith.
From stdpp Require Import base gmap strings list sorting.
From S2P Require Import Prelude Crypto Json JsonFacts JsonParse JsonTyped Types State DB.

Record stateSnapshot : Type := mkSnapshot {
  snap_dirty : gmap string string;
  snap_deleted : gmap string bool
}.

Record StateDB (D : Type) : Type := mkStateDB {
  sdb_db : D;
  sdb_dirty : gmap string string;
  sdb_deleted : gmap string bool;
  sdb_snapshots : list stateSnapshot
}.
Arguments mkStateDB {D}.
Arguments sdb_db {D}.
Arguments sdb_dirty {D}.
Arguments sdb_deleted {D}.
Arguments sdb_snapshots {D}.

Definition NewStateDB {D} (db : D) : StateDB D := mkStateDB db ∅ ∅ [].

Section StateDB.
Context `{C : Crypto, F : FloatFmt, O : MapOrder} {D : Type} `{HD : DB D}.
Implicit Type s : StateDB D.

Definition set_db (d : D) s : StateDB D :=
  mkStateDB d (sdb_dirty s) (sdb_deleted s) (sdb_snapshots s).

(** [s.deleted[key]]: false for an absent key. *)
Definition sdb_get (key : string) : M (StateDB D) string := λ s,
  if default false (sdb_deleted s !! key) then (s, Fail ErrNotFound)
  else match sdb_dirty s !! key with
       | Some v => (s, Ret v)
       | None => on_part sdb_db set_db (db_Get key) s
       end.

Definition sdb_set (key val : string) : M (StateDB D) unit := λ s,
  (mkStateDB (sdb_db s) (<[key := val]> (sdb_dirty s)) (delete key (sdb_deleted s))
     (sdb_snapshots s), Ret tt).

Definition sdb_del (key : string) : M (StateDB D) unit := λ s,
  (mkStateDB (sdb_db s) (delete key (sdb_dirty s)) (<[key := true]> (sdb_deleted s))
     (sdb_snapshots s), Ret tt).

Definition decode {A} (dec : A → jv → option A) (zero : A) (data : string) : outcome A :=
  of_option (EMsg "json") (Unmarshal dec zero data).

(** An absent account is the zero account of its address. *)
Definition sdb_GetAccount (address : string) : M (StateDB D) Account := λ s,
  match sdb_get (prefixAccount +:+ address) s with
  | (s', Ret data) => (s', decode Account_dec Account_zero data)
  | (s', Fail e) =>
      if is_not_found e then (s', Ret (mkAccount address 0 0)) else (s', Fail e)
  | (s', Panic p) => (s', Panic p)
  end.
Definition sdb_SetAccount (acc : Account) : M (StateDB D) unit :=
  sdb_set (prefixAccount +:+ acc_Address acc) (print (Account_enc acc)).

Definition sdb_GetAsset (id : string) : M (StateDB D) Asset :=
  data ← sdb_get (prefixAsset +:+ id); liftO (decode Asset_dec Asset_zero data).
Definition sdb_SetAsset (asset : Asset) : M (StateDB D) unit :=
  sdb_set (prefixAsset +:+ ast_ID asset) (print (Asset_enc asset)).
Definition sdb_DeleteAsset (id : string) : M (StateDB D) unit := sdb_del (prefixAsset +:+ id).

Definition sdb_GetTemplate (id : string) : M (StateDB D) AssetTemplate :=
  data ← sdb_get (prefixTemplate +:+ id); liftO (decode AssetTemplate_dec AssetTemplate_zero data).
Definition sdb_SetTemplate (t : AssetTemplate) : M (StateDB D) unit :=
  sdb_set (prefixTemplate +:+ tmpl_ID t) (print (AssetTemplate_enc t)).

Definition sdb_GetSession (id : string) : M (StateDB D) Session :=
  data ← sdb_get (prefixSession +:+ id); liftO (decode Session_dec Session_zero data).
Definition sdb_SetSession (sess : Session) : M (StateDB D) unit :=
  sdb_set (prefixSession +:+ sess_ID sess) (print (Session_enc sess)).

Definition sdb_GetListing (id : string) : M (StateDB D) MarketListing :=
  data ← sdb_get (prefixListing +:+ id); liftO (decode MarketListing_dec MarketListing_zero data).
Definition sdb_SetListing (l : MarketListing) : M (StateDB D) unit :=
  sdb_set (prefixListing +:+ lst_ID l) (print (MarketListing_enc l)).

(** The maps are copied, so later writes do not reach the snapshot. *)
Definition sdb_Snapshot : M (StateDB D) Z := λ s,
  let snaps := sdb_snapshots s ++ [mkSnapshot (sdb_dirty s) (sdb_deleted s)] in
  (mkStateDB (sdb_db s) (sdb_dirty s) (sdb_deleted s) snaps, Ret (Z.of_nat (length snaps) - 1)).

Definition sdb_RevertToSnapshot (id : Z) : M (StateDB D) unit := λ s,
  if bool_decide (id < 0 ∨ Z.of_nat (length (sdb_snapshots s)) ≤ id)
  then (s, Fail (EMsg "invalid snapshot id"))
  else match sdb_snapshots s !! Z.to_nat id with
       | Some snap =>
           (mkStateDB (sdb_db s) (snap_dirty snap) (snap_deleted snap)
              (take (Z.to_nat id) (sdb_snapshots s)), Ret tt)
       | None => (s, Panic "index out of range")
       end.

(** Step 1: the persisted entries, one iterator per prefix; an iterator's
    error is not looked at. *)
Definition scan_state (db : D) : gmap string string :=
  foldl (λ m p, foldl (λ m '(k, v), <[k := v]> m) m (db_Scan p db).1) ∅ statePrefixes.

(** Steps 2 and 3: the buffer over the persisted entries, without the deleted
    keys. *)
Definition overlay (dirty : gmap string string) (deleted : gmap string bool)
    (m : gmap string string) : gmap string string :=
  filter (λ kv, deleted !! kv.1 = None) (dirty ∪ m).

Definition sdb_ComputeRoot (s : StateDB D) : string :=
  Hash (root_bytes (overlay (sdb_dirty s) (sdb_deleted s) (scan_state (sdb_db s)))).

Definition commit_ops (s : StateDB D) : list batch_op :=
  map (λ '(k, v), BSet k v) (range 0 (sdb_dirty s)) ++
  map (λ '(k, _), BDelete k) (range 1 (sdb_deleted s)).

Definition sdb_Commit : M (StateDB D) unit := λ s,
  match db_Write (commit_ops s) (sdb_db s) with
  | (d, Ret _) => (mkStateDB d ∅ ∅ [], Ret tt)
  | (d, o) => (set_db d s, o)
  end.

#[export] Instance StateDB_State : State (StateDB D) := {
  GetAccount := sdb_GetAccount; SetAccount := sdb_SetAccount;
  GetAsset := sdb_GetAsset; SetAsset := sdb_SetAsset; DeleteAsset := sdb_DeleteAsset;
  GetTemplate := sdb_GetTemplate; SetTemplate := sdb_SetTemplate;
  GetSession := sdb_GetSession; SetSession := sdb_SetSession;
  GetListing := sdb_GetListing; SetListing := sdb_SetListing;
  Snapshot := sdb_Snapshot; RevertToSnapshot := sdb_RevertToSnapshot;
  ComputeRoot := sdb_ComputeRoot; Commit := sdb_Commit
}.
End StateDB.

(** ** Worlds as key-value maps *)

(** The objects a key-value map holds under a prefix. *)
Definition decode_map {A} (p : string) (dec : string → option A) (kv : gmap string string)
    : gmap string A :=
  list_to_map (omap (λ '(k, v), a ← strip_prefix p k; x ← dec v; Some (a, x)) (map_to_list kv)).

Section Maps.
Context {A : Type}.
Implicit Types (kv : gmap string string) (dec : string → option A) (enc : A → jv).

#[export] Instance prefix_inj p : Inj (=) (=) (λ k, p +:+ k).
Proof. intros k1 k2 H. by apply (sapp_inj_len p p) in H as [_ ->]. Qed.

Lemma decode_map_lookup p dec kv a : decode_map p dec kv !! a = kv !! (p +:+ a) ≫= dec.
Proof.
  unfold decode_map.
  set (l := omap _ (map_to_list kv)).
  assert (∀ b x, (b, x) ∈ l ↔ kv !! (p +:+ b) ≫= dec = Some x) as Hl.
  { intros b x. unfold l. rewrite list_elem_of_omap. split.
    - intros ([k v] & Hin & (b' & Hb & (x' & Hx & [= -> ->])%bind_Some)%bind_Some).
      apply elem_of_map_to_list in Hin. apply strip_prefix_Some in Hb as ->. by rewrite Hin.
    - intros (v & Hv & Hx)%bind_Some. exists (p +:+ b, v).
      split; [by apply elem_of_map_to_list|]. by rewrite strip_prefix_app; simpl; rewrite Hx. }
  destruct (kv !! (p +:+ a) ≫= dec) as [x|] eqn:E.
  - apply elem_of_list_to_map_1'; [|by apply Hl]. intros y Hy%Hl. congruence.
  - apply not_elem_of_list_to_map. intros ([b x] & -> & Hin)%list_elem_of_fmap.
    apply Hl in Hin. simpl in E. congruence.
Qed.

Lemma decode_map_insert p dec kv a v x :
  dec v = Some x → decode_map p dec (<[p +:+ a := v]> kv) = <[a := x]> (decode_map p dec kv).
Proof.
  intros Hx. apply map_eq. intros b. rewrite decode_map_lookup.
  destruct (decide (a = b)) as [->|Hne].
  - by rewrite !lookup_insert_eq.
  - rewrite (lookup_insert_ne _ a), lookup_insert_ne, decode_map_lookup; [done| |done].
    by intros ?%prefix_inj.
Qed.

Lemma decode_map_delete p dec kv a :
  decode_map p dec (delete (p +:+ a) kv) = delete a (decode_map p dec kv).
Proof.
  apply map_eq. intros b. rewrite decode_map_lookup. destruct (decide (a = b)) as [->|Hne].
  - by rewrite !lookup_delete_eq.
  - rewrite (lookup_delete_ne _ a), lookup_delete_ne, decode_map_lookup; [done| |done].
    by intros ?%prefix_inj.
Qed.

(** A key of another prefix does not matter. *)
Lemma decode_map_insert_other p dec kv k v :
  strip_prefix p k = None → decode_map p dec (<[k := v]> kv) = decode_map p dec kv.
Proof.
  intros Hk. apply map_eq. intros b. rewrite !decode_map_lookup, lookup_insert_ne; [done|].
  intros ->. by rewrite strip_prefix_app in Hk.
Qed.

Lemma decode_map_delete_other p dec kv k :
  strip_prefix p k = None → decode_map p dec (delete k kv) = decode_map p dec kv.
Proof.
  intros Hk. apply map_eq. intros b. rewrite !decode_map_lookup, lookup_delete_ne; [done|].
  intros ->. by rewrite strip_prefix_app in Hk.
Qed.

Lemma encode_map_lookup p enc (m : gmap string A) a :
  encode_map p enc m !! (p +:+ a) = (λ x, print (enc x)) <$> m !! a.
Proof. unfold encode_map. by rewrite (lookup_kmap (λ k, p +:+ k)), lookup_fmap. Qed.

Lemma encode_map_lookup_other p enc (m : gmap string A) k :
  strip_prefix p k = None → encode_map p enc m !! k = None.
Proof.
  intros Hk. unfold encode_map. apply lookup_kmap_None; [apply _|]. intros a ->.
  by rewrite strip_prefix_app in Hk.
Qed.

(** Entries under a prefix are the text of valid objects with that ID. *)
Definition canonical p enc (id : A → string) (valid : A → Prop) kv : Prop :=
  ∀ a v, kv !! (p +:+ a) = Some v → ∃ x, v = print (enc x) ∧ id x = a ∧ valid x.

Lemma canonical_insert p enc id valid kv x :
  valid x → canonical p enc id valid kv →
  canonical p enc id valid (<[p +:+ id x := print (enc x)]> kv).
Proof.
  intros Hx Hc a v [[Hk <-]|[Hne Hv]]%lookup_insert_Some; [|by apply Hc].
  apply prefix_inj in Hk as <-. eauto.
Qed.

Lemma canonical_insert_other p enc id valid kv k v :
  strip_prefix p k = None → canonical p enc id valid kv →
  canonical p enc id valid (<[k := v]> kv).
Proof.
  intros Hk Hc a v' [[-> _]|[_ Hv]]%lookup_insert_Some; [|by apply Hc].
  by rewrite strip_prefix_app in Hk.
Qed.

Lemma canonical_delete p enc id valid kv k :
  canonical p enc id valid kv → canonical p enc id valid (delete k kv).
Proof. intros Hc a v [_ Hv]%lookup_delete_Some. by apply Hc. Qed.

Lemma canonical_keyed p enc dec id valid kv :
  (∀ x, valid x → dec (print (enc x)) = Some x) →
  canonical p enc id valid kv → keyed id valid (decode_map p dec kv).
Proof.
  intros Hd Hc a x. rewrite decode_map_lookup. intros (v & Hv & Hx)%bind_Some.
  destruct (Hc a v Hv) as (y & -> & <- & Hy). rewrite Hd in Hx by done. by injection Hx as ->.
Qed.

Lemma canonical_roundtrip p enc dec id valid kv a :
  (∀ x, valid x → dec (print (enc x)) = Some x) →
  canonical p enc id valid kv →
  encode_map p enc (decode_map p dec kv) !! (p +:+ a) = kv !! (p +:+ a).
Proof.
  intros Hd Hc. rewrite encode_map_lookup, decode_map_lookup.
  destruct (kv !! (p +:+ a)) as [v|] eqn:E; [|done]. simpl.
  destruct (Hc a v E) as (y & -> & <- & Hy). by rewrite Hd by done.
Qed.
End Maps.

(** The world a key-value map holds. *)
Definition world_of `{F : FloatFmt} (kv : gmap string string) : world := mkWorld
  (decode_map prefixAccount (Unmarshal Account_dec Account_zero) kv)
  (decode_map prefixAsset (Unmarshal Asset_dec Asset_zero) kv)
  (decode_map prefixTemplate (Unmarshal AssetTemplate_dec AssetTemplate_zero) kv)
  (decode_map prefixSession (Unmarshal Session_dec Session_zero) kv)
  (decode_map prefixListing (Unmarshal MarketListing_dec MarketListing_zero) kv).

Record canonical_kv `{F : FloatFmt} (kv : gmap string string) : Prop := {
  can_accounts : canonical prefixAccount Account_enc acc_Address valid_Account kv;
  can_assets : canonical prefixAsset Asset_enc ast_ID valid_Asset kv;
  can_templates : canonical prefixTemplate AssetTemplate_enc tmpl_ID valid_AssetTemplate kv;
  can_sessions : canonical prefixSession Session_enc sess_ID valid_Session kv;
  can_listings : canonical prefixListing MarketListing_enc lst_ID valid_MarketListing kv
}.

Definition is_state_key (k : string) : bool := existsb (λ p, has_prefix p k) statePrefixes.

Section KeyValue.
Context `{F : FloatFmt}.
Implicit Type kv : gmap string string.

Lemma Account_text x : valid_Account x → Unmarshal Account_dec Account_zero (print (Account_enc x)) = Some x.
Proof. intros. apply Unmarshal_print; [apply Account_wf|by apply Account_roundtrip]. Qed.
Lemma Asset_text x : valid_Asset x → Unmarshal Asset_dec Asset_zero (print (Asset_enc x)) = Some x.
Proof. intros. apply Unmarshal_print; [by apply Asset_wf|by apply Asset_roundtrip]. Qed.
Lemma AssetTemplate_text x :
  valid_AssetTemplate x →
  Unmarshal AssetTemplate_dec AssetTemplate_zero (print (AssetTemplate_enc x)) = Some x.
Proof. intros. apply Unmarshal_print; [by apply AssetTemplate_wf|by apply AssetTemplate_roundtrip]. Qed.
Lemma Session_text x : valid_Session x → Unmarshal Session_dec Session_zero (print (Session_enc x)) = Some x.
Proof. intros. apply Unmarshal_print; [apply Session_wf|by apply Session_roundtrip]. Qed.
Lemma MarketListing_text x :
  valid_MarketListing x →
  Unmarshal MarketListing_dec MarketListing_zero (print (MarketListing_enc x)) = Some x.
Proof. intros. apply Unmarshal_print; [apply MarketListing_wf|by apply MarketListing_roundtrip]. Qed.

Lemma world_of_wf kv : canonical_kv kv → wf_world (world_of kv).
Proof.
  intros []. split; (eapply canonical_keyed; [|done]).
  - apply Account_text.
  - apply Asset_text.
  - apply AssetTemplate_text.
  - apply Session_text.
  - apply MarketListing_text.
Qed.

Lemma has_prefix_true p k : has_prefix p k = true ↔ ∃ a, k = p +:+ a.
Proof.
  unfold has_prefix. destruct (strip_prefix p k) as [a|] eqn:E.
  - apply strip_prefix_Some in E. naive_solver.
  - split; [done|]. intros [a ->]. by rewrite strip_prefix_app in E.
Qed.

Lemma is_state_key_true k : is_state_key k = true ↔ ∃ p a, p ∈ statePrefixes ∧ k = p +:+ a.
Proof.
  unfold is_state_key. rewrite existsb_exists. split.
  - intros (p & Hp%list_elem_of_In & [a ->]%has_prefix_true). eauto.
  - intros (p & a & Hp%list_elem_of_In & ->). exists p. split; [done|]. apply has_prefix_true. eauto.
Qed.

(** A canonical map is determined, on state keys, by its world. *)
Lemma encode_world_of kv :
  canonical_kv kv → encode_world (world_of kv) = filter (λ e, is_state_key e.1 = true) kv.
Proof.
  intros [Ha Hb Hc Hd He]. apply map_eq. intros k. rewrite map_lookup_filter. unfold encode_world.
  rewrite !lookup_union. simpl.
  destruct (is_state_key k) eqn:Ek.
  - apply is_state_key_true in Ek as (p & a & Hp & ->).
    unfold statePrefixes in Hp. rewrite !elem_of_cons, elem_of_nil in Hp.
    destruct Hp as [->|[->|[->|[->|[->|[]]]]]].
    + erewrite canonical_roundtrip by (done || apply Account_text).
      rewrite !encode_map_lookup_other by done. by destruct (kv !! _).
    + erewrite (canonical_roundtrip prefixAsset) by (done || apply Asset_text).
      rewrite !encode_map_lookup_other by done. by destruct (kv !! _).
    + erewrite (canonical_roundtrip prefixTemplate) by (done || apply AssetTemplate_text).
      rewrite !encode_map_lookup_other by done. by destruct (kv !! _).
    + erewrite (canonical_roundtrip prefixSession) by (done || apply Session_text).
      rewrite !encode_map_lookup_other by done. by destruct (kv !! _).
    + erewrite (canonical_roundtrip prefixListing) by (done || apply MarketListing_text).
      rewrite !encode_map_lookup_other by done. by destruct (kv !! _).
  - assert (∀ p, p ∈ statePrefixes → strip_prefix p k = None) as Hn.
    { intros p Hp. destruct (strip_prefix p k) as [a|] eqn:E; [|done].
      apply strip_prefix_Some in E as ->.
      assert (is_state_key (p +:+ a) = true) by (apply is_state_key_true; eauto). congruence. }
    rewrite !encode_map_lookup_other by (apply Hn; unfold statePrefixes; set_solver).
    by destruct (kv !! k).
Qed.
End KeyValue.

(** ** Refinement *)

(** The buffer holds state keys only, no key is both dirty and deleted, and the
    entries it makes visible over the store are canonical. *)
Record buffer_ok `{F : FloatFmt} (m : gmap string string) (b : stateSnapshot) : Prop := {
  buf_dirty k v : snap_dirty b !! k = Some v → is_state_key k = true ∧ snap_deleted b !! k = None;
  buf_deleted k x : snap_deleted b !! k = Some x → x = true ∧ is_state_key k = true;
  buf_canonical : canonical_kv (overlay (snap_dirty b) (snap_deleted b) m)
}.

Section Overlay.
Implicit Types (m dirty : gmap string string) (deleted : gmap string bool).

Lemma overlay_lookup dirty deleted m k :
  overlay dirty deleted m !! k =
    match deleted !! k with
    | Some _ => None
    | None => match dirty !! k with Some v => Some v | None => m !! k end
    end.
Proof.
  unfold overlay. rewrite map_lookup_filter, lookup_union. simpl.
  destruct (dirty !! k), (m !! k), (deleted !! k); done.
Qed.

Lemma overlay_insert dirty deleted m k v :
  overlay (<[k := v]> dirty) (delete k deleted) m = <[k := v]> (overlay dirty deleted m).
Proof.
  apply map_eq. intros j. rewrite overlay_lookup. destruct (decide (k = j)) as [->|Hne].
  - by rewrite lookup_delete_eq, !lookup_insert_eq.
  - by rewrite lookup_delete_ne, !lookup_insert_ne, overlay_lookup.
Qed.

Lemma overlay_delete dirty deleted m k :
  overlay (delete k dirty) (<[k := true]> deleted) m = delete k (overlay dirty deleted m).
Proof.
  apply map_eq. intros j. rewrite overlay_lookup. destruct (decide (k = j)) as [->|Hne].
  - by rewrite lookup_insert_eq, lookup_delete_eq.
  - by rewrite lookup_insert_ne, !lookup_delete_ne, overlay_lookup.
Qed.

Lemma overlay_empty m : overlay ∅ ∅ m = m.
Proof. apply map_eq. intros k. by rewrite overlay_lookup. Qed.

Lemma apply_ops_app l1 l2 m : apply_ops (l1 ++ l2) m = apply_ops l2 (apply_ops l1 m).
Proof. apply foldl_app. Qed.

Lemma apply_sets (l : list (string * string)) m :
  apply_ops (map (λ '(k, v), BSet k v) l) m = foldl (λ m '(k, v), <[k := v]> m) m l.
Proof. revert m. induction l as [|[j v] l IH]; intros m; [done|]. simpl. apply IH. Qed.

Lemma apply_deletes_lookup (l : list (string * bool)) m k :
  apply_ops (map (λ '(k, _), BDelete k) l) m !! k =
    if decide (k ∈ l.*1) then None else m !! k.
Proof.
  revert m. induction l as [|[j v] l IH]; intros m; [done|]. simpl. rewrite IH.
  destruct (decide (k = j)) as [->|Hne].
  - rewrite lookup_delete_eq. repeat case_decide; set_solver.
  - rewrite lookup_delete_ne by done. repeat case_decide; set_solver.
Qed.
End Overlay.

Section Refinement.
Context `{C : Crypto, F : FloatFmt, FL : !FloatLaws, O : MapOrder}.
Context {D : Type} `{HD : DB D, HDR : DBRep D, HDL : !DBLaws D}.
Implicit Type s : StateDB D.

Definition buffer s : stateSnapshot := mkSnapshot (sdb_dirty s) (sdb_deleted s).
Definition visible s : gmap string string :=
  overlay (sdb_dirty s) (sdb_deleted s) (db_contents (sdb_db s)).

#[export] Instance StateDB_Rep : Represents (StateDB D) := {
  st_inv s := buffer_ok (db_contents (sdb_db s)) (buffer s) ∧
    Forall (buffer_ok (db_contents (sdb_db s))) (sdb_snapshots s);
  st_abs s := mkAbs (world_of (visible s))
    (map (λ b, world_of (overlay (snap_dirty b) (snap_deleted b) (db_contents (sdb_db s))))
       (sdb_snapshots s));
  st_healthy s := db_healthy (sdb_db s)
}.

Lemma sdb_get_spec k s :
  st_inv s →
  sdb_get k s = (s, of_option ErrNotFound (visible s !! k)) ∨
  (¬ st_healthy s ∧ ∃ e, sdb_get k s = (s, Fail e) ∧ is_not_found e = false).
Proof.
  intros [[Hd Hx _] _]. unfold sdb_get, visible, on_part. rewrite overlay_lookup.
  destruct (sdb_deleted s !! k) as [b|] eqn:Eb.
  { destruct (Hx _ _ Eb) as [-> _]. by left. }
  simpl. destruct (sdb_dirty s !! k); [by left|].
  destruct s as [d di de sn]. destruct (Get_law k d) as [E|(Hu & e & E & He)]; simpl in *; rewrite E.
  - by left.
  - right. split; [done|]. by exists e.
Qed.

#[local] Ltac same_state := split; [assumption|split; [reflexivity|split; [tauto|]]].

Lemma get_refines {A} (p a : string) enc dec (zero : A) id valid (sel : world → gmap string A) :
  (∀ x, valid x → Unmarshal dec zero (print (enc x)) = Some x) →
  (∀ kv, sel (world_of kv) = decode_map p (Unmarshal dec zero) kv) →
  (∀ s, st_inv s → canonical p enc id valid (visible s)) →
  refines (λ x, valid x ∧ id x = a)
    (data ← sdb_get (p +:+ a); liftO (decode dec zero data))
    (query (λ w, lookup_or_fail (sel w !! a))).
Proof.
  intros Ht Hsel Hc s s' o Hs. unfold query. simpl. rewrite Hsel, decode_map_lookup.
  unfold mbind, M_bind, liftO. destruct (sdb_get_spec (p +:+ a) s Hs) as [->|(Hu & e & -> & He)].
  - destruct (visible s !! (p +:+ a)) as [v|] eqn:Ev; simpl.
    + destruct (Hc s Hs a v Ev) as (x & -> & Hid & Hv). unfold decode. rewrite Ht by done.
      simpl. intros [= <- <-]. same_state. left. split_and!; try done. by intros ? [= <-].
    + intros [= <- <-]. same_state. by left.
  - intros [= <- <-]. same_state. right. eauto.
Qed.

Lemma set_refines k v f :
  is_state_key k = true →
  (∀ kv, canonical_kv kv → canonical_kv (<[k := v]> kv)) →
  (∀ kv, world_of (<[k := v]> kv) = f (world_of kv)) →
  refines (λ _, True) (sdb_set k v) (update_world f).
Proof.
  intros Hk Hc Hf s s' o [[Hd Hx Hcan] Hsn] [= <- <-]. simpl.
  split_and!; try done; [|left; split_and!; try done].
  - split; simpl.
    + intros j u [[<- _]|[Hne Hj]]%lookup_insert_Some; [by rewrite lookup_delete_eq|].
      by rewrite lookup_delete_ne; [eapply Hd|].
    + intros j b [_ Hj]%lookup_delete_Some. by eapply Hx.
    + rewrite overlay_insert. by apply Hc.
  - unfold update_world, visible. simpl. by rewrite overlay_insert, Hf.
Qed.

Lemma del_refines k f :
  is_state_key k = true → (∀ kv, world_of (delete k kv) = f (world_of kv)) →
  refines (λ _, True) (sdb_del k) (update_world f).
Proof.
  intros Hk Hf s s' o [[Hd Hx Hcan] Hsn] [= <- <-]. simpl.
  split_and!; try done; [|left; split_and!; try done].
  - split; simpl.
    + intros j u [Hne Hj]%lookup_delete_Some. rewrite lookup_insert_ne by done. by eapply Hd.
    + intros j b [[<- <-]|[Hne Hj]]%lookup_insert_Some; [done|]. by eapply Hx.
    + rewrite overlay_delete. destruct Hcan. split; by apply canonical_delete.
  - unfold update_world, visible. simpl. by rewrite overlay_delete, Hf.
Qed.

Lemma account_refines a :
  valid_utf8 a = true →
  refines (λ x, valid_Account x ∧ acc_Address x = a) (sdb_GetAccount a)
    (query (λ w, Ret (account_at w a))).
Proof.
  intros Ha s s' o Hs. unfold query, account_at, sdb_GetAccount. simpl.
  rewrite decode_map_lookup.
  destruct (sdb_get_spec (prefixAccount +:+ a) s Hs) as [->|(Hu & e & -> & He)].
  - destruct (visible s !! (prefixAccount +:+ a)) as [v|] eqn:Ev; simpl.
    + destruct Hs as [Hb Hsn]. destruct (can_accounts _ (buf_canonical _ _ Hb) a v Ev) as (x & -> & Hid & Hv).
      unfold decode. rewrite Account_text by done. simpl. intros [= <- <-].
      split; [done|]. split_and!; try done. left. split_and!; try done. by intros ? [= <-].
    + intros [= <- <-]. same_state. left. split_and!; try done. by intros ? [= <-].
  - rewrite He. intros [= <- <-]. same_state. right. eauto.
Qed.

(** [Commit] writes exactly the visible entries. *)
Lemma commit_contents s :
  st_inv s → apply_ops (commit_ops s) (db_contents (sdb_db s)) = visible s.
Proof.
  intros [[Hd Hx _] _]. unfold commit_ops.
  pose proof (range_perm 0 (sdb_dirty s)) as P0. pose proof (range_perm 1 (sdb_deleted s)) as P1.
  assert (NoDup (range 0 (sdb_dirty s)).*1) as Hnd by (rewrite P0; apply NoDup_fst_map_to_list).
  apply map_eq. intros k. rewrite apply_ops_app, apply_deletes_lookup, apply_sets.
  rewrite foldl_insert_entries by done.
  rewrite (list_to_map_proper _ _ Hnd P0), list_to_map_to_list.
  unfold visible. rewrite overlay_lookup, lookup_union.
  destruct (sdb_deleted s !! k) as [b|] eqn:Ek.
  - rewrite decide_True; [done|]. rewrite P1. apply list_elem_of_fmap.
    exists (k, b). split; [done|]. by apply elem_of_map_to_list.
  - rewrite decide_False.
    + by destruct (sdb_dirty s !! k), (db_contents (sdb_db s) !! k).
    + rewrite P1. intros ([j b] & -> & Hj%elem_of_map_to_list)%list_elem_of_fmap. simpl in Ek. congruence.
Qed.

(** The iterators see the state keys of a healthy store. *)
Lemma scan_state_spec d :
  db_healthy d → scan_state d = filter (λ e, is_state_key e.1 = true) (db_contents d).
Proof.
  intros Hh. unfold scan_state.
  assert (∀ p m, foldl (λ m '(k, v), <[k := v]> m) m (db_Scan p d).1 =
                   filter (λ e, has_prefix p e.1 = true) (db_contents d) ∪ m) as Hp.
  { intros p m. destruct (Scan_law p d Hh) as (l & -> & Hl). simpl.
    assert (NoDup l.*1) as Hnd.
    { rewrite Hl. eapply sublist_NoDup; [apply (NoDup_fst_map_to_list (db_contents d))|].
      apply fmap_sublist, sublist_filter. }
    rewrite foldl_insert_entries by done. f_equal.
    rewrite (list_to_map_proper _ _ Hnd Hl). symmetry. apply map_filter_alt. }
  apply map_eq. intros k. unfold statePrefixes. cbn [foldl]. rewrite !Hp, !lookup_union.
  rewrite !map_lookup_filter. unfold is_state_key, statePrefixes. cbn [existsb fst].
  rewrite lookup_empty. destruct (db_contents d !! k) as [v|]; [|done]. simpl.
  do 5 (match goal with |- context [has_prefix ?p k] => destruct (has_prefix p k) end); done.
Qed.

Lemma root_refines s :
  st_inv s → st_healthy s → sdb_ComputeRoot s = world_root (abs_world (st_abs s)).
Proof.
  intros [[Hd Hx Hc] _] Hh. unfold sdb_ComputeRoot, world_root. simpl.
  rewrite encode_world_of by done. rewrite scan_state_spec by done. do 2 f_equal.
  apply map_eq. intros k. rewrite overlay_lookup, !map_lookup_filter. unfold visible.
  rewrite overlay_lookup.
  destruct (sdb_deleted s !! k) as [b|]; [done|].
  destruct (sdb_dirty s !! k) as [v|] eqn:Ek; simpl.
  - destruct (Hd _ _ Ek) as [-> _]. done.
  - done.
Qed.

Lemma insert_canonical kv :
  canonical_kv kv →
  (∀ x, valid_Account x → canonical_kv (<[prefixAccount +:+ acc_Address x := print (Account_enc x)]> kv)) ∧
  (∀ x, valid_Asset x → canonical_kv (<[prefixAsset +:+ ast_ID x := print (Asset_enc x)]> kv)) ∧
  (∀ x, valid_AssetTemplate x →
     canonical_kv (<[prefixTemplate +:+ tmpl_ID x := print (AssetTemplate_enc x)]> kv)) ∧
  (∀ x, valid_Session x → canonical_kv (<[prefixSession +:+ sess_ID x := print (Session_enc x)]> kv)) ∧
  (∀ x, valid_MarketListing x →
     canonical_kv (<[prefixListing +:+ lst_ID x := print (MarketListing_enc x)]> kv)).
Proof.
  intros []. split_and!; intros x Hx; split;
    first [by apply canonical_insert | by apply canonical_insert_other].
Qed.

Lemma insert_world kv :
  (∀ x, valid_Account x → world_of (<[prefixAccount +:+ acc_Address x := print (Account_enc x)]> kv) =
     set_accounts (<[acc_Address x := x]> (accounts (world_of kv))) (world_of kv)) ∧
  (∀ x, valid_Asset x → world_of (<[prefixAsset +:+ ast_ID x := print (Asset_enc x)]> kv) =
     set_assets (<[ast_ID x := x]> (assets (world_of kv))) (world_of kv)) ∧
  (∀ x, valid_AssetTemplate x →
     world_of (<[prefixTemplate +:+ tmpl_ID x := print (AssetTemplate_enc x)]> kv) =
     set_templates (<[tmpl_ID x := x]> (templates (world_of kv))) (world_of kv)) ∧
  (∀ x, valid_Session x → world_of (<[prefixSession +:+ sess_ID x := print (Session_enc x)]> kv) =
     set_sessions (<[sess_ID x := x]> (sessions (world_of kv))) (world_of kv)) ∧
  (∀ x, valid_MarketListing x →
     world_of (<[prefixListing +:+ lst_ID x := print (MarketListing_enc x)]> kv) =
     set_listings (<[lst_ID x := x]> (listings (world_of kv))) (world_of kv)).
Proof.
  unfold world_of, set_accounts, set_assets, set_templates, set_sessions, set_listings.
  cbn [accounts assets templates sessions listings]. split_and!; intros x Hx; f_equal;
    first [by apply decode_map_insert_other | apply decode_map_insert];
    eauto using Account_text, Asset_text, AssetTemplate_text, Session_text, MarketListing_text.
Qed.

Lemma delete_world kv id :
  world_of (delete (prefixAsset +:+ id) kv) =
    set_assets (delete id (assets (world_of kv))) (world_of kv).
Proof.
  unfold world_of, set_assets. simpl. f_equal;
    first [by apply decode_map_delete_other | apply decode_map_delete].
Qed.

#[local] Ltac pick n H :=
  lazymatch n with
  | 0%nat => first [exact (proj1 H _ ltac:(eassumption)) | exact (H _ ltac:(eassumption))]
  | S ?m => pick m (proj2 H)
  end.
#[local] Ltac solve_set n p id enc upd :=
  intros x Hx; apply (set_refines (p +:+ id x) (print (enc x)) (upd x));
  [ apply is_state_key_true; exists p, (id x); split; [unfold statePrefixes; set_solver|done]
  | intros kv Hkv; pick n (insert_canonical kv Hkv)
  | intros kv; pick n (insert_world kv) ].

Lemma snapshot_refines s : st_inv s →
  ∃ s', sdb_Snapshot s = (s', Ret (Z.of_nat (length (abs_snaps (st_abs s))))) ∧ st_inv s' ∧
    st_abs s' = (abs_Snapshot (st_abs s)).1 ∧ (st_healthy s → st_healthy s').
Proof.
  intros [Hb Hsn]. eexists. split.
  { unfold sdb_Snapshot. do 2 f_equal. simpl. rewrite length_app, length_map. simpl. lia. }
  simpl. split; [split; [done|]|split; [|done]].
  { apply Forall_app. by split; [|apply Forall_singleton]. }
  unfold abs_Snapshot. simpl. by rewrite map_app.
Qed.

Lemma revert_refines s id : st_inv s →
  ∃ s' o, sdb_RevertToSnapshot id s = (s', o) ∧ st_inv s' ∧
    abs_Revert id (st_abs s) = (st_abs s', o) ∧ (st_healthy s → st_healthy s').
Proof.
  intros [Hb Hsn]. unfold sdb_RevertToSnapshot, abs_Revert. simpl. rewrite length_map.
  case_bool_decide as Hid; [by eexists _, _|]. rewrite list_lookup_fmap.
  destruct (sdb_snapshots s !! Z.to_nat id) as [b|] eqn:Eb; simpl; [|by eexists _, _].
  eexists _, _. split; [done|]. simpl. split; [split|split; [|done]].
  - rewrite Forall_lookup in Hsn. specialize (Hsn _ _ Eb). by destruct b.
  - by apply Forall_take.
  - by rewrite fmap_take.
Qed.

Lemma commit_refines s : st_inv s →
  ∃ s' o, sdb_Commit s = (s', o) ∧ st_inv s' ∧ abs_world (st_abs s') = abs_world (st_abs s) ∧
    ((o = Ret tt ∧ abs_snaps (st_abs s') = [] ∧ (st_healthy s → st_healthy s')) ∨
     (¬ st_healthy s ∧ ∃ e, o = Fail e ∧ st_abs s' = st_abs s)).
Proof.
  intros Hs. pose proof (commit_contents s Hs) as Hv. destruct Hs as [Hb Hsn].
  unfold sdb_Commit.
  destruct (Write_law (commit_ops s) (sdb_db s)) as (d & o & -> & [(-> & Hc & Hh)|(Hu & (e & -> & _) & Hc)]).
  - eexists _, _. split; [done|]. simpl. unfold visible. simpl. rewrite Hc, Hv.
    rewrite overlay_empty. split; [split; [|done]|split; [done|by left]].
    split; simpl; try (by intros ? ? ?%lookup_empty_Some). rewrite overlay_empty. apply Hb.
  - eexists _, _. split; [done|]. simpl. unfold visible. simpl. rewrite Hc.
    split; [done|]. split; [done|]. right. eauto.
Qed.

#[export] Instance StateDB_ops : StateOpLaws (StateDB D).
Proof.
  split.
  - apply account_refines.
  - solve_set 0%nat prefixAccount acc_Address Account_enc (λ x w, set_accounts (<[acc_Address x := x]> w.(accounts)) w).
  - intros id. apply (get_refines prefixAsset id Asset_enc); [apply Asset_text|done|].
    intros s [Hb _]. apply (buf_canonical _ _ Hb).
  - solve_set 1%nat prefixAsset ast_ID Asset_enc (λ x w, set_assets (<[ast_ID x := x]> w.(assets)) w).
  - intros id. apply del_refines; [done|]. intros kv. apply delete_world.
  - intros id. apply (get_refines prefixTemplate id AssetTemplate_enc); [apply AssetTemplate_text|done|].
    intros s [Hb _]. apply (buf_canonical _ _ Hb).
  - solve_set 2%nat prefixTemplate tmpl_ID AssetTemplate_enc
      (λ x w, set_templates (<[tmpl_ID x := x]> w.(templates)) w).
  - intros id. apply (get_refines prefixSession id Session_enc); [apply Session_text|done|].
    intros s [Hb _]. apply (buf_canonical _ _ Hb).
  - solve_set 3%nat prefixSession sess_ID Session_enc (λ x w, set_sessions (<[sess_ID x := x]> w.(sessions)) w).
  - intros id. apply (get_refines prefixListing id MarketListing_enc); [apply MarketListing_text|done|].
    intros s [Hb _]. apply (buf_canonical _ _ Hb).
  - solve_set 4%nat prefixListing lst_ID MarketListing_enc
      (λ x w, set_listings (<[lst_ID x := x]> w.(listings)) w).
Qed.

#[export] Instance StateDB_laws : StateLaws (StateDB D).
Proof.
  split.
  - apply _.
  - intros s [Hb Hsn]. split; [apply world_of_wf, Hb|]. simpl. apply Forall_fmap.
    eapply Forall_impl; [done|]. intros b Hb'. apply world_of_wf, Hb'.
  - apply snapshot_refines.
  - intros s id. apply revert_refines.
  - apply root_refines.
  - apply commit_refines.
Qed.
End Refinement.

(** ** The root binds the world *)

Section Root.
Context `{C : Crypto, F : FloatFmt}.

Lemma decode_encode {A} p (enc : A → jv) dec id valid (m : gmap string A) kv :
  (∀ x, valid x → dec (print (enc x)) = Some x) → keyed id valid m →
  (∀ a, kv !! (p +:+ a) = encode_map p enc m !! (p +:+ a)) → decode_map p dec kv = m.
Proof.
  intros Hd Hk Hkv. apply map_eq. intros a. rewrite decode_map_lookup, Hkv, encode_map_lookup.
  destruct (m !! a) as [x|] eqn:E; [|done]. simpl. apply Hd. by apply (Hk a x).
Qed.

Lemma encode_world_at (w : world) a :
  encode_world w !! (prefixAccount +:+ a) = encode_map prefixAccount Account_enc w.(accounts) !! (prefixAccount +:+ a) ∧
  encode_world w !! (prefixAsset +:+ a) = encode_map prefixAsset Asset_enc w.(assets) !! (prefixAsset +:+ a) ∧
  encode_world w !! (prefixTemplate +:+ a) =
    encode_map prefixTemplate AssetTemplate_enc w.(templates) !! (prefixTemplate +:+ a) ∧
  encode_world w !! (prefixSession +:+ a) = encode_map prefixSession Session_enc w.(sessions) !! (prefixSession +:+ a) ∧
  encode_world w !! (prefixListing +:+ a) =
    encode_map prefixListing MarketListing_enc w.(listings) !! (prefixListing +:+ a).
Proof.
  unfold encode_world. rewrite !lookup_union.
  repeat match goal with |- context [encode_map ?p ?e ?m !! ?k] =>
    rewrite (encode_map_lookup_other p e m k) by done end.
  split_and!; by destruct (encode_map _ _ _ !! _).
Qed.

Lemma world_of_encode w : wf_world w → world_of (encode_world w) = w.
Proof.
  intros [Ha Hb Hc Hd He]. destruct w as [acc ast tmpl sess lst].
  pose proof (encode_world_at (mkWorld acc ast tmpl sess lst)) as Hl.
  unfold world_of. f_equal.
  - apply (decode_encode _ _ _ _ _ _ _ Account_text Ha). intros a. apply (proj1 (Hl a)).
  - apply (decode_encode _ _ _ _ _ _ _ Asset_text Hb). intros a. apply (proj1 (proj2 (Hl a))).
  - apply (decode_encode _ _ _ _ _ _ _ AssetTemplate_text Hc). intros a.
    apply (proj1 (proj2 (proj2 (Hl a)))).
  - apply (decode_encode _ _ _ _ _ _ _ Session_text Hd). intros a.
    apply (proj1 (proj2 (proj2 (proj2 (Hl a))))).
  - apply (decode_encode _ _ _ _ _ _ _ MarketListing_text He). intros a.
    apply (proj2 (proj2 (proj2 (proj2 (Hl a))))).
Qed.

Definition short_entries (kv : gmap string string) : Prop :=
  map_Forall (λ k v, zlen k < 4294967296 ∧ zlen v < 4294967296) kv.

Lemma root_bytes_inj kv1 kv2 :
  short_entries kv1 → short_entries kv2 → root_bytes kv1 = root_bytes kv2 → kv1 = kv2.
Proof.
  intros H1 H2 E. apply sorted_entries_inj. unfold root_bytes in E.
  assert (∀ kv, short_entries kv → Forall (λ e, zlen e.1 < 4294967296 ∧ zlen e.2 < 4294967296)
    (sorted_entries kv)) as Hs.
  { intros kv Hkv. apply Forall_forall. intros [k v] Hin%elem_of_sorted_entries.
    exact (Hkv k v Hin). }
  apply Hs in H1, H2. revert E H2. generalize (sorted_entries kv2).
  induction H1 as [|[k v] l [Hk Hv] _ IH]; intros l2 E H2.
  - destruct H2 as [|[k2 v2] l2 _ _]; [done|].
    apply (f_equal String.length) in E. cbn -[frame] in E. rewrite slength_app, frame_length in E. lia.
  - destruct H2 as [|[k2 v2] l2 [Hk2 Hv2] H2].
    + apply (f_equal String.length) in E. cbn -[frame] in E. rewrite slength_app, frame_length in E. lia.
    + cbn -[frame] in E. apply frame_app_inj in E as [-> E]; [|done..].
      apply frame_app_inj in E as [-> E]; [|done..]. f_equal. by apply IH.
Qed.

Lemma world_root_inj w1 w2 :
  wf_world w1 → wf_world w2 → short_entries (encode_world w1) → short_entries (encode_world w2) →
  world_root w1 = world_root w2 →
  w1 = w2 ∨ collision_in [root_bytes (encode_world w1); root_bytes (encode_world w2)].
Proof.
  intros Hw1 Hw2 Hs1 Hs2 [Hr|]%Hash_inj_or; [left|by right].
  apply root_bytes_inj in Hr; [|done..]. by rewrite <- (world_of_encode w1), Hr, world_of_encode.
Qed.
End Root.

(** ** Properties *)

Section StateDBProperties.
Context `{C : Crypto, F : FloatFmt, FL : !FloatLaws, O : MapOrder}.
Context {D : Type} `{HD : DB D, HDR : DBRep D, HDL : !DBLaws D}.

(** C11: over any store that meets the [DB] contract, [StateDB] implements the
    abstract world state: each getter and setter acts as the lookup or update
    of the corresponding map or reports a storage fault, snapshots and reverts
    act on the stack of saved worlds, the root is the root of the world, and a
    commit keeps the world. *)
Theorem statedb_implements_state : StateLaws (StateDB D).
Proof. apply StateDB_laws. Qed.

(** C12: on healthy stores two state databases, whatever mix of buffered and
    persisted entries they hold, compute the same root exactly when they hold
    the same accounts, assets, templates, sessions and listings, unless the two
    hashed texts are a SHA-256 collision. *)
Theorem state_root_binds_world (s1 s2 : StateDB D) :
  let w1 := abs_world (st_abs s1) in
  let w2 := abs_world (st_abs s2) in
  st_inv s1 → st_inv s2 → st_healthy s1 → st_healthy s2 →
  short_entries (encode_world w1) → short_entries (encode_world w2) →
  (w1 = w2 → sdb_ComputeRoot s1 = sdb_ComputeRoot s2) ∧
  (sdb_ComputeRoot s1 = sdb_ComputeRoot s2 →
   w1 = w2 ∨ collision_in [root_bytes (encode_world w1); root_bytes (encode_world w2)]).
Proof.
  cbn zeta.
  intros H1 H2 Hh1 Hh2 Hs1 Hs2. rewrite !root_refines by done. split; [by intros ->|].
  apply world_root_inj; [by apply st_wf..|done|done].
Qed.

(** C13: a successful commit empties the buffer and the snapshot stack and
    moves every buffered change into the store, so that every read and the
    state root are what they were before; a failed one, possible on a faulty
    store only, leaves the buffer, the deletions, every saved snapshot and the
    contents of the store exactly as they were. *)
Theorem commit_preserves_state (s s' : StateDB D) o :
  st_inv s → sdb_Commit s = (s', o) →
  st_inv s' ∧ visible s' = visible s ∧
  (o = Ret tt → sdb_dirty s' = ∅ ∧ sdb_deleted s' = ∅ ∧ sdb_snapshots s' = [] ∧
     db_contents (sdb_db s') = visible s ∧
     (st_healthy s → st_healthy s' ∧ sdb_ComputeRoot s' = sdb_ComputeRoot s)) ∧
  (o ≠ Ret tt → sdb_dirty s' = sdb_dirty s ∧ sdb_deleted s' = sdb_deleted s ∧
     sdb_snapshots s' = sdb_snapshots s ∧ db_contents (sdb_db s') = db_contents (sdb_db s) ∧
     st_abs s' = st_abs s) ∧
  (st_healthy s → o = Ret tt).
Proof.
  intros Hs E. pose proof (commit_contents s Hs) as Hv.
  destruct (commit_refines s Hs) as (s1 & o1 & E1 & Hi & Hw & _). rewrite E in E1.
  injection E1 as <- <-. split; [done|]. revert E. unfold sdb_Commit.
  destruct (Write_law (commit_ops s) (sdb_db s)) as (d & o' & -> & [(-> & Hc & Hh)|(Hu & (e & -> & _) & Hc)]);
    intros [= <- <-].
  - rewrite Hv in Hc. unfold visible at 1. cbn [sdb_dirty sdb_deleted sdb_db sdb_snapshots].
    rewrite overlay_empty, Hc. split; [done|]. split; [|by split]. intros _. split_and!; try done.
    intros Hs'. split; [by apply Hh|]. rewrite !root_refines by (done || by apply Hh). by rewrite Hw.
  - unfold visible. simpl. rewrite Hc. split; [done|]. split; [done|]. split; [|intros ?; by destruct Hu].
    intros _. split_and!; try done. unfold st_abs. simpl. unfold visible, buffer. simpl. by rewrite Hc.
Qed.
End StateDBProperties.
