(* ===== verification/Events.v ===== *)
(** * Events

    Models [src/events/emitter.go].  Subscribers are computations on the state
    [W] of the whole program; [Emit] runs them in the order they subscribed,
    each under [recover]. *)
From Stdlib Require Import Ascii Lia ZArith.
From stdpp Require Import base gmap strings list.
From S2P Require Import Prelude.

Definition EventBlockCommit : string := "block_commit".
Definition EventTxExecuted : string := "tx_executed".
Definition EventTokenTransfer : string := "token_transfer".
Definition EventAssetMinted : string := "asset_minted".
Definition EventAssetBurned : string := "asset_burned".
Definition EventAssetTransfer : string := "asset_transfer".
Definition EventTemplateReg : string := "template_registered".
Definition EventSessionOpen : string := "session_open".
Definition EventSessionClose : string := "session_close".
Definition EventMarketList : string := "market_list".
Definition EventMarketBuy : string := "market_buy".

(** The values the program stores in [map[string]any], with their dynamic
    type. *)
Inductive goval : Type :=
| GString (s : string)
| GUint64 (z : Z)
| GInt64 (z : Z)
| GInt (z : Z)
| GStrings (l : list string)
| GAnys (l : list goval).

Record Event : Type := mkEvent {
  ev_Type : string;
  ev_TxID : string;
  ev_BlockHeight : Z;
  ev_Data : gmap string goval
}.

Definition EventHandler (W : Type) : Type := Event → M W unit.

Record Emitter (W : Type) : Type := mkEmitter { em_handlers : gmap string (list (EventHandler W)) }.
Arguments mkEmitter {W}.
Arguments em_handlers {W}.

Definition NewEmitter {W} : Emitter W := mkEmitter ∅.

Definition Subscribe {W} (typ : string) (h : EventHandler W) (e : Emitter W) : Emitter W :=
  mkEmitter (<[typ := default [] (em_handlers e !! typ) ++ [h]]> (em_handlers e)).

Definition Emit {W} (e : Emitter W) (ev : Event) : M W unit :=
  for_each (λ h, recover (h ev)) (default [] (em_handlers e !! ev_Type ev)).

Section Facts.
Context {W : Type}.
Implicit Types (e : Emitter W) (h : EventHandler W).

Lemma recover_all ev (hs : list (EventHandler W)) w :
  for_each (λ h, recover (h ev)) hs w = (foldl (λ w h, (h ev w).1) w hs, Ret tt).
Proof. revert w. induction hs as [|h hs IH]; intros w; [done|]. apply IH. Qed.

Lemma Emit_run e ev w :
  Emit e ev w = (foldl (λ w h, (h ev w).1) w (default [] (em_handlers e !! ev_Type ev)), Ret tt).
Proof. apply recover_all. Qed.

(** An emission preserves what each subscriber preserves. *)
Lemma Emit_preserves (P : W → Prop) e ev w :
  (∀ typ h w, h ∈ default [] (em_handlers e !! typ) → P w → P (h ev w).1) →
  P w → P (Emit e ev w).1.
Proof.
  intros Hh Hw. rewrite Emit_run. simpl. specialize (Hh (ev_Type ev)).
  revert w Hw. induction (default [] _) as [|h hs IH]; intros w Hw; [done|]. simpl.
  apply IH; [intros; apply Hh; [set_solver|done]|]. apply Hh; [set_solver|done].
Qed.
End Facts.

(** An emission always returns, and a subscriber is run on it after those
    that subscribed before it to the same type, whether or not these panicked;
    other types are unaffected by a subscription. *)
Theorem emit_reaches_subscribers {W} (e : Emitter W) typ h ev w :
  Emit (Subscribe typ h e) ev w =
    if bool_decide (ev_Type ev = typ)
    then ((h ev (Emit e ev w).1).1, Ret tt) else ((Emit e ev w).1, Ret tt).
Proof.
  rewrite !Emit_run. unfold Subscribe. simpl. case_bool_decide as Ht.
  - subst typ. rewrite lookup_insert_eq. simpl. by rewrite foldl_app.
  - by rewrite lookup_insert_ne.
Qed.
