(* ===== verification/Vm.v ===== *)
(** * Execution: contexts, the handler registry, the executor

    Models [src/vm/executor.go] and [src/vm/registry.go].  A handler is a
    computation on the program state [W], which offers the interface [State];
    the context holds the block, the transaction and the emitter, which may be
    nil. *)
From Stdlib Require Import Ascii Lia ZArith.
From stdpp Require Import base gmap strings list.
From S2P Require Import Prelude Crypto Json JsonFacts JsonParse JsonTyped Types Transaction Block.
From S2P Require Import State Events.

Record Context (W : Type) : Type := mkContext {
  ctx_Block : Block;
  ctx_Tx : Transaction;
  ctx_Emitter : option (Emitter W)
}.
Arguments mkContext {W}.
Arguments ctx_Block {W}.
Arguments ctx_Tx {W}.
Arguments ctx_Emitter {W}.

(** [type Handler func(ctx *Context, payload json.RawMessage) error] *)
Definition Handler (W : Type) : Type := Context W → string → M W unit.

(** [if emitter != nil { emitter.Emit(...) }] *)
Definition emit {W} (em : option (Emitter W)) (ev : Event) : M W unit :=
  match em with None => mret tt | Some e => Emit e ev end.

(** [ctx.Emitter.Emit] with the transaction and block of the context. *)
Definition emit_ctx {W} (ctx : Context W) (typ : string) (data : gmap string goval) : M W unit :=
  emit (ctx_Emitter ctx)
    (mkEvent typ (tx_ID (ctx_Tx ctx)) (hdr_Height (blk_Header (ctx_Block ctx))) data).

(** ** Registry *)

Record Registry (W : Type) : Type := mkRegistry { reg_handlers : gmap string (Handler W) }.
Arguments mkRegistry {W}.
Arguments reg_handlers {W}.

Definition NewRegistry {W} : Registry W := mkRegistry ∅.

Definition Register {W} (typ : string) (h : Handler W) : M (Registry W) unit := λ r,
  if bool_decide (is_Some (reg_handlers r !! typ))
  then (r, Panic "vm: handler already registered")
  else (mkRegistry (<[typ := h]> (reg_handlers r)), Ret tt).

Definition reg_Execute {W} (r : Registry W) (typ : string) (ctx : Context W) (payload : string)
    : M W unit :=
  match reg_handlers r !! typ with
  | None => fail (EMsg "vm: no handler registered for TxType")
  | Some h => h ctx payload
  end.

(** ** Executor *)

Record Executor (W : Type) : Type := mkExecutor {
  ex_registry : Registry W;
  ex_emitter : option (Emitter W)
}.
Arguments mkExecutor {W}.
Arguments ex_registry {W}.
Arguments ex_emitter {W}.

Section Executor.
Context {W : Type} `{C : Crypto, HS : State W}.
Implicit Type e : Executor W.

(** The fee and nonce part of [applyTx]. *)
Definition charge (block : Block) (tx : Transaction) : M W unit :=
  let proposer_id := hdr_Proposer (blk_Header block) in
  acc ← GetAccount (tx_From tx) errorf "get account";
  reject_if (bool_decide (acc_Nonce acc ≠ tx_Nonce tx)) (EMsg "invalid nonce");;
  reject_if (bool_decide (acc_Balance acc < tx_Fee tx)) (EMsg "insufficient balance for fee");;
  reject_if (bool_decide (acc_Nonce acc = max_uint64)) (EMsg "nonce overflow");;
  let acc := mkAccount (acc_Address acc) (sub64 (acc_Balance acc) (tx_Fee tx))
               (add64 (acc_Nonce acc) 1) in
  if bool_decide (tx_Fee tx > 0 ∧ proposer_id ≠ "" ∧ tx_From tx ≠ proposer_id) then
    SetAccount acc;;
    proposer ← GetAccount proposer_id errorf "get proposer account";
    reject_if (bool_decide (acc_Balance proposer > max_uint64 - tx_Fee tx))
      (EMsg "proposer balance overflow");;
    SetAccount (mkAccount (acc_Address proposer) (add64 (acc_Balance proposer) (tx_Fee tx))
                  (acc_Nonce proposer)) errorf "set proposer account"
  else
    let acc := if bool_decide (tx_Fee tx > 0 ∧ tx_From tx = proposer_id)
               then mkAccount (acc_Address acc) (add64 (acc_Balance acc) (tx_Fee tx)) (acc_Nonce acc)
               else acc in
    SetAccount acc.

Definition applyTx e (block : Block) (tx : Transaction) : M W unit :=
  charge block tx;;
  reg_Execute (ex_registry e) (tx_Type tx) (mkContext block tx (ex_emitter e)) (tx_Payload tx).

Definition tx_event (block : Block) (tx : Transaction) : Event :=
  mkEvent EventTxExecuted (tx_ID tx) (hdr_Height (blk_Header block))
    (<["type" := GString (tx_Type tx)]> (<["from" := GString (tx_From tx)]> ∅)).

Definition ExecuteTx e (block : Block) (tx : Transaction) : M W unit :=
  liftO (tx_Verify tx) errorf "signature";;
  snapID ← Snapshot errorf "snapshot";
  o ← attempt (applyTx e block tx);
  match o with
  | Panic msg => panic msg
  | Fail err =>
      r ← attempt (RevertToSnapshot snapID);
      match r with
      | Ret _ => fail err
      | Fail _ => fail (EWrap "revert snapshot after tx failure" err)
      | Panic msg => panic msg
      end
  | Ret _ => emit (ex_emitter e) (tx_event block tx)
  end.

(** A nil transaction pointer panics in [tx.Verify]. *)
Definition ExecuteBlock e (block : Block) : M W unit :=
  for_each (λ p, tx ← liftO (deref p); ExecuteTx e block tx errorf "tx failed")
    (blk_Transactions block).
End Executor.

(** [if err := json.Unmarshal(payload, &p); err != nil { return ... }] *)
Definition decode_payload {W A} (msg : string) (dec : A → jv → option A) (zero : A)
    (payload : string) : M W A :=
  liftO (of_option (EMsg "json") (Unmarshal dec zero payload)) errorf msg.

(** ** Facts *)

(** Hexadecimal text is ASCII. *)
Lemma hex_char_ascii c z : from_hex_char c = Some z → byte_val c < 128.
Proof. unfold from_hex_char. repeat case_bool_decide; intros; simplify_eq; lia. Qed.

Lemma hex_decode_valid s b : hex_DecodeString s = Some b → valid_utf8 s = true.
Proof.
  revert s. induction b as [|c b IH]; intros [|x [|y s]]; cbn [hex_DecodeString]; try done.
  - destruct (from_hex_char x), (from_hex_char y), (hex_DecodeString s); done.
  - destruct (from_hex_char x) eqn:Ex; [|done]. destruct (from_hex_char y) eqn:Ey; [|done].
    cbn [mbind option_bind]. destruct (hex_DecodeString s) eqn:E; [|done]. intros [= _ ->].
    rewrite !valid_ascii by (by eapply hex_char_ascii). by apply IH.
Qed.

Lemma PubKeyFromHex_valid s pub : PubKeyFromHex s = Ret pub → valid_utf8 s = true.
Proof. intros [H _]%PubKeyFromHex_Ret_inv. by eapply hex_decode_valid. Qed.

Lemma hex_valid s : valid_utf8 (hex_EncodeToString s) = true.
Proof. eapply hex_decode_valid, hex_decode_encode. Qed.

Lemma Hash_valid `{C : Crypto} m : valid_utf8 (Hash m) = true.
Proof. eapply hex_decode_valid, hex_decode_encode. Qed.

Lemma tx_Verify_From_valid `{C : Crypto} tx : tx_Verify tx = Ret tt → valid_utf8 (tx_From tx) = true.
Proof. intros (_ & _ & pub & Hp & _)%tx_Verify_Ret_inv. by eapply PubKeyFromHex_valid. Qed.

(** The same context over the abstract state, without subscribers. *)
Definition forget {W} (ctx : Context W) : Context AbsState :=
  mkContext (ctx_Block ctx) (ctx_Tx ctx) None.

Record ctx_ok {W} (ctx : Context W) : Prop := {
  ctx_from : valid_utf8 (tx_From (ctx_Tx ctx)) = true;
  ctx_time : is_i64 (hdr_Timestamp (blk_Header (ctx_Block ctx)))
}.

Section Refinement.
Context {W : Type} `{HR : Represents W}.

(** Subscribers that leave the world state alone. *)
Definition silent (em : option (Emitter W)) : Prop :=
  ∀ e typ h ev w, em = Some e → h ∈ default [] (em_handlers e !! typ) → st_inv w →
    st_inv (h ev w).1 ∧ st_abs (h ev w).1 = st_abs w ∧ (st_healthy w → st_healthy (h ev w).1).

Lemma emit_silent em ev w :
  silent em → st_inv w →
  (emit em ev w).2 = Ret tt ∧ st_inv (emit em ev w).1 ∧ st_abs (emit em ev w).1 = st_abs w ∧
  (st_healthy w → st_healthy (emit em ev w).1).
Proof.
  intros Hs Hw. destruct em as [e|]; [|done]. simpl. split; [by rewrite Emit_run|].
  apply (Emit_preserves (λ w', st_inv w' ∧ st_abs w' = st_abs w ∧ (st_healthy w → st_healthy w')));
    [|done].
  intros typ h w1 Hh (H1 & H2 & H3). destruct (Hs e typ h ev w1 eq_refl Hh H1) as (? & ? & ?).
  split_and!; [done|congruence|auto].
Qed.

Lemma emit_ref em ev : silent em → refines (λ _, True) (emit em ev) (mret tt).
Proof. intros Hs. apply refines_silent. intros w. by apply emit_silent. Qed.

Lemma decode_payload_ref {A} msg (dec : A → jv → option A) zero payload (P : A → Prop) :
  (∀ v x, dec zero v = Some x → P x) →
  refines P (decode_payload msg dec zero payload) (decode_payload msg dec zero payload).
Proof.
  intros HP. apply refines_wrap, refines_liftO; unfold of_option, Unmarshal.
  - intros a. destruct (parse payload) as [v|]; [|done]. simpl. destruct (dec zero v) eqn:E; [|done].
    intros [= <-]. eauto.
  - intros msg'. by destruct (parse payload ≫= _).
Qed.

Lemma refines_reject c e : refines (λ _, c = false) (reject_if c e) (reject_if c e).
Proof. by apply refines_reject_if. Qed.

Lemma refines_PubKey s :
  refines (λ pub, PubKeyFromHex s = Ret pub) (liftO (PubKeyFromHex s)) (liftO (PubKeyFromHex s)).
Proof.
  apply refines_liftO; [done|]. intros msg. unfold PubKeyFromHex.
  destruct (hex_DecodeString s); [|done]. by case_bool_decide.
Qed.
End Refinement.

(** [refine_step] follows a handler and its abstract copy in lock step; goals
    on the arguments of the state operations remain. *)
Ltac refine_step :=
  match goal with
  | |- refines _ (_ ≫= _) (_ ≫= _) => eapply refines_bind; [|intros ? ?]
  | |- refines _ (mret _) _ => apply refines_ret; exact I
  | |- refines _ (fail _) _ => apply refines_fail
  | |- refines _ (wrap _ _) _ => apply refines_wrap
  | |- refines _ (reject_if _ _) _ => apply refines_reject || (by apply refines_reject_if)
  | |- refines _ (liftO (PubKeyFromHex _)) _ => apply refines_PubKey
  | |- refines _ (expect_absent _ _ _) _ => eapply refines_expect_absent
  | |- refines _ (for_each _ _) _ => apply refines_for_each; intros ? ?
  | |- refines _ (emit _ _) _ => apply emit_ref; assumption
  | |- refines _ (emit_ctx _ _ _) _ => apply emit_ref; assumption
  | |- refines _ (GetAccount _) _ => apply GetAccount_ref
  | |- refines _ (SetAccount _) _ => apply SetAccount_ref
  | |- refines _ (GetAsset _) _ => apply GetAsset_ref
  | |- refines _ (SetAsset _) _ => apply SetAsset_ref
  | |- refines _ (DeleteAsset _) _ => apply DeleteAsset_ref
  | |- refines _ (GetTemplate _) _ => apply GetTemplate_ref
  | |- refines _ (SetTemplate _) _ => apply SetTemplate_ref
  | |- refines _ (GetSession _) _ => apply GetSession_ref
  | |- refines _ (SetSession _) _ => apply SetSession_ref
  | |- refines _ (GetListing _) _ => apply GetListing_ref
  | |- refines _ (SetListing _) _ => apply SetListing_ref
  | |- refines _ (if ?b then _ else _) (if ?b then _ else _) => let E := fresh in destruct b eqn:E
  end.
Ltac refine_handler := repeat refine_step.

Create HintDb valid_db.
#[export] Hint Resolve hex_valid Hash_valid PubKeyFromHex_valid sub64_u64 add64_u64 : valid_db.
#[export] Hint Extern 1 (_ = true) => assumption : valid_db.

(** Validity of the objects a handler writes, from that of those it read. *)
Ltac solve_valid_arg :=
  unfold valid_Account, valid_Asset, valid_AssetTemplate, valid_Session, valid_MarketListing in *;
  destruct_and?; simpl in *; subst; split_and?; eauto with valid_db.

Section ChargeRef.
Context {W : Type} `{F : FloatFmt, C : Crypto, HS : State W, HR : Represents W, HL : !StateOpLaws W}.

Lemma charge_ref block tx :
  valid_utf8 (tx_From tx) = true → valid_utf8 (hdr_Proposer (blk_Header block)) = true →
  refines (λ _, True) (charge (W := W) block tx) (charge block tx).
Proof. intros Hf Hp. unfold charge. refine_handler. all: solve_valid_arg; case_match; solve_valid_arg. Qed.
End ChargeRef.
