(* ===== verification/Economy.v ===== *)
(** * Token transfers

    Models [src/vm/modules/economy/token.go]. *)
From Stdlib Require Import Ascii Lia ZArith.
From stdpp Require Import base gmap strings list.
From S2P Require Import Prelude Crypto Json JsonTyped Types Transaction Block State Events Vm.

Section Economy.
Context {W : Type} `{C : Crypto, HS : State W}.

Definition handleTransfer : Handler W := λ ctx payload,
  p ← decode_payload "decode transfer payload" TransferPayload_dec TransferPayload_zero payload;
  reject_if (bool_decide (tp_Amount p = 0)) (EMsg "transfer amount must be > 0");;
  reject_if (bool_decide (tp_To p = "")) (EMsg "transfer to address required");;
  _ ← liftO (PubKeyFromHex (tp_To p)) errorf "invalid to address";
  sender ← GetAccount (tx_From (ctx_Tx ctx));
  reject_if (bool_decide (acc_Balance sender < tp_Amount p)) (EMsg "insufficient balance");;
  SetAccount (mkAccount (acc_Address sender) (sub64 (acc_Balance sender) (tp_Amount p))
                (acc_Nonce sender));;
  recipient ← GetAccount (tp_To p);
  reject_if (bool_decide (acc_Balance recipient > max_uint64 - tp_Amount p))
    (EMsg "recipient balance overflow");;
  SetAccount (mkAccount (acc_Address recipient) (add64 (acc_Balance recipient) (tp_Amount p))
                (acc_Nonce recipient));;
  emit_ctx ctx EventTokenTransfer
    (<["from" := GString (tx_From (ctx_Tx ctx))]> (<["to" := GString (tp_To p)]>
       (<["amount" := GUint64 (tp_Amount p)]> ∅))).
End Economy.

Section EconomyRef.
Context {W : Type}.
Context `{F : FloatFmt, FL : !FloatLaws, C : Crypto, HS : State W, HR : Represents W, HL : !StateOpLaws W}.

Lemma handleTransfer_ref ctx payload :
  ctx_ok ctx → silent (ctx_Emitter ctx) →
  refines (λ _, True) (handleTransfer (W := W) ctx payload) (handleTransfer (forget ctx) payload).
Proof.
  intros [Hf Ht] Hs. unfold handleTransfer.
  eapply refines_bind; [apply decode_payload_ref, TransferPayload_dec_valid|]. intros p [Hto Ham].
  refine_handler. all: solve_valid_arg.
Qed.
End EconomyRef.
