(* ===== verification/AssetModule.v ===== *)
(** * Assets and templates

    Models [src/vm/modules/asset/asset.go] and
    [src/vm/modules/asset/template.go]. *)
From Stdlib Require Import Ascii Lia ZArith.
From stdpp Require Import base gmap strings list.
From S2P Require Import Prelude Crypto Json JsonTyped Types Transaction Block State Events Vm.

Definition set_Owner (a : Asset) (owner : string) : Asset :=
  mkAsset (ast_ID a) (ast_TemplateID a) owner (ast_Properties a) (ast_Tradeable a)
    (ast_MintedAt a) (ast_ActiveListingID a).
Definition set_ActiveListingID (a : Asset) (id : string) : Asset :=
  mkAsset (ast_ID a) (ast_TemplateID a) (ast_Owner a) (ast_Properties a) (ast_Tradeable a)
    (ast_MintedAt a) id.

Section Asset.
Context {W : Type} `{F : FloatFmt, C : Crypto, HS : State W}.

(** The ID of the asset a transaction mints from a template. *)
Definition asset_id (txID templateID : string) : string := Hash (txID +:+ ":asset:" +:+ templateID).

Definition handleMintAsset : Handler W := λ ctx payload,
  p ← decode_payload "decode mint_asset payload" MintAssetPayload_dec MintAssetPayload_zero payload;
  reject_if (bool_decide (mp_TemplateID p = "")) (EMsg "template_id required");;
  tmpl ← GetTemplate (mp_TemplateID p) errorf "template not found";
  owner ← (if bool_decide (mp_Owner p = "") then mret (tx_From (ctx_Tx ctx))
           else _ ← liftO (PubKeyFromHex (mp_Owner p)) errorf "invalid owner pubkey";
                mret (mp_Owner p));
  let assetID := asset_id (tx_ID (ctx_Tx ctx)) (mp_TemplateID p) in
  SetAsset (mkAsset assetID (mp_TemplateID p) owner (mp_Properties p) (tmpl_Tradeable tmpl)
              (hdr_Timestamp (blk_Header (ctx_Block ctx))) "");;
  emit_ctx ctx EventAssetMinted
    (<["asset_id" := GString assetID]> (<["template_id" := GString (mp_TemplateID p)]>
       (<["owner" := GString owner]> ∅))).

Definition handleBurnAsset : Handler W := λ ctx payload,
  p ← decode_payload "decode burn_asset payload" BurnAssetPayload_dec BurnAssetPayload_zero payload;
  asset ← GetAsset (bp_AssetID p) errorf "asset not found";
  reject_if (bool_decide (ast_Owner asset ≠ tx_From (ctx_Tx ctx)))
    (EMsg "only the asset owner can burn it");;
  reject_if (bool_decide (ast_ActiveListingID asset ≠ ""))
    (EMsg "asset has an active listing; cancel it before burning");;
  DeleteAsset (bp_AssetID p);;
  emit_ctx ctx EventAssetBurned
    (<["asset_id" := GString (bp_AssetID p)]> (<["owner" := GString (ast_Owner asset)]> ∅)).

Definition handleTransferAsset : Handler W := λ ctx payload,
  p ← decode_payload "decode transfer_asset payload" TransferAssetPayload_dec
        TransferAssetPayload_zero payload;
  reject_if (bool_decide (tap_To p = "")) (EMsg "to address required");;
  _ ← liftO (PubKeyFromHex (tap_To p)) errorf "invalid to pubkey";
  asset ← GetAsset (tap_AssetID p) errorf "asset not found";
  reject_if (bool_decide (ast_Owner asset ≠ tx_From (ctx_Tx ctx)))
    (EMsg "only the asset owner can transfer it");;
  reject_if (negb (ast_Tradeable asset)) (EMsg "asset is not tradeable");;
  reject_if (bool_decide (ast_ActiveListingID asset ≠ ""))
    (EMsg "asset has an active listing; cancel it before transferring");;
  SetAsset (set_Owner asset (tap_To p));;
  emit_ctx ctx EventAssetTransfer
    (<["asset_id" := GString (tap_AssetID p)]> (<["from" := GString (tx_From (ctx_Tx ctx))]>
       (<["to" := GString (tap_To p)]> ∅))).

Definition handleRegisterTemplate : Handler W := λ ctx payload,
  p ← decode_payload "decode register_template payload" RegisterTemplatePayload_dec
        RegisterTemplatePayload_zero payload;
  reject_if (bool_decide (rp_ID p = "")) (EMsg "template id required");;
  expect_absent (GetTemplate (rp_ID p)) (EMsg "template already exists") "check template";;
  SetTemplate (mkAssetTemplate (rp_ID p) (rp_Name p) (rp_Schema p) (rp_Tradeable p)
                 (tx_From (ctx_Tx ctx)));;
  emit_ctx ctx EventTemplateReg
    (<["template_id" := GString (rp_ID p)]> (<["name" := GString (rp_Name p)]> ∅)).
End Asset.

Section AssetRef.
Context {W : Type}.
Context `{F : FloatFmt, FL : !FloatLaws, C : Crypto, HS : State W, HR : Represents W, HL : !StateOpLaws W}.

Lemma handleMintAsset_ref ctx payload :
  ctx_ok ctx → silent (ctx_Emitter ctx) →
  refines (λ _, True) (handleMintAsset (W := W) ctx payload) (handleMintAsset (forget ctx) payload).
Proof.
  intros [Hf Ht] Hs. unfold handleMintAsset.
  eapply refines_bind; [apply decode_payload_ref, MintAssetPayload_dec_valid|]. intros p (Hto & Ho & Hp).
  do 2 (refine_step; [repeat refine_step|]).
  eapply (refines_bind (λ o, valid_utf8 o = true)); [|intros o Hvo; refine_handler; solve_valid_arg].
  cbn [forget ctx_Tx]. destruct (bool_decide (mp_Owner p = _)); [by apply refines_ret|].
  refine_step; [refine_handler|]. by apply refines_ret.
Qed.

Lemma handleBurnAsset_ref ctx payload :
  ctx_ok ctx → silent (ctx_Emitter ctx) →
  refines (λ _, True) (handleBurnAsset (W := W) ctx payload) (handleBurnAsset (forget ctx) payload).
Proof.
  intros [Hf Ht] Hs. unfold handleBurnAsset.
  eapply refines_bind; [apply decode_payload_ref, BurnAssetPayload_dec_valid|]. intros p Hp.
  refine_handler.
Qed.

Lemma handleTransferAsset_ref ctx payload :
  ctx_ok ctx → silent (ctx_Emitter ctx) →
  refines (λ _, True) (handleTransferAsset (W := W) ctx payload)
    (handleTransferAsset (forget ctx) payload).
Proof.
  intros [Hf Ht] Hs. unfold handleTransferAsset.
  eapply refines_bind; [apply decode_payload_ref, TransferAssetPayload_dec_valid|]. intros p [Hp Hto].
  refine_handler. solve_valid_arg.
Qed.

Lemma handleRegisterTemplate_ref ctx payload :
  ctx_ok ctx → silent (ctx_Emitter ctx) →
  refines (λ _, True) (handleRegisterTemplate (W := W) ctx payload)
    (handleRegisterTemplate (forget ctx) payload).
Proof.
  intros [Hf Ht] Hs. unfold handleRegisterTemplate.
  eapply refines_bind; [apply decode_payload_ref, RegisterTemplatePayload_dec_valid|].
  intros p (Hi & Hn & Hp). refine_handler. solve_valid_arg.
Qed.
End AssetRef.
