(* ===== verification/Market.v ===== *)
(** * The market

    Models [src/vm/modules/market/market.go]. *)
From Stdlib Require Import Ascii Lia ZArith.
From stdpp Require Import base gmap strings list.
From S2P Require Import Prelude Crypto Json JsonTyped Types Transaction Block State Events Vm.
From S2P Require Import AssetModule.

Definition set_Active (l : MarketListing) (b : bool) : MarketListing :=
  mkMarketListing (lst_ID l) (lst_AssetID l) (lst_Seller l) (lst_Price l) b (lst_CreatedAt l).

Section Market.
Context {W : Type} `{F : FloatFmt, C : Crypto, HS : State W}.

Definition listing_id (txID assetID : string) : string := Hash (txID +:+ ":listing:" +:+ assetID).

Definition handleListMarket : Handler W := λ ctx payload,
  p ← decode_payload "decode list_market payload" ListMarketPayload_dec ListMarketPayload_zero payload;
  reject_if (bool_decide (lm_Price p = 0)) (EMsg "price must be > 0");;
  asset ← GetAsset (lm_AssetID p) errorf "asset not found";
  reject_if (bool_decide (ast_Owner asset ≠ tx_From (ctx_Tx ctx)))
    (EMsg "only the asset owner can list it");;
  reject_if (negb (ast_Tradeable asset)) (EMsg "asset is not tradeable");;
  reject_if (bool_decide (ast_ActiveListingID asset ≠ "")) (EMsg "asset is already listed");;
  let listingID := listing_id (tx_ID (ctx_Tx ctx)) (lm_AssetID p) in
  SetListing (mkMarketListing listingID (lm_AssetID p) (tx_From (ctx_Tx ctx)) (lm_Price p) true
                (hdr_Timestamp (blk_Header (ctx_Block ctx))));;
  SetAsset (set_ActiveListingID asset listingID);;
  emit_ctx ctx EventMarketList
    (<["listing_id" := GString listingID]> (<["asset_id" := GString (lm_AssetID p)]>
       (<["price" := GUint64 (lm_Price p)]> ∅))).

Definition handleBuyMarket : Handler W := λ ctx payload,
  p ← decode_payload "decode buy_market payload" BuyMarketPayload_dec BuyMarketPayload_zero payload;
  listing ← GetListing (bm_ListingID p) errorf "listing not found";
  reject_if (negb (lst_Active listing)) (EMsg "listing is no longer active");;
  reject_if (bool_decide (lst_Seller listing = tx_From (ctx_Tx ctx)))
    (EMsg "seller cannot buy their own listing");;
  buyer ← GetAccount (tx_From (ctx_Tx ctx));
  reject_if (bool_decide (acc_Balance buyer < lst_Price listing)) (EMsg "insufficient balance");;
  SetAccount (mkAccount (acc_Address buyer) (sub64 (acc_Balance buyer) (lst_Price listing))
                (acc_Nonce buyer));;
  seller ← GetAccount (lst_Seller listing);
  reject_if (bool_decide (acc_Balance seller > max_uint64 - lst_Price listing))
    (EMsg "seller balance overflow");;
  SetAccount (mkAccount (acc_Address seller) (add64 (acc_Balance seller) (lst_Price listing))
                (acc_Nonce seller));;
  asset ← GetAsset (lst_AssetID listing) errorf "asset not found";
  SetAsset (set_ActiveListingID (set_Owner asset (tx_From (ctx_Tx ctx))) "");;
  SetListing (set_Active listing false);;
  emit_ctx ctx EventMarketBuy
    (<["listing_id" := GString (bm_ListingID p)]> (<["asset_id" := GString (lst_AssetID listing)]>
       (<["buyer" := GString (tx_From (ctx_Tx ctx))]> (<["seller" := GString (lst_Seller listing)]>
         (<["price" := GUint64 (lst_Price listing)]> ∅))))).
End Market.

Section MarketRef.
Context {W : Type}.
Context `{F : FloatFmt, FL : !FloatLaws, C : Crypto, HS : State W, HR : Represents W, HL : !StateOpLaws W}.

Lemma handleListMarket_ref ctx payload :
  ctx_ok ctx → silent (ctx_Emitter ctx) →
  refines (λ _, True) (handleListMarket (W := W) ctx payload) (handleListMarket (forget ctx) payload).
Proof.
  intros [Hf Ht] Hs. unfold handleListMarket.
  eapply refines_bind; [apply decode_payload_ref, ListMarketPayload_dec_valid|]. intros p [Hp Hpr].
  refine_handler. all: solve_valid_arg.
Qed.

Lemma handleBuyMarket_ref ctx payload :
  ctx_ok ctx → silent (ctx_Emitter ctx) →
  refines (λ _, True) (handleBuyMarket (W := W) ctx payload) (handleBuyMarket (forget ctx) payload).
Proof.
  intros [Hf Ht] Hs. unfold handleBuyMarket.
  eapply refines_bind; [apply decode_payload_ref, BuyMarketPayload_dec_valid|]. intros p Hp.
  refine_handler. all: solve_valid_arg.
Qed.
End MarketRef.
