(* ===== verification/SessionModule.v ===== *)
(** * Game sessions

    Models [src/vm/modules/session/session.go].  The three loops over the
    [Outcome] map run in orders of their own. *)
From Stdlib Require Import Ascii Lia ZArith.
From stdpp Require Import base gmap strings list.
From S2P Require Import Prelude Crypto Json JsonTyped Types Transaction Block State Events Vm.

Section Session.
Context {W : Type} `{F : FloatFmt, C : Crypto, O : MapOrder, HS : State W}.

(** Takes the stakes of one player. *)
Definition lock_stake (stakes : Z) (player : string) : M W unit :=
  acc ← GetAccount player errorf "player account";
  reject_if (bool_decide (acc_Balance acc < stakes))
    (EMsg "player insufficient balance for stakes");;
  SetAccount (mkAccount (acc_Address acc) (sub64 (acc_Balance acc) stakes) (acc_Nonce acc)).

Definition handleSessionOpen : Handler W := λ ctx payload,
  p ← decode_payload "decode session_open payload" SessionOpenPayload_dec SessionOpenPayload_zero payload;
  reject_if (bool_decide (so_SessionID p = "")) (EMsg "session_id required");;
  reject_if (bool_decide (length (so_Players p) = 0%nat)) (EMsg "at least one player required");;
  expect_absent (GetSession (so_SessionID p)) (EMsg "session already exists") "checking session";;
  (if bool_decide (so_Stakes p > 0) then for_each (lock_stake (so_Stakes p)) (so_Players p)
   else mret tt);;
  SetSession (mkSession (so_SessionID p) (so_GameID p) (tx_From (ctx_Tx ctx)) (so_Players p)
                (so_Stakes p) "open" (Some ∅) (hdr_Timestamp (blk_Header (ctx_Block ctx))) 0);;
  emit_ctx ctx EventSessionOpen
    (<["session_id" := GString (so_SessionID p)]> (<["game_id" := GString (so_GameID p)]>
       (<["players" := GStrings (so_Players p)]> ∅))).

(** The summing loop: fails when a reward exceeds what is left of the stakes. *)
Fixpoint sum_rewards (totalStakes totalRewards : Z) (rewards : list (string * Z)) : outcome Z :=
  match rewards with
  | [] => Ret totalRewards
  | (_, reward) :: l =>
      if bool_decide (reward > sub64 totalStakes totalRewards)
      then Fail (EMsg "rewards exceed total stakes")
      else sum_rewards totalStakes (add64 totalRewards reward) l
  end.

(** Pays one reward. *)
Definition pay_reward (r : string * Z) : M W unit :=
  acc ← GetAccount r.1 errorf "outcome account";
  reject_if (bool_decide (acc_Balance acc > max_uint64 - r.2)) (EMsg "reward overflow for player");;
  SetAccount (mkAccount (acc_Address acc) (add64 (acc_Balance acc) r.2) (acc_Nonce acc)).

Definition close_session (s : Session) (outc : option (gmap string Z)) (now : Z) : Session :=
  mkSession (sess_ID s) (sess_GameID s) (sess_Creator s) (sess_Players s) (sess_Stakes s) "closed"
    outc (sess_CreatedAt s) now.

Definition handleSessionResult : Handler W := λ ctx payload,
  p ← decode_payload "decode session_result payload" SessionResultPayload_dec
        SessionResultPayload_zero payload;
  sess ← GetSession (sr_SessionID p) errorf "session not found";
  reject_if (bool_decide (sess_Status sess ≠ "open")) (EMsg "session already closed");;
  reject_if (bool_decide (tx_From (ctx_Tx ctx) ≠ sess_Creator sess))
    (EMsg "only the session creator can submit results");;
  let outc := default ∅ (sr_Outcome p) in
  for_each (λ r : string * Z, reject_if (bool_decide (r.1 ∉ sess_Players sess))
                (EMsg "outcome recipient is not a session player")) (range 0 outc);;
  let nPlayers := Z.of_nat (length (sess_Players sess)) in
  reject_if (bool_decide (sess_Stakes sess > 0 ∧ nPlayers > max_uint64 / sess_Stakes sess))
    (EMsg "total stakes overflow");;
  let totalStakes := mul64 (sess_Stakes sess) nPlayers in
  totalRewards ← liftO (sum_rewards totalStakes 0 (range 1 outc));
  reject_if (bool_decide (totalRewards ≠ totalStakes))
    (EMsg "rewards must equal total stakes");;
  for_each pay_reward (range 2 outc);;
  SetSession (close_session sess (sr_Outcome p) (hdr_Timestamp (blk_Header (ctx_Block ctx))));;
  emit_ctx ctx EventSessionClose (<["session_id" := GString (sr_SessionID p)]> ∅).
End Session.

Lemma sum_rewards_no_panic t l acc msg : sum_rewards t acc l ≠ Panic msg.
Proof. revert acc. induction l as [|[k z] l IH]; intros acc; simpl; [done|]. by case_bool_decide. Qed.

Section SessionRef.
Context {W : Type} `{F : FloatFmt, FL : !FloatLaws, C : Crypto, O : MapOrder}.
Context `{HS : State W, HR : Represents W, HL : !StateOpLaws W}.

Lemma sum_rewards_ref t l :
  refines (λ _, True) (liftO (sum_rewards t 0 l)) (liftO (sum_rewards t 0 l)).
Proof. apply refines_liftO; [done|]. intros msg. apply sum_rewards_no_panic. Qed.

Lemma handleSessionOpen_ref ctx payload :
  ctx_ok ctx → silent (ctx_Emitter ctx) →
  refines (λ _, True) (handleSessionOpen (W := W) ctx payload) (handleSessionOpen (forget ctx) payload).
Proof.
  intros [Hf Ht] Hs. unfold handleSessionOpen, lock_stake.
  eapply refines_bind; [apply decode_payload_ref, SessionOpenPayload_dec_valid|].
  intros p (Hi & Hg & Hp & Hst). pose proof Hp as Hp'. rewrite Forall_forall in Hp'.
  refine_handler. all: solve_valid_arg; try done.
Qed.

Lemma handleSessionResult_ref ctx payload :
  ctx_ok ctx → silent (ctx_Emitter ctx) →
  refines (λ _, True) (handleSessionResult (W := W) ctx payload)
    (handleSessionResult (forget ctx) payload).
Proof.
  intros [Hf Ht] Hs. unfold handleSessionResult, pay_reward.
  eapply refines_bind; [apply decode_payload_ref, SessionResultPayload_dec_valid|].
  intros p (Hi & Ho).
  assert (∀ n x, x ∈ range n (default ∅ (sr_Outcome p)) → valid_utf8 x.1 = true) as Hk.
  { intros n [k z]. rewrite range_perm, elem_of_map_to_list. intros E.
    destruct (sr_Outcome p); [by apply (Ho _ _ E)|done]. }
  refine_handler. all: try apply sum_rewards_ref. all: solve_valid_arg; done.
Qed.
End SessionRef.
