(* ===== verification/Executor.v ===== *)
(** * The assembled machine

    The registry the module [init] functions build
    ([src/vm/modules/*/*.go], imported by [src/cmd/node/main.go]), and the
    refinement of the executor: over any implementation of the state interface,
    [ExecuteTx] and [ExecuteBlock] act on the represented world exactly as they
    act on the abstract one, or stop at a storage fault with the world of the
    last completed transaction. *)
From Stdlib Require Import Ascii Lia ZArith.
From stdpp Require Import base gmap strings list.
From S2P Require Import Prelude Crypto Json JsonFacts JsonParse JsonTyped Types Transaction Block.
From S2P Require Import State Events Vm Economy AssetModule Market SessionModule.

Section Registry.
Context {W : Type} `{F : FloatFmt, C : Crypto, O : MapOrder, HS : State W}.

Definition asset_init : M (Registry W) unit :=
  Register TxMintAsset handleMintAsset;;
  Register TxBurnAsset handleBurnAsset;;
  Register TxTransferAsset handleTransferAsset.
Definition template_init : M (Registry W) unit := Register TxRegisterTemplate handleRegisterTemplate.
Definition economy_init : M (Registry W) unit := Register TxTransfer handleTransfer.
Definition market_init : M (Registry W) unit :=
  Register TxListMarket handleListMarket;; Register TxBuyMarket handleBuyMarket.
Definition session_init : M (Registry W) unit :=
  Register TxSessionOpen handleSessionOpen;; Register TxSessionResult handleSessionResult.

(** [globalRegistry] after the packages' [init] functions. *)
Definition globalRegistry : Registry W :=
  ((asset_init;; template_init;; economy_init;; market_init;; session_init) NewRegistry).1.

Definition handler_list : list (string * Handler W) := [
  (TxMintAsset, handleMintAsset); (TxBurnAsset, handleBurnAsset);
  (TxTransferAsset, handleTransferAsset); (TxRegisterTemplate, handleRegisterTemplate);
  (TxTransfer, handleTransfer); (TxListMarket, handleListMarket); (TxBuyMarket, handleBuyMarket);
  (TxSessionOpen, handleSessionOpen); (TxSessionResult, handleSessionResult)].

(** Registering fresh types one after the other. *)
Lemma register_all (l : list (string * Handler W)) (r : Registry W) :
  NoDup l.*1 → (∀ t, t ∈ l.*1 → reg_handlers r !! t = None) →
  for_each (λ e, Register e.1 e.2) l r = (mkRegistry (list_to_map l ∪ reg_handlers r), Ret tt).
Proof.
  revert r. induction l as [|[t h] l IH]; intros r Hnd Hf; cbn [for_each].
  - destruct r. simpl. unfold mret, M_ret. by rewrite (left_id_L ∅ (∪)).
  - inversion Hnd as [|?? Ht Hnd']; subst. erewrite bind_Ret.
    2: { unfold Register. simpl. rewrite bool_decide_eq_false_2; [done|].
         rewrite (Hf t) by set_solver. by intros []. }
    rewrite IH; [|done|].
    + f_equal. f_equal. simpl. rewrite <- insert_union_l, insert_union_r; [done|].
      by apply not_elem_of_list_to_map_1.
    + simpl. intros t' Ht'. rewrite lookup_insert_ne by set_solver. apply Hf. set_solver.
Qed.

Lemma globalRegistry_eq : reg_handlers globalRegistry = list_to_map handler_list.
Proof. unfold globalRegistry. reflexivity. Qed.
End Registry.

(** ** The registry refines *)

Definition registry_ref {W} `{HR : Represents W} (r : Registry W) (ra : Registry AbsState) : Prop :=
  ∀ typ, match reg_handlers r !! typ, reg_handlers ra !! typ with
         | None, None => True
         | Some h, Some ha => ∀ ctx payload, ctx_ok ctx → silent (ctx_Emitter ctx) →
             refines (λ _, True) (h ctx payload) (ha (forget ctx) payload)
         | _, _ => False
         end.

Section Refinement.
Context {W : Type} `{F : FloatFmt, FL : !FloatLaws, C : Crypto, O : MapOrder}.
Context `{HS : State W, HR : Represents W, HL : !StateOpLaws W}.

#[local] Ltac one typ t tac :=
  destruct (decide (typ = t)) as [->|?];
  [ rewrite !(lookup_insert_eq _ t); intros; apply tac; assumption
  | rewrite !(lookup_insert_ne _ t typ) by congruence ].

Lemma globalRegistry_ref : registry_ref (W := W) globalRegistry globalRegistry.
Proof.
  intros typ. rewrite !globalRegistry_eq. unfold handler_list. cbn [list_to_map foldr uncurry].
  one typ TxMintAsset handleMintAsset_ref. one typ TxBurnAsset handleBurnAsset_ref.
  one typ TxTransferAsset handleTransferAsset_ref.
  one typ TxRegisterTemplate handleRegisterTemplate_ref.
  one typ TxTransfer handleTransfer_ref. one typ TxListMarket handleListMarket_ref.
  one typ TxBuyMarket handleBuyMarket_ref. one typ TxSessionOpen handleSessionOpen_ref.
  one typ TxSessionResult handleSessionResult_ref.
  done.
Qed.

(** The executor over the abstract state, without subscribers. *)
Definition abs_executor : Executor AbsState := mkExecutor globalRegistry None.

Definition executor_ok (e : Executor W) : Prop :=
  registry_ref (ex_registry e) globalRegistry ∧ silent (ex_emitter e).

Definition block_ok (b : Block) : Prop :=
  is_i64 (hdr_Timestamp (blk_Header b)) ∧ valid_utf8 (hdr_Proposer (blk_Header b)) = true.

Lemma applyTx_ref e b tx :
  executor_ok e → block_ok b → valid_utf8 (tx_From tx) = true →
  refines (λ _, True) (applyTx e b tx) (applyTx abs_executor b tx).
Proof.
  intros [Hr Hs] [Ht Hp] Hf. unfold applyTx.
  eapply refines_bind; [by apply charge_ref|]. intros _ _. unfold reg_Execute.
  specialize (Hr (tx_Type tx)). simpl.
  destruct (reg_handlers (ex_registry e) !! tx_Type tx),
    (reg_handlers globalRegistry !! tx_Type tx); try done.
  - apply Hr; done.
  - apply refines_fail.
Qed.

End Refinement.

(** ** Transactions and blocks as functions on worlds *)

Section Runs.
Context `{F : FloatFmt, FL : !FloatLaws, C : Crypto, O : MapOrder}.

(** What one transaction does to the world: nothing when it fails. *)
Definition run_tx (b : Block) (tx : Transaction) (w : world) : world * outcome unit :=
  match tx_Verify tx with
  | Ret _ =>
      match applyTx abs_executor b tx (mkAbs w []) with
      | (s, Ret u) => (abs_world s, Ret u)
      | (_, o) => (w, o)
      end
  | o => (w, wrapO "signature" o)
  end.

(** The transactions of a block in order, up to the first that fails. *)
Fixpoint run_txs (b : Block) (txs : list (option Transaction)) (w : world) : world * outcome unit :=
  match txs with
  | [] => (w, Ret tt)
  | p :: txs' =>
      match deref p with
      | Ret tx =>
          match run_tx b tx w with
          | (w', Ret _) => run_txs b txs' w'
          | (w', o) => (w', wrapO "tx failed" o)
          end
      | Fail e => (w, Fail e)
      | Panic msg => (w, Panic msg)
      end
  end.

Lemma applyTx_abs b tx s s' o :
  block_ok b → valid_utf8 (tx_From tx) = true → wf_abs s →
  applyTx abs_executor b tx s = (s', o) →
  wf_abs s' ∧ abs_snaps s' = abs_snaps s ∧ (∀ msg, o ≠ Panic msg) ∧
  ∀ l, applyTx abs_executor b tx (mkAbs (abs_world s) l) = (mkAbs (abs_world s') l, o).
Proof.
  intros Hb Hf Hs E.
  assert (∀ f, executor_ok (HR := abs_Rep f) abs_executor) as Hok.
  { intros f. pose proof (abs_op_laws f). split; [by apply globalRegistry_ref|]. by intros ?. }
  assert (∀ f, refines (R := abs_Rep f) (λ _, True) (applyTx abs_executor b tx)
            (applyTx abs_executor b tx)) as Href.
  { intros f. pose proof (abs_op_laws f). by apply applyTx_ref. }
  destruct (Href id s s' o Hs E) as (Hs' & Hsn & _ & [(_ & _ & HP)|[[] _]]); [|done].
  split_and!; try done. intros l.
  destruct (Href (λ _, l) s s' o Hs E) as (_ & _ & _ & [(Hn & _)|[[] _]]); [|done]. exact Hn.
Qed.

Lemma run_tx_wf b tx w w' o :
  block_ok b → wf_world w → run_tx b tx w = (w', o) → wf_world w'.
Proof.
  intros Hb Hw. unfold run_tx. destruct (tx_Verify tx) as [[]| |] eqn:HV.
  2-3: by intros [= <- _].
  destruct (applyTx abs_executor b tx (mkAbs w [])) as [s o'] eqn:E.
  destruct (applyTx_abs b tx (mkAbs w []) s o' Hb (tx_Verify_From_valid _ HV)) as ((Hs & _) & _); [|done|].
  { by split; [|constructor]. }
  destruct o'; by intros [= <- _].
Qed.
End Runs.

Section Simulation.
Context {W : Type} `{F : FloatFmt, FL : !FloatLaws, C : Crypto, O : MapOrder}.
Context `{HS : State W, HR : Represents W, HL : !StateLaws W}.
Implicit Types (w : W) (e : Executor W).

Definition world_at w : world := abs_world (st_abs w).
Definition saved w : list world := abs_snaps (st_abs w).

Lemma abs_eq (s : AbsState) wd l : abs_world s = wd → abs_snaps s = l → s = mkAbs wd l.
Proof. destruct s. by intros <- <-. Qed.

(** Reverting to the snapshot just taken. *)
Lemma revert_last w l :
  st_inv w → (∃ x l', saved w = l ++ x :: l') →
  ∃ w', RevertToSnapshot (Z.of_nat (length l)) w = (w', Ret tt) ∧ st_inv w' ∧ saved w' = l ∧
    Some (world_at w') = saved w !! length l ∧ (st_healthy w → st_healthy w').
Proof.
  intros Hw (x & l' & E). unfold saved, world_at in *.
  destruct (Revert_ref w (Z.of_nat (length l)) Hw) as (w' & o & Er & Hi & Ha & Hh).
  revert Ha. unfold abs_Revert. rewrite E, length_app. simpl.
  rewrite bool_decide_eq_false_2 by lia. rewrite Nat2Z.id, list_lookup_middle by done.
  rewrite take_app_length. intros [= Hab Ho]. exists w'. rewrite Er, <- Hab, Ho. done.
Qed.

(** One transaction over a concrete state. *)
Lemma ExecuteTx_ref e b tx w w' o :
  executor_ok e → block_ok b → st_inv w → ExecuteTx e b tx w = (w', o) →
  st_inv w' ∧ (st_healthy w → st_healthy w') ∧
  ((run_tx b tx (world_at w) = (world_at w', o) ∧
    saved w' = saved w ++ (if is_ret o then [world_at w] else [])) ∨
   (¬ st_healthy w ∧ st_abs w' = st_abs w ∧ ∃ err, o = Fail err ∧ is_not_found err = false)).
Proof.
  intros He Hb Hw. unfold ExecuteTx, run_tx, wrap, liftO, mbind, M_bind.
  destruct (tx_Verify tx) as [[]|err|msg] eqn:HV; simpl.
  2-3: intros [= <- <-]; split_and!; try done; left; by rewrite app_nil_r.
  pose proof (tx_Verify_From_valid _ HV) as Hf.
  destruct (Snapshot_ref w Hw) as (w1 & -> & Hw1 & Ha1 & Hh1). simpl.
  unfold attempt. destruct (applyTx e b tx w1) as [w2 o2] eqn:E2.
  destruct (applyTx_ref e b tx He Hb Hf _ _ _ Hw1 E2) as (Hw2 & Hs2 & Hh2 & Hr).
  assert (world_at w1 = world_at w ∧ saved w1 = saved w ++ [world_at w]) as [Hwd Hsv].
  { unfold world_at, saved. rewrite Ha1. done. }
  fold (saved w2) (saved w1) in Hs2. rewrite Hsv in Hs2.
  assert (∀ err, o2 = Fail err → ∃ w3, RevertToSnapshot (Z.of_nat (length (abs_snaps (st_abs w)))) w2 = (w3, Ret tt) ∧
    st_inv w3 ∧ st_abs w3 = st_abs w ∧ (st_healthy w → st_healthy w3)) as Hrev.
  { intros err ->. destruct (revert_last w2 (saved w) Hw2) as (w3 & E3 & Hw3 & Hs3 & Hd3 & Hh3);
      [eauto|].
    exists w3. split; [done|]. split; [done|]. split; [|by auto].
    rewrite Hs2, list_lookup_middle in Hd3 by done. injection Hd3 as Hd3.
    rewrite (abs_eq (st_abs w3) _ _ Hd3 Hs3). by destruct (st_abs w) eqn:Ew; unfold world_at, saved; rewrite Ew. }
  destruct Hr as [(Hn & _ & HP)|(Hu & err & -> & Hnf)].
  - destruct (st_wf w Hw) as [Hwf Hwfs].
    destruct (applyTx_abs b tx (st_abs w1) (st_abs w2) o2 Hb Hf (st_wf w1 Hw1) Hn) as (_ & _ & _ & Hl).
    fold (world_at w1) (world_at w2) in Hl. rewrite Hwd in Hl. rewrite (Hl []). simpl.
    destruct o2 as [[]|err|msg]; [| |by destruct (HP msg)].
    + intros E. destruct (emit_silent (ex_emitter e) (tx_event b tx) w2 (proj2 He) Hw2) as (Ho & Hi & Ha & Hh).
      rewrite E in *. simpl in *. subst o. split; [done|]. split; [by auto|]. left.
      unfold world_at, saved in *. rewrite Ha. by rewrite Hs2.
    + destruct (Hrev err eq_refl) as (w3 & E3 & Hw3 & Ha3 & Hh3). rewrite E3. intros [= <- <-].
      split; [done|]. split; [done|]. left. unfold world_at, saved. rewrite Ha3. by rewrite app_nil_r.
  - destruct (Hrev err eq_refl) as (w3 & E3 & Hw3 & Ha3 & Hh3). rewrite E3. intros [= <- <-].
    split; [done|]. split; [done|]. right. split; [by auto|]. eauto.
Qed.

Lemma ExecuteBlock_ref e b w w' o :
  executor_ok e → block_ok b → st_inv w → ExecuteBlock e b w = (w', o) →
  st_inv w' ∧ (st_healthy w → st_healthy w') ∧ (∃ l, saved w' = saved w ++ l) ∧
  (run_txs b (blk_Transactions b) (world_at w) = (world_at w', o) ∨
   (¬ st_healthy w ∧ ∃ err, o = Fail err ∧ is_not_found err = false)).
Proof.
  intros He Hb. unfold ExecuteBlock. generalize (blk_Transactions b). intros txs. revert w.
  induction txs as [|[tx|] txs IH]; intros w Hw; cbn [for_each run_txs].
  - intros [= <- <-]. split_and!; try done; [exists []; by rewrite app_nil_r|by left].
  - unfold mbind at 1, M_bind at 1. simpl. unfold wrap, liftO, mbind, M_bind. simpl.
    destruct (ExecuteTx e b tx w) as [w1 o1] eqn:E1.
    destruct (ExecuteTx_ref _ _ _ _ _ _ He Hb Hw E1) as (Hw1 & Hh1 & [[Hr Hs]|(Hu & Ha & err & -> & Hnf)]).
    + rewrite Hr. destruct o1 as [[]|err|msg]; simpl.
      * intros E2. destruct (IH w1 Hw1 E2) as (Hw2 & Hh2 & [l Hl] & Hrest).
        split; [done|]. split; [by auto|]. split; [|naive_solver].
        exists ([world_at w] ++ l). rewrite Hl, Hs. simpl. by rewrite <- app_assoc.
      * intros [= <- <-]. split_and!; try done; [by exists []|by left].
      * intros [= <- <-]. split_and!; try done; [by exists []|by left].
    + intros [= <- <-]. split_and!; try done.
      { exists []. unfold saved. by rewrite Ha, app_nil_r. }
      right. split; [done|]. by exists (EWrap "tx failed" err).
  - intros [= <- <-]. split_and!; try done; [exists []; by rewrite app_nil_r|by left].
Qed.

(** ** Properties *)

(** C9: a transaction that does not succeed, for whatever reason (signature,
    nonce, fee, handler error, storage fault, panic), leaves the world state
    and the snapshot stack exactly as they were. *)
Theorem failed_tx_changes_nothing e b tx w w' o :
  executor_ok e → block_ok b → st_inv w → ExecuteTx e b tx w = (w', o) → o ≠ Ret tt →
  st_inv w' ∧ st_abs w' = st_abs w.
Proof.
  intros He Hb Hw E Ho.
  destruct (ExecuteTx_ref _ _ _ _ _ _ He Hb Hw E) as (Hw' & _ & [[Hr Hs]|(_ & Ha & _)]); [|done].
  split; [done|].
  assert (world_at w' = world_at w) as Hwd.
  { revert Hr. unfold run_tx. destruct (tx_Verify tx); try by intros [= <- _].
    destruct (applyTx _ _ _ _) as [s [[]| |]]; intros [= ? <-]; congruence. }
  destruct o as [[]| |]; [done|..]; simpl in Hs; rewrite app_nil_r in Hs;
    rewrite (abs_eq _ _ _ Hwd Hs); by destruct (st_abs w) eqn:Ew; unfold world_at, saved; rewrite Ew.
Qed.

(** Over any implementation of the state interface, with subscribers that
    leave the world alone, [ExecuteTx] computes on the represented world what
    the handlers compute on the abstract one, pushes the previous world on the
    snapshot stack when it succeeds, and panics only if the verification of the
    signature does; the one other possibility is a reported storage fault on an
    unhealthy store, without effect. *)
Theorem execute_tx_refines e b tx w w' o :
  executor_ok e → block_ok b → st_inv w → ExecuteTx e b tx w = (w', o) →
  st_inv w' ∧ (st_healthy w → st_healthy w') ∧ wf_world (world_at w') ∧
  ((run_tx b tx (world_at w) = (world_at w', o) ∧
    saved w' = saved w ++ (if is_ret o then [world_at w] else [])) ∨
   (¬ st_healthy w ∧ st_abs w' = st_abs w ∧ ∃ err, o = Fail err ∧ is_not_found err = false)) ∧
  (∀ msg, o = Panic msg → tx_Verify tx = Panic msg).
Proof.
  intros He Hb Hw E.
  destruct (ExecuteTx_ref _ _ _ _ _ _ He Hb Hw E) as (Hw' & Hh & Hr).
  split_and!; try done; [by apply st_wf|]. intros msg ->.
  destruct Hr as [[Hr _]|(_ & _ & err & ? & _)]; [|done]. revert Hr. unfold run_tx.
  destruct (tx_Verify tx) as [[]|err|m] eqn:HV; simpl; [|done|by intros [= _ ->]].
  destruct (applyTx abs_executor b tx _) as [s o] eqn:Ea.
  destruct (applyTx_abs b tx (mkAbs (world_at w) []) s o Hb) as (_ & _ & HP & _); [|..|done|].
  { by eapply tx_Verify_From_valid. }
  { split; [by apply (st_wf w Hw)|constructor]. }
  destruct o; try done. by destruct (HP msg0).
Qed.

(** C10: the same for a whole block: the world after [ExecuteBlock] is the one
    the abstract execution reaches, and the worlds saved before the block stay
    at the bottom of the snapshot stack, so that the block can be reverted. *)
Theorem execute_block_refines e b w w' o :
  executor_ok e → block_ok b → st_inv w → ExecuteBlock e b w = (w', o) →
  st_inv w' ∧ (∃ l, saved w' = saved w ++ l) ∧
  (st_healthy w → st_healthy w' ∧ run_txs b (blk_Transactions b) (world_at w) = (world_at w', o)).
Proof.
  intros He Hb Hw E.
  destruct (ExecuteBlock_ref _ _ _ _ _ He Hb Hw E) as (Hw' & Hh & Hl & Hr). split_and!; try done.
  intros Hy. split; [by apply Hh|]. by destruct Hr as [|[? _]].
Qed.
End Simulation.
