(* ===== verification/Ledger.v ===== *)
(** * What transactions do to the world

    The effect of each successful handler on the abstract world, and the
    invariants that follow: tokens are neither created nor destroyed, nonces
    only grow, assets move only with their owner's signature or a paid
    purchase. *)
From Stdlib Require Import Ascii Lia ZArith.
From stdpp Require Import base gmap strings list.
From S2P Require Import Prelude Crypto Json JsonFacts JsonParse JsonTyped Types Transaction Block.
From S2P Require Import State Events Vm Economy AssetModule Market SessionModule Executor.

#[local] Arguments GetAccount : simpl never.
#[local] Arguments SetAccount : simpl never.
#[local] Arguments GetAsset : simpl never.
#[local] Arguments SetAsset : simpl never.
#[local] Arguments DeleteAsset : simpl never.
#[local] Arguments GetTemplate : simpl never.
#[local] Arguments SetTemplate : simpl never.
#[local] Arguments GetSession : simpl never.
#[local] Arguments SetSession : simpl never.
#[local] Arguments GetListing : simpl never.
#[local] Arguments SetListing : simpl never.

(** ** Sums over maps *)

Section Sum.
Context {A : Type} (f : A → Z).

Definition msum (m : gmap string A) : Z := foldr (λ e acc, f e.2 + acc) 0 (map_to_list m).

Lemma foldr_sum_perm (l1 l2 : list (string * A)) :
  l1 ≡ₚ l2 → foldr (λ e acc, f e.2 + acc) 0 l1 = foldr (λ e acc, f e.2 + acc) 0 l2.
Proof. intros P. induction P; simpl; lia. Qed.

Lemma msum_insert_new m k x : m !! k = None → msum (<[k := x]> m) = f x + msum m.
Proof. intros H. unfold msum. rewrite (foldr_sum_perm _ _ (map_to_list_insert m k x H)). done. Qed.

Lemma msum_delete m k x : m !! k = Some x → msum (delete k m) = msum m - f x.
Proof.
  intros H. rewrite <- (insert_delete_id m k x H) at 2.
  rewrite msum_insert_new by apply lookup_delete_eq. lia.
Qed.

Lemma msum_insert m k x :
  msum (<[k := x]> m) = msum m - match m !! k with Some y => f y | None => 0 end + f x.
Proof.
  destruct (m !! k) as [y|] eqn:E.
  - rewrite <- insert_delete_eq, msum_insert_new by apply lookup_delete_eq.
    rewrite (msum_delete _ _ _ E). lia.
  - rewrite msum_insert_new by done. lia.
Qed.

Lemma msum_nonneg m : map_Forall (λ _ x, 0 ≤ f x) m → 0 ≤ msum m.
Proof.
  intros H. unfold msum. assert (Forall (λ e : string * A, 0 ≤ f e.2) (map_to_list m)) as HF.
  { apply Forall_forall. intros [k x] Hin%elem_of_map_to_list. by apply (H k). }
  induction HF; simpl; lia.
Qed.
End Sum.

(** ** Token supply *)

(** The stakes an open session holds. *)
Definition locked (s : Session) : Z :=
  if bool_decide (sess_Status s = "open") then sess_Stakes s * Z.of_nat (length (sess_Players s)) else 0.

Definition supply (w : world) : Z := msum acc_Balance (accounts w) + msum locked (sessions w).

(** Writes an account; its nonce is kept in the second form. *)
Definition put_account (a : string) (bal n : Z) (w : world) : world :=
  set_accounts (<[a := mkAccount a bal n]> (accounts w)) w.
Definition put_balance (a : string) (bal : Z) (w : world) : world := put_account a bal (nonce w a) w.
(** Pays [amt] from one account to another (possibly the same). *)
Definition move (from to : string) (amt : Z) (w : world) : world :=
  let w1 := put_balance from (balance w from - amt) w in
  put_balance to (balance w1 to + amt) w1.

Section Accounts.
Implicit Types (w : world) (a b : string).

Lemma account_at_put w a bal n b :
  account_at (put_account a bal n w) b = if decide (a = b) then mkAccount a bal n else account_at w b.
Proof.
  unfold account_at, put_account. simpl. case_decide; subst.
  - by rewrite lookup_insert_eq.
  - by rewrite lookup_insert_ne.
Qed.

Lemma balance_put w a bal n b :
  balance (put_account a bal n w) b = if decide (a = b) then bal else balance w b.
Proof. unfold balance. rewrite account_at_put. by case_decide. Qed.

Lemma nonce_put w a bal n b :
  nonce (put_account a bal n w) b = if decide (a = b) then n else nonce w b.
Proof. unfold nonce. rewrite account_at_put. by case_decide. Qed.

Lemma nonce_put_balance w a bal b : nonce (put_balance a bal w) b = nonce w b.
Proof. unfold put_balance. rewrite nonce_put. case_decide; by subst. Qed.

Lemma supply_put w a bal n : supply (put_account a bal n w) = supply w - balance w a + bal.
Proof.
  unfold supply, put_account, balance, account_at. simpl. rewrite msum_insert. simpl.
  destruct (accounts w !! a); simpl; lia.
Qed.

Lemma supply_move w from to amt : supply (move from to amt w) = supply w.
Proof. unfold move, put_balance. rewrite !supply_put. lia. Qed.

Lemma nonce_move w from to amt b : nonce (move from to amt w) b = nonce w b.
Proof. unfold move. by rewrite !nonce_put_balance. Qed.

Lemma balance_move w from to amt b :
  balance (move from to amt w) b =
    balance w b - (if decide (from = b) then amt else 0) + (if decide (to = b) then amt else 0).
Proof. unfold move, put_balance. rewrite !balance_put. repeat case_decide; subst; try lia; congruence. Qed.

Lemma balance_range `{F : FloatFmt} w a : wf_world w → is_u64 (balance w a).
Proof.
  intros [Hw _ _ _ _]. unfold balance, account_at. destruct (accounts w !! a) as [x|] eqn:E; simpl.
  - destruct (Hw _ _ E) as [_ (_ & ? & _)]. done.
  - unfold is_u64, max_uint64. lia.
Qed.

Lemma account_at_address `{F : FloatFmt} w a : wf_world w → acc_Address (account_at w a) = a.
Proof.
  intros [Hw _ _ _ _]. unfold account_at. destruct (accounts w !! a) as [x|] eqn:E; simpl; [|done].
  by destruct (Hw _ _ E).
Qed.
End Accounts.

(** ** Steps on the abstract state *)

(** The context of the abstract executor. *)
Definition ctx_of (b : Block) (tx : Transaction) : Context AbsState := mkContext b tx None.

Section Steps.
Context `{C : Crypto}.
Implicit Types s : AbsState.

Lemma GetAccount_inv a s s' x :
  GetAccount a s = (s', Ret x) → s' = s ∧ x = account_at (abs_world s) a.
Proof. by intros [= <- <-]. Qed.
Lemma SetAccount_inv x s s' u :
  SetAccount x s = (s', Ret u) →
  s' = mkAbs (put_account (acc_Address x) (acc_Balance x) (acc_Nonce x) (abs_world s)) (abs_snaps s).
Proof. destruct x. by intros [= <- <-]. Qed.
Lemma lookup_inv {A} (sel : world → gmap string A) k s s' x :
  query (λ w, lookup_or_fail (sel w !! k)) s = (s', Ret x) → s' = s ∧ sel (abs_world s) !! k = Some x.
Proof.
  unfold query, lookup_or_fail, of_option. destruct (sel (abs_world s) !! k); [|done].
  by intros [= <- <-].
Qed.
Lemma lookup_absent_inv {A} (sel : world → gmap string A) k s s' e :
  query (λ w, lookup_or_fail (sel w !! k)) s = (s', Fail e) → s' = s ∧ sel (abs_world s) !! k = None.
Proof.
  unfold query, lookup_or_fail, of_option. destruct (sel (abs_world s) !! k); [done|].
  by intros [= <- <-].
Qed.
Lemma update_inv f s s' u :
  update_world f s = (s', Ret u) → s' = mkAbs (f (abs_world s)) (abs_snaps s).
Proof. by intros [= <- <-]. Qed.
Lemma emit_inv b tx typ data s s' u : emit_ctx (ctx_of b tx) typ data s = (s', Ret u) → s' = s.
Proof. by intros [= <- <-]. Qed.
Lemma decode_payload_inv {A} msg (dec : A → jv → option A) zero payload s s' x :
  decode_payload msg dec zero payload s = (s', Ret x) →
  s' = s ∧ Unmarshal dec zero payload = Some x.
Proof.
  unfold decode_payload. intros [H ->]%wrap_Ret_inv%liftO_Ret_inv. split; [done|].
  unfold of_option in H. destruct (Unmarshal dec zero payload); [|done]. by injection H as <-.
Qed.
End Steps.

(** [abs_inv]: the steps a successful handler took on the abstract state. *)
Ltac abs_inv_step :=
  match goal with
  | H : GetAccount _ _ = (_, Ret _) |- _ => apply GetAccount_inv in H as [? ?]; subst
  | H : SetAccount _ _ = (_, Ret _) |- _ => apply SetAccount_inv in H; subst
  | H : GetAsset _ _ = (_, Ret _) |- _ => apply (lookup_inv assets) in H as [? H]; subst
  | H : GetTemplate _ _ = (_, Ret _) |- _ => apply (lookup_inv templates) in H as [? H]; subst
  | H : GetSession _ _ = (_, Ret _) |- _ => apply (lookup_inv sessions) in H as [? H]; subst
  | H : GetListing _ _ = (_, Ret _) |- _ => apply (lookup_inv listings) in H as [? H]; subst
  | H : GetTemplate _ _ = (_, Fail _) |- _ => apply (lookup_absent_inv templates) in H as [? H]; subst
  | H : GetSession _ _ = (_, Fail _) |- _ => apply (lookup_absent_inv sessions) in H as [? H]; subst
  | H : SetAsset _ _ = (_, Ret _) |- _ => apply update_inv in H; subst
  | H : DeleteAsset _ _ = (_, Ret _) |- _ => apply update_inv in H; subst
  | H : SetTemplate _ _ = (_, Ret _) |- _ => apply update_inv in H; subst
  | H : SetSession _ _ = (_, Ret _) |- _ => apply update_inv in H; subst
  | H : SetListing _ _ = (_, Ret _) |- _ => apply update_inv in H; subst
  | H : emit_ctx (ctx_of _ _) _ _ _ = (_, Ret _) |- _ => apply emit_inv in H; subst
  | H : decode_payload _ _ _ _ _ = (_, Ret _) |- _ =>
      apply decode_payload_inv in H as (? & H); subst
  | _ => run_inv_step
  end.
Ltac abs_inv := repeat (abs_inv_step; cbn [abs_world abs_snaps] in *).

(** ** Fees *)

(** The world after the fee and nonce of a transaction are accounted for. *)
Definition fee_effect (b : Block) (tx : Transaction) (w : world) : world :=
  let proposer := hdr_Proposer (blk_Header b) in
  let w1 := put_account (tx_From tx) (balance w (tx_From tx) - tx_Fee tx)
              (nonce w (tx_From tx) + 1) w in
  if bool_decide (tx_Fee tx > 0 ∧ proposer ≠ "")
  then put_balance proposer (balance w1 proposer + tx_Fee tx) w1 else w1.

(** The stakes of each listed player are taken, and rewards are paid, one after
    the other. *)
Definition lock_all (stakes : Z) (players : list string) (w : world) : world :=
  foldl (λ w a, put_balance a (balance w a - stakes) w) w players.
Definition pay_all (rs : list (string * Z)) (w : world) : world :=
  foldl (λ w r, put_balance r.1 (balance w r.1 + r.2) w) w rs.
Definition total (rs : list (string * Z)) : Z := foldr (λ r acc, r.2 + acc) 0 rs.

Section Effects.
Context `{F : FloatFmt, FL : !FloatLaws, C : Crypto, O : MapOrder}.
Implicit Types (s : AbsState) (w : world) (b : Block) (tx : Transaction).

Lemma put_account_twice a x n y m w :
  put_account a y m (put_account a x n w) = put_account a y m w.
Proof. unfold put_account, set_accounts. simpl. by rewrite insert_insert_eq. Qed.

Lemma account_fields w a :
  acc_Balance (account_at w a) = balance w a ∧ acc_Nonce (account_at w a) = nonce w a.
Proof. done. Qed.

Lemma charge_effect b tx s s' :
  wf_abs s → is_u64 (tx_Fee tx) → tx_From tx ≠ "" → charge b tx s = (s', Ret tt) →
  let w := abs_world s in
  nonce w (tx_From tx) = tx_Nonce tx ∧ tx_Fee tx ≤ balance w (tx_From tx) ∧
  tx_Nonce tx ≠ max_uint64 ∧ s' = mkAbs (fee_effect b tx w) (abs_snaps s).
Proof.
  intros [Hw _] Hfee Hne0 H. destruct s as [w l]. unfold charge in H. abs_inv. simpl in *.
  rewrite !account_at_address in * by done.
  fold (balance w (tx_From tx)) in *. fold (nonce w (tx_From tx)) in *.
  pose proof (balance_range w (tx_From tx) Hw) as Hb.
  assert (is_u64 (nonce w (tx_From tx)) ∧ nonce w (tx_From tx) < max_uint64) as [Hn Hn'].
  { unfold nonce, account_at in *. destruct (accounts w !! tx_From tx) as [x|] eqn:E; simpl in *.
    - destruct Hw as [Hw _ _ _ _]. destruct (Hw _ _ E) as [_ (_ & _ & Hx)].
      unfold is_u64 in *. lia.
    - unfold is_u64, max_uint64. lia. }
  rewrite sub64_exact, (add64_exact (nonce _ _)) in H by (done || unfold is_u64, max_uint64 in *; lia).
  split_and!; [done|lia|congruence|]. unfold fee_effect.
  destruct (bool_decide (tx_Fee tx > 0 ∧ _ ∧ _)) eqn:E1.
  - apply bool_decide_eq_true in E1 as (? & ? & Hne). abs_inv. simpl in *.
    rewrite bool_decide_eq_true_2 by done.
    unfold put_balance, balance, nonce in *. rewrite account_at_put in *.
    rewrite decide_False in * by done. rewrite account_at_address by done.
    rewrite add64_exact; [done|by apply balance_range|done|lia].
  - apply bool_decide_eq_false in E1. abs_inv.
    destruct (bool_decide (tx_Fee tx > 0 ∧ tx_From tx = _)) eqn:E2.
    + apply bool_decide_eq_true in E2 as [? He]. rewrite <- He in *. simpl.
      rewrite bool_decide_eq_true_2 by done.
      unfold put_balance. rewrite put_account_twice, balance_put, nonce_put, !decide_True by done.
      rewrite add64_exact; [done|..]; unfold is_u64, max_uint64 in *; lia.
    + apply bool_decide_eq_false in E2. simpl. case_bool_decide as E3; [|done].
      exfalso. destruct E3. apply E1. split; [done|]. split; [done|]. intros He. by apply E2.
Qed.

Lemma wf_put_account a bal n w :
  wf_world w → valid_utf8 a = true → is_u64 bal → is_u64 n → wf_world (put_account a bal n w).
Proof.
  intros [] Ha Hb Hn. split; try done. simpl. by apply (keyed_insert acc_Address _ _ (mkAccount a bal n)).
Qed.

Lemma nonce_range w a : wf_world w → is_u64 (nonce w a).
Proof.
  intros [Hw _ _ _ _]. unfold nonce, account_at. destruct (accounts w !! a) as [x|] eqn:E; simpl.
  - by destruct (Hw _ _ E) as [_ (_ & _ & ?)].
  - unfold is_u64, max_uint64. lia.
Qed.

Lemma wf_put_balance a bal w :
  wf_world w → valid_utf8 a = true → is_u64 bal → wf_world (put_balance a bal w).
Proof. intros. apply wf_put_account; try done. by apply nonce_range. Qed.

(** An account that is read, changed by an amount in range and written back. *)
Lemma debit_step w a amt :
  wf_world w → is_u64 amt → ¬ balance w a < amt →
  put_account (acc_Address (account_at w a)) (sub64 (acc_Balance (account_at w a)) amt)
    (acc_Nonce (account_at w a)) w = put_balance a (balance w a - amt) w.
Proof.
  intros Hw Ha Hb. rewrite account_at_address by done. fold (balance w a).
  rewrite sub64_exact; [done|by apply balance_range|done|lia].
Qed.

Lemma credit_step w a amt :
  wf_world w → is_u64 amt → ¬ balance w a > max_uint64 - amt →
  put_account (acc_Address (account_at w a)) (add64 (acc_Balance (account_at w a)) amt)
    (acc_Nonce (account_at w a)) w = put_balance a (balance w a + amt) w.
Proof.
  intros Hw Ha Hb. rewrite account_at_address by done. fold (balance w a).
  rewrite add64_exact; [done|by apply balance_range|done|lia].
Qed.

(** Names the decoded payload. *)
#[local] Ltac payload_as p Hp :=
  match goal with H : Unmarshal _ _ _ = Some ?x |- _ => rename H into Hp; rename x into p end;
  cbn [ctx_of ctx_Tx ctx_Block acc_Address acc_Balance acc_Nonce] in *.

Lemma transfer_effect b tx payload s s' :
  wf_abs s → valid_utf8 (tx_From tx) = true →
  handleTransfer (ctx_of b tx) payload s = (s', Ret tt) →
  ∃ p, Unmarshal TransferPayload_dec TransferPayload_zero payload = Some p ∧
    0 < tp_Amount p ≤ balance (abs_world s) (tx_From tx) ∧ (∃ pub, PubKeyFromHex (tp_To p) = Ret pub) ∧
    s' = mkAbs (move (tx_From tx) (tp_To p) (tp_Amount p) (abs_world s)) (abs_snaps s).
Proof.
  intros [Hw _] Hf H. destruct s as [w l]. unfold handleTransfer in H. abs_inv. payload_as p Hp.
  pose proof Hp as (v & _ & [_ Ham]%TransferPayload_dec_valid)%Unmarshal_Some.
  rewrite debit_step in * by done.
  assert (wf_world (put_balance (tx_From tx) (balance w (tx_From tx) - tp_Amount p) w)) as Hw1.
  { pose proof (balance_range w (tx_From tx) Hw). fold (balance w (tx_From tx)) in *.
    apply wf_put_balance; try done. unfold is_u64 in *. lia. }
  rewrite credit_step in * by done. exists p.
  fold (balance w (tx_From tx)) in *. unfold is_u64 in Ham.
  split_and!; [done|lia|lia|by eexists|done].
Qed.

Lemma mint_effect b tx payload s s' :
  handleMintAsset (ctx_of b tx) payload s = (s', Ret tt) →
  ∃ p t owner, Unmarshal MintAssetPayload_dec MintAssetPayload_zero payload = Some p ∧
    templates (abs_world s) !! mp_TemplateID p = Some t ∧
    owner = (if decide (mp_Owner p = "") then tx_From tx else mp_Owner p) ∧
    (mp_Owner p = "" ∨ ∃ pub, PubKeyFromHex (mp_Owner p) = Ret pub) ∧
    let id := asset_id (tx_ID tx) (mp_TemplateID p) in
    let a := mkAsset id (mp_TemplateID p) owner (mp_Properties p) (tmpl_Tradeable t)
               (hdr_Timestamp (blk_Header b)) "" in
    s' = mkAbs (set_assets (<[id := a]> (assets (abs_world s))) (abs_world s)) (abs_snaps s).
Proof.
  intros H. destruct s as [w l]. unfold handleMintAsset in H. abs_inv. payload_as p Hp.
  match goal with H : (if _ then _ else _) _ = (_, Ret ?o) |- _ => rename H into Ho; rename o into owner end.
  match goal with H : templates _ !! _ = Some ?t |- _ => exists p, t, owner end.
  destruct (bool_decide (mp_Owner p = "")) eqn:E; abs_inv; rewrite ?decide_True, ?decide_False by done;
    split_and!; eauto.
Qed.

Lemma burn_effect b tx payload s s' :
  handleBurnAsset (ctx_of b tx) payload s = (s', Ret tt) →
  ∃ p a, Unmarshal BurnAssetPayload_dec BurnAssetPayload_zero payload = Some p ∧
    assets (abs_world s) !! bp_AssetID p = Some a ∧ ast_Owner a = tx_From tx ∧
    ast_ActiveListingID a = "" ∧
    s' = mkAbs (set_assets (delete (bp_AssetID p) (assets (abs_world s))) (abs_world s)) (abs_snaps s).
Proof.
  intros H. destruct s as [w l]. unfold handleBurnAsset in H. abs_inv. payload_as p Hp.
  eexists p, _. split_and!; done.
Qed.

Lemma transfer_asset_effect b tx payload s s' :
  handleTransferAsset (ctx_of b tx) payload s = (s', Ret tt) →
  ∃ p a, Unmarshal TransferAssetPayload_dec TransferAssetPayload_zero payload = Some p ∧
    assets (abs_world s) !! tap_AssetID p = Some a ∧ ast_Owner a = tx_From tx ∧
    ast_Tradeable a = true ∧ ast_ActiveListingID a = "" ∧
    (∃ pub, PubKeyFromHex (tap_To p) = Ret pub) ∧
    s' = mkAbs (set_assets (<[ast_ID a := set_Owner a (tap_To p)]> (assets (abs_world s))) (abs_world s))
           (abs_snaps s).
Proof.
  intros H. destruct s as [w l]. unfold handleTransferAsset in H. abs_inv. payload_as p Hp.
  eexists p, _. split_and!; eauto.
Qed.

Lemma register_template_effect b tx payload s s' :
  handleRegisterTemplate (ctx_of b tx) payload s = (s', Ret tt) →
  ∃ p, Unmarshal RegisterTemplatePayload_dec RegisterTemplatePayload_zero payload = Some p ∧
    rp_ID p ≠ "" ∧ templates (abs_world s) !! rp_ID p = None ∧
    let t := mkAssetTemplate (rp_ID p) (rp_Name p) (rp_Schema p) (rp_Tradeable p) (tx_From tx) in
    s' = mkAbs (set_templates (<[rp_ID p := t]> (templates (abs_world s))) (abs_world s)) (abs_snaps s).
Proof.
  intros H. destruct s as [w l]. unfold handleRegisterTemplate in H. abs_inv. payload_as p Hp.
  exists p. split_and!; done.
Qed.

Lemma list_market_effect b tx payload s s' :
  handleListMarket (ctx_of b tx) payload s = (s', Ret tt) →
  ∃ p a, Unmarshal ListMarketPayload_dec ListMarketPayload_zero payload = Some p ∧
    assets (abs_world s) !! lm_AssetID p = Some a ∧ ast_Owner a = tx_From tx ∧
    ast_Tradeable a = true ∧ ast_ActiveListingID a = "" ∧ lm_Price p ≠ 0 ∧
    let id := listing_id (tx_ID tx) (lm_AssetID p) in
    let l := mkMarketListing id (lm_AssetID p) (tx_From tx) (lm_Price p) true
               (hdr_Timestamp (blk_Header b)) in
    let w := abs_world s in
    s' = mkAbs (set_assets (<[ast_ID a := set_ActiveListingID a id]> (assets w))
                  (set_listings (<[id := l]> (listings w)) w)) (abs_snaps s).
Proof.
  intros H. destruct s as [w l]. unfold handleListMarket in H. abs_inv. payload_as p Hp.
  eexists p, _. split_and!; eauto.
Qed.

(** The accounts of a purchase, then the asset and the listing. *)
Definition buy_effect_world tx (l : MarketListing) (a : Asset) (w : world) : world :=
  let w1 := move (tx_From tx) (lst_Seller l) (lst_Price l) w in
  let w2 := set_assets (<[ast_ID a := set_ActiveListingID (set_Owner a (tx_From tx)) ""]> (assets w1)) w1 in
  set_listings (<[lst_ID l := set_Active l false]> (listings w2)) w2.

Lemma buy_market_effect b tx payload s s' :
  wf_abs s → valid_utf8 (tx_From tx) = true →
  handleBuyMarket (ctx_of b tx) payload s = (s', Ret tt) →
  ∃ p l a, Unmarshal BuyMarketPayload_dec BuyMarketPayload_zero payload = Some p ∧
    listings (abs_world s) !! bm_ListingID p = Some l ∧ lst_Active l = true ∧
    lst_Seller l ≠ tx_From tx ∧ lst_Price l ≤ balance (abs_world s) (tx_From tx) ∧
    assets (abs_world s) !! lst_AssetID l = Some a ∧
    s' = mkAbs (buy_effect_world tx l a (abs_world s)) (abs_snaps s).
Proof.
  intros [Hw _] Hf H. destruct s as [w sn]. unfold handleBuyMarket in H. abs_inv. payload_as p Hp.
  match goal with H : listings _ !! _ = Some ?x |- _ => rename H into Hl; rename x into l end.
  match goal with H : assets _ !! _ = Some ?x |- _ => rename H into Ha; rename x into a end.
  assert (is_u64 (lst_Price l)) as Hpr.
  { destruct (wf_listings _ Hw _ _ Hl) as [_ (_ & _ & _ & ? & _)]. done. }
  rewrite debit_step in * by done.
  assert (wf_world (put_balance (tx_From tx) (balance w (tx_From tx) - lst_Price l) w)) as Hw1.
  { pose proof (balance_range w (tx_From tx) Hw). fold (balance w (tx_From tx)) in *.
    apply wf_put_balance; try done. unfold is_u64 in *. lia. }
  rewrite credit_step in * by done. exists p, l, a. fold (balance w (tx_From tx)) in *.
  split_and!; try done. lia.
Qed.

Lemma lock_stakes_effect stakes players s s' :
  wf_abs s → is_u64 stakes → Forall (λ a, valid_utf8 a = true) players →
  for_each (lock_stake stakes) players s = (s', Ret tt) →
  s' = mkAbs (lock_all stakes players (abs_world s)) (abs_snaps s) ∧ wf_world (abs_world s').
Proof.
  intros [Hw Hsn] Hst Hpl. revert s Hw Hsn. induction Hpl as [|a players Ha _ IH]; intros s Hw Hsn H.
  - injection H as <-. by destruct s.
  - apply for_each_cons_inv in H as (s1 & H1 & H2). destruct s as [w l].
    unfold lock_stake in H1. abs_inv. cbn [acc_Address acc_Balance acc_Nonce] in *.
    rewrite debit_step in * by done. apply IH in H2 as [-> Hw2]; [done| |done].
    pose proof (balance_range w a Hw). fold (balance w a) in *. apply wf_put_balance; try done.
    unfold is_u64 in *. lia.
Qed.

Lemma session_open_effect b tx payload s s' :
  wf_abs s → handleSessionOpen (ctx_of b tx) payload s = (s', Ret tt) →
  ∃ p, Unmarshal SessionOpenPayload_dec SessionOpenPayload_zero payload = Some p ∧
    so_SessionID p ≠ "" ∧ so_Players p ≠ [] ∧ sessions (abs_world s) !! so_SessionID p = None ∧
    let w1 := if bool_decide (so_Stakes p > 0) then lock_all (so_Stakes p) (so_Players p) (abs_world s)
              else abs_world s in
    let sess := mkSession (so_SessionID p) (so_GameID p) (tx_From tx) (so_Players p) (so_Stakes p) "open"
                  (Some ∅) (hdr_Timestamp (blk_Header b)) 0 in
    s' = mkAbs (set_sessions (<[so_SessionID p := sess]> (sessions w1)) w1) (abs_snaps s).
Proof.
  intros Hwf H. destruct s as [w l]. unfold handleSessionOpen in H. abs_inv. payload_as p Hp.
  pose proof Hp as (v & _ & (_ & _ & Hpl & Hst)%SessionOpenPayload_dec_valid)%Unmarshal_Some.
  exists p. split_and!; try done; [by intros E; rewrite E in *|].
  match goal with H : (if _ then _ else _) _ = _ |- _ => rename H into Hlock end.
  destruct (bool_decide (so_Stakes p > 0)); [|by abs_inv].
  match type of Hlock with _ = (_, Ret ?u) => destruct u end.
  by apply lock_stakes_effect in Hlock as [-> _].
Qed.

Lemma sum_rewards_Ret t rs acc r :
  is_u64 t → 0 ≤ acc ≤ t → Forall (λ r, is_u64 r.2) rs →
  sum_rewards t acc rs = Ret r → r = acc + total rs ∧ r ≤ t.
Proof.
  intros Ht Hacc Hrs. revert acc Hacc. induction Hrs as [|[k z] rs Hz _ IH]; intros acc Hacc; simpl.
  - intros [= <-]. lia.
  - simpl in Hz. unfold is_u64 in *. rewrite sub64_exact by (unfold is_u64; lia).
    case_bool_decide as Hc; [done|]. rewrite add64_exact by (unfold is_u64; lia).
    intros Hr. apply IH in Hr; [|lia]. lia.
Qed.

Lemma pay_rewards_effect rs s s' :
  wf_abs s → Forall (λ r, valid_utf8 r.1 = true ∧ is_u64 r.2) rs →
  for_each pay_reward rs s = (s', Ret tt) →
  s' = mkAbs (pay_all rs (abs_world s)) (abs_snaps s) ∧ wf_world (abs_world s').
Proof.
  intros [Hw Hsn] Hrs. revert s Hw Hsn. induction Hrs as [|[a z] rs [Ha Hz] _ IH]; intros s Hw Hsn H.
  - injection H as <-. by destruct s.
  - apply for_each_cons_inv in H as (s1 & H1 & H2). destruct s as [w l].
    unfold pay_reward in H1. abs_inv. cbn [acc_Address acc_Balance acc_Nonce fst snd] in *.
    rewrite credit_step in * by done. apply IH in H2 as [-> Hw2]; [done| |done].
    pose proof (balance_range w a Hw). fold (balance w a) in *. apply wf_put_balance; try done.
    unfold is_u64 in *. lia.
Qed.

Lemma check_players_inv (players : list string) (rs : list (string * Z)) e s s' :
  for_each (λ r : string * Z, reject_if (bool_decide (r.1 ∉ players)) e) rs s = (s', Ret tt) →
  s' = s ∧ Forall (λ r, r.1 ∈ players) rs.
Proof.
  revert s. induction rs as [|r rs IH]; intros s H.
  - injection H as <-. by split; [|constructor].
  - apply for_each_cons_inv in H as (s1 & H1 & H2). run_inv.
    apply IH in H2 as [-> ?]. split; [done|]. constructor; [by apply dec_stable|done].
Qed.

Lemma session_result_effect b tx payload s s' :
  wf_abs s → handleSessionResult (ctx_of b tx) payload s = (s', Ret tt) →
  ∃ p sess, Unmarshal SessionResultPayload_dec SessionResultPayload_zero payload = Some p ∧
    sessions (abs_world s) !! sr_SessionID p = Some sess ∧ sess_Status sess = "open" ∧
    sess_Creator sess = tx_From tx ∧
    let outc := default ∅ (sr_Outcome p) in
    (∀ a, is_Some (outc !! a) → a ∈ sess_Players sess) ∧
    total (range 2 outc) = locked sess ∧
    let w1 := pay_all (range 2 outc) (abs_world s) in
    s' = mkAbs (set_sessions (<[sess_ID sess := close_session sess (sr_Outcome p)
                  (hdr_Timestamp (blk_Header b))]> (sessions w1)) w1) (abs_snaps s).
Proof.
  intros Hwf H. destruct s as [w l]. unfold handleSessionResult in H. abs_inv. payload_as p Hp.
  pose proof Hp as (v & _ & (Hid & Hout)%SessionResultPayload_dec_valid)%Unmarshal_Some.
  match goal with H : sessions _ !! _ = Some ?x |- _ => rename H into Hs; rename x into sess end.
  assert (is_u64 (sess_Stakes sess)) as Hst.
  { destruct Hwf as [Hw _]. destruct (wf_sessions _ Hw _ _ Hs) as [_ Hv].
    unfold valid_Session in Hv. by destruct_and!. }
  set (outc := default ∅ (sr_Outcome p)) in *.
  assert (∀ n, Forall (λ r, valid_utf8 r.1 = true ∧ is_u64 r.2) (range n outc)) as Hrs.
  { intros n. apply Forall_forall. intros [k z]. rewrite range_perm, elem_of_map_to_list. intros E.
    unfold outc in E. destruct (sr_Outcome p); [by apply (Hout _ _ E)|done]. }
  repeat match goal with u : unit |- _ => destruct u end.
  match goal with H : for_each pay_reward _ _ = _ |- _ => rename H into Hpay end.
  match goal with H : for_each (λ r, reject_if _ _) _ _ = _ |- _ => apply check_players_inv in H as [-> Hpl] end.
  match goal with H : sum_rewards _ _ _ = Ret _ |- _ => rename H into Hsum end.
  apply pay_rewards_effect in Hpay as [-> Hw1]; [|done|done].
  assert (mul64 (sess_Stakes sess) (Z.of_nat (length (sess_Players sess))) = locked sess) as Hlk.
  { unfold locked. rewrite bool_decide_eq_true_2 by done. apply mul64_exact; [unfold is_u64 in *; lia|lia|].
    match goal with H : ¬ (_ ∧ _ > _ / _) |- _ => rename H into Hov end.
    destruct (decide (sess_Stakes sess > 0)) as [Hpos|Hpos]; [|unfold is_u64, max_uint64 in *; nia].
    assert (Z.of_nat (length (sess_Players sess)) ≤ max_uint64 / sess_Stakes sess) as Hle by lia.
    pose proof (Z.mul_div_le max_uint64 (sess_Stakes sess)). nia. }
  rewrite Hlk in *.
  apply sum_rewards_Ret in Hsum as [Hsum _].
  - exists p, sess. split_and!; try done.
    + intros a [z Hz]. rewrite Forall_forall in Hpl. apply (Hpl (a, z)).
      rewrite range_perm. by apply elem_of_map_to_list.
    + fold outc. transitivity (total (range 1 outc)); [|lia].
      unfold total. apply (foldr_sum_perm id (range 2 outc) (range 1 outc)). by rewrite !range_perm.
  - rewrite <- Hlk. unfold mul64, is_u64, max_uint64, two64.
    pose proof (Z.mod_pos_bound (sess_Stakes sess * Z.of_nat (length (sess_Players sess))) two64 eq_refl).
    unfold two64 in *. lia.
  - unfold locked. rewrite bool_decide_eq_true_2 by done. unfold is_u64 in *. nia.
  - eapply Forall_impl; [apply Hrs|]. by intros r [_ ?].
Qed.
End Effects.

(** ** A successful transaction, taken apart *)

Section Runs.
Context `{F : FloatFmt, FL : !FloatLaws, C : Crypto, O : MapOrder}.
Implicit Types (w : world) (b : Block) (tx : Transaction).

Lemma charge_wf b tx s s' o :
  block_ok b → valid_utf8 (tx_From tx) = true → wf_abs s → charge b tx s = (s', o) → wf_abs s'.
Proof.
  intros [_ Hp] Hf Hs E. pose proof (abs_op_laws id) as HL.
  by destruct (charge_ref (HL := HL) b tx Hf Hp s s' o Hs E) as [? _].
Qed.

Lemma registry_lookup typ (h : Handler AbsState) :
  reg_handlers globalRegistry !! typ = Some h → (typ, h) ∈ handler_list.
Proof. rewrite globalRegistry_eq. apply elem_of_list_to_map_2. Qed.

Lemma run_tx_inv b tx w w' :
  block_ok b → is_u64 (tx_Fee tx) → wf_world w → run_tx b tx w = (w', Ret tt) →
  tx_Verify tx = Ret tt ∧ valid_utf8 (tx_From tx) = true ∧
  nonce w (tx_From tx) = tx_Nonce tx ∧ tx_Fee tx ≤ balance w (tx_From tx) ∧
  wf_world (fee_effect b tx w) ∧
  ∃ h s', (tx_Type tx, h) ∈ handler_list ∧ w' = abs_world s' ∧
    h (ctx_of b tx) (tx_Payload tx) (mkAbs (fee_effect b tx w) []) = (s', Ret tt).
Proof.
  intros Hb Hfee Hw. unfold run_tx. destruct (tx_Verify tx) as [[]| |] eqn:HV; try done.
  pose proof (tx_Verify_From_valid _ HV) as Hf.
  pose proof (tx_Verify_Ret_inv _ HV) as (Hne & _).
  destruct (applyTx abs_executor b tx (mkAbs w [])) as [s [[]| |]] eqn:E; intros [= <-].
  unfold applyTx in E. apply bind_Ret_inv in E as (s1 & [] & Hc & Hh).
  assert (wf_abs (mkAbs w [])) as Hs by (by split; [|constructor]).
  pose proof (charge_wf _ _ _ _ _ Hb Hf Hs Hc) as [Hw1 _].
  apply charge_effect in Hc as (Hn & Hbal & _ & ->); [|done..]. simpl in *.
  split_and!; try done. unfold reg_Execute in Hh. simpl in Hh.
  destruct (reg_handlers globalRegistry !! tx_Type tx) as [h|] eqn:Er; [|done].
  exists h, s. split_and!; [by apply registry_lookup|done|exact Hh].
Qed.

(** Case analysis on the handler of a successful transaction. *)
Lemma handler_cases typ (h : Handler AbsState) :
  (typ, h) ∈ handler_list →
  (typ = TxMintAsset ∧ h = handleMintAsset) ∨ (typ = TxBurnAsset ∧ h = handleBurnAsset) ∨
  (typ = TxTransferAsset ∧ h = handleTransferAsset) ∨
  (typ = TxRegisterTemplate ∧ h = handleRegisterTemplate) ∨
  (typ = TxTransfer ∧ h = handleTransfer) ∨ (typ = TxListMarket ∧ h = handleListMarket) ∨
  (typ = TxBuyMarket ∧ h = handleBuyMarket) ∨ (typ = TxSessionOpen ∧ h = handleSessionOpen) ∨
  (typ = TxSessionResult ∧ h = handleSessionResult).
Proof.
  unfold handler_list. rewrite !elem_of_cons, elem_of_nil.
  intros [[= -> ->]|[[= -> ->]|[[= -> ->]|[[= -> ->]|[[= -> ->]|[[= -> ->]|[[= -> ->]|[[= -> ->]|[[= -> ->]|[]]]]]]]]]];
    tauto.
Qed.

Lemma wf_mkAbs w : wf_world w → wf_abs (mkAbs w []).
Proof. by split; [|constructor]. Qed.

(** *** Supply *)

Lemma supply_fee b tx w :
  0 ≤ tx_Fee tx →
  supply (fee_effect b tx w) =
    supply w - if bool_decide (hdr_Proposer (blk_Header b) = "") then tx_Fee tx else 0.
Proof.
  intros Hf. unfold fee_effect. case_bool_decide as Hc.
  - unfold put_balance. rewrite !supply_put, bool_decide_eq_false_2 by tauto. lia.
  - rewrite supply_put. case_bool_decide; [lia|].
    assert (tx_Fee tx = 0) as -> by (destruct (decide (tx_Fee tx > 0)); [tauto|lia]). lia.
Qed.

Lemma sessions_lock_all stakes players w : sessions (lock_all stakes players w) = sessions w.
Proof.
  revert w. induction players as [|a l IH]; intros w; [done|].
  exact (IH (put_balance a (balance w a - stakes) w)).
Qed.

Lemma sessions_pay_all rs w : sessions (pay_all rs w) = sessions w.
Proof.
  revert w. induction rs as [|r l IH]; intros w; [done|].
  exact (IH (put_balance r.1 (balance w r.1 + r.2) w)).
Qed.

Lemma supply_lock_all stakes players w :
  supply (lock_all stakes players w) = supply w - stakes * Z.of_nat (length players).
Proof.
  revert w. induction players as [|a l IH]; intros w; [simpl; lia|].
  unfold lock_all in *. simpl. rewrite IH. unfold put_balance. rewrite supply_put. lia.
Qed.

Lemma supply_pay_all rs w : supply (pay_all rs w) = supply w + total rs.
Proof.
  revert w. induction rs as [|r l IH]; intros w; [simpl; lia|].
  unfold pay_all in *. simpl. rewrite IH. unfold put_balance. rewrite supply_put. lia.
Qed.

Lemma supply_set_session k s w :
  supply (set_sessions (<[k := s]> (sessions w)) w) =
    supply w - match sessions w !! k with Some s0 => locked s0 | None => 0 end + locked s.
Proof. unfold supply. simpl. rewrite msum_insert. lia. Qed.

Lemma run_tx_supply b tx w w' :
  block_ok b → is_u64 (tx_Fee tx) → wf_world w → run_tx b tx w = (w', Ret tt) →
  supply w' = supply w - if bool_decide (hdr_Proposer (blk_Header b) = "") then tx_Fee tx else 0.
Proof.
  intros Hb Hfee Hw (HV & Hf & _ & _ & Hw1 & h & s' & Hin & -> & Hh)%run_tx_inv; [|done..].
  rewrite <- supply_fee by apply Hfee. apply wf_mkAbs in Hw1.
  apply handler_cases in Hin as
    [[_ ->]|[[_ ->]|[[_ ->]|[[_ ->]|[[_ ->]|[[_ ->]|[[_ ->]|[[_ ->]|[_ ->]]]]]]]]].
  - by apply mint_effect in Hh as (? & ? & ? & _ & _ & _ & _ & ->).
  - by apply burn_effect in Hh as (? & ? & _ & _ & _ & _ & ->).
  - by apply transfer_asset_effect in Hh as (? & ? & _ & _ & _ & _ & _ & _ & ->).
  - by apply register_template_effect in Hh as (? & _ & _ & _ & ->).
  - apply transfer_effect in Hh as (? & _ & _ & _ & ->); [|done..]. apply supply_move.
  - by apply list_market_effect in Hh as (? & ? & _ & _ & _ & _ & _ & _ & ->).
  - apply buy_market_effect in Hh as (? & ? & ? & _ & _ & _ & _ & _ & _ & ->); [|done..].
    apply supply_move.
  - apply session_open_effect in Hh as (p & Hp & _ & _ & Hnone & ->); [|done..]. simpl in *.
    apply Unmarshal_Some in Hp as (v & _ & (_ & _ & _ & Hst)%SessionOpenPayload_dec_valid).
    rewrite supply_set_session. unfold locked at 2. simpl. case_bool_decide as Hpos.
    + rewrite sessions_lock_all, Hnone, supply_lock_all. lia.
    + rewrite Hnone. assert (so_Stakes p = 0) as -> by (unfold is_u64 in Hst; lia). lia.
  - apply session_result_effect in Hh as (p & sess & _ & Hs & Ho & _ & _ & Ht & ->); [|done..].
    simpl in *. rewrite supply_set_session, sessions_pay_all, supply_pay_all, Ht.
    assert (sess_ID sess = sr_SessionID p) as -> by (by apply (wf_sessions _ (proj1 Hw1) _ _ Hs)).
    rewrite Hs. unfold locked at 3. simpl. lia.
Qed.
End Runs.
