(* ===== verification/Invariants.v ===== *)
(** * Invariants of the chain state

    [tx_effect] is the transition relation of successful transactions on
    worlds, one constructor per transaction type, and [executes] its closure
    over a sequence of transactions.  On it: conservation of the token supply,
    nonces and replay protection, immutability of templates, the life cycle of
    sessions, and the market invariant, which ties every active listing to the
    asset it offers.  The market invariant relies on fresh asset and listing
    IDs; [provenance] shows them fresh unless SHA-256 collides. *)
From Stdlib Require Import Ascii Lia ZArith.
From stdpp Require Import base gmap strings list.
From S2P Require Import Prelude Crypto Json JsonFacts JsonParse JsonTyped Types Transaction Block.
From S2P Require Import State Events Vm Economy AssetModule Market SessionModule Executor Ledger.

(** Transactions whose fields are values of their Go types, as decoding and the
    constructors of the program produce them. *)
Record tx_ok (tx : Transaction) : Prop := {
  tx_fee_ok : is_u64 (tx_Fee tx);
  tx_body_ok : valid_signingBody (body_of tx)
}.

Section Relation.
Context `{F : FloatFmt, FL : !FloatLaws, C : Crypto, O : MapOrder}.
Implicit Types (w : world) (b : Block) (tx : Transaction).

(** What the handler of a successful transaction does, after the fee. *)
Inductive tx_effect b tx w : world → Prop :=
| EffTransfer p :
    tx_Type tx = TxTransfer →
    Unmarshal TransferPayload_dec TransferPayload_zero (tx_Payload tx) = Some p →
    0 < tp_Amount p ≤ balance w (tx_From tx) →
    tx_effect b tx w (move (tx_From tx) (tp_To p) (tp_Amount p) w)
| EffMint p t owner :
    tx_Type tx = TxMintAsset →
    Unmarshal MintAssetPayload_dec MintAssetPayload_zero (tx_Payload tx) = Some p →
    templates w !! mp_TemplateID p = Some t →
    owner = (if decide (mp_Owner p = "") then tx_From tx else mp_Owner p) →
    let id := asset_id (tx_ID tx) (mp_TemplateID p) in
    tx_effect b tx w (set_assets (<[id := mkAsset id (mp_TemplateID p) owner (mp_Properties p)
      (tmpl_Tradeable t) (hdr_Timestamp (blk_Header b)) ""]> (assets w)) w)
| EffBurn p a :
    tx_Type tx = TxBurnAsset →
    Unmarshal BurnAssetPayload_dec BurnAssetPayload_zero (tx_Payload tx) = Some p →
    assets w !! bp_AssetID p = Some a → ast_Owner a = tx_From tx → ast_ActiveListingID a = "" →
    tx_effect b tx w (set_assets (delete (bp_AssetID p) (assets w)) w)
| EffTransferAsset p a :
    tx_Type tx = TxTransferAsset →
    Unmarshal TransferAssetPayload_dec TransferAssetPayload_zero (tx_Payload tx) = Some p →
    assets w !! tap_AssetID p = Some a → ast_Owner a = tx_From tx → ast_Tradeable a = true →
    ast_ActiveListingID a = "" →
    tx_effect b tx w (set_assets (<[tap_AssetID p := set_Owner a (tap_To p)]> (assets w)) w)
| EffTemplate p :
    tx_Type tx = TxRegisterTemplate →
    Unmarshal RegisterTemplatePayload_dec RegisterTemplatePayload_zero (tx_Payload tx) = Some p →
    templates w !! rp_ID p = None →
    tx_effect b tx w (set_templates (<[rp_ID p := mkAssetTemplate (rp_ID p) (rp_Name p) (rp_Schema p)
      (rp_Tradeable p) (tx_From tx)]> (templates w)) w)
| EffList p a :
    tx_Type tx = TxListMarket →
    Unmarshal ListMarketPayload_dec ListMarketPayload_zero (tx_Payload tx) = Some p →
    assets w !! lm_AssetID p = Some a → ast_Owner a = tx_From tx → ast_Tradeable a = true →
    ast_ActiveListingID a = "" → lm_Price p ≠ 0 →
    let id := listing_id (tx_ID tx) (lm_AssetID p) in
    tx_effect b tx w (set_assets (<[lm_AssetID p := set_ActiveListingID a id]> (assets w))
      (set_listings (<[id := mkMarketListing id (lm_AssetID p) (tx_From tx) (lm_Price p) true
         (hdr_Timestamp (blk_Header b))]> (listings w)) w))
| EffBuy p l a :
    tx_Type tx = TxBuyMarket →
    Unmarshal BuyMarketPayload_dec BuyMarketPayload_zero (tx_Payload tx) = Some p →
    listings w !! bm_ListingID p = Some l → lst_Active l = true → lst_Seller l ≠ tx_From tx →
    lst_Price l ≤ balance w (tx_From tx) → assets w !! lst_AssetID l = Some a →
    let w1 := move (tx_From tx) (lst_Seller l) (lst_Price l) w in
    tx_effect b tx w
      (set_listings (<[bm_ListingID p := set_Active l false]> (listings w))
        (set_assets (<[lst_AssetID l := set_ActiveListingID (set_Owner a (tx_From tx)) ""]> (assets w)) w1))
| EffOpen p :
    tx_Type tx = TxSessionOpen →
    Unmarshal SessionOpenPayload_dec SessionOpenPayload_zero (tx_Payload tx) = Some p →
    so_Players p ≠ [] → sessions w !! so_SessionID p = None →
    let w1 := if bool_decide (so_Stakes p > 0) then lock_all (so_Stakes p) (so_Players p) w else w in
    tx_effect b tx w (set_sessions (<[so_SessionID p := mkSession (so_SessionID p) (so_GameID p)
      (tx_From tx) (so_Players p) (so_Stakes p) "open" (Some ∅) (hdr_Timestamp (blk_Header b)) 0]>
      (sessions w)) w1)
| EffResult p s :
    tx_Type tx = TxSessionResult →
    Unmarshal SessionResultPayload_dec SessionResultPayload_zero (tx_Payload tx) = Some p →
    sessions w !! sr_SessionID p = Some s → sess_Status s = "open" → sess_Creator s = tx_From tx →
    let outc := default ∅ (sr_Outcome p) in
    (∀ a, is_Some (outc !! a) → a ∈ sess_Players s) → total (range 2 outc) = locked s →
    tx_effect b tx w (set_sessions (<[sr_SessionID p := close_session s (sr_Outcome p)
      (hdr_Timestamp (blk_Header b))]> (sessions w)) (pay_all (range 2 outc) w)).

Lemma run_tx_effect b tx w w' :
  block_ok b → is_u64 (tx_Fee tx) → wf_world w → run_tx b tx w = (w', Ret tt) →
  tx_effect b tx (fee_effect b tx w) w'.
Proof.
  intros Hb Hfee Hw (HV & Hf & _ & _ & Hw1 & h & s' & Hin & -> & Hh)%run_tx_inv; [|done..].
  pose proof (wf_mkAbs _ Hw1) as Hs. destruct Hw1 as [_ Ha _ Hse Hl].
  apply handler_cases in Hin as
    [[Ht ->]|[[Ht ->]|[[Ht ->]|[[Ht ->]|[[Ht ->]|[[Ht ->]|[[Ht ->]|[[Ht ->]|[Ht ->]]]]]]]]].
  - apply mint_effect in Hh as (? & ? & ? & ? & ? & ? & _ & ->). by eapply EffMint.
  - apply burn_effect in Hh as (? & ? & ? & ? & ? & ? & ->). by eapply EffBurn.
  - apply transfer_asset_effect in Hh as (p & a & ? & Hl' & ? & ? & ? & _ & ->).
    destruct (Ha _ _ Hl') as [Hid _]. simpl in *. rewrite Hid. by eapply EffTransferAsset.
  - apply register_template_effect in Hh as (? & ? & _ & ? & ->). by eapply EffTemplate.
  - apply transfer_effect in Hh as (? & ? & ? & _ & ->); [|done..]. by eapply EffTransfer.
  - apply list_market_effect in Hh as (p & a & ? & Hl' & ? & ? & ? & ? & ->).
    destruct (Ha _ _ Hl') as [Hid _]. simpl in *. rewrite Hid. by eapply EffList.
  - apply buy_market_effect in Hh as (p & l & a & ? & Hl1 & ? & ? & ? & Hl2 & ->); [|done..].
    destruct (Ha _ _ Hl2) as [Hid _], (Hl _ _ Hl1) as [Hid2 _]. unfold buy_effect_world. simpl in *.
    rewrite Hid, Hid2. by eapply EffBuy.
  - apply session_open_effect in Hh as (p & ? & _ & ? & ? & ->); [|done..]. simpl in *.
    replace (sessions (if bool_decide (so_Stakes p > 0) then _ else _))
      with (sessions (fee_effect b tx w)).
    + by eapply EffOpen.
    + case_bool_decide; [|done]. by rewrite sessions_lock_all.
  - apply session_result_effect in Hh as (p & s & ? & Hl' & ? & ? & ? & ? & ->); [|done..].
    destruct (Hse _ _ Hl') as [Hid _]. simpl in *. rewrite Hid, sessions_pay_all. by eapply EffResult.
Qed.

(** One accepted transaction, and a sequence of them, each in some block. *)
Definition tx_step w tx w' : Prop :=
  ∃ b, block_ok b ∧ tx_ok tx ∧ run_tx b tx w = (w', Ret tt).

Inductive executes : world → list Transaction → world → Prop :=
| ex_nil w : executes w [] w
| ex_cons w tx w1 txs w2 : tx_step w tx w1 → executes w1 txs w2 → executes w (tx :: txs) w2.

Lemma tx_step_wf w tx w' : wf_world w → tx_step w tx w' → wf_world w'.
Proof. intros Hw (b & Hb & _ & Hr). by eapply run_tx_wf. Qed.

(** *** Nonces *)

Lemma nonce_fee b tx w a :
  nonce (fee_effect b tx w) a = nonce w a + if decide (tx_From tx = a) then 1 else 0.
Proof.
  unfold fee_effect. case_bool_decide; rewrite ?nonce_put_balance, nonce_put; case_decide; subst; lia.
Qed.

Lemma nonce_lock_all stakes players w a : nonce (lock_all stakes players w) a = nonce w a.
Proof.
  revert w. induction players as [|x l IH]; intros w; [done|].
  unfold lock_all in *. simpl. by rewrite IH, nonce_put_balance.
Qed.

Lemma nonce_pay_all rs w a : nonce (pay_all rs w) a = nonce w a.
Proof.
  revert w. induction rs as [|x l IH]; intros w; [done|].
  unfold pay_all in *. simpl. by rewrite IH, nonce_put_balance.
Qed.

Lemma nonce_effect b tx w w' a : tx_effect b tx w w' → nonce w' a = nonce w a.
Proof.
  destruct 1; try done.
  - apply nonce_move.
  - apply nonce_move.
  - destruct (bool_decide (so_Stakes p > 0)); [|done]. apply nonce_lock_all.
  - apply nonce_pay_all.
Qed.

Lemma tx_step_nonce w tx w' a :
  wf_world w → tx_step w tx w' →
  nonce w' a = nonce w a + (if decide (tx_From tx = a) then 1 else 0) ∧
  nonce w (tx_From tx) = tx_Nonce tx ∧ tx_Verify tx = Ret tt.
Proof.
  intros Hw (b & Hb & [Hfee _] & Hr).
  destruct (run_tx_inv _ _ _ _ Hb Hfee Hw Hr) as (HV & _ & Hn & _).
  apply run_tx_effect in Hr; [|done..]. apply (nonce_effect _ _ _ _ a) in Hr.
  by rewrite Hr, nonce_fee.
Qed.

Lemma executes_nonce w txs w' a : wf_world w → executes w txs w' → nonce w a ≤ nonce w' a ∧ wf_world w'.
Proof.
  intros Hw H. induction H as [w|w tx w1 txs w2 Hs _ IH]; [done|].
  destruct (tx_step_nonce _ _ _ a Hw Hs) as [Hn _].
  destruct (IH (tx_step_wf _ _ _ Hw Hs)). split; [|done]. case_decide; lia.
Qed.
End Relation.

(** ** Fresh IDs *)

Section Market.
Context `{F : FloatFmt, FL : !FloatLaws, C : Crypto, CL : !CryptoLaws, O : MapOrder}.
Implicit Types (w : world) (b : Block) (tx : Transaction).

(** The messages whose hash names the asset or the listing a transaction
    creates, and all the messages hashed for it. *)
Definition asset_seeds tx : list string :=
  if bool_decide (tx_Type tx = TxMintAsset) then
    match Unmarshal MintAssetPayload_dec MintAssetPayload_zero (tx_Payload tx) with
    | Some p => [tx_ID tx +:+ ":asset:" +:+ mp_TemplateID p]
    | None => []
    end
  else [].
Definition listing_seeds tx : list string :=
  if bool_decide (tx_Type tx = TxListMarket) then
    match Unmarshal ListMarketPayload_dec ListMarketPayload_zero (tx_Payload tx) with
    | Some p => [tx_ID tx +:+ ":listing:" +:+ lm_AssetID p]
    | None => []
    end
  else [].
Definition messages tx : list string := body_text tx ++ asset_seeds tx ++ listing_seeds tx.
Definition all_messages (txs : list Transaction) : list string := concat (messages <$> txs).

(** A verified transaction of [hist] that was executed before [w]. *)
Definition executed_before (hist : list Transaction) w tx : Prop :=
  tx ∈ hist ∧ tx_ok tx ∧ tx_Verify tx = Ret tt ∧ tx_Nonce tx < nonce w (tx_From tx).

(** Every asset and listing was created by an executed transaction. *)
Record provenance (hist : list Transaction) w : Prop := {
  prov_assets id a : assets w !! id = Some a →
    ∃ tx m, executed_before hist w tx ∧ m ∈ asset_seeds tx ∧ id = Hash m;
  prov_listings id l : listings w !! id = Some l →
    ∃ tx m, executed_before hist w tx ∧ m ∈ listing_seeds tx ∧ id = Hash m
}.

Lemma tx_ID_length tx : tx_Verify tx = Ret tt → String.length (tx_ID tx) = 64%nat.
Proof.
  intros (_ & H & _)%tx_Verify_Ret_inv. unfold tx_Hash in H.
  destruct (signingBody_enc (body_of tx)); [|done]. injection H as <-. apply Hash_length.
Qed.

Lemma asset_seeds_id tx m : m ∈ asset_seeds tx → ∃ t, m = tx_ID tx +:+ ":asset:" +:+ t.
Proof.
  unfold asset_seeds. case_bool_decide; [|by intros ?%elem_of_nil].
  case_match; [|by intros ?%elem_of_nil]. intros ->%list_elem_of_singleton. eauto.
Qed.

Lemma listing_seeds_id tx m : m ∈ listing_seeds tx → ∃ t, m = tx_ID tx +:+ ":listing:" +:+ t.
Proof.
  unfold listing_seeds. case_bool_decide; [|by intros ?%elem_of_nil].
  case_match; [|by intros ?%elem_of_nil]. intros ->%list_elem_of_singleton. eauto.
Qed.

Lemma messages_elem tx txs m : tx ∈ txs → m ∈ messages tx → m ∈ all_messages txs.
Proof.
  intros Ht Hm. unfold all_messages. apply list_elem_of_In, in_concat. exists (messages tx).
  rewrite <- !list_elem_of_In. split; [|done]. by apply list_elem_of_fmap_2.
Qed.

Lemma collision_of_messages t1 t2 txs ms :
  t1 ∈ txs → t2 ∈ txs → ms ⊆ messages t1 ++ messages t2 → collision_in ms →
  collision_in (all_messages txs).
Proof.
  intros H1 H2 Hs. apply collision_in_mono. intros m [Hm|Hm]%Hs%elem_of_app;
    [by apply (messages_elem t1)|by apply (messages_elem t2)].
Qed.

(** Two verified transactions with the same ID have the same sender and nonce. *)
Lemma same_id_same_nonce t1 t2 :
  tx_ok t1 → tx_ok t2 → tx_Verify t1 = Ret tt → tx_Verify t2 = Ret tt → tx_ID t1 = tx_ID t2 →
  (tx_From t1 = tx_From t2 ∧ tx_Nonce t1 = tx_Nonce t2) ∨ collision_in (body_text t1 ++ body_text t2).
Proof.
  intros [_ Hv1] [_ Hv2] (_ & H1 & _)%tx_Verify_Ret_inv (_ & H2 & _)%tx_Verify_Ret_inv Hid.
  rewrite Hid in H1. destruct (tx_Hash_inj _ _ _ Hv1 Hv2 H1 H2) as [He|]; [left|by right].
  unfold tx_Hash in H2. destruct (signingBody_enc (body_of t2)) as [v|] eqn:E; [|done].
  by destruct (signingBody_enc_inj _ _ v Hv1 Hv2 He E) as (_ & _ & ? & ? & _).
Qed.

(** A name made from the ID of a transaction that is due is not in use. *)
Lemma fresh_seed hist w tx tx0 m m0 sep :
  tx_ok tx → tx_Verify tx = Ret tt → nonce w (tx_From tx) = tx_Nonce tx →
  executed_before hist w tx0 → m ∈ messages tx → m0 ∈ messages tx0 →
  (∃ t, m = tx_ID tx +:+ sep +:+ t) → (∃ t, m0 = tx_ID tx0 +:+ sep +:+ t) → Hash m = Hash m0 →
  collision_in (all_messages (tx :: hist)).
Proof.
  intros Hok HV Hn (Hin & Hok0 & HV0 & Hlt) Hm Hm0 [t Et] [t0 Et0] [He|Hc]%Hash_inj_or.
  2:{ eapply (collision_of_messages tx tx0); [left|by right| |done].
      by intros x [->|[->|?%elem_of_nil]%elem_of_cons]%elem_of_cons; apply elem_of_app; [left|right|]. }
  rewrite Et, Et0 in He. apply sapp_inj_len in He as [Hid _];
    [|by rewrite !tx_ID_length].
  destruct (same_id_same_nonce _ _ Hok Hok0 HV HV0 Hid) as [[Hf Hno]|Hc].
  - rewrite <- Hf, Hn in Hlt. lia.
  - eapply (collision_of_messages tx tx0); [left|by right| |done]. unfold messages. set_solver.
Qed.

Lemma asset_seeds_messages tx m : m ∈ asset_seeds tx → m ∈ messages tx.
Proof. unfold messages. set_solver. Qed.
Lemma listing_seeds_messages tx m : m ∈ listing_seeds tx → m ∈ messages tx.
Proof. unfold messages. set_solver. Qed.

(** The IDs a transaction creates are new. *)
Lemma fresh_ids hist w tx :
  provenance hist w → tx_ok tx → tx_Verify tx = Ret tt → nonce w (tx_From tx) = tx_Nonce tx →
  ((∀ m, m ∈ asset_seeds tx → assets w !! Hash m = None) ∧
   (∀ m, m ∈ listing_seeds tx → listings w !! Hash m = None)) ∨
  collision_in (all_messages (tx :: hist)).
Proof.
  intros [Hpa Hpl] Hok HV Hn.
  destruct (decide (Forall (λ m, assets w !! Hash m = None) (asset_seeds tx))) as [Ha|Ha].
  - destruct (decide (Forall (λ m, listings w !! Hash m = None) (listing_seeds tx))) as [Hl|Hl].
    { left. by rewrite !Forall_forall in *. }
    right. apply not_Forall_Exists, Exists_exists in Hl as (m & Hm & Hl); [|apply _].
    apply not_eq_None_Some in Hl as [l Hl]. destruct (Hpl _ _ Hl) as (tx0 & m0 & He & Hm0 & Hid).
    eapply (fresh_seed hist w tx tx0 m m0); eauto using listing_seeds_id, listing_seeds_messages.
  - right. apply not_Forall_Exists, Exists_exists in Ha as (m & Hm & Ha); [|apply _].
    apply not_eq_None_Some in Ha as [a Ha]. destruct (Hpa _ _ Ha) as (tx0 & m0 & He & Hm0 & Hid).
    eapply (fresh_seed hist w tx tx0 m m0); eauto using asset_seeds_id, asset_seeds_messages.
Qed.

Lemma fee_effect_maps b tx w :
  assets (fee_effect b tx w) = assets w ∧ templates (fee_effect b tx w) = templates w ∧
  sessions (fee_effect b tx w) = sessions w ∧ listings (fee_effect b tx w) = listings w.
Proof. unfold fee_effect. by case_bool_decide. Qed.

Lemma executed_before_mono hist w tx0 tx w' :
  wf_world w → tx_step w tx w' → executed_before hist w tx0 → executed_before (tx :: hist) w' tx0.
Proof.
  intros Hw Hs (? & ? & ? & ?). destruct (tx_step_nonce _ _ _ (tx_From tx0) Hw Hs) as (Hn & _).
  split_and!; try done; [by right|]. rewrite Hn. case_decide; lia.
Qed.

Lemma executed_self hist w tx w' :
  wf_world w → tx_step w tx w' → executed_before (tx :: hist) w' tx.
Proof.
  intros Hw Hs. destruct (tx_step_nonce _ _ _ (tx_From tx) Hw Hs) as (Hn & Hno & HV).
  destruct Hs as (b & _ & Hok & _). split_and!; try done; [by left|]. rewrite Hn, decide_True by done. lia.
Qed.

(** Stakes and rewards touch accounts only. *)
Lemma lock_all_accounts stakes players w : ∃ m, lock_all stakes players w = set_accounts m w.
Proof.
  revert w. induction players as [|a l IH]; intros w; [exists (accounts w); by destruct w|].
  destruct (IH (put_balance a (balance w a - stakes) w)) as [m Hm]. exists m.
  change (lock_all stakes l (put_balance a (balance w a - stakes) w) = set_accounts m w). by rewrite Hm.
Qed.

Lemma pay_all_accounts rs w : ∃ m, pay_all rs w = set_accounts m w.
Proof.
  revert w. induction rs as [|r l IH]; intros w; [exists (accounts w); by destruct w|].
  destruct (IH (put_balance r.1 (balance w r.1 + r.2) w)) as [m Hm]. exists m.
  change (pay_all l (put_balance r.1 (balance w r.1 + r.2) w) = set_accounts m w). by rewrite Hm.
Qed.

Lemma open_accounts (c : bool) stakes players w :
  ∃ m, (if c then lock_all stakes players w else w) = set_accounts m w.
Proof. destruct c; [apply lock_all_accounts|]. exists (accounts w). by destruct w. Qed.

(** Exposes that stakes and rewards change accounts only. *)
#[local] Ltac expose_accounts :=
  repeat match goal with
  | |- context [if ?c then lock_all ?s ?l ?w else _] =>
      let m := fresh "m" in let E := fresh in destruct (open_accounts c s l w) as [m E]; rewrite E in *; clear E
  | |- context [pay_all ?rs ?w] =>
      let m := fresh "m" in let E := fresh in destruct (pay_all_accounts rs w) as [m E]; rewrite E in *; clear E
  end.
#[local] Ltac effect_cases H :=
  destruct H; try match goal with w1 := _ |- _ => subst w1 end; expose_accounts;
  cbn [set_accounts set_assets set_templates set_sessions set_listings move put_balance put_account
       accounts assets templates sessions listings] in *.

Lemma mint_seed tx p :
  tx_Type tx = TxMintAsset →
  Unmarshal MintAssetPayload_dec MintAssetPayload_zero (tx_Payload tx) = Some p →
  tx_ID tx +:+ ":asset:" +:+ mp_TemplateID p ∈ asset_seeds tx.
Proof. intros Ht Hp. unfold asset_seeds. rewrite bool_decide_eq_true_2, Hp by done. set_solver. Qed.

Lemma list_seed tx p :
  tx_Type tx = TxListMarket →
  Unmarshal ListMarketPayload_dec ListMarketPayload_zero (tx_Payload tx) = Some p →
  tx_ID tx +:+ ":listing:" +:+ lm_AssetID p ∈ listing_seeds tx.
Proof. intros Ht Hp. unfold listing_seeds. rewrite bool_decide_eq_true_2, Hp by done. set_solver. Qed.

(** Where the assets and listings of the next world come from. *)
Lemma effect_new_ids b tx w w' :
  tx_effect b tx w w' →
  (∀ id a, assets w' !! id = Some a → is_Some (assets w !! id) ∨ ∃ m, m ∈ asset_seeds tx ∧ id = Hash m) ∧
  (∀ id l, listings w' !! id = Some l → is_Some (listings w !! id) ∨ ∃ m, m ∈ listing_seeds tx ∧ id = Hash m).
Proof.
  intros H. pose proof (mint_seed tx) as Hms. pose proof (list_seed tx) as Hls. effect_cases H; (split; intros k y Hy); try (by left);
    first [ apply lookup_insert_Some in Hy as [[<- _]|[_ Hy]]; eauto
          | apply lookup_delete_Some in Hy as [_ Hy]; eauto ].
Qed.

Lemma provenance_step hist w tx w' :
  wf_world w → provenance hist w → tx_step w tx w' → provenance (tx :: hist) w'.
Proof.
  intros Hw [Hpa Hpl] Hs. pose proof (executed_self hist _ _ _ Hw Hs) as Hself.
  pose proof (λ tx0, executed_before_mono hist w tx0 tx w' Hw Hs) as Hmono.
  destruct Hs as (b & Hb & [Hfee _] & Hr). apply run_tx_effect in Hr; [|done..].
  apply effect_new_ids in Hr as [Ha Hl].
  destruct (fee_effect_maps b tx w) as (Ea & _ & _ & El). rewrite Ea in Ha. rewrite El in Hl. split.
  - intros id a H. destruct (Ha _ _ H) as [[a0 H0]|(m & ? & ->)]; [|by eauto].
    destruct (Hpa _ _ H0) as (tx0 & m0 & ? & ? & ->). eauto 6.
  - intros id l H. destruct (Hl _ _ H) as [[l0 H0]|(m & ? & ->)]; [|by eauto].
    destruct (Hpl _ _ H0) as (tx0 & m0 & ? & ? & ->). eauto 6.
Qed.

(** ** The market *)

Record market_ok w : Prop := {
  (** an active listing offers an asset of its seller that points back to it *)
  mk_listing id l : listings w !! id = Some l → lst_Active l = true →
    ∃ a, assets w !! lst_AssetID l = Some a ∧ ast_ActiveListingID a = id ∧
      ast_Owner a = lst_Seller l ∧ ast_Tradeable a = true;
  (** an asset marked as listed is offered by that listing *)
  mk_asset id a : assets w !! id = Some a → ast_ActiveListingID a ≠ "" →
    ∃ l, listings w !! ast_ActiveListingID a = Some l ∧ lst_Active l = true ∧ lst_AssetID l = id
}.

Lemma market_ok_maps w w' :
  assets w' = assets w → listings w' = listings w → market_ok w → market_ok w'.
Proof. intros Ea El [H1 H2]. split; rewrite Ea, El; done. Qed.

(** Replacing an unlisted asset by an unlisted one, or removing it. *)
Lemma market_update_unlisted w id a a' :
  market_ok w → assets w !! id = a → (∀ x, a = Some x → ast_ActiveListingID x = "") →
  (∀ x, a' = Some x → ast_ActiveListingID x = "") →
  (∀ k l, listings w !! k = Some l → k ≠ "") →
  market_ok (set_assets (partial_alter (λ _, a') id (assets w)) w).
Proof.
  intros [H1 H2] Ea Hu Hu' Hk. split; simpl.
  - intros k l Hl Hact. destruct (H1 _ _ Hl Hact) as (x & Hx & Hid & ?). exists x. split; [|done].
    rewrite lookup_partial_alter_ne; [done|]. intros ->. rewrite Hx in Ea. subst a.
    rewrite (Hu x eq_refl) in Hid. by destruct (Hk _ _ Hl).
  - intros k x. destruct (decide (id = k)) as [->|Hne].
    + rewrite lookup_partial_alter_eq. intros Hx ?. by destruct (Hu' x Hx).
    + rewrite lookup_partial_alter_ne by done. apply H2.
Qed.

Lemma Hash_nonempty m : Hash m ≠ "".
Proof. intros E. pose proof (Hash_length m) as Hl. rewrite E in Hl. done. Qed.

Lemma listing_keys hist w : provenance hist w → ∀ k l, listings w !! k = Some l → k ≠ "".
Proof. intros [_ Hp] k l Hl. destruct (Hp _ _ Hl) as (? & ? & _ & _ & ->). apply Hash_nonempty. Qed.

Lemma market_list w id a lid l :
  market_ok w → assets w !! id = Some a → ast_ActiveListingID a = "" → listings w !! lid = None →
  lid ≠ "" → lst_AssetID l = id → lst_Active l = true → lst_Seller l = ast_Owner a →
  ast_Tradeable a = true → (∀ k l, listings w !! k = Some l → k ≠ "") →
  market_ok (set_assets (<[id := set_ActiveListingID a lid]> (assets w))
    (set_listings (<[lid := l]> (listings w)) w)).
Proof.
  intros [H1 H2] Ha Hun Hnew Hlid Hid Hact Hown Htr Hk. split; simpl.
  - intros k l' [[<- <-]|[Hne Hl]]%lookup_insert_Some Hact'.
    + rewrite Hid, lookup_insert_eq. eexists. by split.
    + destruct (H1 _ _ Hl Hact') as (x & Hx & Hxid & ?). exists x. split; [|done].
      rewrite lookup_insert_ne; [done|]. intros ->. rewrite Ha in Hx. injection Hx as <-.
      rewrite Hun in Hxid. by destruct (Hk _ _ Hl).
  - intros k x [[<- <-]|[Hne Hx]]%lookup_insert_Some Hxl; simpl in *.
    + rewrite lookup_insert_eq. eauto.
    + destruct (H2 _ _ Hx Hxl) as (l' & Hl' & ?). exists l'. split; [|done].
      rewrite lookup_insert_ne; [done|]. intros ->. congruence.
Qed.

Lemma market_buy w lid l a buyer :
  market_ok w → listings w !! lid = Some l → lst_Active l = true → assets w !! lst_AssetID l = Some a →
  (∀ k l, listings w !! k = Some l → k ≠ "") →
  market_ok (set_listings (<[lid := set_Active l false]> (listings w))
    (set_assets (<[lst_AssetID l := set_ActiveListingID (set_Owner a buyer) ""]> (assets w)) w)).
Proof.
  intros [H1 H2] Hl Hact Ha Hk. destruct (H1 _ _ Hl Hact) as (a' & Ha' & Hid & _).
  rewrite Ha in Ha'. injection Ha' as <-. split; simpl.
  - intros k l' [[<- <-]|[Hne Hl']]%lookup_insert_Some Hact'; [done|].
    destruct (H1 _ _ Hl' Hact') as (x & Hx & Hxid & ?). exists x. split; [|done].
    rewrite lookup_insert_ne; [done|]. intros E. rewrite <- E, Ha in Hx. injection Hx as <-. congruence.
  - intros k x [[<- <-]|[Hne Hx]]%lookup_insert_Some Hxl; simpl in *; [done|].
    destruct (H2 _ _ Hx Hxl) as (l' & Hl' & Hact' & Hk'). exists l'. split; [|done].
    rewrite lookup_insert_ne; [done|]. intros E. rewrite <- E, Hl in Hl'. injection Hl' as <-. congruence.
Qed.

Lemma market_effect b tx w w' :
  market_ok w → (∀ k l, listings w !! k = Some l → k ≠ "") →
  (∀ m, m ∈ asset_seeds tx → assets w !! Hash m = None) →
  (∀ m, m ∈ listing_seeds tx → listings w !! Hash m = None) →
  tx_effect b tx w w' → market_ok w'.
Proof.
  intros Hm Hk Hfa Hfl H. destruct H as
    [p|p t owner Hty Hp Ht ->|p a Hty Hp Ha Hown Hun|p a Hty Hp Ha Hown Htr Hun|p|
     p a Hty Hp Ha Hown Htr Hun Hpr|p l a Hty Hp Hl Hact Hse Hpr Ha|p Hty Hp Hne Hnone w1|p s].
  - by apply (market_ok_maps w).
  - pose proof (Hfa _ (mint_seed _ _ Hty Hp)) as Hf.
    apply (market_update_unlisted w _ None (Some _) Hm Hf); [done| |done]. by intros ? [= <-].
  - eapply (market_update_unlisted w _ _ None Hm Ha); [by intros ? [= <-]|done|done].
  - eapply (market_update_unlisted w _ _ (Some _) Hm Ha); [by intros ? [= <-]|by intros ? [= <-]|done].
  - by apply (market_ok_maps w).
  - pose proof (Hfl _ (list_seed _ _ Hty Hp)) as Hf. apply market_list; try done. apply Hash_nonempty.
  - apply (market_ok_maps (set_listings (<[bm_ListingID p := set_Active l false]> (listings w))
      (set_assets (<[lst_AssetID l := set_ActiveListingID (set_Owner a (tx_From tx)) ""]> (assets w)) w)));
      [done..|]. by apply market_buy.
  - subst w1.
    destruct (open_accounts (bool_decide (so_Stakes p > 0)) (so_Stakes p) (so_Players p) w) as [m ->].
    by apply (market_ok_maps w).
  - destruct (pay_all_accounts (range 2 outc) w) as [m ->]. by apply (market_ok_maps w).
Qed.

Lemma market_step hist w tx w' :
  wf_world w → market_ok w → provenance hist w → tx_step w tx w' →
  market_ok w' ∨ collision_in (all_messages (tx :: hist)).
Proof.
  intros Hw Hm Hp Hs. destruct (tx_step_nonce _ _ _ (tx_From tx) Hw Hs) as (_ & Hn & HV).
  destruct Hs as (b & Hb & Hok & Hr). pose proof Hok as [Hfee _].
  apply run_tx_effect in Hr; [|done..].
  destruct (fee_effect_maps b tx w) as (Ea & _ & _ & El).
  destruct (fresh_ids hist w tx Hp Hok HV Hn) as [[Hfa Hfl]|]; [left|by right].
  eapply market_effect; [..|exact Hr]; rewrite ?Ea, ?El; [by apply (market_ok_maps w)| |done..].
  by eapply listing_keys.
Qed.

Lemma all_messages_mono txs1 txs2 : txs1 ⊆ txs2 → all_messages txs1 ⊆ all_messages txs2.
Proof.
  intros Hs m. unfold all_messages. rewrite !list_elem_of_In, !in_concat.
  intros (l & (tx & -> & Ht)%list_elem_of_In%list_elem_of_fmap & Hm). exists (messages tx).
  split; [|done]. apply list_elem_of_In, list_elem_of_fmap_2. by apply Hs.
Qed.

Lemma market_executes hist w txs w' :
  wf_world w → market_ok w → provenance hist w → executes w txs w' →
  (wf_world w' ∧ market_ok w' ∧ provenance (rev txs ++ hist) w') ∨
  collision_in (all_messages (txs ++ hist)).
Proof.
  intros Hw Hm Hp H. revert hist Hp. induction H as [w|w tx w1 txs w2 Hs _ IH]; intros hist Hp; [by left|].
  destruct (market_step _ _ _ _ Hw Hm Hp Hs) as [Hm1|Hc].
  - destruct (IH (tx_step_wf _ _ _ Hw Hs) Hm1 (tx :: hist)) as [H|Hc]; [by eapply provenance_step| |].
    + left. simpl. by rewrite <- app_assoc.
    + right. eapply collision_in_mono; [|done]. apply all_messages_mono. set_solver.
  - right. eapply collision_in_mono; [|done]. apply all_messages_mono. set_solver.
Qed.

(** A world without assets and listings, as after genesis. *)
Definition market_free w : Prop := wf_world w ∧ assets w = ∅ ∧ listings w = ∅.

Lemma market_from_free w txs w' :
  market_free w → executes w txs w' →
  (wf_world w' ∧ market_ok w' ∧ provenance (rev txs) w') ∨ collision_in (all_messages txs).
Proof.
  intros (Hw & Ha & Hl) He.
  pose proof (market_executes [] w txs w' Hw) as H. rewrite !app_nil_r in H. apply H; [| |done].
  - split; intros id x; rewrite ?Ha, ?Hl, lookup_empty; done.
  - split; intros id x; rewrite ?Ha, ?Hl, lookup_empty; done.
Qed.
End Market.

(** ** Properties *)

Section Properties.
Context `{F : FloatFmt, FL : !FloatLaws, C : Crypto, CL : !CryptoLaws, O : MapOrder}.
Implicit Types (w : world) (b : Block) (tx : Transaction).

Lemma run_txs_supply b txs w w' o :
  block_ok b → Forall (λ p, ∀ tx, p = Some tx → is_u64 (tx_Fee tx)) txs → wf_world w →
  hdr_Proposer (blk_Header b) ≠ "" → run_txs b txs w = (w', o) → supply w' = supply w ∧ wf_world w'.
Proof.
  intros Hb Hfee Hw Hp. revert w Hw. induction Hfee as [|p txs Hf _ IH]; intros w Hw; simpl.
  - by intros [= <- _].
  - destruct p as [tx|]; simpl; [|by intros [= <- _]].
    destruct (run_tx b tx w) as [w1 [[]| |]] eqn:E.
    + pose proof (run_tx_wf _ _ _ _ _ Hb Hw E) as Hw1.
      apply run_tx_supply in E; [|done|by apply Hf|done]. rewrite bool_decide_eq_false_2 in E by done.
      intros H. apply IH in H as [H ?]; [|done]. split; [lia|done].
    + pose proof (run_tx_wf _ _ _ _ _ Hb Hw E) as Hw1. intros [= <- _].
      unfold run_tx in E. by destruct (tx_Verify tx); [destruct (applyTx _ _ _ _) as [? [[]| |]]|..]; simplify_eq.
    + pose proof (run_tx_wf _ _ _ _ _ Hb Hw E) as Hw1. intros [= <- _].
      unfold run_tx in E. by destruct (tx_Verify tx); [destruct (applyTx _ _ _ _) as [? [[]| |]]|..]; simplify_eq.
Qed.

(** C5: executing a block, over any healthy implementation of the state and
    whether or not all its transactions succeed, leaves the token supply (the
    balances plus the stakes held by open sessions) unchanged, when the block
    names a proposer. *)
Theorem block_conserves_supply {W} `{HS : State W, HR : Represents W, HL : !StateLaws W}
    (e : Executor W) b (s s' : W) o :
  executor_ok e → block_ok b → hdr_Proposer (blk_Header b) ≠ "" →
  Forall (λ p, ∀ tx, p = Some tx → is_u64 (tx_Fee tx)) (blk_Transactions b) →
  st_inv s → st_healthy s → ExecuteBlock e b s = (s', o) →
  supply (world_at s') = supply (world_at s).
Proof.
  intros He Hb Hp Hfee Hs Hh E.
  destruct (ExecuteBlock_ref _ _ _ _ _ He Hb Hs E) as (_ & _ & _ & [Hr|[Hu _]]); [|done].
  eapply (run_txs_supply b _ _ _ _ Hb Hfee); [by apply st_wf|done|done].
Qed.

(** Without a proposer the fee of a successful transaction is burned: the
    supply shrinks by it and by nothing else; with one it is conserved. *)
Theorem tx_supply_change b tx w w' :
  block_ok b → tx_ok tx → wf_world w → run_tx b tx w = (w', Ret tt) →
  supply w' = supply w - if bool_decide (hdr_Proposer (blk_Header b) = "") then tx_Fee tx else 0.
Proof. intros Hb [Hfee _]. by apply run_tx_supply. Qed.

(** C15: a successful transaction carries the current nonce of its sender and
    increments that nonce only; after it, and after any further transactions,
    the same transaction is rejected in every block. *)
Theorem replay_rejected w tx w1 txs w2 b :
  wf_world w → tx_step w tx w1 → executes w1 txs w2 → block_ok b →
  (∀ a, nonce w1 a = nonce w a + if decide (tx_From tx = a) then 1 else 0) ∧
  nonce w (tx_From tx) = tx_Nonce tx ∧ ∀ w', run_tx b tx w2 ≠ (w', Ret tt).
Proof.
  intros Hw Hs He Hb. pose proof (tx_step_nonce _ _ _ (tx_From tx) Hw Hs) as (Hn1 & Hn & _).
  split_and!; [|done|].
  { intros a. by destruct (tx_step_nonce _ _ _ a Hw Hs). }
  intros w' Hr. rewrite decide_True in Hn1 by done. pose proof (tx_step_wf _ _ _ Hw Hs) as Hw1.
  destruct Hs as (b0 & ? & [Hfee _] & Hr0).
  destruct (executes_nonce _ _ _ (tx_From tx) Hw1 He) as [Hle Hw2].
  destruct (run_tx_inv _ _ _ _ Hb Hfee Hw2 Hr) as (_ & _ & Hn2 & _). lia.
Qed.

(** C16: from genesis on, after any sequence of successful transactions, every
    active listing offers a tradeable asset that its seller owns and that points
    back to the listing, and every asset marked as listed is offered by exactly
    that listing; unless two messages hashed for these transactions are a
    SHA-256 collision. *)
Theorem market_invariant w txs w' :
  market_free w → executes w txs w' → market_ok w' ∨ collision_in (all_messages txs).
Proof. intros Hw He. destruct (market_from_free _ _ _ Hw He) as [(_ & ? & _)|]; [by left|by right]. Qed.

Lemma balance_fee_other b tx w a :
  0 ≤ tx_Fee tx → a ≠ tx_From tx → balance w a ≤ balance (fee_effect b tx w) a.
Proof.
  intros Hf Ha. unfold fee_effect. case_bool_decide; unfold put_balance;
    rewrite !balance_put; repeat case_decide; subst; try done; lia.
Qed.






(** What rewards add to a balance. *)
Definition paid (a : string) (rs : list (string * Z)) : Z :=
  foldr (λ r acc, (if decide (r.1 = a) then r.2 else 0) + acc) 0 rs.


#[local] Instance paid_perm a : Proper ((≡ₚ) ==> (=)) (paid a).
Proof. induction 1; simpl; lia. Qed.



(** What a transaction does to an asset, without the market invariant. *)
Lemma effect_on_asset b tx w w' id a :
  tx_effect b tx w w' → assets w !! id = Some a →
  (∃ a', assets w' !! id = Some a' ∧ ast_Owner a' = ast_Owner a) ∨
  (∃ m, m ∈ asset_seeds tx ∧ id = Hash m) ∨
  (assets w' !! id = None ∧ tx_Type tx = TxBurnAsset ∧ tx_From tx = ast_Owner a ∧
     ast_ActiveListingID a = "") ∨
  (∃ a', assets w' !! id = Some a' ∧ tx_Type tx = TxTransferAsset ∧ tx_From tx = ast_Owner a ∧
     ast_Tradeable a = true ∧ ast_ActiveListingID a = "") ∨
  (∃ lid l a', assets w' !! id = Some a' ∧ tx_Type tx = TxBuyMarket ∧ ast_Owner a' = tx_From tx ∧
     listings w !! lid = Some l ∧ lst_Active l = true ∧ lst_Seller l ≠ tx_From tx ∧ lst_AssetID l = id ∧
     balance w' (lst_Seller l) = balance w (lst_Seller l) + lst_Price l).
Proof.
  intros He Ha.
  assert (∀ k x w1, assets w !! k = Some x → assets w1 = assets w →
    (k = id ∧ x = a) ∨ (∀ y, <[k := y]> (assets w1) !! id = Some a) ∧ delete k (assets w1) !! id = Some a) as Hk.
  { intros k x w1 Hx ->. destruct (decide (k = id)) as [->|Hne]; [left; split; congruence|right].
    split; [intros y; by rewrite lookup_insert_ne|by rewrite lookup_delete_ne]. }
  destruct He as
    [p|p t owner Hty Hpl Ht ->|p x Hty Hpl Hx Hown Hun|p x Hty Hpl Hx Hown Htr Hun|p|
     p x Hty Hpl Hx Hown Htr Hun Hpr|p l x Hty Hpl Hl Hact Hse Hpr Hx|p Hty Hpl Hne Hnone w1|p s];
    try (destruct (Hk _ _ w Hx eq_refl) as [[<- ->]|[Hi Hd]]; [|left; exists a; simpl; by rewrite ?Hi, ?Hd]).
  - left. eauto.
  - destruct (decide (id0 = id)) as [<-|Hne]; [right; left; eexists; split; [by apply mint_seed|done]|left].
    exists a. simpl. by rewrite lookup_insert_ne.
  - do 2 right; left. simpl. by rewrite lookup_delete_eq.
  - do 3 right; left. simpl. rewrite lookup_insert_eq. eexists. by split.
  - left. eauto.
  - left. simpl. rewrite lookup_insert_eq. eexists. by split.
  - do 4 right. simpl. rewrite lookup_insert_eq. eexists _, l, _. split_and!; try done.
    transitivity (balance w1 (lst_Seller l)); [done|]. subst w1.
    rewrite balance_move, decide_False, decide_True by done. lia.
  - left. subst w1.
    destruct (open_accounts (bool_decide (so_Stakes p > 0)) (so_Stakes p) (so_Players p) w) as [m ->]. eauto.
  - left. destruct (pay_all_accounts (range 2 outc) w) as [m ->]. eauto.
Qed.

(** C17: a transaction removes an asset only by a burn signed by its owner while
    it is not listed, and changes its owner only by a transfer of a tradeable,
    unlisted asset signed by the owner, or by the purchase of its active
    listing, which pays at least the listed price to the previous owner; unless
    two messages hashed since genesis are a SHA-256 collision. *)
Theorem asset_control w0 txs w tx w' id a :
  market_free w0 → executes w0 txs w → tx_step w tx w' → assets w !! id = Some a →
  (assets w' !! id = None ∧ tx_Type tx = TxBurnAsset ∧ tx_From tx = ast_Owner a ∧
     ast_ActiveListingID a = "") ∨
  (∃ a', assets w' !! id = Some a' ∧
     (ast_Owner a' = ast_Owner a ∨
      (tx_Type tx = TxTransferAsset ∧ tx_From tx = ast_Owner a ∧ ast_Tradeable a = true ∧
         ast_ActiveListingID a = "") ∨
      (tx_Type tx = TxBuyMarket ∧ ast_Owner a' = tx_From tx ∧ ast_Tradeable a = true ∧
         ∃ l, listings w !! ast_ActiveListingID a = Some l ∧ lst_Seller l = ast_Owner a ∧
           balance w (ast_Owner a) + lst_Price l ≤ balance w' (ast_Owner a)))) ∨
  collision_in (all_messages (txs ++ [tx])).
Proof.
  intros Hf0 He Hs Ha.
  destruct (market_from_free _ _ _ Hf0 He) as [(Hw & Hm & Hp)|Hc].
  2:{ do 2 right. eapply collision_in_mono; [|done]. apply all_messages_mono. set_solver. }
  destruct (tx_step_nonce _ _ _ (tx_From tx) Hw Hs) as (_ & Hn & HV).
  destruct Hs as (b & Hb & Hok & Hr). pose proof Hok as [Hfee _].
  apply run_tx_effect in Hr; [|done..].
  destruct (fee_effect_maps b tx w) as (Ea & _ & _ & El).
  apply (effect_on_asset _ _ _ _ id a) in Hr; [|by rewrite Ea]. rewrite El in Hr.
  destruct Hr as [(a' & ? & ?)|[(m & Hm0 & ->)|[?|[(a' & ? & ?)|(lid & l & a' & Ha' & Hty & Ho & Hl & Hact & Hse & Hid & Hbal)]]]].
  - right; left. eauto.
  - destruct (fresh_ids _ w tx Hp Hok HV Hn) as [[Hf _]|Hc]; [by rewrite Hf in Ha|do 2 right].
    eapply collision_in_mono; [|done]. apply all_messages_mono. intros x.
    rewrite !list_elem_of_In, in_app_iff. simpl. rewrite <- in_rev. naive_solver.
  - by left.
  - right; left. eauto.
  - destruct (mk_listing _ Hm _ _ Hl Hact) as (a0 & Ha0 & Hlid & Hown & Htr).
    rewrite Hid, Ha in Ha0. injection Ha0 as <-. right; left. exists a'. split; [done|]. do 2 right.
    split_and!; try done. exists l. rewrite Hlid, Hown. split_and!; try done.
    pose proof (balance_fee_other b tx w (lst_Seller l) (proj1 Hfee) Hse). lia.
Qed.


(** A registered template is never changed or removed. *)
Theorem templates_immutable w txs w' id t :
  wf_world w → executes w txs w' → templates w !! id = Some t → templates w' !! id = Some t.
Proof.
  intros Hw He. induction He as [|w tx w1 txs w2 Hs _ IH]; [done|]. intros Ht.
  apply IH; [by eapply tx_step_wf|]. destruct Hs as (b & Hb & [Hfee _] & Hr).
  apply run_tx_effect in Hr; [|done..]. destruct (fee_effect_maps b tx w) as (_ & Et & _ & _).
  rewrite <- Et in Ht. destruct Hr; try done; simpl.
  - rewrite lookup_insert_ne by congruence. done.
  - destruct (open_accounts (bool_decide (so_Stakes p > 0)) (so_Stakes p) (so_Players p)
      (fee_effect b tx w)) as [m E]. fold w1. subst w1. by rewrite E.
  - by destruct (pay_all_accounts (range 2 outc) (fee_effect b tx w)) as [m ->].
Qed.
End Properties.
