(* ===== verification/Determinism.v ===== *)
(** * Every node computes the same world

    Go ranges over maps in an order that differs from run to run and from node
    to node; the session handler loops over the outcome map of a transaction
    three times.  The order decides neither whether a transaction succeeds nor
    what it does. *)
From Stdlib Require Import Ascii Lia ZArith.
From stdpp Require Import base gmap strings list.
From S2P Require Import Prelude Crypto Json JsonFacts JsonParse JsonTyped Types Transaction Block.
From S2P Require Import State Events Vm Economy AssetModule Market SessionModule Executor Ledger.
From S2P Require Import Invariants.

#[local] Arguments GetAccount : simpl never.
#[local] Arguments SetAccount : simpl never.
#[local] Arguments GetSession : simpl never.
#[local] Arguments SetSession : simpl never.

(** ** Rewards in any order *)

Section Rewards.
Context `{F : FloatFmt, FL : !FloatLaws, C : Crypto}.
Implicit Types (w : world) (s : AbsState) (rs : list (string * Z)).

Lemma check_players_run (players : list string) rs e s :
  Forall (λ r, r.1 ∈ players) rs →
  for_each (λ r : string * Z, reject_if (bool_decide (r.1 ∉ players)) e) rs s = (s, Ret tt).
Proof.
  induction 1 as [|r rs Hr _ IH]; [done|]. cbn [for_each]. erewrite bind_Ret; [exact IH|].
  by rewrite bool_decide_eq_false_2 by tauto.
Qed.

Lemma sum_rewards_run t rs acc :
  is_u64 t → Forall (λ r, is_u64 r.2) rs → 0 ≤ acc → acc + total rs ≤ t →
  sum_rewards t acc rs = Ret (acc + total rs).
Proof.
  intros Ht Hrs. revert acc. induction Hrs as [|[k z] rs Hz Hrs IH]; intros acc Hacc Hle; simpl in *.
  - f_equal. lia.
  - assert (0 ≤ total rs) as Hnn by (clear -Hrs; induction Hrs; simpl; unfold is_u64 in *; lia).
    unfold is_u64 in *. rewrite sub64_exact, add64_exact by (unfold is_u64; lia).
    rewrite bool_decide_eq_false_2 by lia. rewrite IH by lia. f_equal. lia.
Qed.

(** With distinct recipients, every reward is added to the initial balance. *)
Lemma pay_all_map rs w :
  NoDup rs.*1 →
  pay_all rs w = set_accounts (list_to_map ((λ r, (r.1, mkAccount r.1 (balance w r.1 + r.2) (nonce w r.1))) <$> rs)
                                 ∪ accounts w) w.
Proof.
  revert w. induction rs as [|[a z] rs IH]; intros w Hnd; simpl.
  - unfold pay_all. simpl. rewrite (left_id_L ∅ (∪)). by destruct w.
  - inversion Hnd as [|?? Ha Hnd']; subst. unfold pay_all in *. simpl. rewrite IH by done.
    unfold set_accounts. simpl. f_equal.
    rewrite <- insert_union_l, insert_union_r.
    2:{ apply not_elem_of_list_to_map_1. by rewrite <- list_fmap_compose. }
    f_equal. f_equal. apply list_fmap_ext. intros i [b y] Hi. simpl.
    assert (a ≠ b) as Hne.
    { intros ->. apply Ha. apply list_elem_of_fmap. exists (b, y). split; [done|].
      by eapply list_elem_of_lookup_2. }
    unfold put_balance. by rewrite balance_put, nonce_put, !decide_False.
Qed.

Lemma pay_all_perm rs1 rs2 w : NoDup rs1.*1 → rs1 ≡ₚ rs2 → pay_all rs1 w = pay_all rs2 w.
Proof.
  intros Hnd HP. assert (NoDup rs2.*1) as Hnd2 by (by rewrite <- HP).
  rewrite !pay_all_map by done. do 2 f_equal.
  apply list_to_map_proper; [by rewrite <- list_fmap_compose|]. by rewrite HP.
Qed.

Lemma pay_reward_run a z w l :
  wf_world w → is_u64 z → balance w a + z ≤ max_uint64 →
  pay_reward (a, z) (mkAbs w l) = (mkAbs (put_balance a (balance w a + z) w) l, Ret tt).
Proof.
  intros Hw Hz Hb. unfold pay_reward. erewrite bind_Ret by (apply wrap_Ret_inv; reflexivity).
  cbn [abs_world fst snd].
  rewrite bool_decide_eq_false_2 by (fold (balance w a); lia). erewrite bind_Ret by reflexivity.
  rewrite <- credit_step; [done|done|done|lia].
Qed.

Lemma pay_reward_fits a z w l s' :
  pay_reward (a, z) (mkAbs w l) = (s', Ret tt) → balance w a + z ≤ max_uint64.
Proof. unfold pay_reward. intros H. abs_inv. simpl in *. unfold balance. lia. Qed.

Lemma fits_after_pay a z w rs :
  a ∉ rs.*1 →
  Forall (λ r, balance (put_balance a (balance w a + z) w) r.1 + r.2 ≤ max_uint64) rs ↔
  Forall (λ r, balance w r.1 + r.2 ≤ max_uint64) rs.
Proof.
  intros Ha. rewrite !Forall_forall. split; intros H r Hr; specialize (H r Hr); revert H;
    unfold put_balance; rewrite balance_put, decide_False; try done;
    intros ->; apply Ha, list_elem_of_fmap; eauto.
Qed.

Lemma pay_rewards_run rs s :
  wf_abs s → Forall (λ r, valid_utf8 r.1 = true ∧ is_u64 r.2) rs → NoDup rs.*1 →
  Forall (λ r, balance (abs_world s) r.1 + r.2 ≤ max_uint64) rs →
  for_each pay_reward rs s = (mkAbs (pay_all rs (abs_world s)) (abs_snaps s), Ret tt).
Proof.
  intros [Hw Hsn] Hrs. destruct s as [w l]. simpl in *. revert w Hw.
  induction Hrs as [|[a z] rs [Ha Hz] _ IH]; intros w Hw Hnd Hb; [done|].
  inversion Hnd as [|?? Hnin Hnd']; inversion Hb as [|?? Hba Hb']; subst. simpl in *.
  pose proof (balance_range w a Hw) as Hr.
  erewrite bind_Ret by (by apply pay_reward_run). rewrite IH; [done| |done|].
  - apply wf_put_balance; [done|done|]. unfold is_u64 in *. lia.
  - by apply fits_after_pay.
Qed.

Lemma pay_rewards_fit rs s s' :
  wf_abs s → Forall (λ r, valid_utf8 r.1 = true ∧ is_u64 r.2) rs → NoDup rs.*1 →
  for_each pay_reward rs s = (s', Ret tt) →
  Forall (λ r, balance (abs_world s) r.1 + r.2 ≤ max_uint64) rs.
Proof.
  intros [Hw Hsn] Hrs. destruct s as [w l]. simpl in *. revert w Hw.
  induction Hrs as [|[a z] rs [Ha Hz] _ IH]; intros w Hw Hnd H; [constructor|].
  inversion Hnd as [|?? Hnin Hnd']; subst. apply for_each_cons_inv in H as (s1 & H1 & H2).
  pose proof (pay_reward_fits _ _ _ _ _ H1) as Hfit.
  simpl in Ha, Hz. rewrite pay_reward_run in H1 by done. injection H1 as <-.
  pose proof (balance_range w a Hw) as Hr.
  constructor; [done|]. apply (fits_after_pay a z); [done|]. apply IH; [|done|done].
  apply wf_put_balance; [done|done|]. unfold is_u64 in *. lia.
Qed.
End Rewards.

(** ** The handler in any order *)

Section Orders.
Context `{F : FloatFmt, FL : !FloatLaws, C : Crypto}.

Lemma range_NoDup `{O : MapOrder} {A} n (m : gmap string A) : NoDup (range n m).*1.
Proof. rewrite range_perm. apply NoDup_fst_map_to_list. Qed.

Lemma decode_payload_run {A} msg (dec : A → jv → option A) zero payload (s : AbsState) x :
  Unmarshal dec zero payload = Some x → decode_payload msg dec zero payload s = (s, Ret x).
Proof. intros H. unfold decode_payload. apply wrap_Ret_inv, liftO_Ret_inv. by rewrite H. Qed.

Lemma GetSession_run id (s : AbsState) x :
  sessions (abs_world s) !! id = Some x → GetSession id s = (s, Ret x).
Proof. intros H. unfold GetSession. simpl. unfold query. by rewrite H. Qed.

(** When the outcome of a session is accepted: conditions without an order. *)
Definition result_accepted (tx : Transaction) (p : SessionResultPayload) (sess : Session) (w : world) : Prop :=
  sessions w !! sr_SessionID p = Some sess ∧ sess_Status sess = "open" ∧ tx_From tx = sess_Creator sess ∧
  let outc := default ∅ (sr_Outcome p) in
  let stakes := mul64 (sess_Stakes sess) (Z.of_nat (length (sess_Players sess))) in
  map_Forall (λ k z, k ∈ sess_Players sess ∧ valid_utf8 k = true ∧ is_u64 z ∧
                     balance w k + z ≤ max_uint64) outc ∧
  ¬ (sess_Stakes sess > 0 ∧
     Z.of_nat (length (sess_Players sess)) > max_uint64 / sess_Stakes sess) ∧
  msum (λ z, z) outc = stakes.

Lemma range_Forall `{O : MapOrder} {A} (P : string → A → Prop) n (m : gmap string A) :
  map_Forall P m ↔ Forall (λ r, P r.1 r.2) (range n m).
Proof.
  rewrite range_perm. rewrite map_Forall_to_list. apply Forall_proper; [|done]. by intros [k x].
Qed.

Lemma range_total `{O : MapOrder} n (m : gmap string Z) : total (range n m) = msum (λ z, z) m.
Proof. unfold msum, total. apply (foldr_sum_perm (λ z, z)). by rewrite range_perm. Qed.

Lemma mul64_range a b : is_u64 (mul64 a b).
Proof.
  unfold mul64, is_u64, max_uint64. pose proof (Z.mod_pos_bound (a * b) two64 eq_refl).
  unfold two64 in *. lia.
Qed.

Lemma session_result_accepted `{O : MapOrder} b tx payload s s' :
  wf_abs s → handleSessionResult (ctx_of b tx) payload s = (s', Ret tt) →
  ∃ p sess, Unmarshal SessionResultPayload_dec SessionResultPayload_zero payload = Some p ∧
    result_accepted tx p sess (abs_world s).
Proof.
  intros Hwf H. unfold handleSessionResult in H. abs_inv. cbn [ctx_of ctx_Tx ctx_Block] in *.
  match goal with H : Unmarshal _ _ _ = Some ?x |- _ =>
    rename x into p; pose proof H as (v & _ & (_ & Hout)%SessionResultPayload_dec_valid)%Unmarshal_Some end.
  match goal with H : sessions _ !! _ = Some ?x |- _ => rename x into sess end.
  repeat match goal with u : unit |- _ => destruct u end.
  match goal with H : for_each (λ r, reject_if _ _) _ _ = _ |- _ =>
    apply check_players_inv in H as [-> Hpl] end.
  match goal with H : for_each pay_reward _ _ = _ |- _ => rename H into Hpay end.
  match goal with H : sum_rewards _ _ _ = Ret _ |- _ => rename H into Hsum end.
  assert (∀ n, Forall (λ r, valid_utf8 r.1 = true ∧ is_u64 r.2) (range n (default ∅ (sr_Outcome p)))) as Hrs.
  { intros n. apply (range_Forall (λ k z, valid_utf8 k = true ∧ is_u64 z)). intros k z E.
    destruct (sr_Outcome p); [by apply (Hout _ _ E)|done]. }
  apply pay_rewards_fit in Hpay; [|done|done|apply range_NoDup].
  apply sum_rewards_Ret in Hsum as [Hsum _]; [|apply mul64_range| |].
  - exists p, sess. unfold result_accepted. split_and!; try done.
    + specialize (Hrs 2%nat). apply (range_Forall (λ k z, k ∈ sess_Players sess)) in Hpl.
      apply (range_Forall (λ k z, valid_utf8 k = true ∧ is_u64 z)) in Hrs.
      apply (range_Forall (λ k z, balance (abs_world s) k + z ≤ max_uint64)) in Hpay.
      intros k z E. split_and!; [by apply (Hpl k z)|by apply (Hrs k z)..|by apply (Hpay k z)].
    + rewrite <- (range_total 1). lia.
  - pose proof (mul64_range (sess_Stakes sess) (Z.of_nat (length (sess_Players sess)))) as [? _]. lia.
  - eapply Forall_impl; [apply Hrs|]. by intros r [_ ?].
Qed.

Lemma session_result_run `{O : MapOrder} b tx payload p sess s :
  wf_abs s → Unmarshal SessionResultPayload_dec SessionResultPayload_zero payload = Some p →
  result_accepted tx p sess (abs_world s) →
  ∃ s', handleSessionResult (ctx_of b tx) payload s = (s', Ret tt).
Proof.
  intros Hwf Hp (Hs & Ho & Hc & Hout & Hov & Htot). cbn zeta in *. unfold handleSessionResult.
  erewrite bind_Ret by (by apply decode_payload_run).
  erewrite bind_Ret by (apply wrap_Ret_inv; by apply GetSession_run).
  erewrite bind_Ret by (apply reject_run, bool_decide_eq_false_2; tauto).
  erewrite bind_Ret by (apply reject_run, bool_decide_eq_false_2; simpl; tauto).
  erewrite bind_Ret.
  2:{ apply check_players_run. apply (range_Forall (λ k _, k ∈ sess_Players sess)).
      intros k z E. by apply (Hout k z). }
  erewrite bind_Ret by (by apply reject_run, bool_decide_eq_false_2).
  erewrite bind_Ret.
  2:{ apply liftO_Ret_inv. split; [|done]. apply sum_rewards_run; [apply mul64_range| |lia|].
      - apply (range_Forall (λ _ z, is_u64 z)). intros k z E. by apply (Hout k z).
      - rewrite range_total. lia. }
  rewrite range_total, Htot.
  erewrite bind_Ret by (apply reject_run, bool_decide_eq_false_2; lia).
  erewrite bind_Ret.
  2:{ apply pay_rewards_run; [done| |apply range_NoDup|].
      - apply (range_Forall (λ k z, valid_utf8 k = true ∧ is_u64 z)). intros k z E.
        split; by apply (Hout k z).
      - apply (range_Forall (λ k z, balance (abs_world s) k + z ≤ max_uint64)). intros k z E. by apply (Hout k z). }
  by eexists.
Qed.

Lemma session_result_order (O1 O2 : MapOrder) b tx payload s s' :
  wf_abs s → handleSessionResult (O := O1) (ctx_of b tx) payload s = (s', Ret tt) →
  handleSessionResult (O := O2) (ctx_of b tx) payload s = (s', Ret tt).
Proof.
  intros Hwf H1. destruct (session_result_accepted (O := O1) _ _ _ _ _ Hwf H1) as (p & sess & Hp & Hacc).
  destruct (session_result_run (O := O2) b _ _ _ _ _ Hwf Hp Hacc) as [s2 H2]. rewrite H2. f_equal.
  apply session_result_effect in H1 as (p1 & ss1 & Hp1 & Hs1 & _ & _ & _ & _ & ->); [|done].
  apply session_result_effect in H2 as (p2 & ss2 & Hp2 & Hs2 & _ & _ & _ & _ & ->); [|done].
  rewrite Hp1 in Hp2. injection Hp2 as <-. rewrite Hs1 in Hs2. injection Hs2 as <-.
  rewrite (pay_all_perm (range (MapOrder := O2) 2 _) (range (MapOrder := O1) 2 (default ∅ (sr_Outcome p1))));
    [done|apply range_NoDup|by rewrite !range_perm].
Qed.

(** Handlers of the other types do not range over maps. *)
Lemma handler_order (O1 O2 : MapOrder) typ h b tx payload s s' :
  (typ, h) ∈ handler_list (W := AbsState) (O := O1) → wf_abs s →
  h (ctx_of b tx) payload s = (s', Ret tt) →
  reg_Execute (globalRegistry (O := O2)) typ (ctx_of b tx) payload s = (s', Ret tt).
Proof.
  intros Hin Hwf Hh. unfold reg_Execute. rewrite globalRegistry_eq.
  apply handler_cases in Hin as
    [[-> ->]|[[-> ->]|[[-> ->]|[[-> ->]|[[-> ->]|[[-> ->]|[[-> ->]|[[-> ->]|[-> ->]]]]]]]]].
  9: exact (session_result_order O1 O2 b tx payload s s' Hwf Hh).
  all: exact Hh.
Qed.

Lemma run_tx_order (O1 O2 : MapOrder) b tx w w' :
  block_ok b → is_u64 (tx_Fee tx) → wf_world w →
  run_tx (O := O1) b tx w = (w', Ret tt) → run_tx (O := O2) b tx w = (w', Ret tt).
Proof.
  intros Hb Hfee Hw Hr.
  destruct (run_tx_inv (O := O1) _ _ _ _ Hb Hfee Hw Hr) as (HV & Hf & _ & _ & Hw1 & h & s' & Hin & -> & Hh).
  revert Hr. unfold run_tx. rewrite HV. unfold applyTx.
  destruct (charge b tx (mkAbs w [])) as [s1 [[]| |]] eqn:Hc.
  2-3: unfold mbind, M_bind; by rewrite Hc.
  intros _. erewrite bind_Ret by exact Hc.
  apply charge_effect in Hc as (_ & _ & _ & ->); [|by apply wf_mkAbs|done|].
  - pose proof (handler_order O1 O2 _ _ b tx _ _ _ Hin (wf_mkAbs _ Hw1) Hh) as H2.
    unfold ctx_of in H2. cbn [abs_executor ex_registry ex_emitter abs_world abs_snaps]. by rewrite H2.
  - by apply tx_Verify_Ret_inv in HV as [? _].
Qed.

(** C14: for any two choices of map iteration orders, a transaction succeeds
    under one exactly when it succeeds under the other, and leaves the same
    world; so do all the transactions of a block in sequence. *)
Theorem block_result_deterministic (O1 O2 : MapOrder) b txs w :
  block_ok b → Forall (λ p, ∀ tx, p = Some tx → is_u64 (tx_Fee tx)) txs → wf_world w →
  (run_txs (O := O1) b txs w).1 = (run_txs (O := O2) b txs w).1 ∧
  ((run_txs (O := O1) b txs w).2 = Ret tt ↔ (run_txs (O := O2) b txs w).2 = Ret tt).
Proof.
  intros Hb Hfee. revert w. induction Hfee as [|[tx|] txs Hf _ IH]; intros w Hw; [done| |done]. simpl.
  specialize (Hf tx eq_refl).
  assert (∀ (Oa : MapOrder) w' o, run_tx (O := Oa) b tx w = (w', o) → o ≠ Ret tt → w' = w) as Hstay.
  { intros Oa w' o. unfold run_tx. destruct (tx_Verify tx); try by intros [= <- _].
    destruct (applyTx _ _ _ _) as [? [[]| |]]; intros [= <- <-]; done. }
  destruct (run_tx (O := O1) b tx w) as [w1 o1] eqn:E1, (run_tx (O := O2) b tx w) as [w2 o2] eqn:E2.
  destruct (decide (o1 = Ret tt)) as [->|Hn1].
  - pose proof (run_tx_order O1 O2 _ _ _ _ Hb Hf Hw E1) as E. rewrite E2 in E. injection E as -> ->.
    apply IH. by eapply (run_tx_wf (O := O1)).
  - destruct (decide (o2 = Ret tt)) as [->|Hn2].
    { apply (run_tx_order O2 O1) in E2; [|done..]. congruence. }
    pose proof (Hstay O1 _ _ E1 Hn1) as ->. pose proof (Hstay O2 _ _ E2 Hn2) as ->.
    by destruct o1 as [[]| |], o2 as [[]| |].
Qed.
End Orders.
