(* ===== verification/Mempool.v ===== *)
(** * The mempool

    Models [src/core/mempool.go]: the map of pending transactions and the list
    of their IDs in insertion order. *)
From Stdlib Require Import Ascii Lia ZArith.
From stdpp Require Import base gmap strings list.
From S2P Require Import Prelude Crypto Json Types Transaction Block.

Definition maxMempoolSize : Z := 10000.
Definition maxTxAge : Z := 3600000000000.
Definition maxTxFuture : Z := 300000000000.

Record Mempool : Type := mkMempool {
  mp_txs : gmap string Transaction;
  mp_ord : list string
}.

Definition NewMempool : Mempool := mkMempool ∅ [].

Section Mempool.
Context `{C : Crypto}.
Implicit Type m : Mempool.

(** The part of [Add] under the lock. *)
Definition insert_tx (tx : Transaction) : M Mempool unit := λ m,
  if bool_decide (maxMempoolSize ≤ Z.of_nat (size (mp_txs m))) then (m, Fail (EMsg "mempool full"))
  else if bool_decide (is_Some (mp_txs m !! tx_ID tx)) then (m, Fail (EMsg "tx already in pool"))
  else (mkMempool (<[tx_ID tx := tx]> (mp_txs m)) (mp_ord m ++ [tx_ID tx]), Ret tt).

(** [Add] at time [now]; the differences of the two [int64] instants wrap. *)
Definition Add (now : Z) (tx : Transaction) : M Mempool unit :=
  liftO (tx_Verify tx) errorf "invalid tx signature";;
  reject_if (bool_decide (now > tx_Timestamp tx ∧ subi64 now (tx_Timestamp tx) > maxTxAge))
    (EMsg "transaction expired");;
  reject_if (bool_decide (tx_Timestamp tx > now ∧ subi64 (tx_Timestamp tx) now > maxTxFuture))
    (EMsg "transaction timestamp too far in the future");;
  insert_tx tx.

Definition mp_Get m (id : string) : option Transaction := mp_txs m !! id.

(** The loop of [Pending]: stops once [n] transactions are collected. *)
Fixpoint pending_loop (n : Z) (txs : gmap string Transaction) (result : list Transaction)
    (ord : list string) : list Transaction :=
  match ord with
  | [] => result
  | id :: ord' =>
      match txs !! id with
      | Some tx =>
          let result := result ++ [tx] in
          if bool_decide (n ≤ Z.of_nat (length result)) then result else pending_loop n txs result ord'
      | None => pending_loop n txs result ord'
      end
  end.

(** [make] panics on a negative capacity. *)
Definition Pending (n : Z) m : outcome (list Transaction) :=
  if bool_decide (n < 0) then Panic "makeslice: cap out of range"
  else Ret (pending_loop n (mp_txs m) [] (mp_ord m)).

Definition Remove (ids : list string) : M Mempool unit := λ m,
  (mkMempool (foldl (λ txs id, delete id txs) (mp_txs m) ids)
     (filter (λ id, id ∉ ids) (mp_ord m)), Ret tt).

Definition Size m : Z := Z.of_nat (size (mp_txs m)).

(** ** Invariant *)

Record mp_ok m : Prop := {
  ord_nodup : NoDup (mp_ord m);
  ord_exact id : id ∈ mp_ord m ↔ is_Some (mp_txs m !! id);
  txs_verified id tx : mp_txs m !! id = Some tx → tx_ID tx = id ∧ tx_Verify tx = Ret tt;
  txs_bounded : Size m ≤ maxMempoolSize
}.

Lemma Add_Ret_inv now tx m m' :
  Add now tx m = (m', Ret tt) →
  tx_Verify tx = Ret tt ∧
  ¬ (now > tx_Timestamp tx ∧ subi64 now (tx_Timestamp tx) > maxTxAge) ∧
  ¬ (tx_Timestamp tx > now ∧ subi64 (tx_Timestamp tx) now > maxTxFuture) ∧
  Size m < maxMempoolSize ∧ mp_txs m !! tx_ID tx = None ∧
  m' = mkMempool (<[tx_ID tx := tx]> (mp_txs m)) (mp_ord m ++ [tx_ID tx]).
Proof.
  unfold Add. intros H. run_inv.
  repeat match goal with u : unit |- _ => destruct u end. revert H. unfold insert_tx.
  destruct (bool_decide (_ ≤ Z.of_nat _)) eqn:E1; [done|].
  destruct (bool_decide (is_Some _)) eqn:E2; [done|]. run_inv.
  intros [= <-]. split_and!; try done; [unfold Size; lia|].
  by apply eq_None_not_Some.
Qed.

Lemma Add_run now tx m :
  tx_Verify tx = Ret tt →
  ¬ (now > tx_Timestamp tx ∧ subi64 now (tx_Timestamp tx) > maxTxAge) →
  ¬ (tx_Timestamp tx > now ∧ subi64 (tx_Timestamp tx) now > maxTxFuture) →
  Size m < maxMempoolSize → mp_txs m !! tx_ID tx = None →
  Add now tx m = (mkMempool (<[tx_ID tx := tx]> (mp_txs m)) (mp_ord m ++ [tx_ID tx]), Ret tt).
Proof.
  intros HV Ha Hf Hs Hn. unfold Add. erewrite bind_Ret by (apply wrap_Ret_inv; by rewrite HV).
  rewrite !bool_decide_eq_false_2 by done. do 2 erewrite bind_Ret by done. unfold insert_tx.
  rewrite bool_decide_eq_false_2 by (unfold Size in Hs; lia).
  rewrite bool_decide_eq_false_2; [done|]. rewrite Hn. by intros [].
Qed.

Lemma Add_error now tx m m' o : Add now tx m = (m', o) → o ≠ Ret tt → m' = m.
Proof.
  unfold Add, insert_tx, wrap, liftO, mbind, M_bind, reject_if, fail.
  destruct (tx_Verify tx) as [[]| |]; simpl; [|by intros [= <- _]..].
  repeat (case_bool_decide; simpl); intros [= <- <-]; done.
Qed.

Lemma mp_ok_Add now tx m m' o : mp_ok m → Add now tx m = (m', o) → mp_ok m'.
Proof.
  intros Hm E. destruct o as [[]|e|msg].
  - apply Add_Ret_inv in E as (HV & _ & _ & Hs & Hn & ->). destruct Hm as [Hnd Hex Hv Hb].
    split; simpl.
    + apply NoDup_app. split_and!; [done| |apply NoDup_singleton].
      intros x Hx ->%list_elem_of_singleton. apply Hex in Hx. rewrite Hn in Hx. by destruct Hx.
    + intros id. rewrite elem_of_app, list_elem_of_singleton, Hex, lookup_insert_is_Some'. naive_solver.
    + intros id t [[<- <-]|[_ Ht]]%lookup_insert_Some; [done|by apply Hv].
    + unfold Size in *. simpl. rewrite map_size_insert_None by done. lia.
  - by apply Add_error in E as ->.
  - by apply Add_error in E as ->.
Qed.

Lemma foldl_delete_lookup (ids : list string) (txs : gmap string Transaction) id :
  foldl (λ txs id, delete id txs) txs ids !! id = if decide (id ∈ ids) then None else txs !! id.
Proof.
  revert txs. induction ids as [|x ids IH]; intros txs; [done|]. simpl. rewrite IH.
  destruct (decide (id = x)) as [->|Hne].
  - rewrite lookup_delete_eq. repeat case_decide; set_solver.
  - rewrite lookup_delete_ne by done. repeat case_decide; set_solver.
Qed.

Lemma foldl_delete_size (ids : list string) (txs : gmap string Transaction) :
  (size (foldl (λ txs id, delete id txs) txs ids) ≤ size txs)%nat.
Proof.
  revert txs. induction ids as [|x ids IH]; intros txs; [done|]. simpl. etrans; [apply IH|].
  destruct (txs !! x) as [t|] eqn:E; [|by rewrite delete_id].
  rewrite map_size_delete_Some by eauto. lia.
Qed.

Lemma mp_ok_Remove ids m m' o : mp_ok m → Remove ids m = (m', o) → mp_ok m'.
Proof.
  intros [Hnd Hex Hv Hb] [= <- _]. split; simpl.
  - by apply NoDup_filter.
  - intros id. rewrite list_elem_of_filter, Hex, foldl_delete_lookup. case_decide; [|naive_solver].
    split; [naive_solver|]. by intros [].
  - intros id tx. rewrite foldl_delete_lookup. case_decide; [done|]. apply Hv.
  - unfold Size in *. simpl. pose proof (foldl_delete_size ids (mp_txs m)). lia.
Qed.

Lemma pending_loop_take n txs ord result :
  1 ≤ n → Z.of_nat (length result) < n → (∀ id, id ∈ ord → is_Some (txs !! id)) →
  pending_loop n txs result ord = result ++ take (Z.to_nat n - length result) (omap (λ id, txs !! id) ord).
Proof.
  intros Hn. revert result. induction ord as [|id ord IH]; intros result Hl Hin; simpl.
  - by rewrite take_nil, app_nil_r.
  - destruct (Hin id) as [tx ->]; [set_solver|]. simpl. rewrite length_app. simpl.
    case_bool_decide as Hc.
    + replace (Z.to_nat n - length result)%nat with 1%nat by lia. done.
    + rewrite IH; [|rewrite length_app; simpl; lia|set_solver]. rewrite <- app_assoc, length_app. simpl.
      f_equal. replace (Z.to_nat n - length result)%nat with (S (Z.to_nat n - (length result + 1)))%nat by lia.
      done.
Qed.
End Mempool.

(** ** Properties *)

Section Properties.
Context `{C : Crypto}.
Implicit Type m : Mempool.

(** What happened to a pool, oldest first. *)
Inductive pool_event : Type :=
| Arrived (tx : Transaction)
| Removed (ids : list string).

(** The pools a program can reach, by any interleaving of additions and removals
    at any times, with the additions that were accepted and the removals. *)
Inductive history : list pool_event → Mempool → Prop :=
| hist_new : history [] NewMempool
| hist_accept log now tx m m' :
    history log m → Add now tx m = (m', Ret tt) → history (log ++ [Arrived tx]) m'
| hist_refuse log now tx m m' o :
    history log m → Add now tx m = (m', o) → o ≠ Ret tt → history log m'
| hist_remove log ids m m' o :
    history log m → Remove ids m = (m', o) → history (log ++ [Removed ids]) m'.

Definition removes (id : string) (ev : pool_event) : bool :=
  match ev with Removed ids => bool_decide (id ∈ ids) | Arrived _ => false end.

(** The transactions that arrived and were not removed since, in the order in
    which they arrived. *)
Fixpoint waiting (log : list pool_event) : list Transaction :=
  match log with
  | [] => []
  | Arrived tx :: log => if existsb (removes (tx_ID tx)) log then waiting log else tx :: waiting log
  | Removed _ :: log => waiting log
  end.

Lemma waiting_accept log tx : waiting (log ++ [Arrived tx]) = waiting log ++ [tx].
Proof.
  induction log as [|[t|ids] log IH]; [done| |done]. simpl. rewrite existsb_app, IH. simpl.
  rewrite !orb_false_r. by destruct (existsb _ log).
Qed.

Lemma waiting_remove log ids :
  waiting (log ++ [Removed ids]) = filter (λ tx, tx_ID tx ∉ ids) (waiting log).
Proof.
  induction log as [|[t|ids'] log IH]; [done| |done]. simpl. rewrite existsb_app, IH. simpl. rewrite orb_false_r.
  destruct (existsb _ log); simpl; [done|]. rewrite filter_cons. case_bool_decide; case_decide; done.
Qed.

Lemma history_ok log m : history log m → mp_ok m.
Proof.
  induction 1.
  - split; simpl; [constructor| |done|done]. intros id. rewrite lookup_empty, elem_of_nil.
    split; [done|]. by intros [].
  - by eapply mp_ok_Add.
  - by eapply mp_ok_Add.
  - by eapply mp_ok_Remove.
Qed.

(** The pool holds the waiting transactions, in order. *)
Lemma history_waiting log m : history log m → omap (λ id, mp_txs m !! id) (mp_ord m) = waiting log.
Proof.
  induction 1 as [|log now tx m m' Hm IH E|log now tx m m' o Hm IH E Ho|log ids m m' o Hm IH [= <- _]].
  - done.
  - apply Add_Ret_inv in E as (_ & _ & _ & _ & Hn & ->). simpl. rewrite omap_app, waiting_accept, <- IH. simpl.
    rewrite lookup_insert_eq. f_equal. apply history_ok in Hm.
    assert (tx_ID tx ∉ mp_ord m) as Hnew by (rewrite (ord_exact m Hm), Hn; by intros []).
    revert Hnew. clear. induction (mp_ord m) as [|id l IH]; [done|]. simpl.
    intros [Hne Hl]%not_elem_of_cons. rewrite lookup_insert_ne by done.
    destruct (mp_txs m !! id); [f_equal|]; by apply IH.
  - by apply Add_error in E as ->.
  - simpl. rewrite waiting_remove, <- IH. pose proof (txs_verified m (history_ok _ _ Hm)) as Hv. revert Hv. clear.
    intros Hv. induction (mp_ord m) as [|id l IH]; [done|]. rewrite filter_cons. simpl.
    destruct (mp_txs m !! id) as [tx|] eqn:E.
    + destruct (Hv _ _ E) as [<- _]. rewrite filter_cons. case_decide as Hid; simpl; [|exact IH].
      rewrite foldl_delete_lookup, decide_False, E by done. f_equal. exact IH.
    + case_decide as Hid; simpl; [|exact IH]. rewrite foldl_delete_lookup, decide_False, E by done. exact IH.
Qed.

(** C30: after any history of additions and removals the ordered list names
    exactly the stored transactions, once each, every stored transaction is
    verified and stored under its ID, and there are at most 10000 of them; the
    transactions in the pool are those that were accepted and not removed since,
    and [Pending n] for positive [n] returns the [n] of them that were accepted
    first, in the order in which they were accepted, or all if there are fewer. *)
Theorem mempool_invariant log m n :
  history log m → 1 ≤ n →
  mp_ok m ∧ Size m = Z.of_nat (length (waiting log)) ∧ mp_ord m = tx_ID <$> waiting log ∧
  Forall (λ tx, tx_Verify tx = Ret tt ∧ mp_txs m !! tx_ID tx = Some tx) (waiting log) ∧
  Pending n m = Ret (take (Z.to_nat n) (waiting log)).
Proof.
  intros Hh Hn. pose proof (history_ok _ _ Hh) as Hm. split; [done|].
  pose proof (history_waiting _ _ Hh) as Hw.
  assert (∀ l : list string, (∀ id, id ∈ l → is_Some (mp_txs m !! id)) →
    tx_ID <$> omap (λ id, mp_txs m !! id) l = l) as Hids.
  { induction l as [|id l IH]; intros Hl; [done|]. simpl.
    destruct (Hl id) as [tx Htx]; [set_solver|]. rewrite Htx. simpl.
    destruct (txs_verified m Hm _ _ Htx) as [-> _]. f_equal. apply IH. set_solver. }
  assert (mp_ord m = tx_ID <$> waiting log) as Hord
    by (rewrite <- Hw; symmetry; apply Hids; intros id; apply (ord_exact m Hm)).
  split_and!; [|done| |].
  - rewrite <- (length_fmap tx_ID), <- Hord. unfold Size. f_equal. rewrite <- size_dom.
    rewrite <- (size_list_to_set (C := gset string)) by apply Hm.
    f_equal. apply set_eq. intros id. rewrite elem_of_list_to_set, (ord_exact m Hm), elem_of_dom. done.
  - rewrite <- Hw. apply Forall_forall. intros tx (id & _ & Htx)%list_elem_of_omap.
    destruct (txs_verified m Hm id tx Htx) as [<- HV]. done.
  - unfold Pending. rewrite bool_decide_eq_false_2 by lia.
    rewrite pending_loop_take by (lia || (simpl; lia) || (intros; by apply Hm)). simpl.
    by rewrite Nat.sub_0_r, Hw.
Qed.

(** Exactly which transactions [Add] accepts: verified, within the age and
    future limits as the wrapping subtraction computes them, not yet pooled, and
    only below the size limit; an accepted one is appended, a rejected one
    leaves the pool unchanged. *)
Theorem add_exact now tx m :
  (Add now tx m = (mkMempool (<[tx_ID tx := tx]> (mp_txs m)) (mp_ord m ++ [tx_ID tx]), Ret tt) ↔
   tx_Verify tx = Ret tt ∧ ¬ (now > tx_Timestamp tx ∧ subi64 now (tx_Timestamp tx) > maxTxAge) ∧
   ¬ (tx_Timestamp tx > now ∧ subi64 (tx_Timestamp tx) now > maxTxFuture) ∧
   Size m < maxMempoolSize ∧ mp_txs m !! tx_ID tx = None) ∧
  (∀ m' o, Add now tx m = (m', o) → o ≠ Ret tt → m' = m).
Proof.
  split; [split|].
  - intros (? & ? & ? & ? & ? & _)%Add_Ret_inv. done.
  - intros (? & ? & ? & ? & ?). by apply Add_run.
  - intros m' o. apply Add_error.
Qed.

(** Between instants that are less than 2^63 ns apart, an accepted
    transaction is at most one hour old and at most five minutes ahead. *)
Theorem add_time_window now tx m m' :
  is_i64 (now - tx_Timestamp tx) → is_i64 (tx_Timestamp tx - now) →
  Add now tx m = (m', Ret tt) →
  now - tx_Timestamp tx ≤ maxTxAge ∧ tx_Timestamp tx - now ≤ maxTxFuture.
Proof.
  intros H1 H2 (_ & Ha & Hf & _)%Add_Ret_inv. rewrite subi64_exact in Ha, Hf by done.
  unfold maxTxAge, maxTxFuture in *. lia.
Qed.

(** The age check is void for timestamps so old that the subtraction
    overflows: such a transaction, more than 292 years old, is accepted. *)
Theorem add_accepts_ancient now tx m :
  is_i64 now → is_i64 (tx_Timestamp tx) → now - tx_Timestamp tx > max_int64 →
  tx_Verify tx = Ret tt → Size m < maxMempoolSize → mp_txs m !! tx_ID tx = None →
  ∃ m', Add now tx m = (m', Ret tt).
Proof.
  intros Hn Ht Hold HV Hs Hnew. eexists. apply Add_run; try done.
  - intros [_ H]. revert H. unfold subi64, wrap_int64, maxTxAge, two64, is_i64, min_int64, max_int64 in *.
    rewrite (Z.mod_eq _ 18446744073709551616) by done.
    replace ((now - tx_Timestamp tx + 9223372036854775808) / 18446744073709551616) with 1; [lia|].
    apply Z.div_unique_pos with (now - tx_Timestamp tx - 9223372036854775808); lia.
  - intros [? _]. unfold is_i64, max_int64 in *. lia.
Qed.
End Properties.
