(* ===== verification/Blockchain.v ===== *)
(** * Block storage and the canonical chain

    Models [src/core/blockchain.go], the [LevelBlockStore] of
    [src/storage/leveldb.go] over any [DB], and the [MemBlockStore] of
    [src/internal/testutil/memdb.go].  [chain_rep] says what a store with a
    chain in it looks like; it is the invariant of every sequence of accepted
    blocks and what [Init] needs after a restart. *)
From Stdlib Require Import Ascii Lia ZArith.
From stdpp Require Import base gmap strings list.
From S2P Require Import Prelude Crypto Json JsonFacts JsonParse JsonTyped Types Transaction Block DB.

Class BlockStore (S : Type) := {
  bs_GetBlock : string → M S Block;
  bs_PutBlock : Block → M S unit;
  bs_GetBlockByHeight : Z → M S Block;
  bs_PutBlockByHeight : Z → string → M S unit;
  bs_GetTip : M S string;
  bs_SetTip : string → M S unit;
  bs_CommitBlock : Block → M S unit
}.

(** ** LevelBlockStore *)

Section LevelBlockStore.
Context {D : Type} `{HD : DB D}.

Definition block_key (hash : string) : string := "block:" +:+ hash.
Definition height_key (height : Z) : string := "height:" +:+ dec_of_Z height.
Definition tip_key : string := "chain:tip".

(** [json.Marshal(block)]: fails when a payload is not JSON. *)
Definition marshal_block (b : Block) : outcome string :=
  match Block_enc b with Some v => Ret (print v) | None => Fail (EMsg "json") end.

Definition lbs_PutBlock (b : Block) : M D unit :=
  data ← liftO (marshal_block b); db_Set (block_key (blk_Hash b)) data.

Definition lbs_GetBlock (hash : string) : M D Block :=
  data ← db_Get (block_key hash);
  liftO (of_option (EMsg "json") (Unmarshal Block_dec Block_zero data)).

Definition lbs_PutBlockByHeight (height : Z) (hash : string) : M D unit :=
  db_Set (height_key height) hash.

Definition lbs_GetBlockByHeight (height : Z) : M D Block :=
  hash ← db_Get (height_key height); lbs_GetBlock hash.

(** A missing tip is the empty string. *)
Definition lbs_GetTip : M D string := λ d,
  match db_Get tip_key d with
  | (d', Fail ErrNotFound) => (d', Ret "")
  | r => r
  end.

Definition lbs_SetTip (hash : string) : M D unit := db_Set tip_key hash.

Definition lbs_CommitBlock (b : Block) : M D unit :=
  data ← liftO (marshal_block b);
  db_Write [BSet (block_key (blk_Hash b)) data;
            BSet (height_key (hdr_Height (blk_Header b))) (blk_Hash b);
            BSet tip_key (blk_Hash b)].

#[export] Instance LevelBlockStore : BlockStore D := {
  bs_GetBlock := lbs_GetBlock; bs_PutBlock := lbs_PutBlock;
  bs_GetBlockByHeight := lbs_GetBlockByHeight; bs_PutBlockByHeight := lbs_PutBlockByHeight;
  bs_GetTip := lbs_GetTip; bs_SetTip := lbs_SetTip; bs_CommitBlock := lbs_CommitBlock
}.
End LevelBlockStore.

(** ** MemBlockStore *)

Record MemBlockStore : Type := mkMemBlockStore {
  mbs_blocks : gmap string Block;
  mbs_byH : gmap Z string;
  mbs_tip : string
}.

Definition NewMemBlockStore : MemBlockStore := mkMemBlockStore ∅ ∅ "".

Definition mbs_PutBlock (b : Block) : M MemBlockStore unit := λ s,
  (mkMemBlockStore (<[blk_Hash b := b]> (mbs_blocks s)) (mbs_byH s) (mbs_tip s), Ret tt).
Definition mbs_GetBlock (hash : string) : M MemBlockStore Block := λ s,
  (s, of_option ErrNotFound (mbs_blocks s !! hash)).
Definition mbs_PutBlockByHeight (height : Z) (hash : string) : M MemBlockStore unit := λ s,
  (mkMemBlockStore (mbs_blocks s) (<[height := hash]> (mbs_byH s)) (mbs_tip s), Ret tt).
Definition mbs_GetBlockByHeight (height : Z) : M MemBlockStore Block := λ s,
  match mbs_byH s !! height with
  | None => (s, Fail ErrNotFound)
  | Some h => mbs_GetBlock h s
  end.
Definition mbs_GetTip : M MemBlockStore string := λ s, (s, Ret (mbs_tip s)).
Definition mbs_SetTip (hash : string) : M MemBlockStore unit := λ s,
  (mkMemBlockStore (mbs_blocks s) (mbs_byH s) hash, Ret tt).
Definition mbs_CommitBlock (b : Block) : M MemBlockStore unit := λ s,
  (mkMemBlockStore (<[blk_Hash b := b]> (mbs_blocks s))
     (<[hdr_Height (blk_Header b) := blk_Hash b]> (mbs_byH s)) (blk_Hash b), Ret tt).

#[export] Instance MemBlockStore_inst : BlockStore MemBlockStore := {
  bs_GetBlock := mbs_GetBlock; bs_PutBlock := mbs_PutBlock;
  bs_GetBlockByHeight := mbs_GetBlockByHeight; bs_PutBlockByHeight := mbs_PutBlockByHeight;
  bs_GetTip := mbs_GetTip; bs_SetTip := mbs_SetTip; bs_CommitBlock := mbs_CommitBlock
}.

(** ** Blockchain *)

Record Blockchain (S : Type) : Type := mkBlockchain {
  bc_store : S;
  bc_tip : option Block;
  bc_height : Z
}.
Arguments mkBlockchain {S}.
Arguments bc_store {S}.
Arguments bc_tip {S}.
Arguments bc_height {S}.

Definition NewBlockchain {S} (store : S) : Blockchain S := mkBlockchain store None 0.

Section Blockchain.
Context {S : Type} `{HB : BlockStore S}.
Implicit Type bc : Blockchain S.

Definition set_store (s : S) bc : Blockchain S := mkBlockchain s (bc_tip bc) (bc_height bc).
Definition store_op {A} (m : M S A) : M (Blockchain S) A := on_part bc_store set_store m.

Definition set_tip (tip : Block) : M (Blockchain S) unit := λ bc,
  (mkBlockchain (bc_store bc) (Some tip) (hdr_Height (blk_Header tip)), Ret tt).

Definition Init : M (Blockchain S) unit :=
  tipHash ← store_op bs_GetTip errorf "get tip";
  if bool_decide (tipHash = "") then mret tt
  else
    tip ← store_op (bs_GetBlock tipHash) errorf "load tip block";
    set_tip tip.

(** The checks of [AddBlock] against the current tip; [bc.height+1] wraps. *)
Definition check_link bc (block : Block) : outcome unit :=
  match bc_tip bc with
  | None => Ret tt
  | Some tip =>
      if bool_decide (hdr_Height (blk_Header block) ≤ bc_height bc)
      then Fail (EMsg "block height <= current tip (possible fork)")
      else if bool_decide (hdr_Height (blk_Header block) ≠ addi64 (bc_height bc) 1)
      then Fail (EMsg "block height does not follow tip")
      else if bool_decide (hdr_PrevHash (blk_Header block) ≠ blk_Hash tip)
      then Fail (EMsg "prev_hash mismatch")
      else Ret tt
  end.

Definition AddBlock (block : Block) : M (Blockchain S) unit := λ bc,
  (liftO (check_link bc block);;
   store_op (bs_CommitBlock block) errorf "commit block";;
   set_tip block) bc.

Definition bc_GetBlock (hash : string) : M (Blockchain S) Block := store_op (bs_GetBlock hash).
Definition bc_GetBlockByHeight (height : Z) : M (Blockchain S) Block :=
  store_op (bs_GetBlockByHeight height).
Definition Tip bc : option Block := bc_tip bc.
Definition Height bc : Z := bc_height bc.
End Blockchain.

(** ** A chain in a store *)

(** Blocks as the program stores them: well-formed, with their own hash. *)
Definition good_block `{C : Crypto} (b : Block) : Prop :=
  valid_Block b ∧ blk_Hash b = ComputeHash b.

(** Each block follows the one before it. *)
Fixpoint linked (chain : list Block) : Prop :=
  match chain with
  | b :: (b' :: _) as rest =>
      hdr_Height (blk_Header b') = hdr_Height (blk_Header b) + 1 ∧
      hdr_PrevHash (blk_Header b') = blk_Hash b ∧ linked rest
  | _ => True
  end.

Record chain_rep (m : gmap string string) (chain : list Block) : Prop := {
  cr_blocks b : b ∈ chain →
    ∃ data, marshal_block b = Ret data ∧ m !! block_key (blk_Hash b) = Some data;
  cr_heights b : b ∈ chain → m !! height_key (hdr_Height (blk_Header b)) = Some (blk_Hash b);
  cr_tip : m !! tip_key = blk_Hash <$> last chain;
  cr_only z h : m !! height_key z = Some h → ∃ b, b ∈ chain ∧ hdr_Height (blk_Header b) = z
}.

Lemma linked_app chain b :
  linked (chain ++ [b]) ↔ linked chain ∧
  match last chain with
  | None => True
  | Some t => hdr_Height (blk_Header b) = hdr_Height (blk_Header t) + 1 ∧
              hdr_PrevHash (blk_Header b) = blk_Hash t
  end.
Proof.
  induction chain as [|x [|y chain] IH]; simpl in *; [tauto|tauto|].
  change (last (x :: y :: chain)) with (last (y :: chain)) in *. rewrite IH. simpl. tauto.
Qed.

(** Heights grow along a chain, so that the last is the largest. *)
Lemma linked_heights chain b t :
  linked chain → last chain = Some t → b ∈ chain →
  hdr_Height (blk_Header b) ≤ hdr_Height (blk_Header t).
Proof.
  revert t. induction chain as [|x chain IH] using rev_ind; intros t; [by intros _ _ ?%elem_of_nil|].
  rewrite last_snoc, linked_app. intros [Hl Hx] [= ->] [Hb| ->%list_elem_of_singleton]%elem_of_app; [|done].
  destruct (last chain) as [u|] eqn:Eu.
  - specialize (IH u Hl eq_refl Hb). lia.
  - apply last_None in Eu as ->. by apply elem_of_nil in Hb.
Qed.

Lemma height_key_inj h1 h2 : height_key h1 = height_key h2 → h1 = h2.
Proof. unfold height_key. intros [_ H]%(sapp_inj_len "height:" "height:"); [|done]. by apply dec_of_Z_inj. Qed.

Lemma block_key_inj h1 h2 : block_key h1 = block_key h2 → h1 = h2.
Proof. unfold block_key. by intros [_ H]%(sapp_inj_len "block:" "block:"). Qed.

(** A block with a new height and a new hash extends the representation. *)
Lemma chain_rep_extend m chain b data :
  chain_rep m chain → marshal_block b = Ret data →
  (∀ x, x ∈ chain → hdr_Height (blk_Header x) ≠ hdr_Height (blk_Header b) ∧ blk_Hash x ≠ blk_Hash b) →
  chain_rep (apply_ops [BSet (block_key (blk_Hash b)) data;
     BSet (height_key (hdr_Height (blk_Header b))) (blk_Hash b); BSet tip_key (blk_Hash b)] m) (chain ++ [b]).
Proof.
  intros [Hb Hh _ Ho] Hd Hnew. split; simpl.
  - intros x [Hx| ->%list_elem_of_singleton]%elem_of_app.
    + destruct (Hb x Hx) as (dx & Hdx & Hl). exists dx. split; [done|].
      rewrite !lookup_insert_ne; [done|..]; [|done..].
      intros E%block_key_inj. by destruct (Hnew x Hx) as [_ []].
    + exists data. split; [done|]. rewrite !lookup_insert_ne by done. by rewrite lookup_insert_eq.
  - intros x [Hx| ->%list_elem_of_singleton]%elem_of_app.
    + rewrite !lookup_insert_ne; [by apply Hh|done| |done].
      intros E%height_key_inj. by destruct (Hnew x Hx) as [[] _].
    + rewrite lookup_insert_ne by done. by rewrite lookup_insert_eq.
  - by rewrite lookup_insert_eq, last_snoc.
  - intros z h. destruct (decide (z = hdr_Height (blk_Header b))) as [->|Hz]; [set_solver|].
    rewrite !lookup_insert_ne; [|done|by intros E%height_key_inj|done].
    intros (x & Hx & <-)%Ho. set_solver.
Qed.

Section ChainFacts.
Context `{C : Crypto, CL : !CryptoLaws} {D : Type} `{HD : DB D, HR : DBRep D, HL : !DBLaws D}.
Implicit Types (bc : Blockchain D) (chain : list Block).

(** The chain a [Blockchain] holds, in memory and in its store. *)
Record bc_ok bc chain : Prop := {
  bco_rep : chain_rep (db_contents (bc_store bc)) chain;
  bco_linked : linked chain;
  bco_good : Forall good_block chain;
  bco_tip : bc_tip bc = last chain;
  bco_height : ∀ t, last chain = Some t → bc_height bc = hdr_Height (blk_Header t)
}.

(** Two good blocks with the same hash have the same header. *)
Lemma good_hash_header b1 b2 :
  good_block b1 → good_block b2 → blk_Hash b1 = blk_Hash b2 →
  blk_Header b1 = blk_Header b2 ∨ collision_in [header_text b1; header_text b2].
Proof.
  intros [(Hv1 & _) H1] [(Hv2 & _) H2] E. apply header_hash_inj; [done|done|congruence].
Qed.

Lemma check_link_Ret bc chain block :
  bc_ok bc chain → good_block block → check_link bc block = Ret tt →
  match last chain with
  | None => True
  | Some t => hdr_Height (blk_Header block) = hdr_Height (blk_Header t) + 1 ∧
              hdr_PrevHash (blk_Header block) = blk_Hash t
  end.
Proof.
  intros [_ _ Hg Ht Hh] [[Hv _] _]. unfold check_link. rewrite Ht. destruct (last chain) as [t|] eqn:El; [|done].
  rewrite (Hh t eq_refl). case_bool_decide as Hle; [done|]. case_bool_decide as Hne; [done|].
  case_bool_decide as Hp; [done|]. intros _. split; [|done].
  apply last_Some in El as [l ->]. apply Forall_app in Hg as [_ Hg]. inversion Hg as [|?? [[Hvt _] _] _]; subst.
  assert (is_i64 (hdr_Height (blk_Header t)) ∧ is_i64 (hdr_Height (blk_Header block))) as [H1 H2].
  { unfold valid_BlockHeader in *. by destruct_and!. }
  rewrite Hne in Hle |- *. destruct (decide (hdr_Height (blk_Header t) = max_int64)) as [E|E].
  - exfalso. rewrite E in Hle. vm_compute in Hle. by apply Hle.
  - apply addi64_exact. unfold is_i64, min_int64, max_int64 in *. lia.
Qed.

Lemma AddBlock_ok bc chain block bc' o :
  bc_ok bc chain → good_block block → AddBlock block bc = (bc', o) →
  (o = Ret tt ∧ (bc_ok bc' (chain ++ [block]) ∨ collision_in (header_text <$> chain ++ [block]))) ∨
  (o ≠ Ret tt ∧ bc_ok bc' chain ∧ bc_tip bc' = bc_tip bc ∧ bc_height bc' = bc_height bc).
Proof.
  intros Hok Hgood. unfold AddBlock, liftO, mbind, M_bind, wrap, store_op, on_part.
  destruct (check_link bc block) as [[]|e|p] eqn:Ec.
  2-3: intros [= <- <-]; right; by split_and!.
  simpl. unfold lbs_CommitBlock, mbind, M_bind, liftO.
  destruct (marshal_block block) as [data|e|p] eqn:Em.
  2-3: intros [= <- <-]; right; split_and!; try done; by destruct bc, Hok.
  destruct (Write_law [BSet (block_key (blk_Hash block)) data;
     BSet (height_key (hdr_Height (blk_Header block))) (blk_Hash block); BSet tip_key (blk_Hash block)]
     (bc_store bc)) as (d & o' & -> & [(-> & Hc & _)|(_ & (e & -> & _) & Hc)]); intros [= <- <-].
  - left. split; [done|]. pose proof (check_link_Ret _ _ _ Hok Hgood Ec) as Hlast.
    destruct Hok as [Hr Hl Hg Ht Hh].
    assert (linked (chain ++ [block])) as Hl' by (by apply linked_app).
    assert (∀ x, x ∈ chain → hdr_Height (blk_Header x) < hdr_Height (blk_Header block)) as Hlt.
    { intros x Hx. destruct (last chain) as [t|] eqn:El.
      - pose proof (linked_heights _ _ _ Hl El Hx). lia.
      - apply last_None in El as ->. by apply elem_of_nil in Hx. }
    destruct (decide (Exists (λ x, blk_Hash x = blk_Hash block) chain)) as [Hex|Hex].
    + right. apply Exists_exists in Hex as (x & Hx & Hxh). rewrite Forall_forall in Hg.
      destruct (good_hash_header _ _ (Hg x Hx) Hgood Hxh) as [He|]; [|by eapply collision_in_mono; [|done]; set_solver].
      specialize (Hlt x Hx). rewrite He in Hlt. lia.
    + left. split; simpl; [|done|by apply Forall_app; split; [|apply Forall_singleton]|by rewrite last_snoc|].
      * rewrite Hc. apply chain_rep_extend; [done|done|]. intros x Hx. specialize (Hlt x Hx).
        split; [lia|]. intros E. apply Hex, Exists_exists. eauto.
      * intros t. rewrite last_snoc. by intros [= <-].
  - right. split_and!; try done. destruct Hok as [[] ? ? ? ?]. by split; simpl; rewrite ?Hc.
Qed.
End ChainFacts.

Section ChainProperties.
Context `{C : Crypto, CL : !CryptoLaws} {D : Type} `{HD : DB D, HR : DBRep D, HL : !DBLaws D}.
Implicit Types (bc : Blockchain D) (chain : list Block).

(** The blockchains reached from an empty store by offering good blocks, with
    the chain of those that were accepted. *)
Inductive grown : Blockchain D → list Block → Prop :=
| grown_new d :
    db_contents d !! tip_key = None → (∀ z, db_contents d !! height_key z = None) →
    grown (NewBlockchain d) []
| grown_accept bc chain block bc' :
    grown bc chain → good_block block → AddBlock block bc = (bc', Ret tt) → grown bc' (chain ++ [block])
| grown_reject bc chain block bc' o :
    grown bc chain → good_block block → AddBlock block bc = (bc', o) → o ≠ Ret tt → grown bc' chain.

Lemma grown_ok bc chain : grown bc chain → bc_ok bc chain ∨ collision_in (header_text <$> chain).
Proof.
  induction 1 as [d Hd Hz|bc chain block bc' _ [IH|] Hg E|bc chain block bc' o _ [IH|] Hg E Ho]; try by right.
  3:{ right. eapply collision_in_mono; [|done]. set_solver. }
  - left. split; simpl; try done. split; [by intros b ?%elem_of_nil..|done|]. intros z h. by rewrite Hz.
  - destruct (AddBlock_ok _ _ _ _ _ IH Hg E) as [(_ & [?|?])|(? & _)]; [by left|by right|done].
  - destruct (AddBlock_ok _ _ _ _ _ IH Hg E) as [(? & _)|(_ & ? & _)]; [done|by left].
Qed.

Lemma db_Get_healthy k (d : D) v :
  db_healthy d → db_contents d !! k = Some v → db_Get k d = (d, Ret v).
Proof. intros Hh Hk. destruct (Get_law k d) as [->|[? _]]; [|done]. by rewrite Hk. Qed.

Lemma GetBlock_stored d chain b :
  db_healthy d → chain_rep (db_contents d) chain → b ∈ chain → good_block b →
  ∃ b', lbs_GetBlock (blk_Hash b) d = (d, Ret b') ∧ block_in_transit b b'.
Proof.
  intros Hh [Hb _ _ _] Hin [Hv _]. destruct (Hb b Hin) as (data & Hm & Hk).
  unfold marshal_block in Hm. destruct (Block_enc b) as [v|] eqn:Ev; [|done]. injection Hm as <-.
  destruct (Block_transit b v Hv Ev) as (b' & Hd & Ht). exists b'. split; [|done].
  unfold lbs_GetBlock. erewrite bind_Ret by (by apply db_Get_healthy).
  unfold liftO. by rewrite Hd.
Qed.

(** Reading a chain by height. *)
Lemma GetByHeight_stored bc chain b :
  bc_ok bc chain → db_healthy (bc_store bc) → b ∈ chain →
  ∃ b', block_in_transit b b' ∧ bc_GetBlock (blk_Hash b) bc = (bc, Ret b') ∧
    bc_GetBlockByHeight (hdr_Height (blk_Header b)) bc = (bc, Ret b').
Proof.
  intros [Hr _ Hgd _ _] Hh Hb. rewrite Forall_forall in Hgd.
  destruct (GetBlock_stored _ _ _ Hh Hr Hb (Hgd b Hb)) as (b' & Eb & Htr).
  exists b'. split; [done|]. unfold bc_GetBlock, bc_GetBlockByHeight, store_op, on_part. simpl.
  unfold lbs_GetBlockByHeight. erewrite (bind_Ret (db_Get _)); [|apply db_Get_healthy; [done|by apply Hr]].
  rewrite Eb. by destruct bc.
Qed.

Lemma GetByHeight_missing bc chain z :
  bc_ok bc chain → db_healthy (bc_store bc) → (∀ b, b ∈ chain → hdr_Height (blk_Header b) ≠ z) →
  bc_GetBlockByHeight z bc = (bc, Fail ErrNotFound).
Proof.
  intros [Hr _ _ _ _] Hh Hz. unfold bc_GetBlockByHeight, store_op, on_part. simpl.
  unfold lbs_GetBlockByHeight, mbind, M_bind. destruct (Get_law (height_key z) (bc_store bc)) as [->|[? _]]; [|done].
  destruct (db_contents (bc_store bc) !! height_key z) as [hash|] eqn:E; [|by destruct bc].
  destruct (cr_only _ _ Hr _ _ E) as (b & Hb & Hbz). by destruct (Hz b Hb).
Qed.

(** C20: the accepted blocks form one chain without forks: heights are
    consecutive, each block names the hash of its predecessor, and the last one
    is the tip.  Every one of them can be read back by its height and by its
    hash, and rejected blocks leave no trace; or two headers of the chain are a
    SHA-256 collision. *)
Theorem chain_is_linked_and_readable bc chain :
  grown bc chain → db_healthy (bc_store bc) →
  (linked chain ∧ Tip bc = last chain ∧
   ∀ b, b ∈ chain →
     ∃ b', block_in_transit b b' ∧ bc_GetBlock (blk_Hash b) bc = (bc, Ret b') ∧
       bc_GetBlockByHeight (hdr_Height (blk_Header b)) bc = (bc, Ret b')) ∨
  collision_in (header_text <$> chain).
Proof.
  intros Hg Hh. destruct (grown_ok _ _ Hg) as [Hok|]; [left|by right].
  split_and!; [apply Hok|apply Hok|]. intros b Hb. by eapply GetByHeight_stored.
Qed.

(** What [Init] finds in a store. *)
Lemma Init_empty (d : D) :
  db_healthy d → db_contents d !! tip_key = None → Init (NewBlockchain d) = (NewBlockchain d, Ret tt).
Proof.
  intros Hh Htip. unfold Init, store_op, mbind, M_bind, wrap, on_part. simpl. unfold lbs_GetTip.
  destruct (Get_law tip_key d) as [E|[? _]]; [|done]. by rewrite E, Htip.
Qed.

Lemma Init_tip bc l t :
  bc_ok bc (l ++ [t]) → db_healthy (bc_store bc) →
  ∃ t', Init (NewBlockchain (bc_store bc)) =
      (mkBlockchain (bc_store bc) (Some t') (hdr_Height (blk_Header t')), Ret tt) ∧
    block_in_transit t t' ∧ bc_height bc = hdr_Height (blk_Header t').
Proof.
  intros [Hr Hl Hgd Ht Hht] Hh. assert (t ∈ l ++ [t]) as Hin by set_solver.
  rewrite Forall_forall in Hgd. pose proof (Hgd t Hin) as [_ Hth].
  destruct (GetBlock_stored _ _ _ Hh Hr Hin (Hgd t Hin)) as (t' & Et & Htr).
  pose proof (cr_tip _ _ Hr) as Htip. rewrite last_snoc in Htip. exists t'. split_and!; [|done|].
  - unfold Init, store_op, mbind, M_bind, wrap, on_part. simpl. unfold lbs_GetTip.
    rewrite (db_Get_healthy _ _ _ Hh Htip). simpl.
    rewrite bool_decide_eq_false_2; [by cbn; rewrite Et|]. rewrite Hth. unfold ComputeHash. intros E.
    pose proof (Hash_length (print (BlockHeader_enc (blk_Header t)))) as Hlen. by rewrite E in Hlen.
  - rewrite (bt_header _ _ Htr). apply Hht. by rewrite last_snoc.
Qed.

(** After a restart, [Init] on the same store restores the height and the
    tip (with its payloads in stored form), so the chain continues where it
    stopped; on an empty store it leaves a fresh chain; or two headers of the
    chain are a SHA-256 collision. *)
Theorem init_restores_chain bc chain :
  grown bc chain → db_healthy (bc_store bc) →
  (∃ bc', Init (NewBlockchain (bc_store bc)) = (bc', Ret tt) ∧ bc_store bc' = bc_store bc ∧
     match last chain with
     | None => bc_tip bc' = None
     | Some t => ∃ t', bc_tip bc' = Some t' ∧ block_in_transit t t' ∧ bc_height bc' = bc_height bc
     end) ∨
  collision_in (header_text <$> chain).
Proof.
  intros Hg Hh. destruct (grown_ok _ _ Hg) as [Hok|]; [left|by right].
  destruct (last chain) as [t|] eqn:El.
  - apply last_Some in El as [l ->]. destruct (Init_tip bc l t) as (t' & E & Htr & Hht'); [done..|].
    eexists. split; [exact E|]. split; [done|]. exists t'. by rewrite Hht'.
  - exists (NewBlockchain (bc_store bc)). split_and!; try done. apply Init_empty; [done|].
    pose proof (cr_tip _ _ (bco_rep _ _ Hok)) as Htip. by rewrite El in Htip.
Qed.
End ChainProperties.
