(* ===== verification/Files.v ===== *)
(** * Files

    The two calls of package os the program uses on files it keeps itself: the
    configuration and the keystore.  A directory tree is a map from paths to
    contents.  [WriteFile] is not atomic: it truncates the file when it opens
    it, so a failure while writing leaves a prefix of the new contents in place
    of the old ones. *)
From Stdlib Require Import Ascii Lia ZArith.
From stdpp Require Import base gmap strings list.
From S2P Require Import Prelude Json JsonParse.

Abbreviation Files := (gmap string string).

(** How a write can fail: before the file is opened, or after some bytes. *)
Inductive write_fault : Type :=
| OpenFails
| WriteStops (n : nat).

Definition ReadFile (path : string) : M Files string := λ d,
  (d, match d !! path with Some data => Ret data | None => Fail (EMsg "no such file") end).

Definition WriteFile (fault : option write_fault) (path data : string) : M Files unit := λ d,
  match fault with
  | None => (<[path := data]> d, Ret tt)
  | Some OpenFails => (d, Fail (EMsg "open"))
  | Some (WriteStops n) => (<[path := string_take n data]> d, Fail (EMsg "write"))
  end.

(** The bytes [json.MarshalIndent] writes for a tree. *)
Definition MarshalIndent (v : jv) : string := print_indent "" v.

(** A file other than the one written is untouched. *)
Lemma WriteFile_other fault path data d d' o path' :
  WriteFile fault path data d = (d', o) → path' ≠ path → d' !! path' = d !! path'.
Proof. intros E H. destruct fault as [[|n]|]; injection E as <- _; by rewrite ?lookup_insert_ne. Qed.

Lemma ReadFile_Ret path d d' data : ReadFile path d = (d', Ret data) → d !! path = Some data ∧ d' = d.
Proof. unfold ReadFile. destruct (d !! path); by intros [= <- <-]. Qed.

Lemma WriteFile_Ret fault path data d d' :
  WriteFile fault path data d = (d', Ret tt) → fault = None ∧ d' !! path = Some data.
Proof. destruct fault as [[|n]|]; simpl; try done. intros [= <-]. by rewrite lookup_insert_eq. Qed.

Lemma Unmarshal_MarshalIndent {A} (dec : A → jv → option A) zero v :
  wf_jv v = true → Unmarshal dec zero (MarshalIndent v) = dec zero v.
Proof. intros H. unfold Unmarshal, MarshalIndent. by rewrite parse_print_indent. Qed.
