(* ===== verification/Config.v ===== *)
(** * Configuration and genesis

    Models [src/config/config.go] (the configuration, its JSON form,
    [DefaultConfig], [Load] on the contents of the file, [Validate], [Save]) and
    [src/config/genesis.go].  [validate_exact] says which configurations are
    accepted, [saved_config_loads] that a saved one is loaded again. *)
From Stdlib Require Import Ascii Lia ZArith.
From stdpp Require Import base gmap strings list.
From S2P Require Import Prelude Crypto Json JsonFacts JsonParse JsonTyped Types Transaction Block.
From S2P Require Import State Files.

Record TLSConfig : Type := mkTLS { tls_CACert : string; tls_NodeCert : string; tls_NodeKey : string }.
Record SeedPeer : Type := mkSeedPeer { sp_ID : string; sp_Addr : string }.
Record GenesisConfig : Type := mkGenesis { gen_ChainID : string; gen_Alloc : option (gmap string Z) }.

Record Config : Type := mkConfig {
  cfg_NodeID : string;
  cfg_DataDir : string;
  cfg_RPCPort : Z;
  cfg_P2PPort : Z;
  cfg_MaxBlockTxs : Z;
  cfg_Validators : list string;
  cfg_Genesis : GenesisConfig;
  cfg_SeedPeers : list SeedPeer;
  cfg_TLS : option TLSConfig;
  cfg_RPCAuthToken : string
}.

Definition DefaultConfig : Config :=
  mkConfig "node0" "./data" 8545 30303 500 [] (mkGenesis "tolchain-dev" (Some ∅)) [] None "".

(** ** JSON *)

Definition TLSConfig_dec : TLSConfig → jv → option TLSConfig := dec_struct [
  ("ca_cert", λ t v, x ← dec_string (tls_CACert t) v; Some (mkTLS x (tls_NodeCert t) (tls_NodeKey t)));
  ("node_cert", λ t v, x ← dec_string (tls_NodeCert t) v; Some (mkTLS (tls_CACert t) x (tls_NodeKey t)));
  ("node_key", λ t v, x ← dec_string (tls_NodeKey t) v; Some (mkTLS (tls_CACert t) (tls_NodeCert t) x))].

Definition SeedPeer_dec : SeedPeer → jv → option SeedPeer := dec_struct [
  ("id", λ p v, x ← dec_string (sp_ID p) v; Some (mkSeedPeer x (sp_Addr p)));
  ("addr", λ p v, x ← dec_string (sp_Addr p) v; Some (mkSeedPeer (sp_ID p) x))].

Definition GenesisConfig_dec : GenesisConfig → jv → option GenesisConfig := dec_struct [
  ("chain_id", λ g v, x ← dec_string (gen_ChainID g) v; Some (mkGenesis x (gen_Alloc g)));
  ("alloc", λ g v, x ← dec_map_u64 (gen_Alloc g) v; Some (mkGenesis (gen_ChainID g) x))].

(** [*TLSConfig]: [null] is nil, an object is decoded into the pointee. *)
Definition dec_tls_ptr (old : option TLSConfig) (v : jv) : option (option TLSConfig) :=
  match v with VNull => Some None | _ => Some <$> TLSConfig_dec (default (mkTLS "" "" "") old) v end.

Definition set_cfg_ports (c : Config) (rpc p2p : Z) : Config :=
  mkConfig (cfg_NodeID c) (cfg_DataDir c) rpc p2p (cfg_MaxBlockTxs c) (cfg_Validators c)
    (cfg_Genesis c) (cfg_SeedPeers c) (cfg_TLS c) (cfg_RPCAuthToken c).

Definition Config_fields : list (field Config) := [
  ("node_id", λ c v, x ← dec_string (cfg_NodeID c) v;
     Some (mkConfig x (cfg_DataDir c) (cfg_RPCPort c) (cfg_P2PPort c) (cfg_MaxBlockTxs c)
             (cfg_Validators c) (cfg_Genesis c) (cfg_SeedPeers c) (cfg_TLS c) (cfg_RPCAuthToken c)));
  ("data_dir", λ c v, x ← dec_string (cfg_DataDir c) v;
     Some (mkConfig (cfg_NodeID c) x (cfg_RPCPort c) (cfg_P2PPort c) (cfg_MaxBlockTxs c)
             (cfg_Validators c) (cfg_Genesis c) (cfg_SeedPeers c) (cfg_TLS c) (cfg_RPCAuthToken c)));
  ("rpc_port", λ c v, x ← dec_i64 (cfg_RPCPort c) v; Some (set_cfg_ports c x (cfg_P2PPort c)));
  ("p2p_port", λ c v, x ← dec_i64 (cfg_P2PPort c) v; Some (set_cfg_ports c (cfg_RPCPort c) x));
  ("max_block_txs", λ c v, x ← dec_i64 (cfg_MaxBlockTxs c) v;
     Some (mkConfig (cfg_NodeID c) (cfg_DataDir c) (cfg_RPCPort c) (cfg_P2PPort c) x
             (cfg_Validators c) (cfg_Genesis c) (cfg_SeedPeers c) (cfg_TLS c) (cfg_RPCAuthToken c)));
  ("validators", λ c v, x ← dec_strings (cfg_Validators c) v;
     Some (mkConfig (cfg_NodeID c) (cfg_DataDir c) (cfg_RPCPort c) (cfg_P2PPort c) (cfg_MaxBlockTxs c)
             x (cfg_Genesis c) (cfg_SeedPeers c) (cfg_TLS c) (cfg_RPCAuthToken c)));
  ("genesis", λ c v, x ← GenesisConfig_dec (cfg_Genesis c) v;
     Some (mkConfig (cfg_NodeID c) (cfg_DataDir c) (cfg_RPCPort c) (cfg_P2PPort c) (cfg_MaxBlockTxs c)
             (cfg_Validators c) x (cfg_SeedPeers c) (cfg_TLS c) (cfg_RPCAuthToken c)));
  ("seed_peers", λ c v, x ← dec_slice (mkSeedPeer "" "") SeedPeer_dec v;
     Some (mkConfig (cfg_NodeID c) (cfg_DataDir c) (cfg_RPCPort c) (cfg_P2PPort c) (cfg_MaxBlockTxs c)
             (cfg_Validators c) (cfg_Genesis c) x (cfg_TLS c) (cfg_RPCAuthToken c)));
  ("tls", λ c v, x ← dec_tls_ptr (cfg_TLS c) v;
     Some (mkConfig (cfg_NodeID c) (cfg_DataDir c) (cfg_RPCPort c) (cfg_P2PPort c) (cfg_MaxBlockTxs c)
             (cfg_Validators c) (cfg_Genesis c) (cfg_SeedPeers c) x (cfg_RPCAuthToken c)));
  ("rpc_auth_token", λ c v, x ← dec_string (cfg_RPCAuthToken c) v;
     Some (mkConfig (cfg_NodeID c) (cfg_DataDir c) (cfg_RPCPort c) (cfg_P2PPort c) (cfg_MaxBlockTxs c)
             (cfg_Validators c) (cfg_Genesis c) (cfg_SeedPeers c) (cfg_TLS c) x))].
Definition Config_dec : Config → jv → option Config := dec_struct Config_fields.

Definition TLSConfig_enc (t : TLSConfig) : jv := VObj [
  ("ca_cert", enc_string (tls_CACert t));
  ("node_cert", enc_string (tls_NodeCert t));
  ("node_key", enc_string (tls_NodeKey t))].

Definition SeedPeer_enc (p : SeedPeer) : jv := VObj [
  ("id", enc_string (sp_ID p));
  ("addr", enc_string (sp_Addr p))].

Definition GenesisConfig_enc (g : GenesisConfig) : jv := VObj [
  ("chain_id", enc_string (gen_ChainID g));
  ("alloc", enc_map_u64 (gen_Alloc g))].

(** A member that [omitempty] leaves out when [empty] holds. *)
Definition omit_empty (empty : bool) (m : string * jv) : list (string * jv) :=
  if empty then [] else [m].

(** The empty list of validators stands for the nil slice of [DefaultConfig],
    which is written as [null]. *)
Definition validators_enc (vs : list string) : jv :=
  match vs with [] => VNull | _ => enc_slice enc_string vs end.

Definition Config_enc (c : Config) : jv := VObj ([
  ("node_id", enc_string (cfg_NodeID c));
  ("data_dir", enc_string (cfg_DataDir c));
  ("rpc_port", enc_int (cfg_RPCPort c));
  ("p2p_port", enc_int (cfg_P2PPort c));
  ("max_block_txs", enc_int (cfg_MaxBlockTxs c));
  ("validators", validators_enc (cfg_Validators c));
  ("genesis", GenesisConfig_enc (cfg_Genesis c))] ++
  omit_empty (bool_decide (length (cfg_SeedPeers c) = 0%nat))
    ("seed_peers", enc_slice SeedPeer_enc (cfg_SeedPeers c)) ++
  match cfg_TLS c with Some t => [("tls", TLSConfig_enc t)] | None => [] end ++
  omit_empty (bool_decide (cfg_RPCAuthToken c = "")) ("rpc_auth_token", enc_string (cfg_RPCAuthToken c))).

(** ** Validation *)

(** The loop over the validators, [seen] being those before. *)
Fixpoint check_validators (seen : gset string) (vs : list string) : outcome unit :=
  match vs with
  | [] => Ret tt
  | v :: vs' =>
      let ok := match hex_DecodeString v with
                | Some b => bool_decide (String.length b = 32%nat)
                | None => false
                end in
      if negb ok then Fail (EMsg "validators: must be 64-char hex (32 bytes ed25519 pubkey)")
      else if bool_decide (v ∈ seen) then Fail (EMsg "validators: duplicate pubkey")
      else check_validators ({[v]} ∪ seen) vs'
  end.

Definition check_tls (t : option TLSConfig) : outcome unit :=
  match t with
  | None => Ret tt
  | Some t =>
      let allSet := bool_decide (tls_CACert t ≠ "" ∧ tls_NodeCert t ≠ "" ∧ tls_NodeKey t ≠ "") in
      let allEmpty := bool_decide (tls_CACert t = "" ∧ tls_NodeCert t = "" ∧ tls_NodeKey t = "") in
      if negb allSet && negb allEmpty
      then Fail (EMsg "tls: all three paths must be set or all empty") else Ret tt
  end.

Definition port_ok (p : Z) : bool := negb (bool_decide (p ≤ 0 ∨ p > 65535)).

Definition Validate (c : Config) : outcome unit :=
  if bool_decide (cfg_NodeID c = "") then Fail (EMsg "node_id must not be empty")
  else if bool_decide (cfg_DataDir c = "") then Fail (EMsg "data_dir must not be empty")
  else if bool_decide (gen_ChainID (cfg_Genesis c) = "")
  then Fail (EMsg "genesis.chain_id must not be empty")
  else if negb (port_ok (cfg_RPCPort c)) then Fail (EMsg "rpc_port must be 1-65535")
  else if negb (port_ok (cfg_P2PPort c)) then Fail (EMsg "p2p_port must be 1-65535")
  else if bool_decide (cfg_RPCPort c = cfg_P2PPort c)
  then Fail (EMsg "rpc_port and p2p_port must not be the same")
  else if bool_decide (length (cfg_Validators c) = 0%nat)
  then Fail (EMsg "validators list must not be empty")
  else _ ← check_validators ∅ (cfg_Validators c); check_tls (cfg_TLS c).

(** [Load], given what [os.ReadFile] returns. *)
Definition Load (file : outcome string) : outcome Config :=
  data ← file;
  cfg ← of_option (EMsg "json") (Unmarshal Config_dec DefaultConfig data);
  _ ← wrapO "config validation" (Validate cfg);
  Ret cfg.

(** [Save]; [fault] is what becomes of the write. *)
Definition Save (fault : option write_fault) (cfg : Config) (path : string) : M Files unit :=
  WriteFile fault path (MarshalIndent (Config_enc cfg)).

(** ** Genesis *)

Definition GenesisHash : string :=
  "0000000000000000000000000000000000000000000000000000000000000000".

Definition IsGenesisHash (h : string) : bool := bool_decide (h = GenesisHash).

Section Genesis.
Context {W : Type} `{C : Crypto, O : MapOrder, HS : State W}.

Definition credit_alloc (e : string * Z) : M W unit := SetAccount (mkAccount e.1 e.2 0).

(** [block.Header.StateRoot = ...; block.Header.TxRoot = ...] *)
Definition set_roots (b : Block) (stateRoot txRoot : string) : Block :=
  let h := blk_Header b in
  mkBlock (mkBlockHeader (hdr_ChainID h) (hdr_Height h) (hdr_PrevHash h) stateRoot txRoot
             (hdr_Timestamp h) (hdr_Proposer h)) (blk_Transactions b) (blk_Hash b) (blk_Signature b).

Definition read_root : M W string := λ w, (w, Ret (ComputeRoot w)).

Definition CreateGenesisBlock (now : Z) (cfg : Config) (proposerPriv : string) : M W Block :=
  proposerPub ← liftO (Public proposerPriv);
  for_each credit_alloc (range 0 (default ∅ (gen_Alloc (cfg_Genesis cfg))));;
  stateRoot ← read_root;
  Commit;;
  block ← liftO (NewBlock now (gen_ChainID (cfg_Genesis cfg)) 0 GenesisHash (PublicKey_Hex proposerPub) []);
  liftO (blk_Sign proposerPriv (set_roots block stateRoot (Hash (gen_ChainID (cfg_Genesis cfg))))).
End Genesis.

(** ** Facts *)

Lemma check_validators_Ret seen vs :
  check_validators seen vs = Ret tt ↔
  NoDup vs ∧ (∀ v, v ∈ vs → v ∉ seen) ∧
  Forall (λ v, ∃ b, hex_DecodeString v = Some b ∧ String.length b = 32%nat) vs.
Proof.
  revert seen. induction vs as [|v vs IH]; intros seen; simpl.
  - split; [|done]. intros _. split_and!; [constructor|by intros v ?%elem_of_nil|constructor].
  - rewrite NoDup_cons, Forall_cons. split.
    + destruct (hex_DecodeString v) as [b|]; [|done]. case_bool_decide as Hb; simpl; [|done].
      case_bool_decide as Hs; [done|]. rewrite IH. intros (Hnd & Hv & Hf). split_and!; try done.
      * intros Hin. specialize (Hv v Hin). set_solver.
      * intros x [->|Hx]%elem_of_cons; [done|]. specialize (Hv x Hx). set_solver.
      * eauto.
    + intros ((Hv & Hnd) & Hs & (b & Hb & Hl) & Hf). rewrite Hb.
      rewrite bool_decide_eq_true_2, bool_decide_eq_false_2 by (done || set_solver).
      simpl. apply IH. split_and!; try done. intros x Hx. specialize (Hs x). set_solver.
Qed.

(** *** The file *)

(** Configurations with the values their Go types allow, in valid UTF-8. *)
Record valid_Config (c : Config) : Prop := {
  vc_NodeID : valid_utf8 (cfg_NodeID c) = true;
  vc_DataDir : valid_utf8 (cfg_DataDir c) = true;
  vc_RPCPort : is_i64 (cfg_RPCPort c);
  vc_P2PPort : is_i64 (cfg_P2PPort c);
  vc_MaxBlockTxs : is_i64 (cfg_MaxBlockTxs c);
  vc_Validators : Forall (λ s, valid_utf8 s = true) (cfg_Validators c);
  vc_ChainID : valid_utf8 (gen_ChainID (cfg_Genesis c)) = true;
  vc_Alloc : valid_map_u64 (gen_Alloc (cfg_Genesis c));
  vc_SeedPeers : Forall (λ p, valid_utf8 (sp_ID p) = true ∧ valid_utf8 (sp_Addr p) = true) (cfg_SeedPeers c);
  vc_TLS t : cfg_TLS c = Some t →
    valid_utf8 (tls_CACert t) = true ∧ valid_utf8 (tls_NodeCert t) = true ∧ valid_utf8 (tls_NodeKey t) = true;
  vc_RPCAuthToken : valid_utf8 (cfg_RPCAuthToken c) = true
}.

Lemma SeedPeer_dec_enc old p :
  valid_utf8 (sp_ID p) = true → valid_utf8 (sp_Addr p) = true →
  SeedPeer_dec old (SeedPeer_enc p) = Some p.
Proof.
  intros ? ?. destruct p. unfold SeedPeer_dec, SeedPeer_enc, dec_struct. simpl in *.
  repeat (dec_field_step; [|rewrite dec_enc_string by done; simpl; reflexivity]). done.
Qed.

Lemma SeedPeers_dec_enc l :
  Forall (λ p, valid_utf8 (sp_ID p) = true ∧ valid_utf8 (sp_Addr p) = true) l →
  dec_slice (mkSeedPeer "" "") SeedPeer_dec (enc_slice SeedPeer_enc l) = Some l.
Proof.
  intros H. unfold dec_slice, enc_slice. induction H as [|p l [H1 H2] _ IH]; [done|].
  cbn [map mapM]. by rewrite SeedPeer_dec_enc, IH.
Qed.

Lemma TLSConfig_dec_enc old t :
  valid_utf8 (tls_CACert t) = true → valid_utf8 (tls_NodeCert t) = true →
  valid_utf8 (tls_NodeKey t) = true → TLSConfig_dec old (TLSConfig_enc t) = Some t.
Proof.
  intros ? ? ?. destruct t. unfold TLSConfig_dec, TLSConfig_enc, dec_struct. simpl in *.
  repeat (dec_field_step; [|rewrite dec_enc_string by done; simpl; reflexivity]). done.
Qed.

Lemma GenesisConfig_dec_enc g :
  valid_utf8 (gen_ChainID g) = true → valid_map_u64 (gen_Alloc g) →
  GenesisConfig_dec (cfg_Genesis DefaultConfig) (GenesisConfig_enc g) = Some g.
Proof.
  intros Hc Ha. assert (dec_map_u64 (Some ∅) (enc_map_u64 (gen_Alloc g)) = Some (gen_Alloc g)) as E.
  { pose proof (dec_enc_map_u64 _ Ha) as H. by destruct (gen_Alloc g). }
  destruct g as [chain alloc]. unfold GenesisConfig_dec, GenesisConfig_enc, dec_struct.
  cbn [gen_ChainID gen_Alloc] in *.
  dec_field_step; [|by rewrite dec_enc_string by done].
  dec_field_step; [done|]. cbn [gen_Alloc]. change (gen_Alloc (cfg_Genesis DefaultConfig)) with (Some (∅ : gmap string Z)).
  by rewrite E.
Qed.

Lemma dec_enc_validators old vs :
  Forall (λ s, valid_utf8 s = true) vs →
  dec_strings old (validators_enc vs) = Some vs.
Proof. intros H. destruct vs as [|v vs]; [done|]. by apply dec_enc_strings. Qed.

Lemma Config_dec_enc c : valid_Config c → Config_dec DefaultConfig (Config_enc c) = Some c.
Proof.
  intros [Hn Hd Hr Hp Hm Hv Hch Hal Hsp Htls Hau]. unfold Config_dec, Config_enc, dec_struct.
  destruct c as [node data rpc p2p maxtx vs g sps tls auth].
  cbn [cfg_NodeID cfg_DataDir cfg_RPCPort cfg_P2PPort cfg_MaxBlockTxs cfg_Validators cfg_Genesis
       cfg_SeedPeers cfg_TLS cfg_RPCAuthToken app] in *.
  do 2 (dec_field_step; [|rewrite dec_enc_string by done; simpl; reflexivity]).
  do 3 (dec_field_step; [|rewrite dec_enc_i64 by done; simpl; reflexivity]).
  dec_field_step; [|rewrite dec_enc_validators by done; simpl; reflexivity].
  dec_field_step; [|rewrite GenesisConfig_dec_enc by done; simpl; reflexivity].
  unfold omit_empty. destruct sps as [|sp sps]; cbn [length];
    [rewrite bool_decide_eq_true_2 by done|rewrite bool_decide_eq_false_2 by done]; cbn [app].
  2: dec_field_step; [|rewrite SeedPeers_dec_enc by done; simpl; reflexivity].
  all: destruct tls as [t|]; cbn [app].
  1,3: destruct (Htls t eq_refl) as (? & ? & ?);
    (dec_field_step; [|unfold dec_tls_ptr; rewrite TLSConfig_dec_enc by done; simpl; reflexivity]).
  all: case_bool_decide as Ha; [by subst|].
  all: dec_field_step; [|rewrite dec_enc_string by done; simpl; reflexivity]; done.
Qed.

Lemma wf_members_app ms1 ms2 : wf_jv (VObj (ms1 ++ ms2)) = wf_jv (VObj ms1) && wf_jv (VObj ms2).
Proof. apply forallb_app. Qed.

Lemma Config_wf c : wf_jv (Config_enc c) = true.
Proof.
  assert (wf_jv (validators_enc (cfg_Validators c)) = true) as Hv.
  { destruct (cfg_Validators c) as [|v vs]; [done|]. apply (wf_enc_strings (v :: vs)). }
  assert (wf_jv (GenesisConfig_enc (cfg_Genesis c)) = true) as Hg.
  { cbn [GenesisConfig_enc wf_jv forallb]. by rewrite wf_enc_string, wf_enc_map_u64. }
  assert (wf_jv (enc_slice SeedPeer_enc (cfg_SeedPeers c)) = true) as Hs.
  { unfold enc_slice. cbn [wf_jv]. induction (cfg_SeedPeers c) as [|p l IH]; [done|].
    cbn [map forallb SeedPeer_enc wf_jv]. by rewrite !wf_enc_string, IH. }
  unfold Config_enc. rewrite !wf_members_app, !andb_true_iff. split_and!.
  - cbn [wf_jv forallb]. by rewrite !wf_enc_string, !wf_enc_int, Hv, Hg.
  - unfold omit_empty. case_bool_decide; [done|]. cbn [wf_jv forallb]. by rewrite Hs.
  - destruct (cfg_TLS c); [|done]. cbn [wf_jv forallb TLSConfig_enc]. by rewrite !wf_enc_string.
  - unfold omit_empty. case_bool_decide; [done|]. cbn [wf_jv forallb]. by rewrite wf_enc_string.
Qed.

Lemma Load_saved cfg path d :
  valid_Config cfg → Validate cfg = Ret tt → d !! path = Some (MarshalIndent (Config_enc cfg)) →
  Load (ReadFile path d).2 = Ret cfg.
Proof.
  intros Hc Hv Hd. unfold ReadFile. rewrite Hd. unfold Load. cbn [snd mbind outcome_bind].
  rewrite Unmarshal_MarshalIndent by apply Config_wf. rewrite Config_dec_enc by done.
  cbn [of_option mbind outcome_bind]. by rewrite Hv.
Qed.

(** A configuration that passes validation, once saved, is the one [Load]
    returns: the indented text is read back field for field, over the defaults,
    whatever was at the path before; a save that fails leaves every other file
    alone, and the file itself unread or cut short. *)
Theorem saved_config_loads fault cfg path d d' o :
  valid_Config cfg → Validate cfg = Ret tt →
  Save fault cfg path d = (d', o) →
  (∀ path', path' ≠ path → d' !! path' = d !! path') ∧
  match fault with
  | None => o = Ret tt ∧ Load (ReadFile path d').2 = Ret cfg
  | Some OpenFails => d' = d ∧ ∃ e, o = Fail e
  | Some (WriteStops n) => d' !! path = Some (string_take n (MarshalIndent (Config_enc cfg))) ∧ ∃ e, o = Fail e
  end.
Proof.
  intros Hc Hv E. unfold Save in E. split.
  { intros path'. by eapply WriteFile_other. }
  destruct fault as [[|n]|]; simpl in E; injection E as <- <-; [by eauto|by rewrite lookup_insert_eq; eauto|].
  split; [done|]. apply Load_saved; [done..|apply lookup_insert_eq].
Qed.

(** [Validate] accepts exactly the configurations with a node ID, a data
    directory, a chain ID, two different ports in range, at least one validator,
    no validator twice, every validator a parsable public key, and the TLS paths
    all set or all empty. *)
Theorem validate_exact c :
  Validate c = Ret tt ↔
  cfg_NodeID c ≠ "" ∧ cfg_DataDir c ≠ "" ∧ gen_ChainID (cfg_Genesis c) ≠ "" ∧
  1 ≤ cfg_RPCPort c ≤ 65535 ∧ 1 ≤ cfg_P2PPort c ≤ 65535 ∧ cfg_RPCPort c ≠ cfg_P2PPort c ∧
  cfg_Validators c ≠ [] ∧ NoDup (cfg_Validators c) ∧
  Forall (λ v, ∃ pub, PubKeyFromHex v = Ret pub) (cfg_Validators c) ∧
  (∀ t, cfg_TLS c = Some t →
     (tls_CACert t = "" ↔ tls_NodeCert t = "") ∧ (tls_NodeCert t = "" ↔ tls_NodeKey t = "")).
Proof.
  assert (∀ vs, Forall (λ v, ∃ b, hex_DecodeString v = Some b ∧ String.length b = 32%nat) vs ↔
    Forall (λ v, ∃ pub, PubKeyFromHex v = Ret pub) vs) as Hpk.
  { intros vs. apply Forall_iff. intros v. split.
    - intros (b & Hb & Hl). exists b. unfold PubKeyFromHex. rewrite Hb.
      by rewrite bool_decide_eq_false_2 by (by intros []).
    - intros (pub & [Hb Hl]%PubKeyFromHex_Ret_inv). eauto. }
  assert (∀ t, check_tls t = Ret tt ↔ ∀ x, t = Some x →
     (tls_CACert x = "" ↔ tls_NodeCert x = "") ∧ (tls_NodeCert x = "" ↔ tls_NodeKey x = "")) as Htls.
  { intros [t|]; simpl; [|naive_solver].
    destruct (decide (tls_CACert t = "")), (decide (tls_NodeCert t = "")), (decide (tls_NodeKey t = ""));
      repeat case_bool_decide; simpl; naive_solver. }
  unfold Validate. rewrite <- Hpk, <- Htls. unfold port_ok.
  repeat (case_bool_decide; simpl; [split; [done|intros; destruct_and!; try done; lia]|]).
  case_bool_decide as Hl; [apply length_zero_iff_nil in Hl; split; [done|intros; by destruct_and!]|].
  assert (cfg_Validators c ≠ []) by (intros E; apply Hl; by rewrite E).
  pose proof (check_validators_Ret ∅ (cfg_Validators c)) as Hv.
  destruct (check_validators ∅ (cfg_Validators c)) as [[]|e|p]; simpl.
  - destruct (proj1 Hv eq_refl) as (? & _ & ?). split; [intros; split_and!; try done; lia|].
    intros. by destruct_and!.
  - split; [done|]. intros. destruct_and!. assert (Fail (A := unit) e = Ret tt); [|done].
    apply Hv. split_and!; try done; set_solver.
  - split; [done|]. intros. destruct_and!. assert (Panic (A := unit) p = Ret tt); [|done].
    apply Hv. split_and!; try done; set_solver.
Qed.
