(* ===== verification/Tls.v ===== *)
(** * TLS configuration

    Models [src/config/tls.go]: plain TCP, or mutual TLS 1.3 with the
    certificates of the configuration.  The parsers of PEM texts are the class
    [PEM]. *)
From Stdlib Require Import Ascii Lia ZArith.
From stdpp Require Import base gmap strings list.
From S2P Require Import Prelude Crypto Json Types Transaction Block State Files Config.

(** [tls.X509KeyPair] and [CertPool.AppendCertsFromPEM]: a certificate from the
    PEM texts of certificate and key, a pool from that of an authority. *)
Class PEM := {
  X509KeyPair : string → string → option string;
  CertsFromPEM : string → option string
}.

Inductive ClientAuthType : Type := NoClientCert | RequireAndVerifyClientCert.
Definition VersionTLS13 : Z := 772.

Record tls_Config : Type := mkTLSConfig {
  tc_Certificates : list string;
  tc_ClientCAs : string;
  tc_RootCAs : string;
  tc_ClientAuth : ClientAuthType;
  tc_MinVersion : Z
}.

Section TLS.
Context `{P : PEM}.

Definition LoadX509KeyPair (certFile keyFile : string) : M Files string :=
  cert ← ReadFile certFile;
  key ← ReadFile keyFile;
  liftO (of_option (EMsg "tls") (X509KeyPair cert key)).

Definition no_tls (cfg : option TLSConfig) : bool :=
  match cfg with
  | None => true
  | Some t => bool_decide (tls_CACert t = "" ∧ tls_NodeCert t = "" ∧ tls_NodeKey t = "")
  end.

Definition LoadTLSConfig (cfg : option TLSConfig) : M Files (option tls_Config) :=
  match cfg with
  | None => mret None
  | Some t =>
      if no_tls cfg then mret None
      else
        cert ← LoadX509KeyPair (tls_NodeCert t) (tls_NodeKey t) errorf "load node cert/key";
        caPEM ← ReadFile (tls_CACert t) errorf "read CA cert";
        caPool ← liftO (of_option (EMsg "failed to parse CA certificate") (CertsFromPEM caPEM));
        mret (Some (mkTLSConfig [cert] caPool caPool RequireAndVerifyClientCert VersionTLS13))
  end.
End TLS.

Lemma no_tls_run `{P : PEM} cfg d : no_tls cfg = true → LoadTLSConfig cfg d = (d, Ret None).
Proof. destruct cfg as [t|]; [|done]. unfold LoadTLSConfig. by intros ->. Qed.

(** The TLS configuration is the plain one exactly when no path is set;
    otherwise both sides of a connection must present a certificate of the
    configured authority, over TLS 1.3. *)
Theorem tls_is_mutual `{P : PEM} cfg d d' o :
  LoadTLSConfig cfg d = (d', Ret o) →
  d' = d ∧ (o = None ↔ no_tls cfg = true) ∧
  ∀ c, o = Some c → tc_ClientAuth c = RequireAndVerifyClientCert ∧ tc_MinVersion c = VersionTLS13 ∧
    ∃ t ca pool, cfg = Some t ∧ d !! tls_CACert t = Some ca ∧ CertsFromPEM ca = Some pool ∧
      tc_ClientCAs c = pool ∧ tc_RootCAs c = pool.
Proof.
  destruct cfg as [t|]; [|by intros [= <- <-]; split_and!; [|split|]].
  unfold LoadTLSConfig. destruct (no_tls (Some t)); [by intros [= <- <-]; split_and!; [|split|]|].
  unfold LoadX509KeyPair. intros H. run_inv.
  repeat match goal with E : ReadFile _ _ = (_, Ret _) |- _ => apply ReadFile_Ret in E as [E ->] end.
  match goal with E : of_option _ (CertsFromPEM _) = Ret _ |- _ => rename E into Hpool end.
  unfold of_option in Hpool. case_match eqn:Hca; [|done]. injection Hpool as <-.
  split_and!; [done|split; done|]. intros c [= <-]. split_and!; [done..|]. by repeat eexists.
Qed.
