(* ===== verification/Certgen.v ===== *)
(** * Certificates

    Models [src/crypto/certgen/certgen.go]: an authority and a certificate for the node, signed
    by it, written as four PEM files.  [filepath.Join], base64 and
    [pem.Encode] are written out.  Keys, DER encodings and signatures are those
    of Go's crypto/ecdsa and crypto/x509, the class [X509]; [X509Laws] lists
    what [crypto/tls] and [crypto/x509] document about reading them back.  The
    theorem: the files [GenerateAll] leaves are the ones a node needs to talk
    mutual TLS. *)
From Stdlib Require Import Ascii Lia ZArith.
From stdpp Require Import base gmap strings list.
From S2P Require Import Prelude Files Config Tls.

(** ** Paths *)

Definition slash : ascii := "/".

(** The components between the slashes. *)
Fixpoint split_slash (s : string) : list string :=
  match s with
  | "" => [""]
  | String c r =>
      if bool_decide (c = slash) then "" :: split_slash r
      else match split_slash r with x :: l => String c x :: l | [] => [String c ""] end
  end.

Fixpoint join_slash (l : list string) : string :=
  match l with
  | [] => ""
  | [x] => x
  | x :: l' => x +:+ ("/" +:+ join_slash l')
  end.

(** One component of [filepath.Clean], on the components kept so far, the last
    one first. *)
Definition clean_step (rooted : bool) (st : list string) (x : string) : list string :=
  if bool_decide (x = "" ∨ x = ".") then st
  else if bool_decide (x = "..") then
    match st with
    | [] => if rooted then [] else [".."]
    | y :: st' => if bool_decide (y = "..") then ".." :: st else st'
    end
  else x :: st.

Definition is_rooted (path : string) : bool := match path with String c _ => bool_decide (c = slash) | "" => false end.

Definition filepath_Clean (path : string) : string :=
  if bool_decide (path = "") then "."
  else
    let st := foldl (clean_step (is_rooted path)) [] (split_slash path) in
    if is_rooted path then "/" +:+ join_slash (rev st)
    else match st with [] => "." | _ => join_slash (rev st) end.

Definition filepath_Join (dir name : string) : string :=
  if bool_decide (dir = "") then (if bool_decide (name = "") then "" else filepath_Clean name)
  else filepath_Clean (dir +:+ ("/" +:+ name)).

(** ** PEM *)

Definition base64_alphabet : string := "ABCDEFGHIJKLMNOPQRSTUVWXYZabcdefghijklmnopqrstuvwxyz0123456789+/".
Definition base64_char (z : Z) : ascii := default "="%char (String.get (Z.to_nat z) base64_alphabet).

Fixpoint base64_Encode (s : string) : string :=
  match s with
  | "" => ""
  | String a "" =>
      let x := byte_val a in
      String (base64_char (Z.shiftr x 2)) (String (base64_char (Z.shiftl (Z.land x 3) 4)) "==")
  | String a (String b "") =>
      let x := byte_val a in let y := byte_val b in
      String (base64_char (Z.shiftr x 2))
        (String (base64_char (Z.lor (Z.shiftl (Z.land x 3) 4) (Z.shiftr y 4)))
          (String (base64_char (Z.shiftl (Z.land y 15) 2)) "="))
  | String a (String b (String c r)) =>
      let x := byte_val a in let y := byte_val b in let z := byte_val c in
      String (base64_char (Z.shiftr x 2))
        (String (base64_char (Z.lor (Z.shiftl (Z.land x 3) 4) (Z.shiftr y 4)))
          (String (base64_char (Z.lor (Z.shiftl (Z.land y 15) 2) (Z.shiftr z 6)))
            (String (base64_char (Z.land z 63)) (base64_Encode r))))
  end.

(** Lines of 64 characters, each ended by a newline. *)
Fixpoint break_lines (used : nat) (s : string) : string :=
  match s with
  | "" => if bool_decide (used = 0%nat) then "" else String "010" ""
  | String c r =>
      if bool_decide (used = 63%nat) then String c (String "010" (break_lines 0 r))
      else String c (break_lines (S used) r)
  end.

Definition newline : string := String "010" "".

(** [pem.Encode] of a block without headers. *)
Definition pem_Encode (typ data : string) : string :=
  "-----BEGIN " +:+ typ +:+ "-----" +:+ newline +:+ break_lines 0 (base64_Encode data) +:+
  "-----END " +:+ typ +:+ "-----" +:+ newline.

(** How [writePEM] can fail: at [os.OpenFile], midway, or at [f.Sync]. *)
Inductive pem_fault : Type :=
| CreateFails
| EncodeStops (n : nat)
| SyncFails.

Definition writePEM (fault : option pem_fault) (path typ data : string) : M Files unit := λ d,
  let text := pem_Encode typ data in
  match fault with
  | None => (<[path := text]> d, Ret tt)
  | Some CreateFails => (d, Fail (EWrap "create" (EMsg "open")))
  | Some (EncodeStops n) => (<[path := string_take n text]> d, Fail (EWrap "write" (EMsg "write")))
  | Some SyncFails => (<[path := text]> d, Fail (EWrap "sync" (EMsg "sync")))
  end.

(** ** X.509 *)

Definition KeyUsageDigitalSignature : Z := Z.shiftl 1 0.
Definition KeyUsageKeyEncipherment : Z := Z.shiftl 1 2.
Definition KeyUsageCertSign : Z := Z.shiftl 1 5.
Definition KeyUsageCRLSign : Z := Z.shiftl 1 6.

Inductive ExtKeyUsage : Type := ExtKeyUsageClientAuth | ExtKeyUsageServerAuth.

(** The fields of [x509.Certificate] the program fills; times in nanoseconds,
    addresses as their 16 bytes. *)
Record Certificate : Type := mkCertificate {
  ct_SerialNumber : Z;
  ct_CommonName : string;
  ct_NotBefore : Z;
  ct_NotAfter : Z;
  ct_KeyUsage : Z;
  ct_ExtKeyUsage : list ExtKeyUsage;
  ct_IsCA : bool;
  ct_BasicConstraintsValid : bool;
  ct_MaxPathLen : Z;
  ct_MaxPathLenZero : bool;
  ct_IPAddresses : list string;
  ct_DNSNames : list string
}.

(** What parsing a certificate tells besides its template. *)
Record Parsed : Type := mkParsed { pc_Certificate : Certificate; pc_Issuer : string; pc_PublicKey : string }.

Class X509 := {
  ecdsa_Public : string → string;
  (** randomness, template, parent, public key, signing key *)
  x509_CreateCertificate : string → Certificate → Certificate → string → string → option string;
  x509_ParseCertificate : string → option Parsed;
  (** [child.CheckSignatureFrom(parent)] on two encoded certificates *)
  x509_CheckSignatureFrom : string → string → bool;
  x509_MarshalECPrivateKey : string → option string
}.

(** The fields that survive as they are: times lose their fractions of a
    second, addresses may change their form. *)
Definition same_names (t c : Certificate) : Prop :=
  ct_SerialNumber c = ct_SerialNumber t ∧ ct_CommonName c = ct_CommonName t ∧ ct_KeyUsage c = ct_KeyUsage t ∧
  ct_ExtKeyUsage c = ct_ExtKeyUsage t ∧ ct_IsCA c = ct_IsCA t ∧
  ct_BasicConstraintsValid c = ct_BasicConstraintsValid t ∧ ct_DNSNames c = ct_DNSNames t.

(** What [CheckSignatureFrom] asks of the parent besides its key. *)
Definition may_sign (c : Certificate) : Prop :=
  ct_BasicConstraintsValid c = true ∧ ct_IsCA c = true ∧ Z.land (ct_KeyUsage c) KeyUsageCertSign ≠ 0.

(** A certificate that was created can be parsed, and names its parent's
    subject as its issuer; it is signed with the key it was created with: the
    signature is valid from a certificate for the public half of that key, if
    this may sign certificates; a certificate and the key it was made for form a
    key pair; the certificates of a PEM text form a pool. *)
Class X509Laws `{X : X509, P : PEM} : Prop := {
  created_parses rnd template parent pub priv der :
    x509_CreateCertificate rnd template parent pub priv = Some der →
    ∃ c, x509_ParseCertificate der = Some (mkParsed c (ct_CommonName parent) pub) ∧ same_names template c;
  created_signed rnd template parent pub priv der caDER ca :
    x509_CreateCertificate rnd template parent pub priv = Some der →
    x509_ParseCertificate caDER = Some ca → pc_PublicKey ca = ecdsa_Public priv → may_sign (pc_Certificate ca) →
    x509_CheckSignatureFrom der caDER = true;
  keypair_loads rnd template parent key priv der keyDER :
    x509_CreateCertificate rnd template parent (ecdsa_Public key) priv = Some der →
    x509_MarshalECPrivateKey key = Some keyDER →
    X509KeyPair (pem_Encode "CERTIFICATE" der) (pem_Encode "EC PRIVATE KEY" keyDER) = Some der;
  pool_loads der parsed :
    x509_ParseCertificate der = Some parsed → CertsFromPEM (pem_Encode "CERTIFICATE" der) = Some der
}.

Definition hour : Z := 3600 * 1000000000.

Definition zeros (n : nat) : string := Nat.iter n (String "000") "".
(** [net.IPv4(127, 0, 0, 1)] and [net.IPv6loopback] *)
Definition ipv4_loopback : string :=
  zeros 10 +:+ String (byte_of 255) (String (byte_of 255) (String (byte_of 127) (String "000" (String "000" (String "001" ""))))).
Definition ipv6_loopback : string := zeros 15 +:+ String "001" "".

Record Options : Type := mkOptions { op_ExtraIPs : list string; op_ExtraDNS : list string }.

(** What the random source yields during a run: keys, serial numbers (or
    nothing when it fails) and the randomness of the signatures. *)
Record Draws : Type := mkDraws {
  dr_caKey : option string; dr_caSerial : option Z; dr_caSign : string;
  dr_nodeKey : option string; dr_nodeSerial : option Z; dr_nodeSign : string
}.

Section Certgen.
Context `{X : X509}.

Definition randomSerial (draw : option Z) : outcome Z :=
  wrapO "generate serial" (of_option (EMsg "rand") draw).

(** The template of the authority; the clock is read twice. *)
Definition caTemplate (serial now1 now2 : Z) : Certificate :=
  mkCertificate serial "TOL Chain CA" (now1 + -1 * hour) (now2 + 10 * 365 * 24 * hour)
    (Z.lor KeyUsageCertSign KeyUsageCRLSign) [] true true 0 true [] [].

Definition nodeTemplate (nodeID : string) (opts : option Options) (serial now1 now2 : Z) : Certificate :=
  let ips := [ipv4_loopback; ipv6_loopback] ++ match opts with Some o => op_ExtraIPs o | None => [] end in
  let dns := ["localhost"; nodeID] ++ match opts with Some o => op_ExtraDNS o | None => [] end in
  mkCertificate serial nodeID (now1 + -1 * hour) (now2 + 5 * 365 * 24 * hour)
    (Z.lor KeyUsageDigitalSignature KeyUsageKeyEncipherment) [ExtKeyUsageClientAuth; ExtKeyUsageServerAuth]
    false false 0 false ips dns.

(** [GenerateAll], given what [os.MkdirAll] returns, the random draws, the
    readings of the clock and the faults of the four writes. *)
Definition GenerateAll (mkdir : outcome unit) (dr : Draws) (clock : nat → Z) (faults : nat → option pem_fault)
    (dir nodeID : string) (opts : option Options) : M Files unit :=
  liftO mkdir errorf "mkdir";;
  caKey ← liftO (of_option (EMsg "ecdsa") (dr_caKey dr)) errorf "generate CA key";
  caSerial ← liftO (randomSerial (dr_caSerial dr));
  let template := caTemplate caSerial (clock 0%nat) (clock 1%nat) in
  caCertDER ← liftO (of_option (EMsg "x509")
    (x509_CreateCertificate (dr_caSign dr) template template (ecdsa_Public caKey) caKey)) errorf "create CA cert";
  caCert ← liftO (of_option (EMsg "x509") (x509_ParseCertificate caCertDER)) errorf "parse CA cert";
  writePEM (faults 0%nat) (filepath_Join dir "ca.crt") "CERTIFICATE" caCertDER;;
  caKeyDER ← liftO (of_option (EMsg "x509") (x509_MarshalECPrivateKey caKey));
  writePEM (faults 1%nat) (filepath_Join dir "ca.key") "EC PRIVATE KEY" caKeyDER;;
  nodeKey ← liftO (of_option (EMsg "ecdsa") (dr_nodeKey dr)) errorf "generate node key";
  nodeSerial ← liftO (randomSerial (dr_nodeSerial dr));
  let template := nodeTemplate nodeID opts nodeSerial (clock 2%nat) (clock 3%nat) in
  nodeCertDER ← liftO (of_option (EMsg "x509")
    (x509_CreateCertificate (dr_nodeSign dr) template (pc_Certificate caCert) (ecdsa_Public nodeKey) caKey))
    errorf "create node cert";
  writePEM (faults 2%nat) (filepath_Join dir (nodeID +:+ ".crt")) "CERTIFICATE" nodeCertDER;;
  nodeKeyDER ← liftO (of_option (EMsg "x509") (x509_MarshalECPrivateKey nodeKey));
  writePEM (faults 3%nat) (filepath_Join dir (nodeID +:+ ".key")) "EC PRIVATE KEY" nodeKeyDER.
End Certgen.

(** ** Lemmas on paths *)

(** A name that is one component and stays one. *)
Definition plain (x : string) : Prop :=
  string_forall (λ c, negb (bool_decide (c = slash))) x = true ∧ x ≠ "" ∧ x ≠ "." ∧ x ≠ "..".

Lemma split_slash_app s t : split_slash (s +:+ ("/" +:+ t)) = split_slash s ++ split_slash t.
Proof.
  induction s as [|c s IH]; [done|]. rewrite sapp_cons. cbn [split_slash]. rewrite IH.
  case_bool_decide; [done|]. destruct (split_slash s) as [|x l] eqn:E; [|done].
  destruct s as [|c' s']; [done|]. cbn [split_slash] in E. case_bool_decide; [done|]. by destruct (split_slash s').
Qed.

Lemma split_slash_plain x : string_forall (λ c, negb (bool_decide (c = slash))) x = true → split_slash x = [x].
Proof.
  induction x as [|c x IH]; [done|]. cbn [string_forall split_slash]. intros [Hc Hx]%andb_true_iff.
  rewrite (IH Hx). by destruct (bool_decide (c = slash)).
Qed.

Lemma join_slash_snoc l : ∃ pre, ∀ y, join_slash (l ++ [y]) = pre +:+ y.
Proof.
  induction l as [|z l [pre IH]]; [by exists ""|]. exists (z +:+ ("/" +:+ pre)). intros y.
  destruct (l ++ [y]) as [|u v] eqn:E; [by destruct l|]. cbn [app join_slash]. rewrite E, <- E, IH.
  by rewrite !sapp_assoc.
Qed.

Lemma clean_step_plain rooted st x : plain x → clean_step rooted st x = x :: st.
Proof.
  intros (_ & H1 & H2 & H3). unfold clean_step. rewrite !bool_decide_eq_false_2; [done|done|]. by intros [].
Qed.

(** Joining a plain name to a directory appends it to a text that depends on
    the directory only. *)
Lemma Join_plain dir : ∃ pre, ∀ x, plain x → filepath_Join dir x = pre +:+ x.
Proof.
  unfold filepath_Join. case_bool_decide as Hd.
  - exists "". intros x Hx. pose proof Hx as (Hs & Hne & _). rewrite bool_decide_eq_false_2 by done.
    unfold filepath_Clean. rewrite bool_decide_eq_false_2 by done. rewrite split_slash_plain by done.
    cbn [foldl]. rewrite clean_step_plain by done. destruct x as [|c x]; [done|]. simpl in Hs |- *.
    by destruct (bool_decide (c = slash)).
  - set (st := foldl (clean_step (is_rooted dir)) [] (split_slash dir)).
    destruct (join_slash_snoc (rev st)) as [pre Hpre].
    exists ((if is_rooted dir then "/" else "") +:+ pre). intros x Hx. pose proof Hx as (Hs & _).
    unfold filepath_Clean. rewrite bool_decide_eq_false_2 by (by destruct dir).
    assert (is_rooted (dir +:+ ("/" +:+ x)) = is_rooted dir) as -> by (by destruct dir).
    rewrite split_slash_app, foldl_app. fold st. rewrite split_slash_plain by done. cbn [foldl].
    rewrite clean_step_plain by done. cbn [rev]. rewrite Hpre, sapp_assoc. by destruct (is_rooted dir).
Qed.

Lemma Join_inj dir x y : plain x → plain y → filepath_Join dir x = filepath_Join dir y → x = y.
Proof.
  intros Hx Hy. destruct (Join_plain dir) as [pre Hp]. rewrite (Hp x Hx), (Hp y Hy).
  intros E. by apply sapp_inj_len in E as [_ E].
Qed.

(** The names of the four files. *)
Definition node_name (nodeID : string) : Prop :=
  string_forall (λ c, negb (bool_decide (c = slash))) nodeID = true.

Lemma plain_ext nodeID ext :
  node_name nodeID → string_forall (λ c, negb (bool_decide (c = slash))) ext = true →
  (3 ≤ String.length ext)%nat → plain (nodeID +:+ ext).
Proof.
  intros Hn He Hl. assert (3 ≤ String.length (nodeID +:+ ext))%nat as Hlen by (rewrite slength_app; lia).
  split; [rewrite string_forall_app; by rewrite Hn, He|].
  split_and!; intros E; rewrite E in Hlen; simpl in Hlen; lia.
Qed.

Lemma sapp_ext_inj s1 s2 e1 e2 :
  String.length e1 = String.length e2 → s1 +:+ e1 = s2 +:+ e2 → s1 = s2 ∧ e1 = e2.
Proof.
  intros Hl E. apply sapp_inj_len in E; [done|]. apply (f_equal String.length) in E.
  rewrite !slength_app in E. lia.
Qed.

(** ** Properties *)

Section Properties.
Context `{X : X509, P : PEM, XL : !X509Laws}.

Lemma writePEM_Ret fault path typ data d d' :
  writePEM fault path typ data d = (d', Ret tt) → d' = <[path := pem_Encode typ data]> d.
Proof. destruct fault as [[]|]; by intros [= <-]. Qed.

(** A run that succeeds: what was created and what was written, in order. *)
Lemma GenerateAll_Ret mkdir dr clock faults dir nodeID opts d d' :
  GenerateAll mkdir dr clock faults dir nodeID opts d = (d', Ret tt) →
  ∃ caKey caSerial caDER ca caKeyDER nodeKey nodeSerial nodeDER nodeKeyDER,
    let caT := caTemplate caSerial (clock 0%nat) (clock 1%nat) in
    let nodeT := nodeTemplate nodeID opts nodeSerial (clock 2%nat) (clock 3%nat) in
    x509_CreateCertificate (dr_caSign dr) caT caT (ecdsa_Public caKey) caKey = Some caDER ∧
    x509_ParseCertificate caDER = Some ca ∧
    x509_CreateCertificate (dr_nodeSign dr) nodeT (pc_Certificate ca) (ecdsa_Public nodeKey) caKey = Some nodeDER ∧
    x509_MarshalECPrivateKey nodeKey = Some nodeKeyDER ∧
    d' = <[filepath_Join dir (nodeID +:+ ".key") := pem_Encode "EC PRIVATE KEY" nodeKeyDER]>
          (<[filepath_Join dir (nodeID +:+ ".crt") := pem_Encode "CERTIFICATE" nodeDER]>
          (<[filepath_Join dir "ca.key" := pem_Encode "EC PRIVATE KEY" caKeyDER]>
          (<[filepath_Join dir "ca.crt" := pem_Encode "CERTIFICATE" caDER]> d))).
Proof.
  unfold GenerateAll. intros H. run_inv.
  repeat match goal with
  | u : unit |- _ => destruct u
  | E : writePEM _ _ _ _ _ = (_, Ret tt) |- _ => apply writePEM_Ret in E as ->
  | E : of_option _ ?o = Ret _ |- _ => destruct o eqn:?; [injection E as ->|discriminate E]
  | E : randomSerial ?o = Ret _ |- _ => unfold randomSerial in E; destruct o eqn:?; [injection E as ->|discriminate E]
  end.
  repeat eexists; eauto.
Qed.

Lemma pem_paths dir nodeID :
  node_name nodeID → nodeID ≠ "ca" →
  NoDup [filepath_Join dir "ca.crt"; filepath_Join dir "ca.key";
         filepath_Join dir (nodeID +:+ ".crt"); filepath_Join dir (nodeID +:+ ".key")].
Proof.
  intros Hn Hca.
  assert (plain "ca.crt" ∧ plain "ca.key") as [H1 H2] by (by split).
  assert (plain (nodeID +:+ ".crt")) as H3 by (apply plain_ext; [done|done|simpl; lia]).
  assert (plain (nodeID +:+ ".key")) as H4 by (apply plain_ext; [done|done|simpl; lia]).
  assert (∀ e1 e2 s1 s2, String.length e1 = String.length e2 → s1 ≠ s2 ∨ e1 ≠ e2 → s1 +:+ e1 ≠ s2 +:+ e2) as Hne.
  { intros e1 e2 s1 s2 Hl H E. apply sapp_ext_inj in E as [-> ->]; [|done]. by destruct H. }
  change "ca.crt" with ("ca" +:+ ".crt") in *. change "ca.key" with ("ca" +:+ ".key") in *.
  repeat apply NoDup_cons_2; try apply NoDup_nil_2;
    rewrite ?not_elem_of_cons; split_and?; try apply not_elem_of_nil;
    (intros E%Join_inj; [|done..]; revert E; apply Hne; [done|auto]).
Qed.

Lemma certs_load mkdir dr clock faults dir nodeID opts d d' :
  node_name nodeID → nodeID ≠ "ca" →
  GenerateAll mkdir dr clock faults dir nodeID opts d = (d', Ret tt) →
  let path x := filepath_Join dir x in
  ∃ caDER ca nodeDER node,
    LoadTLSConfig (Some (mkTLS (path "ca.crt") (path (nodeID +:+ ".crt")) (path (nodeID +:+ ".key")))) d' =
      (d', Ret (Some (mkTLSConfig [nodeDER] caDER caDER RequireAndVerifyClientCert VersionTLS13))) ∧
    x509_ParseCertificate caDER = Some ca ∧ ct_IsCA (pc_Certificate ca) = true ∧
    x509_ParseCertificate nodeDER = Some node ∧ pc_Issuer node = ct_CommonName (pc_Certificate ca) ∧
    x509_CheckSignatureFrom nodeDER caDER = true ∧ x509_CheckSignatureFrom caDER caDER = true ∧
    ct_CommonName (pc_Certificate node) = nodeID ∧ nodeID ∈ ct_DNSNames (pc_Certificate node) ∧
    (∀ usage, usage ∈ ct_ExtKeyUsage (pc_Certificate node)) ∧
    (∀ x, x ∉ path <$> ["ca.crt"; "ca.key"; nodeID +:+ ".crt"; nodeID +:+ ".key"] → d' !! x = d !! x).
Proof.
  intros Hn Hca H. cbn zeta. pose proof (pem_paths dir nodeID Hn Hca) as Hnd.
  apply GenerateAll_Ret in H
    as (caKey & caSerial & caDER & ca & caKeyDER & nodeKey & nodeSerial & nodeDER & nodeKeyDER & Eca & Epa & Eno & Ekey & ->).
  destruct (created_parses _ _ _ _ _ _ Eca) as (c1 & Ep1 & (_ & _ & HKU & _ & HCA & HBC & _)). rewrite Epa in Ep1. injection Ep1 as ->.
  destruct (created_parses _ _ _ _ _ _ Eno) as (c2 & Ep2 & (_ & Hcn & _ & Hext & _ & _ & Hdns)).
  assert (may_sign c1) as Hsign by (split_and!; [by rewrite HBC|by rewrite HCA|by rewrite HKU]).
  set (p1 := filepath_Join dir "ca.crt") in *. set (p2 := filepath_Join dir "ca.key") in *.
  set (p3 := filepath_Join dir (nodeID +:+ ".crt")) in *. set (p4 := filepath_Join dir (nodeID +:+ ".key")) in *.
  assert (p1 ≠ p2 ∧ p1 ≠ p3 ∧ p1 ≠ p4 ∧ p3 ≠ p4) as (H12 & H13 & H14 & H34).
  { revert Hnd. rewrite !NoDup_cons, !not_elem_of_cons. naive_solver. }
  exists caDER, (mkParsed c1 (ct_CommonName (caTemplate caSerial (clock 0%nat) (clock 1%nat))) (ecdsa_Public caKey)),
    nodeDER, (mkParsed c2 (ct_CommonName c1) (ecdsa_Public nodeKey)).
  set (d' := <[p4 := _]> _).
  assert (d' !! p1 = Some (pem_Encode "CERTIFICATE" caDER)) as L1.
  { unfold d'. rewrite !lookup_insert_ne by done. apply lookup_insert_eq. }
  assert (d' !! p3 = Some (pem_Encode "CERTIFICATE" nodeDER)) as L3.
  { unfold d'. rewrite lookup_insert_ne by done. apply lookup_insert_eq. }
  assert (d' !! p4 = Some (pem_Encode "EC PRIVATE KEY" nodeKeyDER)) as L4 by apply lookup_insert_eq.
  split_and!; [|done|done|done|done|by eapply created_signed|by eapply created_signed|done| | |].
  - unfold LoadTLSConfig. assert (no_tls (Some (mkTLS p1 p3 p4)) = false) as ->.
    { apply bool_decide_eq_false_2. intros (E & _). simpl in E. unfold p1 in E.
      destruct (Join_plain dir) as [pre Hp]. rewrite Hp in E by done. apply (f_equal String.length) in E.
      rewrite slength_app in E. simpl in E. lia. }
    cbn [tls_NodeCert tls_NodeKey tls_CACert].
    assert (∀ x data, d' !! x = Some data → ReadFile x d' = (d', Ret data)) as Hread
      by (intros x data E; unfold ReadFile; by rewrite E).
    assert (LoadX509KeyPair p3 p4 d' = (d', Ret nodeDER)) as Ekp.
    { unfold LoadX509KeyPair. erewrite bind_Ret by (by apply Hread). erewrite bind_Ret by (by apply Hread).
      unfold liftO. by rewrite (keypair_loads _ _ _ _ _ _ _ Eno Ekey). }
    erewrite bind_Ret by (apply wrap_Ret_inv; exact Ekp).
    erewrite bind_Ret by (apply wrap_Ret_inv; by apply Hread). unfold liftO, mbind, M_bind.
    by rewrite (pool_loads _ _ Epa).
  - simpl. rewrite Hdns. unfold nodeTemplate. simpl. set_solver.
  - simpl. rewrite Hext. intros []; simpl; set_solver.
  - intros x Hx. simpl in Hx. rewrite !not_elem_of_cons in Hx. destruct_and!. unfold d'. by rewrite !lookup_insert_ne.
Qed.

(** C38: the certificates of [-gencerts] are what a node needs.  When
    [GenerateAll] succeeds, [LoadTLSConfig] with the paths of the files it wrote
    yields a configuration for mutual TLS 1.3 in which the node presents a
    certificate in its own name, for both sides of a connection, that names the
    authority it trusts as its issuer and carries that authority's signature; the
    authority's own certificate is signed by itself; no other file is touched.
    The node's ID must be a file name other than "ca". *)
Theorem generated_certs_load mkdir dr clock faults dir nodeID opts d d' :
  node_name nodeID → nodeID ≠ "ca" →
  GenerateAll mkdir dr clock faults dir nodeID opts d = (d', Ret tt) →
  let path x := filepath_Join dir x in
  ∃ caDER ca nodeDER node,
    LoadTLSConfig (Some (mkTLS (path "ca.crt") (path (nodeID +:+ ".crt")) (path (nodeID +:+ ".key")))) d' =
      (d', Ret (Some (mkTLSConfig [nodeDER] caDER caDER RequireAndVerifyClientCert VersionTLS13))) ∧
    x509_ParseCertificate caDER = Some ca ∧ ct_IsCA (pc_Certificate ca) = true ∧
    x509_ParseCertificate nodeDER = Some node ∧ pc_Issuer node = ct_CommonName (pc_Certificate ca) ∧
    x509_CheckSignatureFrom nodeDER caDER = true ∧ x509_CheckSignatureFrom caDER caDER = true ∧
    ct_CommonName (pc_Certificate node) = nodeID ∧ nodeID ∈ ct_DNSNames (pc_Certificate node) ∧
    (∀ usage, usage ∈ ct_ExtKeyUsage (pc_Certificate node)) ∧
    (∀ x, x ∉ path <$> ["ca.crt"; "ca.key"; nodeID +:+ ".crt"; nodeID +:+ ".key"] → d' !! x = d !! x).
Proof. apply certs_load. Qed.

(** A node named "ca" loses its authority: its own certificate and key are
    written over those of the authority, so that the file that should hold the
    authority's certificate holds one that is not an authority's. *)
Theorem node_named_ca mkdir dr clock faults dir opts d d' :
  GenerateAll mkdir dr clock faults dir "ca" opts d = (d', Ret tt) →
  ∃ der c, d' !! filepath_Join dir "ca.crt" = Some (pem_Encode "CERTIFICATE" der) ∧
    x509_ParseCertificate der = Some c ∧ ct_IsCA (pc_Certificate c) = false.
Proof.
  intros (caKey & caSerial & caDER & ca & caKeyDER & nodeKey & nodeSerial & nodeDER & nodeKeyDER & _ & _ & Eno & _ & ->)%GenerateAll_Ret.
  destruct (created_parses _ _ _ _ _ _ Eno) as (c2 & Ep2 & (_ & _ & _ & _ & HCA & _)).
  eexists nodeDER, _. split; [|split; [exact Ep2|exact HCA]].
  change ("ca" +:+ ".crt") with "ca.crt". change ("ca" +:+ ".key") with "ca.key".
  rewrite lookup_insert_ne; [apply lookup_insert_eq|]. by intros E%Join_inj.
Qed.
End Properties.
