(* ===== verification/Transit.v ===== *)
(** * Transactions and blocks on the way to another node

    [json.Marshal] compacts the payload of a transaction and escapes the HTML
    characters in it.  The decoders do not see the difference: a transaction
    that went through JSON does what the original does, and a block that did is
    stored and executed as the original is. *)
From Stdlib Require Import Ascii Lia ZArith.
From stdpp Require Import base gmap strings list.
From S2P Require Import Prelude Crypto Json JsonFacts JsonParse JsonTyped Types Transaction Block.
From S2P Require Import State DB StateDB Events Vm Economy AssetModule Market SessionModule.
From S2P Require Import Executor Ledger Blockchain.

(** ** unquote ignores the escaping of HTML characters *)

Lemma cont_range b : is_cont b = true → 128 ≤ byte_val b < 192.
Proof. unfold is_cont. intros ?%bool_decide_eq_true. lia. Qed.

Lemma second_range x b : second_ok x b = true → 128 ≤ byte_val b < 192.
Proof. unfold second_ok. intros H%bool_decide_eq_true. revert H. repeat case_bool_decide; lia. Qed.

#[local] Ltac ranges :=
  repeat match goal with
  | H : second_ok _ _ = true |- _ => apply second_range in H
  | H : is_cont _ = true |- _ => apply cont_range in H
  end; lia.

(** The bytes after the first of a longer sequence. *)
Lemma utf8_tail_2 a b r : utf8_width (String a (String b r)) = 2%nat → 128 ≤ byte_val b < 192.
Proof.
  unfold utf8_width. repeat case_bool_decide; try done.
  all: repeat case_match; try done; intros _; by apply cont_range.
Qed.
Lemma utf8_tail_3 a b c r :
  utf8_width (String a (String b (String c r))) = 3%nat → 128 ≤ byte_val b < 192 ∧ 128 ≤ byte_val c < 192.
Proof.
  unfold utf8_width. repeat case_bool_decide; repeat case_match; try done; intros _; split_andb;
    ranges.
Qed.
Lemma utf8_tail_4 a b c d r :
  utf8_width (String a (String b (String c (String d r)))) = 4%nat →
  128 ≤ byte_val b < 192 ∧ 128 ≤ byte_val c < 192 ∧ 128 ≤ byte_val d < 192.
Proof.
  unfold utf8_width. repeat case_bool_decide; repeat case_match; try done; intros _; split_andb;
    ranges.
Qed.

(** Continuation bytes are kept, and come from nowhere else. *)
Lemma esc_html_cont b r : 128 ≤ byte_val b < 192 → esc_html (String b r) = String b (esc_html r).
Proof. intros H. apply esc_html_keep; [lia..|]. intros; lia. Qed.

Lemma esc_html_cont_inv r b q :
  128 ≤ byte_val b < 192 → esc_html r = String b q → ∃ r2, r = String b r2 ∧ q = esc_html r2.
Proof.
  intros Hb E. destruct r as [|b' r2]; [done|].
  destruct (esc_html_head b' r2) as (b1 & r1 & E1 & H1). rewrite E1 in E. injection E as -> ->.
  destruct H1 as [-> | ->]; [|vm_compute in Hb; by destruct Hb].
  rewrite esc_html_cont in E1 by done. injection E1 as <-. eauto.
Qed.

(** The first byte tells the length. *)
Lemma utf8_head a r :
  (utf8_width (String a r) = 2%nat → byte_val a < 224) ∧ (utf8_width (String a r) = 4%nat → 240 ≤ byte_val a).
Proof.
  unfold utf8_width. repeat case_bool_decide; repeat case_match; split; intros; try done; lia.
Qed.

(** What [quote] writes has no HTML characters left. *)
Lemma esc_html_ascii a q : byte_val a < 128 → esc_html (esc_ascii a +:+ q) = esc_ascii a +:+ esc_html q.
Proof.
  intros H. each_byte a; try (vm_compute in H; discriminate H).
  all: match goal with |- context [esc_ascii ?x] =>
         let e := eval vm_compute in (esc_ascii x) in change (esc_ascii x) with e end.
  all: rewrite !sapp_cons, sapp_nil_l, !esc_html_plain by done; done.
Qed.

Lemma esc_html_three a b c q :
  utf8_width (String a (String b (String c ""))) = 3%nat →
  esc_html (esc_three a b c +:+ q) = esc_three a b c +:+ esc_html q.
Proof.
  intros E. pose proof (utf8_tail_3 _ _ _ _ E) as [Hb Hc].
  assert (128 ≤ byte_val a) by (apply utf8_width_3_high in E; lia).
  unfold esc_three. case_bool_decide as Hs.
  - destruct Hs as (_ & _ & [-> | ->]); rewrite !sapp_cons, sapp_nil_l, !esc_html_plain by done; done.
  - rewrite !sapp_cons, sapp_nil_l. rewrite esc_html_keep by (lia || (intros ? ? ? [= <- <- <-]; lia)).
    by rewrite !esc_html_cont by done.
Qed.

Lemma esc_html_quote s : esc_html (quote s) = quote s.
Proof.
  string_induction s as IH. destruct s as [|a r]; [done|].
  pose proof (utf8_width_shape (String a r)) as Hshape.
  cbn [quote]. destruct (utf8_width (String a r)) as [|[|[|[|[|?]]]]] eqn:E.
  - unfold esc_error. rewrite !sapp_cons, sapp_nil_l, !esc_html_plain by done. by rewrite IH by (simpl; lia).
  - rewrite esc_html_ascii by (by apply utf8_width_1 in E). by rewrite IH by (simpl; lia).
  - destruct Hshape as (? & b & r2 & [= <- ->]). pose proof (utf8_tail_2 _ _ _ E) as Hb.
    pose proof (proj1 (utf8_head _ _) E) as Ha2. apply utf8_width_2_high in E as [Ha _].
    rewrite esc_html_keep by (lia || (intros; lia)).
    by rewrite esc_html_cont, IH by (done || simpl; lia).
  - destruct Hshape as (? & b & c & r3 & [= <- ->]). rewrite esc_html_three.
    + by rewrite IH by (simpl; lia).
    + by eapply utf8_width_3.
  - destruct Hshape as (? & b & c & d & r4 & [= <- ->]). pose proof (utf8_tail_4 _ _ _ _ _ E) as (Hb & Hc & Hd).
    apply (utf8_head _ _) in E as Ha.
    rewrite esc_html_keep by (lia || (intros; lia)).
    by rewrite !esc_html_cont, IH by (done || simpl; lia).
  - unfold esc_error. rewrite !sapp_cons, sapp_nil_l, !esc_html_plain by done. by rewrite IH by (simpl; lia).
Qed.

(** The same sequence starts before and after, and its bytes are kept. *)
Lemma utf8_width_esc p r :
  p ≠ c_back →
  (utf8_width (String p (esc_html r)) = 2%nat ↔ utf8_width (String p r) = 2%nat) ∧
  (utf8_width (String p (esc_html r)) = 3%nat ↔ utf8_width (String p r) = 3%nat) ∧
  (utf8_width (String p (esc_html r)) = 4%nat ↔ utf8_width (String p r) = 4%nat).
Proof.
  intros _.
  pose proof (utf8_width_shape (String p (esc_html r))) as Hs.
  pose proof (utf8_width_shape (String p r)) as Hs0. split_and!; split; intros E; rewrite E in *.
  - destruct Hs as (? & b & q & [= <- Eq]). rewrite Eq in E. pose proof (utf8_tail_2 _ _ _ E) as Hb.
    destruct (esc_html_cont_inv _ _ _ Hb Eq) as (r2 & -> & _). by eapply utf8_width_2.
  - destruct Hs0 as (? & b & q & [= <- ->]). pose proof (utf8_tail_2 _ _ _ E) as Hb.
    rewrite esc_html_cont by done. by eapply utf8_width_2.
  - destruct Hs as (? & b & c & q & [= <- Eq]). rewrite Eq in E. pose proof (utf8_tail_3 _ _ _ _ E) as [Hb Hc].
    destruct (esc_html_cont_inv _ _ _ Hb Eq) as (r2 & -> & Eq2). symmetry in Eq2.
    destruct (esc_html_cont_inv _ _ _ Hc Eq2) as (r3 & -> & _). by eapply utf8_width_3.
  - destruct Hs0 as (? & b & c & q & [= <- ->]). pose proof (utf8_tail_3 _ _ _ _ E) as [Hb Hc].
    rewrite !esc_html_cont by done. by eapply utf8_width_3.
  - destruct Hs as (? & b & c & d & q & [= <- Eq]). rewrite Eq in E.
    pose proof (utf8_tail_4 _ _ _ _ _ E) as (Hb & Hc & Hd).
    destruct (esc_html_cont_inv _ _ _ Hb Eq) as (r2 & -> & Eq2). symmetry in Eq2.
    destruct (esc_html_cont_inv _ _ _ Hc Eq2) as (r3 & -> & Eq3). symmetry in Eq3.
    destruct (esc_html_cont_inv _ _ _ Hd Eq3) as (r4 & -> & _). by eapply utf8_width_4.
  - destruct Hs0 as (? & b & c & d & q & [= <- ->]). pose proof (utf8_tail_4 _ _ _ _ _ E) as (Hb & Hc & Hd).
    rewrite !esc_html_cont by done. by eapply utf8_width_4.
Qed.

Lemma wf_raw_tail a r : 128 ≤ byte_val a → wf_raw (String a r) = true → wf_raw r = true.
Proof. intros H. by rewrite wf_raw_high. Qed.

(** A first byte that is not escaped. *)
Lemma unquote_kept p r :
  p ≠ c_back →
  (∀ q, (String.length q ≤ String.length r)%nat → wf_raw q = true → unquote (esc_html q) = unquote q) →
  wf_raw r = true → unquote (String p (esc_html r)) = unquote (String p r).
Proof.
  intros Hp IH Hr. destruct (utf8_width_esc p r Hp) as (W2 & W3 & W4).
  pose proof (utf8_width_shape (String p r)) as Hs.
  destruct (utf8_width (String p r)) as [|[|[|[|[|w]]]]] eqn:E.
  - assert (utf8_width (String p (esc_html r)) = 0%nat) as E'.
    { destruct (utf8_width (String p (esc_html r))) as [|[|[|[|[|w]]]]] eqn:E'; try done; exfalso.
      - rewrite utf8_width_1 in E'. apply (proj2 (utf8_width_1 p r)) in E'. congruence.
      - discriminate (proj1 W2 eq_refl).
      - discriminate (proj1 W3 eq_refl).
      - discriminate (proj1 W4 eq_refl).
      - clear -E'. revert E'. unfold utf8_width. repeat case_match; done. }
    cbn [unquote]. rewrite bool_decide_eq_false_2 by done. rewrite E, E'. f_equal. by apply IH.
  - apply utf8_width_1 in E as Ha. pose proof (proj2 (utf8_width_1 p (esc_html r)) Ha) as E'.
    cbn [unquote]. rewrite bool_decide_eq_false_2 by done. rewrite E, E'. f_equal. by apply IH.
  - destruct Hs as (? & b & q & [= <- ->]). pose proof (utf8_tail_2 _ _ _ E) as Hb.
    rewrite esc_html_cont by done. rewrite !unquote_plain_2 by (by eapply utf8_width_2).
    do 2 f_equal. apply IH; [simpl; lia|]. by eapply wf_raw_tail, Hr; lia.
  - destruct Hs as (? & b & c & q & [= <- ->]). pose proof (utf8_tail_3 _ _ _ _ E) as (Hb & Hc).
    rewrite !esc_html_cont by done. rewrite !unquote_plain_3 by (by eapply utf8_width_3).
    do 3 f_equal. apply IH; [simpl; lia|]. apply wf_raw_tail in Hr; [|lia]. by eapply wf_raw_tail, Hr; lia.
  - destruct Hs as (? & b & c & d & q & [= <- ->]). pose proof (utf8_tail_4 _ _ _ _ _ E) as (Hb & Hc & Hd).
    rewrite !esc_html_cont by done. rewrite !unquote_plain_4 by (by eapply utf8_width_4).
    do 4 f_equal. apply IH; [simpl; lia|]. apply wf_raw_tail in Hr; [|lia]. apply wf_raw_tail in Hr; [|lia].
    by eapply wf_raw_tail, Hr; lia.
  - clear -E. exfalso. revert E. unfold utf8_width. repeat case_match; done.
Qed.

(** The low half of a surrogate pair is an escape, which is kept. *)
Lemma low_surrogate_other rr p q s : p ≠ c_back ∨ q ≠ "u"%char → low_surrogate rr (String p (String q s)) = None.
Proof.
  intros H. destruct s as [|a [|b [|c [|d s]]]]; try done. cbn [low_surrogate].
  rewrite bool_decide_eq_false_2; [done|]. naive_solver.
Qed.

Lemma low_surrogate_none rr p s : p ≠ c_back → low_surrogate rr (String p s) = None.
Proof. intros H. destruct s as [|q s]; [done|]. apply low_surrogate_other. by left. Qed.

Lemma utf16_pair_low rr z : z < 56320 → utf16_pair rr z = None.
Proof. intros H. unfold utf16_pair. rewrite bool_decide_eq_false_2; [done|lia]. Qed.

(** The escapes [json.Marshal] adds are no surrogates. *)
Lemma low_surrogate_escape rr e q :
  match e with
  | String p (String u (String a (String b (String c (String d EmptyString))))) =>
      default 0 (hex4 a b c d) < 56320
  | _ => False
  end → low_surrogate rr (e +:+ q) = None.
Proof.
  destruct e as [|p [|u [|a [|b [|c [|d [|]]]]]]]; try done. intros H.
  rewrite !sapp_cons. cbn [low_surrogate]. case_bool_decide; [|done].
  destruct (hex4 a b c d); [|done]. by apply utf16_pair_low.
Qed.

Lemma low_surrogate_esc rr s :
  wf_raw s = true →
  low_surrogate rr (esc_html s) = low_surrogate rr s ∧
  ∀ z, low_surrogate rr s = Some z → ∃ a b c d e f r, s = String a (String b (String c (String d (String e (String f r))))) ∧
    esc_html s = String a (String b (String c (String d (String e (String f (esc_html r)))))) ∧ wf_raw r = true.
Proof.
  destruct s as [|p r]; [done|]. cbn [wf_raw]. case_bool_decide as Hq; [done|]. case_bool_decide as Hb.
  - subst p. destruct r as [|e r1]; [done|]. destruct (simple_unescape e) as [u|] eqn:Ee.
    { intros _. destruct (simple_unescape_plain _ _ Ee) as (? & ? & ? & ?).
      rewrite !esc_html_plain by done.
      assert (e ≠ "u"%char) by (intros ->; vm_compute in Ee; discriminate Ee).
      rewrite !low_surrogate_other by (by right). done. }
    case_bool_decide as Hu; [|done]. subst. destruct r1 as [|a [|b [|c [|d r2]]]]; try done.
    intros [Hh%bool_decide_eq_true Hr]%andb_true_iff.
    destruct (hex4_plain _ _ _ _ Hh) as (? & ? & ? & ? & Ea & Eb & Ec & Ed).
    apply hex_char_plain in Ea as (? & ? & ? & ?), Eb as (? & ? & ? & ?),
      Ec as (? & ? & ? & ?), Ed as (? & ? & ? & ?).
    rewrite !esc_html_plain by done. split; [done|]. intros _ _. by eexists _, _, _, _, _, _, r2.
  - intros [_ Hr]%andb_true_iff. rewrite (low_surrogate_none rr p r) by done. split; [|done].
    cbn [esc_html]. case_bool_decide as Hh.
    { rewrite <- (byte_of_val p). destruct Hh as [-> | [-> | ->]]; apply low_surrogate_escape; vm_compute; done. }
    destruct r as [|b [|c r3]]; [by apply low_surrogate_none..|].
    case_bool_decide as Hs; [|by apply low_surrogate_none].
    destruct Hs as (Ha & Hb' & Hc). unfold esc_three. rewrite bool_decide_eq_true_2 by done.
    destruct Hc as [-> | ->]; apply low_surrogate_escape; vm_compute; done.
Qed.

Lemma unquote_esc_html s : wf_raw s = true → unquote (esc_html s) = unquote s.
Proof.
  string_induction s as IH. destruct s as [|p r]; [done|]. intros Hwf. pose proof Hwf as Hwf0. revert Hwf.
  cbn [wf_raw]. case_bool_decide as Hq; [done|]. case_bool_decide as Hb.
  - subst p. destruct r as [|e r1]; [done|]. destruct (simple_unescape e) as [u|] eqn:Ee.
    { intros Hr. destruct (simple_unescape_plain _ _ Ee) as (? & ? & ? & ?).
      rewrite !esc_html_plain by done. cbn [unquote]. rewrite bool_decide_eq_true_2, Ee by done.
      f_equal. apply IH; [simpl; lia|done]. }
    case_bool_decide as Hu; [|done]. subst. destruct r1 as [|a [|b [|c [|d r2]]]]; try done.
    intros [Hh%bool_decide_eq_true Hr]%andb_true_iff.
    destruct (hex4_plain _ _ _ _ Hh) as (? & ? & ? & ? & Ea & Eb & Ec & Ed).
    apply hex_char_plain in Ea as (? & ? & ? & ?), Eb as (? & ? & ? & ?),
      Ec as (? & ? & ? & ?), Ed as (? & ? & ? & ?).
    rewrite !esc_html_plain by done. cbn [unquote]. rewrite bool_decide_eq_true_2, Ee by done.
    cbn zeta. destruct (is_surrogate _); [|f_equal; apply IH; [simpl; lia|done]].
    destruct (low_surrogate_esc (default 0 (hex4 a b c d)) r2 Hr) as [-> Hlow].
    destruct (low_surrogate (default 0 (hex4 a b c d)) r2) as [rune|] eqn:El.
    + destruct (Hlow _ eq_refl) as (? & ? & ? & ? & ? & ? & r3 & -> & -> & Hr3). f_equal.
      apply IH; [simpl; lia|done].
    + f_equal. apply IH; [simpl; lia|done].
  - intros [Hp%bool_decide_eq_true Hr]%andb_true_iff. cbn [esc_html].
    assert (unquote (String p (esc_html r)) = unquote (String p r)) as Hkept.
    { apply unquote_kept; [done| |done]. intros q Hl. apply IH. simpl. lia. }
    case_bool_decide as Hh.
    { assert (byte_val p < 128) as Hlt by lia. rewrite unquote_esc_ascii by done.
      rewrite <- Hkept. cbn [unquote]. rewrite bool_decide_eq_false_2 by done.
      by rewrite (proj2 (utf8_width_1 p _) Hlt). }
    destruct r as [|b [|c r3]]; [done|done|]. case_bool_decide as Hs; [|done].
    assert (utf8_width (String p (String b (String c ""))) = 3%nat) as Hw.
    { destruct Hs as (H1 & H2 & H3). rewrite <- (byte_of_val p), <- (byte_of_val b), <- (byte_of_val c), H1, H2.
      by destruct H3 as [-> | ->]. }
    rewrite unquote_esc_three, unquote_plain_3 by done. do 3 f_equal. apply IH; [simpl; lia|].
    by rewrite !wf_raw_high in Hr by lia.
Qed.

(** ** Decoders do not see the escaping *)

Definition blind {A} (dec : jv → option A) : Prop := ∀ v, wf_jv v = true → dec (esc_jv v) = dec v.

Lemma blind_string old : blind (dec_string old).
Proof. intros []; try done. intros H. simpl. by rewrite unquote_esc_html. Qed.
Lemma blind_u64 old : blind (dec_u64 old).
Proof. by intros []. Qed.
Lemma blind_i64 old : blind (dec_i64 old).
Proof. by intros []. Qed.
Lemma blind_bool old : blind (dec_bool old).
Proof. by intros []. Qed.

Lemma wf_members ms :
  wf_jv (VObj ms) = true → Forall (λ e, wf_raw e.1 = true ∧ wf_jv e.2 = true) ms.
Proof.
  simpl. rewrite forallb_forall. intros H. apply Forall_forall. intros [k x] Hin%list_elem_of_In.
  specialize (H _ Hin). simpl in H. by apply andb_true_iff in H.
Qed.

Lemma wf_elems vs : wf_jv (VArr vs) = true → Forall (λ v, wf_jv v = true) vs.
Proof.
  simpl. rewrite forallb_forall. intros H. apply Forall_forall. intros x Hin%list_elem_of_In. by apply H.
Qed.

Lemma blind_slice {A} (zero : A) dec : blind (dec zero) → blind (dec_slice zero dec).
Proof.
  intros Hd [| | | |vs|]; try done. intros H%wf_elems. simpl.
  induction H as [|v vs Hv _ IH]; [done|]. simpl. rewrite Hd by done. simpl in IH. by rewrite IH.
Qed.

Lemma blind_map_u64 old : blind (dec_map_u64 old).
Proof.
  intros [| | | | |ms]; try done. intros H%wf_members. simpl. f_equal.
  generalize (Some (default ∅ old : gmap string Z)) as m.
  induction H as [|[k v] ms [Hk Hv] _ IH]; intros m; [done|]. simpl in *.
  rewrite unquote_esc_html by done. rewrite (blind_u64 0 v) by done. apply IH.
Qed.

Lemma blind_members {A} (fields : list (field A)) old :
  Forall (λ f : field A, ∀ a, blind (f.2 a)) fields → blind (dec_struct fields old).
Proof.
  intros Hf [| | | | |ms]; try done. intros H%wf_members. simpl. unfold dec_members.
  generalize (Some old) as m.
  induction H as [|[k v] ms [Hk Hv] _ IH]; intros m; [done|]. simpl in *.
  rewrite unquote_esc_html by done. rewrite IH. f_equal. destruct m as [a|]; [|done]. simpl.
  destruct (resolve fields (unquote k)) as [store|] eqn:Er; [|done].
  apply resolve_elem in Er as [name Hin]. rewrite Forall_forall in Hf. by apply (Hf _ Hin a).
Qed.

Section Any.
Context `{F : FloatFmt}.

Lemma blind_any : blind any_of.
Proof.
  intros v. induction v as [|b|lit|raw|vs IH|ms IH] using jv_tree_ind; try done.
  - intros H. simpl. by rewrite unquote_esc_html.
  - intros H%wf_elems. simpl. f_equal. induction IH as [|v vs Hv _ IHvs]; [done|].
    apply Forall_cons in H as [H1 H2]. simpl. rewrite Hv, IHvs by done. done.
  - intros H%wf_members. simpl. f_equal. generalize (@nil (string * anyv)) as acc.
    induction IH as [|[k v] ms Hv _ IHms]; intros acc; [done|].
    apply Forall_cons in H as [[H1 H1'] H2]. simpl in *. rewrite Hv, unquote_esc_html by done.
    destruct (any_of v); [|done]. simpl. by apply IHms.
Qed.

Lemma blind_map_any old : blind (dec_map_any old).
Proof.
  intros [| | | | |ms]; try done. intros H%wf_members. simpl. f_equal.
  generalize (default [] old) as acc.
  induction H as [|[k v] ms [Hk Hv] _ IH]; intros acc; [done|]. simpl in *.
  rewrite blind_any, unquote_esc_html by done. destruct (any_of v); [|done]. simpl. by apply IH.
Qed.
End Any.

(** A payload as the node that receives it decodes it. *)
Lemma decode_transit {A} (dec : A → jv → option A) zero raw v :
  blind (dec zero) → raw ≠ "" → enc_raw raw = Some v → Unmarshal dec zero (print v) = Unmarshal dec zero raw.
Proof.
  intros Hd Hne He. pose proof (wf_enc_raw _ _ He) as Hwf. unfold enc_raw in He.
  rewrite bool_decide_eq_false_2 in He by done. destruct (parse raw) as [v0|] eqn:E; [|done].
  injection He as <-. unfold Unmarshal. rewrite parse_print by done. rewrite E. simpl.
  apply Hd. by eapply parse_wf.
Qed.

Lemma blind_bind {A B} (d : jv → option A) (g : A → option B) : blind d → blind (λ v, x ← d v; g x).
Proof. intros Hd v Hv. by rewrite Hd. Qed.

#[local] Ltac solve_blind :=
  apply blind_members; repeat (apply Forall_cons; split); try apply Forall_nil; try done;
  intros ?; cbn [snd]; apply blind_bind;
  first [ apply blind_string | apply blind_u64 | apply blind_i64 | apply blind_bool
        | apply blind_map_u64 | apply blind_map_any | apply blind_slice, blind_string ].

Section Payloads.
Context `{F : FloatFmt}.

Lemma blind_payloads :
  blind (TransferPayload_dec TransferPayload_zero) ∧ blind (MintAssetPayload_dec MintAssetPayload_zero) ∧
  blind (BurnAssetPayload_dec BurnAssetPayload_zero) ∧
  blind (TransferAssetPayload_dec TransferAssetPayload_zero) ∧
  blind (RegisterTemplatePayload_dec RegisterTemplatePayload_zero) ∧
  blind (SessionOpenPayload_dec SessionOpenPayload_zero) ∧
  blind (SessionResultPayload_dec SessionResultPayload_zero) ∧
  blind (ListMarketPayload_dec ListMarketPayload_zero) ∧ blind (BuyMarketPayload_dec BuyMarketPayload_zero).
Proof. split_and!; solve_blind. Qed.
End Payloads.

(** ** Execution does not see it either *)

Section Execution.
Context `{F : FloatFmt, FL : !FloatLaws, C : Crypto, O : MapOrder}.

(** A transaction without payload never succeeds. *)
Lemma no_payload typ (h : Handler AbsState) ctx s s' :
  (typ, h) ∈ handler_list → h ctx "" s ≠ (s', Ret tt).
Proof.
  intros Hin E. unfold handler_list in Hin. rewrite !elem_of_cons, elem_of_nil in Hin.
  destruct Hin as [[= -> ->]|[[= -> ->]|[[= -> ->]|[[= -> ->]|[[= -> ->]|[[= -> ->]|[[= -> ->]|
    [[= -> ->]|[[= -> ->]|[]]]]]]]]]]; revert E;
    unfold handleMintAsset, handleBurnAsset, handleTransferAsset, handleRegisterTemplate, handleTransfer,
      handleListMarket, handleBuyMarket, handleSessionOpen, handleSessionResult;
    intros (? & ? & H & _)%bind_Ret_inv; unfold decode_payload in H;
    apply wrap_Ret_inv in H; apply liftO_Ret_inv in H as [H _]; vm_compute in H; discriminate H.
Qed.

Lemma handler_transit typ (h : Handler AbsState) b b' tx v em :
  (typ, h) ∈ handler_list → blk_Header b' = blk_Header b →
  tx_Payload tx ≠ "" → enc_raw (tx_Payload tx) = Some v →
  h (mkContext b' (with_payload tx (print v)) em) (print v) = h (mkContext b tx em) (tx_Payload tx).
Proof.
  intros Hin Hb Hne He. destruct b as [hd txs hs sg], b' as [hd' txs' hs' sg']. simpl in Hb. subst hd'.
  pose proof blind_payloads as (B1 & B2 & B3 & B4 & B5 & B6 & B7 & B8 & B9).
  unfold handler_list in Hin. rewrite !elem_of_cons, elem_of_nil in Hin.
  destruct Hin as [[= -> ->]|[[= -> ->]|[[= -> ->]|[[= -> ->]|[[= -> ->]|[[= -> ->]|[[= -> ->]|
    [[= -> ->]|[[= -> ->]|[]]]]]]]]]];
    unfold handleMintAsset, handleBurnAsset, handleTransferAsset, handleRegisterTemplate, handleTransfer,
      handleListMarket, handleBuyMarket, handleSessionOpen, handleSessionResult, decode_payload;
    erewrite decode_transit by eassumption; reflexivity.
Qed.

Lemma run_tx_transit b b' tx tx' w w' :
  block_ok b → is_u64 (tx_Fee tx) → wf_world w → blk_Header b' = blk_Header b →
  in_transit (Some tx) (Some tx') → run_tx b tx w = (w', Ret tt) → run_tx b' tx' w = (w', Ret tt).
Proof.
  intros Hb Hf Hw Hh (v & He & ->) Hr.
  destruct (run_tx_inv _ _ _ _ Hb Hf Hw Hr) as (_ & _ & _ & _ & _ & h & s' & Hin & _ & Hh').
  assert (tx_Payload tx ≠ "") as Hne.
  { intros E. rewrite E in Hh'. by eapply no_payload. }
  rewrite <- Hr. unfold run_tx. rewrite (tx_Verify_with_payload _ _ He).
  destruct (tx_Verify tx); [|done..]. unfold applyTx.
  assert (charge b' (with_payload tx (print v)) = charge (W := AbsState) b tx) as ->.
  { unfold charge. by rewrite Hh. }
  unfold reg_Execute. cbn [ex_registry ex_emitter abs_executor tx_Type tx_Payload with_payload].
  destruct (reg_handlers globalRegistry !! tx_Type tx) as [h0|] eqn:E; [|done].
  rewrite globalRegistry_eq in E. apply elem_of_list_to_map_2 in E.
  unfold mbind, M_bind. destruct (charge b tx (mkAbs w [])) as [s [[]| |]]; [|done..].
  by rewrite (handler_transit _ _ b b' tx v None E Hh Hne He).
Qed.

(** Execution does not look at the state root, which is not known yet. *)
Lemma handler_root typ (h : Handler AbsState) b b' r tx em payload :
  (typ, h) ∈ handler_list → blk_Header b' = set_StateRoot (blk_Header b) r →
  h (mkContext b' tx em) payload = h (mkContext b tx em) payload.
Proof.
  intros Hin Hb. destruct b as [[] txs hs sg], b' as [hd' txs' hs' sg']. simpl in Hb. subst hd'.
  unfold handler_list in Hin. rewrite !elem_of_cons, elem_of_nil in Hin.
  by destruct Hin as [[= -> ->]|[[= -> ->]|[[= -> ->]|[[= -> ->]|[[= -> ->]|[[= -> ->]|[[= -> ->]|
    [[= -> ->]|[[= -> ->]|[]]]]]]]]]].
Qed.

Lemma run_tx_root b b' r tx w :
  blk_Header b' = set_StateRoot (blk_Header b) r → run_tx b' tx w = run_tx b tx w.
Proof.
  intros Hb. unfold run_tx, applyTx.
  assert (charge b' tx = charge (W := AbsState) b tx) as -> by (unfold charge; by rewrite Hb).
  unfold reg_Execute. cbn [ex_registry ex_emitter abs_executor].
  destruct (reg_handlers globalRegistry !! tx_Type tx) as [h0|] eqn:E; [|done].
  rewrite globalRegistry_eq in E. apply elem_of_list_to_map_2 in E.
  unfold mbind, M_bind. destruct (charge b tx (mkAbs w [])) as [s [[]| |]]; [|done..].
  by rewrite (handler_root _ _ b b' r tx None (tx_Payload tx) E Hb).
Qed.

Lemma run_txs_root b b' r txs w :
  blk_Header b' = set_StateRoot (blk_Header b) r → run_txs b' txs w = run_txs b txs w.
Proof.
  intros Hb. revert w. induction txs as [|[tx|] txs IH]; intros w; [done| |done].
  cbn [run_txs deref]. rewrite (run_tx_root b b' r tx w Hb). by destruct (run_tx b tx w) as [w1 [[]| |]].
Qed.

Definition fees_ok (txs : list (option Transaction)) : Prop :=
  Forall (λ p, match p with Some t => is_u64 (tx_Fee t) | None => True end) txs.

Lemma run_txs_transit b b' txs txs' w w' :
  block_ok b → fees_ok txs → wf_world w → blk_Header b' = blk_Header b →
  Forall2 in_transit txs txs' → run_txs b txs w = (w', Ret tt) → run_txs b' txs' w = (w', Ret tt).
Proof.
  intros Hb Hf Hw Hh Ht. revert w Hw. induction Ht as [|p p' txs txs' Hp _ IH]; intros w Hw; [done|].
  apply Forall_cons in Hf as [Hfp Hf]. destruct p as [tx|]; [|done]. destruct p' as [tx'|]; [|done].
  cbn [run_txs deref]. destruct (run_tx b tx w) as [w1 [[]|e|m]] eqn:E; [|done..].
  intros Hr. rewrite (run_tx_transit _ _ _ _ _ _ Hb Hfp Hw Hh Hp E). apply IH; [done| |done].
  by eapply run_tx_wf.
Qed.
End Execution.

(** ** What [json.Marshal] writes is written again as it is *)

Definition escaped (v : jv) : Prop := esc_jv v = v.

Lemma escaped_string s : escaped (enc_string s).
Proof. unfold escaped. simpl. by rewrite esc_html_quote. Qed.
Lemma escaped_int z : escaped (enc_int z).
Proof. done. Qed.
Lemma escaped_raw raw v : enc_raw raw = Some v → escaped v.
Proof.
  unfold enc_raw, escaped. case_bool_decide; [by intros [= <-]|].
  destruct (parse raw); [|done]. intros [= <-]. apply esc_jv_idem.
Qed.
Lemma escaped_arr l : Forall escaped l → escaped (VArr l).
Proof. intros H. unfold escaped. simpl. f_equal. by induction H as [|v l Hv _ IH]; simpl; [|rewrite Hv, IH]. Qed.
Lemma escaped_obj ms : Forall (λ m, esc_html m.1 = m.1 ∧ escaped m.2) ms → escaped (VObj ms).
Proof.
  intros H. unfold escaped. simpl. f_equal.
  induction H as [|[k v] l [Hk Hv] _ IH]; simpl in *; [done|]. by rewrite Hk, Hv, IH.
Qed.

(** Marshalled text used as a raw message denotes the same tree. *)
Lemma enc_raw_self v : wf_jv v = true → escaped v → enc_raw (print v) = Some v.
Proof.
  intros Hw He. unfold enc_raw. rewrite bool_decide_eq_false_2.
  - rewrite parse_print by done. simpl. by rewrite He.
  - intros E. pose proof (print_length_pos v Hw) as Hl. rewrite E in Hl. simpl in Hl. lia.
Qed.

Ltac solve_escaped :=
  apply escaped_obj; repeat (apply Forall_cons; split; [split; [reflexivity|]|]); [..|apply Forall_nil; done];
  cbn [snd]; eauto using escaped_string, escaped_int, escaped_raw.

Lemma escaped_Transaction t v : Transaction_enc t = Some v → escaped v.
Proof. intros (p & Hp & [= <-])%bind_Some. solve_escaped. Qed.

Lemma escaped_txs txs vs : mapM enc_tx_ptr txs = Some vs → Forall escaped vs.
Proof.
  intros H%mapM_Some. induction H as [|p v txs vs Hp _ IH]; constructor; [|done].
  destruct p as [t|]; [by eapply escaped_Transaction|by injection Hp as <-].
Qed.

Lemma escaped_Block b v : Block_enc b = Some v → escaped v.
Proof.
  intros (txs & Ht & [= <-])%bind_Some. solve_escaped; [|by eapply escaped_arr, escaped_txs].
  unfold BlockHeader_enc. solve_escaped.
Qed.

(** ** Blocks *)

Section Blocks.
Context `{C : Crypto}.

Lemma Transaction_enc_transit p p' : in_transit p p' → enc_tx_ptr p' = enc_tx_ptr p.
Proof.
  destruct p as [t|], p' as [t'|]; try done. intros (v & He & ->). simpl. unfold Transaction_enc. simpl.
  by rewrite (enc_raw_print _ _ He), He.
Qed.

Lemma marshal_transit b b' : block_in_transit b b' → marshal_block b' = marshal_block b.
Proof.
  intros [Hh Hhs Hsg Ht]. unfold marshal_block, Block_enc. rewrite Hh, Hhs, Hsg.
  assert (mapM enc_tx_ptr (blk_Transactions b') = mapM enc_tx_ptr (blk_Transactions b)) as ->; [|done].
  induction Ht as [|p p' txs txs' Hp _ IH]; [done|]. simpl. by rewrite (Transaction_enc_transit _ _ Hp), IH.
Qed.

Lemma ComputeHash_transit b b' : block_in_transit b b' → ComputeHash b' = ComputeHash b.
Proof. intros [Hh _ _ _]. unfold ComputeHash. by rewrite Hh. Qed.

Lemma valid_transit b b' : block_in_transit b b' → valid_Block b → valid_Block b'.
Proof.
  intros [Eh Ehs Esg Et] (H1 & H2 & H3 & H4). unfold valid_Block. rewrite Eh, Ehs, Esg.
  split_and!; try done. induction Et as [|p p' txs txs' Hp _ IH]; [constructor|].
  apply Forall_cons in H2 as [Hv H2]. constructor; [|by apply IH].
  destruct p as [t|], p' as [t'|]; try done. by destruct Hp as (v & _ & ->).
Qed.

Lemma good_transit b b' : block_in_transit b b' → good_block b → good_block b'.
Proof.
  intros Ht [Hv Hh]. split; [by eapply valid_transit|].
  rewrite (ComputeHash_transit _ _ Ht). by rewrite (bt_hash _ _ Ht).
Qed.

(** The tip as it was read back stands for the tip. *)
Lemma bc_ok_transit {D} `{HD : DB D, HDR : DBRep D} (bc : Blockchain D) l t t' :
  bc_ok bc (l ++ [t]) → block_in_transit t t' →
  bc_ok (mkBlockchain (bc_store bc) (Some t') (bc_height bc)) (l ++ [t']).
Proof.
  intros [Hr Hl Hg Ht Hh] Hit. pose proof (marshal_transit _ _ Hit) as Hm. pose proof Hit as [Eh Ehs _ _].
  split; simpl.
  - destruct Hr as [Hb Hhs Htip Ho]. rewrite last_snoc in Htip. split.
    + intros b [Hin| ->%list_elem_of_singleton]%elem_of_app; [apply Hb; set_solver|].
      destruct (Hb t) as (data & Hd & Hk); [set_solver|]. exists data. by rewrite Hm, Ehs.
    + intros b [Hin| ->%list_elem_of_singleton]%elem_of_app; [apply Hhs; set_solver|].
      rewrite Eh, Ehs. apply Hhs. set_solver.
    + rewrite last_snoc. simpl. by rewrite Ehs.
    + intros z h (b & [Hb'| ->%list_elem_of_singleton]%elem_of_app & <-)%Ho; [set_solver|].
      exists t'. rewrite Eh. set_solver.
  - apply linked_app. apply linked_app in Hl. by rewrite Eh.
  - apply Forall_app in Hg as [Hg1 Hg2]. apply Forall_app. split; [done|].
    apply Forall_singleton, (good_transit t); [done|]. exact (Forall_inv Hg2).
  - by rewrite last_snoc.
  - intros x. rewrite last_snoc. intros [= <-]. rewrite Eh. apply Hh. by rewrite last_snoc.
Qed.
End Blocks.

(** ** What [json.Unmarshal] builds is well-formed *)

Lemma dec_i64_range old v z : is_i64 old → dec_i64 old v = Some z → is_i64 z.
Proof.
  destruct v; simpl; try done; [by intros ? [= <-]|]. intros _. unfold ParseInt.
  intros (i & _ & Hz)%bind_Some. revert Hz. by case_bool_decide; intros [= <-].
Qed.

#[local] Ltac solve_decoded :=
  repeat (apply Forall_cons; split; [|]); [..|apply Forall_nil; done];
  intros r y b Hr (x & Hx & [= <-])%bind_Some;
  match goal with |- ?P _ => unfold P in * end; simpl in *; destruct_and?; split_and?;
  eauto using dec_string_valid, dec_u64_range, dec_i64_range.

Lemma Transaction_dec_valid old v t :
  valid_Transaction old → Transaction_dec old v = Some t → valid_Transaction t.
Proof. intros Hold. apply dec_struct_invariant; [done|]. solve_decoded. Qed.

Lemma Transaction_zero_valid : valid_Transaction Transaction_zero.
Proof. by split_and!. Qed.

Lemma Transaction_read_valid data t : Unmarshal Transaction_dec Transaction_zero data = Some t → valid_Transaction t.
Proof. intros (v & _ & H)%bind_Some. eapply Transaction_dec_valid, H. apply Transaction_zero_valid. Qed.

Lemma BlockHeader_dec_valid old v h :
  valid_BlockHeader old → BlockHeader_dec old v = Some h → valid_BlockHeader h.
Proof. intros Hold. apply dec_struct_invariant; [done|]. solve_decoded. Qed.

Lemma dec_tx_ptrs_valid v l :
  dec_tx_ptrs v = Some l → Forall (λ p, match p with Some t => valid_Transaction t | None => True end) l.
Proof.
  destruct v as [| | | |vs|]; simpl; try done; [by intros [= <-]|]. intros H%mapM_Some.
  induction H as [|p v l vs Hp _ IH]; constructor; [|done].
  assert (p = VNull ∨ dec_tx_ptr p = Some <$> Transaction_dec Transaction_zero p) as [->|E]
    by (destruct p; auto); [by injection Hp as <-|].
  rewrite E in Hp. apply fmap_Some in Hp as (t & Ht & ->).
  by eapply Transaction_dec_valid, Ht; apply Transaction_zero_valid.
Qed.

Lemma Block_dec_valid v b : Block_dec Block_zero v = Some b → valid_Block b.
Proof.
  apply dec_struct_invariant; [by split_and!|].
  repeat (apply Forall_cons; split; [|]); [..|apply Forall_nil; done];
    intros r y b' (Hr1 & Hr2 & Hr3 & Hr4) (x & Hx & [= <-])%bind_Some; split_and!; simpl; try done;
    eauto using dec_string_valid, BlockHeader_dec_valid, dec_tx_ptrs_valid.
Qed.

Lemma valid_block_ok b : valid_Block b → block_ok b.
Proof. intros [Hv _]. unfold valid_BlockHeader in Hv. destruct_and!. by split. Qed.

Section Received.
Context {W : Type} `{F : FloatFmt, FL : !FloatLaws, C : Crypto, O : MapOrder}.
Context `{HS : State W, HR : Represents W, HL : !StateLaws W}.

(** C27: whatever text a block is read from, its fields have the ranges of their
    Go types, and executing it, to the end or up to an error, over any
    implementation of the state leaves a well-typed world: every object under
    its own key, every text valid UTF-8, every number in the range of its
    type. *)
Theorem received_block_well_typed e data b w w' o :
  executor_ok e → st_inv w → Unmarshal Block_dec Block_zero data = Some b →
  ExecuteBlock e b w = (w', o) →
  valid_Block b ∧ st_inv w' ∧ wf_world (world_at w').
Proof.
  intros He Hw (v & _ & Hv%Block_dec_valid)%Unmarshal_Some E. split; [done|].
  destruct (ExecuteBlock_ref _ _ _ _ _ He (valid_block_ok _ Hv) Hw E) as [Hw' _].
  split; [done|]. exact (proj1 (st_wf w' Hw')).
Qed.
End Received.
