(* ===== verification/Node.v ===== *)
(** * The mutable state of a node

    [src/cmd/node/main.go] gives one key-value store to the state database, to
    the block store and to the indexer; they are told apart by the prefixes of
    their keys.  [Node] is that store under the write buffer of the state
    database, with the tip the blockchain caches, the mempool, and whether the
    process has ended.  The node offers [core.State]; writes under other
    prefixes leave the world alone, and the state database leaves the blocks
    alone. *)
From Stdlib Require Import Ascii Lia ZArith.
From stdpp Require Import base gmap strings list.
From S2P Require Import Prelude Crypto Json JsonFacts JsonParse JsonTyped Types Transaction Block.
From S2P Require Import State DB StateDB Executor Mempool Blockchain.

Record Node (D : Type) : Type := mkNode {
  nd_state : StateDB D;
  nd_tip : option Block;
  nd_height : Z;
  nd_pool : Mempool;
  nd_exited : bool
}.
Arguments mkNode {D}.
Arguments nd_state {D}.
Arguments nd_tip {D}.
Arguments nd_height {D}.
Arguments nd_pool {D}.
Arguments nd_exited {D}.

Section Node.
Context `{C : Crypto, F : FloatFmt, O : MapOrder} {D : Type} `{HD : DB D}.
Implicit Type n : Node D.

Definition set_nd_state (s : StateDB D) n : Node D :=
  mkNode s (nd_tip n) (nd_height n) (nd_pool n) (nd_exited n).
Definition on_state {A} (m : M (StateDB D) A) : M (Node D) A := on_part nd_state set_nd_state m.

(** The store alone. *)
Definition nd_db n : D := sdb_db (nd_state n).
Definition set_nd_db (d : D) n : Node D := set_nd_state (set_db d (nd_state n)) n.
Definition on_db {A} (m : M D A) : M (Node D) A := on_part nd_db set_nd_db m.

(** The blockchain: its store is the shared one. *)
Definition nd_chain n : Blockchain D := mkBlockchain (nd_db n) (nd_tip n) (nd_height n).
Definition set_nd_chain (bc : Blockchain D) n : Node D :=
  mkNode (set_db (bc_store bc) (nd_state n)) (bc_tip bc) (bc_height bc) (nd_pool n) (nd_exited n).
Definition on_chain {A} (m : M (Blockchain D) A) : M (Node D) A := on_part nd_chain set_nd_chain m.

Definition set_nd_pool (m : Mempool) n : Node D :=
  mkNode (nd_state n) (nd_tip n) (nd_height n) m (nd_exited n).
Definition on_pool {A} (m : M Mempool A) : M (Node D) A := on_part nd_pool set_nd_pool m.

(** [log.Fatalf]: the process ends where it stands. *)
Definition fatal {A} (msg : string) : M (Node D) A := λ n,
  (mkNode (nd_state n) (nd_tip n) (nd_height n) (nd_pool n) true, Panic msg).

Definition NewNode (d : D) : Node D := mkNode (NewStateDB d) None 0 NewMempool false.

#[export] Instance Node_State : State (Node D) := {
  GetAccount a := on_state (GetAccount a); SetAccount x := on_state (SetAccount x);
  GetAsset id := on_state (GetAsset id); SetAsset x := on_state (SetAsset x);
  DeleteAsset id := on_state (DeleteAsset id);
  GetTemplate id := on_state (GetTemplate id); SetTemplate x := on_state (SetTemplate x);
  GetSession id := on_state (GetSession id); SetSession x := on_state (SetSession x);
  GetListing id := on_state (GetListing id); SetListing x := on_state (SetListing x);
  Snapshot := on_state Snapshot; RevertToSnapshot id := on_state (RevertToSnapshot id);
  ComputeRoot n := ComputeRoot (nd_state n); Commit := on_state Commit
}.
End Node.

(** ** The node implements the state interface *)

Section NodeLaws.
Context `{C : Crypto, F : FloatFmt, FL : !FloatLaws, O : MapOrder}.
Context {D : Type} `{HD : DB D, HDR : DBRep D, HDL : !DBLaws D}.
Implicit Type n : Node D.

#[export] Instance Node_Rep : Represents (Node D) := {
  st_inv n := st_inv (nd_state n);
  st_abs n := st_abs (nd_state n);
  st_healthy n := st_healthy (nd_state n)
}.

Lemma on_state_ref {A} (Q : A → Prop) (m : M (StateDB D) A) na :
  refines Q m na → refines Q (on_state m) na.
Proof.
  intros Hm n n' o Hn. unfold on_state, on_part. destruct (m (nd_state n)) as [s' o'] eqn:E.
  intros [= <- <-]. exact (Hm _ _ _ Hn E).
Qed.

#[export] Instance Node_ops : StateOpLaws (Node D).
Proof.
  split.
  - intros a Ha. by apply on_state_ref, GetAccount_ref.
  - intros x Hx. by apply on_state_ref, SetAccount_ref.
  - intros id. by apply on_state_ref, GetAsset_ref.
  - intros x Hx. by apply on_state_ref, SetAsset_ref.
  - intros id. by apply on_state_ref, DeleteAsset_ref.
  - intros id. by apply on_state_ref, GetTemplate_ref.
  - intros x Hx. by apply on_state_ref, SetTemplate_ref.
  - intros id. by apply on_state_ref, GetSession_ref.
  - intros x Hx. by apply on_state_ref, SetSession_ref.
  - intros id. by apply on_state_ref, GetListing_ref.
  - intros x Hx. by apply on_state_ref, SetListing_ref.
Qed.

#[export] Instance Node_laws : StateLaws (Node D).
Proof.
  split.
  - apply _.
  - intros n Hn. exact (st_wf (nd_state n) Hn).
  - intros n Hn. destruct (Snapshot_ref (nd_state n) Hn) as (s & E & Hs).
    exists (set_nd_state s n). split; [|exact Hs].
    change (Snapshot n) with (on_state Snapshot n). unfold on_state, on_part. by rewrite E.
  - intros n id Hn. destruct (Revert_ref (nd_state n) id Hn) as (s & o & E & Hs).
    exists (set_nd_state s n), o. split; [|exact Hs].
    change (RevertToSnapshot id n) with (on_state (RevertToSnapshot id) n).
    unfold on_state, on_part. by rewrite E.
  - intros n Hn Hh. exact (Root_ref (nd_state n) Hn Hh).
  - intros n Hn. destruct (Commit_ref (nd_state n) Hn) as (s & o & E & Hs).
    exists (set_nd_state s n), o. split; [|exact Hs].
    change (Commit n) with (on_state Commit n). unfold on_state, on_part. by rewrite E.
Qed.

(** ** Writes under other prefixes *)

Definition same_state_keys (m1 m2 : gmap string string) : Prop :=
  ∀ k, is_state_key k = true → m1 !! k = m2 !! k.

Lemma state_key_prefix p a : p ∈ statePrefixes → is_state_key (p +:+ a) = true.
Proof. intros Hp. apply is_state_key_true. eauto. Qed.

Lemma decode_map_ext {A} p (dec : string → option A) m1 m2 :
  p ∈ statePrefixes → same_state_keys m1 m2 → decode_map p dec m1 = decode_map p dec m2.
Proof.
  intros Hp Hs. apply map_eq. intros a. rewrite !decode_map_lookup, Hs; [done|].
  by apply state_key_prefix.
Qed.

Lemma world_of_ext m1 m2 : same_state_keys m1 m2 → world_of m1 = world_of m2.
Proof. intros Hs. unfold world_of. f_equal; apply decode_map_ext; try done; unfold statePrefixes; set_solver. Qed.

Lemma canonical_ext m1 m2 : same_state_keys m1 m2 → canonical_kv m1 → canonical_kv m2.
Proof.
  intros Hs []. split; intros a v Hv; rewrite <- Hs in Hv; eauto;
    apply state_key_prefix; unfold statePrefixes; set_solver.
Qed.

Lemma overlay_ext dirty deleted m1 m2 :
  same_state_keys m1 m2 → same_state_keys (overlay dirty deleted m1) (overlay dirty deleted m2).
Proof. intros Hs k Hk. by rewrite !overlay_lookup, Hs. Qed.

Lemma buffer_ok_ext m1 m2 b : same_state_keys m1 m2 → buffer_ok m1 b → buffer_ok m2 b.
Proof.
  intros Hs [Hd Hx Hc]. split; [done..|]. eapply canonical_ext; [|exact Hc]. by apply overlay_ext.
Qed.

(** A new store with the same state entries shows the same world. *)
Lemma foreign_db (s : StateDB D) d :
  st_inv s → same_state_keys (db_contents (sdb_db s)) (db_contents d) →
  st_inv (set_db d s) ∧ st_abs (set_db d s) = st_abs s.
Proof.
  intros [Hb Hsn] Hs. split.
  - split; [by eapply buffer_ok_ext|]. simpl. eapply Forall_impl; [exact Hsn|].
    intros b. by apply buffer_ok_ext.
  - simpl. f_equal.
    + apply world_of_ext. unfold visible. simpl. intros k Hk. symmetry. by apply (overlay_ext _ _ _ _ Hs).
    + apply map_ext. intros b. apply world_of_ext. intros k Hk. symmetry. by apply (overlay_ext _ _ _ _ Hs).
Qed.
End NodeLaws.

(** ** The entries of the chain *)

Definition is_chain_key (k : string) : bool :=
  has_prefix "block:" k || has_prefix "height:" k || bool_decide (k = tip_key).

Lemma chain_key_not_state k : is_chain_key k = true → is_state_key k = false.
Proof.
  intros H. destruct (is_state_key k) eqn:E; [|done]. exfalso.
  apply is_state_key_true in E as (p & a & Hp & ->). unfold statePrefixes in Hp.
  unfold is_chain_key, has_prefix in H.
  repeat (apply elem_of_cons in Hp as [->|Hp]; [done|]). by apply elem_of_nil in Hp.
Qed.

Definition same_chain_keys (m1 m2 : gmap string string) : Prop :=
  ∀ k, is_chain_key k = true → m1 !! k = m2 !! k.

Lemma chain_keys h z :
  is_chain_key (block_key h) = true ∧ is_chain_key (height_key z) = true ∧ is_chain_key tip_key = true.
Proof.
  unfold is_chain_key, block_key, height_key, has_prefix. by rewrite !strip_prefix_app, orb_true_r.
Qed.

Lemma chain_rep_ext m1 m2 chain : same_chain_keys m1 m2 → chain_rep m1 chain → chain_rep m2 chain.
Proof.
  intros Hs [Hb Hh Ht Ho]. split.
  - intros b Hin. destruct (Hb b Hin) as (data & Hd & Hl). exists data. split; [done|].
    rewrite <- Hs; [done|]. exact (proj1 (chain_keys _ 0)).
  - intros b Hin. rewrite <- Hs; [by apply Hh|]. exact (proj1 (proj2 (chain_keys "" _))).
  - by rewrite <- Hs.
  - intros z h. rewrite <- Hs; [by apply Ho|]. exact (proj1 (proj2 (chain_keys "" z))).
Qed.

Section NodeChain.
Context `{C : Crypto, CL : !CryptoLaws, F : FloatFmt, FL : !FloatLaws, O : MapOrder}.
Context {D : Type} `{HD : DB D, HDR : DBRep D, HDL : !DBLaws D}.
Implicit Type n : Node D.

Lemma bc_ok_ext n n' chain :
  nd_tip n' = nd_tip n → nd_height n' = nd_height n →
  same_chain_keys (db_contents (nd_db n)) (db_contents (nd_db n')) →
  bc_ok (nd_chain n) chain → bc_ok (nd_chain n') chain.
Proof.
  intros Et Eh Hs [Hr Hl Hg Ht Hh]. split; simpl in *; rewrite ?Et, ?Eh; try done.
  by eapply chain_rep_ext.
Qed.

(** Adding a block writes chain entries only. *)
Lemma AddBlock_frame b n n' o :
  on_chain (AddBlock b) n = (n', o) →
  nd_pool n' = nd_pool n ∧ nd_exited n' = nd_exited n ∧
  nd_state n' = set_db (nd_db n') (nd_state n) ∧
  (∀ k, is_chain_key k = false → db_contents (nd_db n') !! k = db_contents (nd_db n) !! k) ∧
  (db_healthy (nd_db n) → db_healthy (nd_db n')).
Proof.
  unfold on_chain, on_part, AddBlock, liftO, mbind, M_bind, wrap, store_op, on_part. simpl.
  destruct (check_link (nd_chain n) b) as [[]|e|p]; [|intros [= <- <-]; by split_and!..].
  unfold lbs_CommitBlock, mbind, M_bind, liftO.
  destruct (marshal_block b) as [data|e|p]; [|intros [= <- <-]; by split_and!..].
  match goal with |- context [db_Write ?ops ?d] =>
    destruct (Write_law ops d) as (d' & o' & -> & [(-> & Hc & Hh)|(Hu & (e & -> & _) & Hc)]) end;
    intros [= <- <-]; simpl; split_and!; try done; unfold nd_db; simpl; intros k Hk; rewrite Hc; [|done].
  simpl. pose proof (chain_keys (blk_Hash b) (hdr_Height (blk_Header b))) as (H1 & H2 & H3).
  rewrite !lookup_insert_ne; [done|..]; intros E; rewrite <- E in Hk; congruence.
Qed.

Lemma on_chain_AddBlock n n' b o :
  st_inv n → on_chain (AddBlock b) n = (n', o) →
  st_inv n' ∧ st_abs n' = st_abs n ∧ (st_healthy n → st_healthy n').
Proof.
  intros Hn E. destruct (AddBlock_frame _ _ _ _ E) as (_ & _ & Es & Hk & Hh).
  destruct (foreign_db (nd_state n) (nd_db n') Hn) as [H1 H2].
  { intros k Hs. symmetry. apply Hk. destruct (is_chain_key k) eqn:Ek; [|done].
    apply chain_key_not_state in Ek. congruence. }
  unfold st_inv, st_abs, st_healthy, Node_Rep. rewrite Es. split_and!; [done|done|].
  intros H. by apply Hh.
Qed.

Lemma on_chain_AddBlock_ok n n' b chain o :
  bc_ok (nd_chain n) chain → good_block b → on_chain (AddBlock b) n = (n', o) →
  (o = Ret tt ∧ nd_tip n' = Some b ∧
     (bc_ok (nd_chain n') (chain ++ [b]) ∨ collision_in (header_text <$> chain ++ [b]))) ∨
  (o ≠ Ret tt ∧ bc_ok (nd_chain n') chain ∧ nd_tip n' = nd_tip n ∧ nd_height n' = nd_height n).
Proof.
  intros Hok Hg. unfold on_chain, on_part. destruct (AddBlock b (nd_chain n)) as [bc o'] eqn:E.
  intros [= <- <-]. unfold nd_chain at 1. simpl. destruct bc as [d t h].
  destruct (AddBlock_ok _ _ _ _ _ Hok Hg E) as [(-> & Hr)|(Ho & Hr & Ht & Hh)]; [left|right].
  - split; [done|]. split; [|done]. simpl. revert E. unfold AddBlock.
    intros (? & ? & _ & (? & ? & _ & [= <- <- <-])%bind_Ret_inv)%bind_Ret_inv. done.
  - by split_and!.
Qed.

(** A block that links to the tip is stored, on a healthy store. *)
Lemma on_chain_AddBlock_run n b :
  db_healthy (nd_db n) → check_link (nd_chain n) b = Ret tt → is_ret (marshal_block b) = true →
  ∃ n', on_chain (AddBlock b) n = (n', Ret tt).
Proof.
  intros Hh Hc Hm. destruct (on_chain (AddBlock b) n) as [n' o] eqn:E. exists n'. f_equal.
  revert E. unfold on_chain, on_part, AddBlock, liftO, mbind, M_bind, wrap, store_op, on_part. rewrite Hc. simpl.
  unfold lbs_CommitBlock, mbind, M_bind, liftO. destruct (marshal_block b) as [data| |]; [|done..].
  match goal with |- context [db_Write ?ops ?d] =>
    destruct (Write_law ops d) as (d' & o' & -> & [(-> & _)|(Hu & _)]) end; [by intros [= _ <-]|done].
Qed.

(** Nothing is buffered. *)
Definition clean n : Prop :=
  sdb_dirty (nd_state n) = ∅ ∧ sdb_deleted (nd_state n) = ∅ ∧ sdb_snapshots (nd_state n) = [].

(** Flushing the buffer writes state entries only. *)
Lemma Commit_frame n n' o :
  st_inv n → Commit n = (n', o) →
  nd_tip n' = nd_tip n ∧ nd_height n' = nd_height n ∧ nd_pool n' = nd_pool n ∧ nd_exited n' = nd_exited n ∧
  (∀ k, is_state_key k = false → db_contents (nd_db n') !! k = db_contents (nd_db n) !! k) ∧
  (o = Ret tt → clean n').
Proof.
  intros Hn. change (Commit n) with (on_state sdb_Commit n). unfold on_state, on_part.
  pose proof (commit_contents (nd_state n) Hn) as Hv. destruct Hn as [[Hd Hx _] _].
  unfold sdb_Commit.
  match goal with |- context [db_Write ?ops ?d] =>
    destruct (Write_law ops d) as (d' & o' & -> & [(-> & Hc & Hh)|(Hu & (e & -> & _) & Hc)]) end;
    intros [= <- <-]; simpl; split_and!; try done; unfold nd_db; simpl; rewrite ?Hc; try done.
  - intros k Hk. rewrite Hv. unfold visible. rewrite overlay_lookup.
    destruct (sdb_deleted (nd_state n) !! k) as [x|] eqn:Ex.
    { destruct (Hx _ _ Ex) as [_ ?]. congruence. }
    destruct (sdb_dirty (nd_state n) !! k) as [v|] eqn:Ev; [|done].
    destruct (Hd _ _ Ev) as [? _]. congruence.
Qed.

Lemma clean_world n : clean n → st_abs n = mkAbs (world_of (db_contents (nd_db n))) [].
Proof.
  intros (Hd & Hx & Hs). unfold st_abs, Node_Rep, st_abs, StateDB_Rep, visible.
  by rewrite Hd, Hx, Hs, overlay_empty.
Qed.
End NodeChain.
