(* ===== verification/Frame.v ===== *)
(** * What executing a block leaves alone

    The handlers reach the node through the state interface and the emitter
    only.  [keeps P m] says that [m] preserves [P]; a [framed] property is one
    that reads and writes of the state buffer cannot change: it speaks of the
    store under the buffer, the chain, the mempool.  Executing transactions
    preserves every framed property that the subscribers preserve. *)
From Stdlib Require Import Ascii Lia ZArith.
From stdpp Require Import base gmap strings list.
From S2P Require Import Prelude Crypto Json JsonFacts JsonParse JsonTyped Types Transaction Block.
From S2P Require Import State DB StateDB Events Vm Economy AssetModule Market SessionModule.
From S2P Require Import Executor Ledger Invariants Mempool Blockchain Node.

(** Computations that preserve a property of the state. *)
Definition keeps {W A} (P : W → Prop) (m : M W A) : Prop := ∀ w, P w → P (m w).1.

Section Keeps.
Context {W : Type} (P : W → Prop).

Lemma keeps_ret {A} (a : A) : keeps P (mret a).
Proof. by intros w Hw. Qed.
Lemma keeps_fail {A} e : keeps P (fail (A := A) e).
Proof. by intros w Hw. Qed.
Lemma keeps_liftO {A} (o : outcome A) : keeps P (liftO o).
Proof. by intros w Hw. Qed.
Lemma keeps_reject c e : keeps P (reject_if c e).
Proof. destruct c; [apply keeps_fail|apply keeps_ret]. Qed.
Lemma keeps_bind {A B} (m : M W A) (f : A → M W B) :
  keeps P m → (∀ a, keeps P (f a)) → keeps P (m ≫= f).
Proof.
  intros Hm Hf w Hw. specialize (Hm w Hw). unfold mbind, M_bind.
  destruct (m w) as [w1 [a| |]]; [by apply Hf|done..].
Qed.
Lemma keeps_wrap {A} msg (m : M W A) : keeps P m → keeps P (wrap msg m).
Proof. intros Hm w Hw. specialize (Hm w Hw). unfold wrap. by destruct (m w). Qed.
Lemma keeps_attempt {A} (m : M W A) : keeps P m → keeps P (attempt m).
Proof. intros Hm w Hw. specialize (Hm w Hw). unfold attempt. by destruct (m w). Qed.
Lemma keeps_expect_absent {A} (m : M W A) e msg : keeps P m → keeps P (expect_absent m e msg).
Proof.
  intros Hm w Hw. specialize (Hm w Hw). unfold expect_absent.
  destruct (m w) as [w1 [a|e'|]]; [done| |done]. by destruct (is_not_found e').
Qed.
Lemma keeps_for_each {A} (f : A → M W unit) l : (∀ x, x ∈ l → keeps P (f x)) → keeps P (for_each f l).
Proof.
  intros Hf. induction l as [|x l IH]; [apply keeps_ret|].
  apply keeps_bind; [apply Hf; set_solver|]. intros _. apply IH. set_solver.
Qed.
End Keeps.

(** The state operations do not write to the store. *)
Section StoreUntouched.
Context `{C : Crypto, F : FloatFmt, O : MapOrder} {D : Type} `{HD : DB D, HDR : DBRep D, HDL : !DBLaws D}.

Definition store_kept {A} (m : M (StateDB D) A) : Prop := ∀ s, sdb_db (m s).1 = sdb_db s.

Lemma sdb_get_kept k : store_kept (sdb_get k).
Proof.
  intros s. unfold sdb_get, on_part. case_match; [done|]. case_match; [done|].
  by destruct (Get_law k (sdb_db s)) as [->|(_ & e & -> & _)].
Qed.

Lemma get_decoded_kept {A} k (f : string → outcome A) : store_kept (data ← sdb_get k; liftO (f data)).
Proof.
  intros s. pose proof (sdb_get_kept k s) as H. unfold mbind, M_bind.
  by destruct (sdb_get k s) as [s' [| |]].
Qed.

Lemma GetAccount_kept a : store_kept (sdb_GetAccount a).
Proof.
  intros s. pose proof (sdb_get_kept (prefixAccount +:+ a) s) as H. unfold sdb_GetAccount.
  destruct (sdb_get _ s) as [s' [|e|]]; [done| |done]. by destruct (is_not_found e).
Qed.

Lemma Revert_kept id : store_kept (sdb_RevertToSnapshot id).
Proof. intros s. unfold sdb_RevertToSnapshot. case_bool_decide; [done|]. by case_match. Qed.

(** A property that does not speak of the buffer. *)
Definition framed (P : Node D → Prop) : Prop :=
  ∀ n s, sdb_db s = nd_db n → P n → P (set_nd_state s n).

(** Properties of the store are framed. *)
Definition store_prop (Q : D → Prop) (n : Node D) : Prop := Q (nd_db n).
Lemma framed_store Q : framed (store_prop Q).
Proof. intros n s E. unfold store_prop, nd_db in *. simpl. by rewrite E. Qed.

Variable P : Node D → Prop.
Hypothesis HP : framed P.

Lemma keeps_on_state {A} (m : M (StateDB D) A) : store_kept m → keeps P (on_state m).
Proof.
  intros Hm n Hn. specialize (Hm (nd_state n)). unfold on_state, on_part.
  destruct (m (nd_state n)) as [s o]. by apply HP.
Qed.

Lemma keeps_state_ops :
  (∀ a, keeps P (GetAccount a)) ∧ (∀ x, keeps P (SetAccount x)) ∧
  (∀ i, keeps P (GetAsset i)) ∧ (∀ x, keeps P (SetAsset x)) ∧
  (∀ i, keeps P (DeleteAsset i)) ∧
  (∀ i, keeps P (GetTemplate i)) ∧ (∀ x, keeps P (SetTemplate x)) ∧
  (∀ i, keeps P (GetSession i)) ∧ (∀ x, keeps P (SetSession x)) ∧
  (∀ i, keeps P (GetListing i)) ∧ (∀ x, keeps P (SetListing x)) ∧
  keeps P Snapshot ∧ (∀ i, keeps P (RevertToSnapshot i)).
Proof.
  split_and!; intros; apply keeps_on_state;
    first [apply GetAccount_kept | apply get_decoded_kept | apply Revert_kept | by intros s].
Qed.
End StoreUntouched.

(** Decomposes a computation into state operations and emissions. *)
Ltac keep_step :=
  match goal with
  | |- keeps _ (_ ≫= _) => apply keeps_bind; [|intros ?]
  | |- keeps _ (wrap _ _) => apply keeps_wrap
  | |- keeps _ (decode_payload _ _ _ _) => apply keeps_wrap, keeps_liftO
  | |- keeps _ (mret _) => apply keeps_ret
  | |- keeps _ (fail _) => apply keeps_fail
  | |- keeps _ (liftO _) => apply keeps_liftO
  | |- keeps _ (reject_if _ _) => apply keeps_reject
  | |- keeps _ (attempt _) => apply keeps_attempt
  | |- keeps _ (expect_absent _ _ _) => apply keeps_expect_absent
  | |- keeps _ (for_each _ _) => apply keeps_for_each; intros ? _
  | |- keeps _ (if ?b then _ else _) => destruct b
  | |- keeps _ (let _ := _ in _) => cbn zeta
  | H : _ ∧ _ |- _ => destruct H
  | H : ∀ a, keeps _ (?f a) |- keeps _ (?f _) => apply H
  | H : keeps _ ?m |- keeps _ ?m => exact H
  end.

(** What the handlers emit: the players of a session are never a [[]any]. *)
Definition emitted (ev : Event) : Prop :=
  ev_Type ev = EventSessionOpen → ∀ l, ev_Data ev !! "players" ≠ Some (GAnys l).

Section Emissions.
Context `{C : Crypto, F : FloatFmt, O : MapOrder} {D : Type} `{HD : DB D, HDR : DBRep D, HDL : !DBLaws D}.
Variable P : Node D → Prop.
Hypothesis HP : framed P.
Variable em : option (Emitter (Node D)).

Hypothesis Hem : ∀ ev, emitted ev → keeps P (emit em ev).

Lemma handlers_keep typ (h : Handler (Node D)) ctx payload :
  (typ, h) ∈ handler_list → ctx_Emitter ctx = em → keeps P (h ctx payload).
Proof.
  intros Hin Hc. pose proof (keeps_state_ops P HP) as Hops.
  assert (∀ t data, (t = EventSessionOpen → ∀ l, data !! "players" ≠ Some (GAnys l)) →
    keeps P (emit_ctx ctx t data)) as He.
  { intros t data Ht. unfold emit_ctx. rewrite Hc. by apply Hem. }
  unfold handler_list in Hin. rewrite !elem_of_cons, elem_of_nil in Hin.
  destruct Hin as [[= -> ->]|[[= -> ->]|[[= -> ->]|[[= -> ->]|[[= -> ->]|[[= -> ->]|[[= -> ->]|
    [[= -> ->]|[[= -> ->]|[]]]]]]]]]].
  - unfold handleMintAsset. repeat keep_step. by apply He.
  - unfold handleBurnAsset. repeat keep_step. by apply He.
  - unfold handleTransferAsset. repeat keep_step. by apply He.
  - unfold handleRegisterTemplate. repeat keep_step. by apply He.
  - unfold handleTransfer. repeat keep_step. by apply He.
  - unfold handleListMarket. repeat keep_step. by apply He.
  - unfold handleBuyMarket. repeat keep_step. by apply He.
  - unfold handleSessionOpen, lock_stake. repeat keep_step; by apply He.
  - unfold handleSessionResult, pay_reward. repeat keep_step. by apply He.
Qed.

Lemma ExecuteTx_keeps_handler b tx :
  (∀ h, (tx_Type tx, h) ∈ handler_list → keeps P (h (mkContext b tx em) (tx_Payload tx))) →
  keeps P (emit em (tx_event b tx)) →
  keeps P (ExecuteTx (mkExecutor globalRegistry em) b tx).
Proof.
  intros Hh He. pose proof (keeps_state_ops P HP) as Hops. unfold ExecuteTx. repeat keep_step.
  - unfold applyTx, charge. repeat keep_step.
    unfold reg_Execute. cbn [ex_registry ex_emitter]. rewrite globalRegistry_eq.
    destruct (list_to_map handler_list !! tx_Type tx) as [h|] eqn:E; [|apply keeps_fail].
    apply elem_of_list_to_map_2 in E. by apply Hh.
  - destruct a1 as [| |]; repeat keep_step; [|by intros n Hn].
    destruct a1; repeat keep_step. by intros n Hn.
Qed.

Lemma ExecuteTx_keeps b tx :
  keeps P (ExecuteTx (mkExecutor globalRegistry em) b tx).
Proof.
  apply ExecuteTx_keeps_handler; [|by apply Hem]. intros h Hin. by eapply handlers_keep.
Qed.

Lemma ExecuteBlock_keeps b :
  keeps P (ExecuteBlock (mkExecutor globalRegistry em) b).
Proof. unfold ExecuteBlock. repeat keep_step. apply ExecuteTx_keeps. Qed.
End Emissions.
