(* ===== verification/Indexer.v ===== *)
(** * The indexer

    Models [src/indexer/indexer.go] over any [DB]: lists of asset IDs by owner
    and of session IDs by player, kept up to date by subscriptions.  The lists
    are JSON arrays under keys of their own prefix, so the indexer never touches
    the world state. *)
From Stdlib Require Import Ascii Lia ZArith.
From stdpp Require Import base gmap strings list.
From S2P Require Import Prelude Crypto Json JsonFacts JsonParse JsonTyped Types Transaction Block.
From S2P Require Import State DB StateDB Events Vm Economy AssetModule Market SessionModule.
From S2P Require Import Executor Ledger Invariants Mempool Blockchain Node Frame.

Definition prefixOwnerAssets : string := "idx:owner:asset:".
Definition prefixPlayerSession : string := "idx:player:session:".

(** [v, _ := data[key].(string)] and [v, _ := data[key].([]any)]. *)
Definition as_string (o : option goval) : string :=
  match o with Some (GString s) => s | _ => "" end.
Definition as_anys (o : option goval) : list goval :=
  match o with Some (GAnys l) => l | _ => [] end.

(** [var ids []string]: [null] is the nil slice. *)
Definition ids_dec (old : option (list string)) (v : jv) : option (option (list string)) :=
  match v with VNull => Some None | _ => Some <$> dec_strings [] v end.
Definition ids_enc (ids : list string) : string := print (enc_slice enc_string ids).

Section Indexer.
Context {D : Type} `{HD : DB D}.

(** An absent list is nil. *)
Definition idx_getList (key : string) : M D (option (list string)) := λ d,
  match db_Get key d with
  | (d', Ret data) => (d', wrapO "indexer unmarshal" (of_option (EMsg "json") (Unmarshal ids_dec None data)))
  | (d', Fail e) => if is_not_found e then (d', Ret None) else (d', Fail e)
  | (d', Panic p) => (d', Panic p)
  end.

Definition idx_addToList (key value : string) : M D unit :=
  ids ← idx_getList key errorf "read list";
  let ids := default [] ids in
  if bool_decide (value ∈ ids) then mret tt else db_Set key (ids_enc (ids ++ [value])).

Definition idx_removeFromList (key value : string) : M D unit :=
  ids ← idx_getList key errorf "read list";
  match ids with
  | None => mret tt
  | Some ids => db_Set key (ids_enc (filter (λ id, id ≠ value) ids))
  end.

Definition GetAssetsByOwner (owner : string) : M D (option (list string)) :=
  idx_getList (prefixOwnerAssets +:+ owner).
Definition GetSessionsByPlayer (player : string) : M D (option (list string)) :=
  idx_getList (prefixPlayerSession +:+ player).

Definition onAssetMinted (ev : Event) : M D unit :=
  let owner := as_string (ev_Data ev !! "owner") in
  let assetID := as_string (ev_Data ev !! "asset_id") in
  if bool_decide (owner = "" ∨ assetID = "") then mret tt
  else logged (idx_addToList (prefixOwnerAssets +:+ owner) assetID).

Definition onAssetTransferred (ev : Event) : M D unit :=
  let from := as_string (ev_Data ev !! "from") in
  let to := as_string (ev_Data ev !! "to") in
  let assetID := as_string (ev_Data ev !! "asset_id") in
  if bool_decide (assetID = "" ∨ from = "" ∨ to = "") then mret tt
  else
    logged (idx_removeFromList (prefixOwnerAssets +:+ from) assetID);;
    logged (idx_addToList (prefixOwnerAssets +:+ to) assetID).

Definition onAssetBurned (ev : Event) : M D unit :=
  let owner := as_string (ev_Data ev !! "owner") in
  let assetID := as_string (ev_Data ev !! "asset_id") in
  if bool_decide (owner = "" ∨ assetID = "") then mret tt
  else logged (idx_removeFromList (prefixOwnerAssets +:+ owner) assetID).

Definition onSessionOpen (ev : Event) : M D unit :=
  let sessionID := as_string (ev_Data ev !! "session_id") in
  let players := as_anys (ev_Data ev !! "players") in
  if bool_decide (sessionID = "") then mret tt
  else for_each (λ p,
    let player := as_string (Some p) in
    if bool_decide (player = "") then mret tt
    else logged (idx_addToList (prefixPlayerSession +:+ player) sessionID)) players.
End Indexer.

(** [New]: the subscriptions, on the emitter of the node. *)
Definition idx_New {D} `{HD : DB D} (e : Emitter (Node D)) : Emitter (Node D) :=
  Subscribe EventSessionOpen (λ ev, on_db (onSessionOpen ev))
    (Subscribe EventAssetBurned (λ ev, on_db (onAssetBurned ev))
       (Subscribe EventAssetTransfer (λ ev, on_db (onAssetTransferred ev))
          (Subscribe EventAssetMinted (λ ev, on_db (onAssetMinted ev)) e))).

(** ** What the handlers touch *)

Section Facts.
Context {D : Type} `{HD : DB D, HDR : DBRep D, HDL : !DBLaws D}.

(** A computation on the store that changes only entries whose key is in [f]. *)
Definition touches (f : string → bool) (m : M D unit) : Prop := ∀ d,
  (∀ k, f k = false → db_contents (m d).1 !! k = db_contents d !! k) ∧
  (db_healthy d → db_healthy (m d).1).

Lemma touches_ret f : touches f (mret tt).
Proof. by intros d. Qed.

Lemma touches_mono f g m : (∀ k, f k = true → g k = true) → touches f m → touches g m.
Proof.
  intros Hfg Hm d. destruct (Hm d) as [Hk Hh]. split; [|done]. intros k Hg. apply Hk.
  destruct (f k) eqn:E; [|done]. apply Hfg in E. congruence.
Qed.

Lemma touches_logged f m : touches f m → touches f (logged m).
Proof. intros Hm d. specialize (Hm d). unfold logged. by destruct (m d) as [d' [| |]]. Qed.

Lemma touches_seq f m1 m2 : touches f m1 → touches f m2 → touches f (m1;; m2).
Proof.
  intros H1 H2 d. destruct (H1 d) as [Hk Hh]. unfold mbind, M_bind.
  destruct (m1 d) as [d1 [[]| |]]; simpl in *; [|done..]. destruct (H2 d1) as [Hk2 Hh2].
  split; [|by auto]. intros k Hx. by rewrite Hk2, Hk.
Qed.

Lemma touches_Set f k v : f k = true → touches f (db_Set k v).
Proof.
  intros Hk d. destruct (Set_law k v d) as (d' & o & -> & [(_ & Hc & Hh)|(Hu & _ & Hc)]); simpl; rewrite Hc.
  - split; [|done]. intros k' Hk'. rewrite lookup_insert_ne; [done|]. congruence.
  - by split.
Qed.

Lemma touches_bind {A} f (m : M D A) g :
  (∀ d, (m d).1 = d) → (∀ a, touches f (g a)) → touches f (m ≫= g).
Proof.
  intros Hm Hg d. specialize (Hm d). unfold mbind, M_bind.
  destruct (m d) as [d1 [a| |]]; simpl in *; subst; [apply Hg|by split..].
Qed.

Lemma getList_pure key (d : D) : (idx_getList key d).1 = d.
Proof.
  unfold idx_getList. destruct (Get_law key d) as [->|(_ & e & -> & ->)]; [|done].
  by destruct (db_contents d !! key).
Qed.

Lemma getList_wrap_pure msg key (d : D) : (wrap msg (idx_getList key) d).1 = d.
Proof. unfold wrap. pose proof (getList_pure key d). by destruct (idx_getList key d). Qed.

Lemma touches_add f key v : f key = true → touches f (idx_addToList key v).
Proof.
  intros Hk. apply touches_bind; [apply getList_wrap_pure|]. intros ids. cbn zeta.
  case_bool_decide; [apply touches_ret|by apply touches_Set].
Qed.

Lemma touches_remove f key v : f key = true → touches f (idx_removeFromList key v).
Proof.
  intros Hk. apply touches_bind; [apply getList_wrap_pure|].
  intros [ids|]; [by apply touches_Set|apply touches_ret].
Qed.

Lemma touches_for_each {A} f (g : A → M D unit) l :
  (∀ x, touches f (g x)) → touches f (for_each g l).
Proof. intros Hg. induction l as [|x l IH]; [apply touches_ret|]. by apply touches_seq. Qed.

Lemma own_prefix p a : has_prefix p (p +:+ a) = true.
Proof. unfold has_prefix. by rewrite strip_prefix_app. Qed.

(** The handlers of asset events write owner lists, that of session events
    player lists. *)
Lemma asset_handlers_touch ev :
  touches (has_prefix prefixOwnerAssets) (onAssetMinted ev) ∧
  touches (has_prefix prefixOwnerAssets) (onAssetTransferred ev) ∧
  touches (has_prefix prefixOwnerAssets) (onAssetBurned ev).
Proof.
  unfold onAssetMinted, onAssetTransferred, onAssetBurned. cbn zeta.
  split_and!; case_bool_decide; try apply touches_ret;
    repeat first [ apply touches_seq | apply touches_logged | apply touches_add
                 | apply touches_remove | apply own_prefix ].
Qed.

Lemma session_handler_touches ev : touches (has_prefix prefixPlayerSession) (onSessionOpen ev).
Proof.
  unfold onSessionOpen. cbn zeta. case_bool_decide; [apply touches_ret|].
  apply touches_for_each. intros p. cbn zeta. case_bool_decide; [apply touches_ret|].
  apply touches_logged, touches_add, own_prefix.
Qed.

Definition is_index_key (k : string) : bool :=
  has_prefix prefixOwnerAssets k || has_prefix prefixPlayerSession k.
Definition index_only (m : M D unit) : Prop := touches is_index_key m.

Lemma index_only_handlers ev :
  index_only (onAssetMinted ev) ∧ index_only (onAssetTransferred ev) ∧
  index_only (onAssetBurned ev) ∧ index_only (onSessionOpen ev).
Proof.
  destruct (asset_handlers_touch ev) as (H1 & H2 & H3). pose proof (session_handler_touches ev) as H4.
  split_and!; (eapply touches_mono; [|eassumption]); unfold is_index_key; intros k ->;
    [done..|apply orb_true_r].
Qed.

Lemma index_keys_not_state k : is_index_key k = true → is_state_key k = false.
Proof.
  intros H. destruct (is_state_key k) eqn:E; [|done]. exfalso.
  apply is_state_key_true in E as (p & a & Hp & ->). unfold statePrefixes in Hp.
  unfold is_index_key, has_prefix in H.
  repeat (apply elem_of_cons in Hp as [->|Hp]; [done|]). by apply elem_of_nil in Hp.
Qed.

Lemma chain_index_keys k : is_chain_key k = true → is_index_key k = true → False.
Proof.
  intros Hc [H|H]%orb_true_iff; apply has_prefix_true in H as [a ->]; by vm_compute in Hc.
Qed.
End Facts.

Section Silent.
Context `{C : Crypto, F : FloatFmt, FL : !FloatLaws, O : MapOrder}.
Context {D : Type} `{HD : DB D, HDR : DBRep D, HDL : !DBLaws D}.

(** A computation on index entries leaves the world of the node alone. *)
Lemma index_only_silent (m : M D unit) (n : Node D) :
  index_only m → st_inv n →
  st_inv (on_db m n).1 ∧ st_abs (on_db m n).1 = st_abs n ∧ (st_healthy n → st_healthy (on_db m n).1).
Proof.
  intros Hm Hn. destruct (Hm (nd_db n)) as [Hk Hh]. unfold on_db, on_part.
  destruct (m (nd_db n)) as [d o]. simpl in *.
  destruct (foreign_db (nd_state n) d Hn) as [H1 H2]; [|by split].
  intros k Hs. symmetry. apply Hk. destruct (is_index_key k) eqn:E; [|done].
  apply index_keys_not_state in E. congruence.
Qed.

(** Emitters whose subscribers write index entries only. *)
Definition quiet (e : Emitter (Node D)) : Prop :=
  ∀ typ h, h ∈ default [] (em_handlers e !! typ) → ∀ ev, ∃ m, h ev = on_db m ∧ index_only m.

Lemma quiet_new : quiet NewEmitter.
Proof. intros typ h Hin. by apply elem_of_nil in Hin. Qed.

Lemma quiet_subscribe (e : Emitter (Node D)) typ (h : Event → M D unit) :
  (∀ ev, index_only (h ev)) → quiet e → quiet (Subscribe typ (λ ev, on_db (h ev)) e).
Proof.
  intros Hh He typ' h' Hin. unfold Subscribe in Hin. simpl in Hin.
  destruct (decide (typ = typ')) as [<-|Hne].
  - rewrite lookup_insert_eq in Hin. simpl in Hin.
    apply elem_of_app in Hin as [Hin| ->%list_elem_of_singleton]; eauto.
  - rewrite lookup_insert_ne in Hin by done. by apply (He typ').
Qed.

Lemma indexer_quiet (e : Emitter (Node D)) : quiet e → quiet (idx_New e).
Proof.
  intros He. unfold idx_New. repeat (apply quiet_subscribe; [intros ev; apply index_only_handlers|]).
  exact He.
Qed.

Lemma quiet_silent (e : Emitter (Node D)) : quiet e → silent (Some e).
Proof.
  intros He e' typ h ev n [= <-] Hin Hn. destruct (He _ _ Hin ev) as (m & -> & Hm).
  by apply index_only_silent.
Qed.

(** Nodes that differ in their state buffer and in index entries only. *)
Definition same_frame (n0 n : Node D) : Prop :=
  nd_tip n = nd_tip n0 ∧ nd_height n = nd_height n0 ∧ nd_pool n = nd_pool n0 ∧
  nd_exited n = nd_exited n0 ∧
  ∀ k, is_index_key k = false → db_contents (nd_db n) !! k = db_contents (nd_db n0) !! k.

Lemma same_frame_refl n : same_frame n n.
Proof. by split_and!. Qed.

Lemma framed_same_frame n0 : framed (same_frame n0).
Proof.
  intros n s E (H1 & H2 & H3 & H4 & H5). split_and!; try done.
  unfold nd_db in *. simpl. by rewrite E.
Qed.

Lemma quiet_same_frame e ev n0 : quiet e → keeps (same_frame n0) (Emit e ev).
Proof.
  intros He n Hn. apply Emit_preserves; [|done]. intros typ h n1 Hin (H1 & H2 & H3 & H4 & H5).
  destruct (He _ _ Hin ev) as (m & -> & Hm). destruct (Hm (nd_db n1)) as [Hk _].
  unfold on_db, on_part. destruct (m (nd_db n1)) as [d o]. split_and!; try done.
  intros k E. simpl in *. by rewrite Hk, H5.
Qed.

Lemma quiet_clean e ev : quiet e → keeps clean (Emit e ev).
Proof.
  intros He n Hn. apply Emit_preserves; [|done]. intros typ h n1 Hin Hc.
  destruct (He _ _ Hin ev) as (m & -> & _). unfold on_db, on_part. by destruct (m (nd_db n1)).
Qed.
End Silent.

(** ** The owner index *)

Section OwnerIndex.
Context {D : Type} `{HD : DB D, HDR : DBRep D, HDL : !DBLaws D}.
Implicit Types (d : D) (key id owner : string).

(** The IDs a store lists under a key. *)
Definition listed (m : gmap string string) key : list string :=
  match m !! key with
  | Some data => default [] (default None (Unmarshal ids_dec None data))
  | None => []
  end.

(** The lists are as the indexer writes them. *)
Definition index_ok (m : gmap string string) : Prop := ∀ owner data,
  m !! (prefixOwnerAssets +:+ owner) = Some data →
  ∃ ids, data = ids_enc ids ∧ Forall (λ s, valid_utf8 s = true) ids.

Definition owned (m : gmap string string) owner : list string := listed m (prefixOwnerAssets +:+ owner).

Lemma ids_text ids :
  Forall (λ s, valid_utf8 s = true) ids → Unmarshal ids_dec None (ids_enc ids) = Some (Some ids).
Proof.
  intros H. apply Unmarshal_print; [apply wf_enc_strings|]. unfold ids_dec, dec_strings.
  pose proof (dec_enc_strings ids H) as E. unfold enc_slice in *. by rewrite E.
Qed.

Lemma listed_insert m key ids :
  Forall (λ s, valid_utf8 s = true) ids → listed (<[key := ids_enc ids]> m) key = ids.
Proof. intros H. unfold listed. by rewrite lookup_insert_eq, ids_text. Qed.

Lemma listed_insert_ne m key key' data : key ≠ key' → listed (<[key := data]> m) key' = listed m key'.
Proof. intros H. unfold listed. by rewrite lookup_insert_ne. Qed.

Lemma owned_valid m owner : index_ok m → Forall (λ s, valid_utf8 s = true) (owned m owner).
Proof.
  intros Hok. unfold owned, listed. destruct (m !! (prefixOwnerAssets +:+ owner)) as [data|] eqn:E; [|constructor].
  destruct (Hok _ _ E) as (ids & -> & Hv). by rewrite ids_text.
Qed.

Lemma getList_owned d owner :
  db_healthy d → index_ok (db_contents d) →
  ∃ o, idx_getList (prefixOwnerAssets +:+ owner) d = (d, Ret o) ∧ default [] o = owned (db_contents d) owner ∧
    (o = None → owned (db_contents d) owner = []).
Proof.
  intros Hh Hok. unfold idx_getList, owned, listed.
  destruct (Get_law (prefixOwnerAssets +:+ owner) d) as [->|[? _]]; [|done].
  destruct (db_contents d !! (prefixOwnerAssets +:+ owner)) as [data|] eqn:E; simpl; [|by eexists].
  destruct (Hok _ _ E) as (ids & -> & Hv). rewrite ids_text by done. eexists. split; [done|]. by split.
Qed.

Lemma index_ok_insert m owner ids :
  index_ok m → Forall (λ s, valid_utf8 s = true) ids →
  index_ok (<[prefixOwnerAssets +:+ owner := ids_enc ids]> m).
Proof.
  intros Hok Hv owner' data [[_ <-]|[_ H]]%lookup_insert_Some; [by exists ids|]. by eapply Hok.
Qed.

Lemma owned_insert m owner ids owner' :
  Forall (λ s, valid_utf8 s = true) ids →
  owned (<[prefixOwnerAssets +:+ owner := ids_enc ids]> m) owner' =
    if decide (owner = owner') then ids else owned m owner'.
Proof.
  intros Hv. unfold owned. case_decide as E; [subst; by apply listed_insert|].
  apply listed_insert_ne. by intros ?%prefix_inj.
Qed.

Lemma add_owned d owner id :
  db_healthy d → index_ok (db_contents d) → valid_utf8 id = true →
  ∃ d', logged (idx_addToList (prefixOwnerAssets +:+ owner) id) d = (d', Ret tt) ∧ db_healthy d' ∧
    index_ok (db_contents d') ∧
    ∀ o x, x ∈ owned (db_contents d') o ↔ x ∈ owned (db_contents d) o ∨ (o = owner ∧ x = id).
Proof.
  intros Hh Hok Hid. destruct (getList_owned d owner Hh Hok) as (l & E & El & _).
  unfold logged, idx_addToList. erewrite bind_Ret by (apply wrap_Ret_inv; exact E). rewrite El.
  case_bool_decide as Hin.
  { exists d. split_and!; try done. intros o x. split; [by left|]. intros [?|[-> ->]]; done. }
  assert (Forall (λ s, valid_utf8 s = true) (owned (db_contents d) owner ++ [id])) as Hv.
  { apply Forall_app. split; [by apply owned_valid|by apply Forall_singleton]. }
  destruct (Set_law (prefixOwnerAssets +:+ owner) (ids_enc (owned (db_contents d) owner ++ [id])) d)
    as (d' & o & -> & [(-> & Hc & Hh')|(Hu & _)]); [|done].
  exists d'. rewrite Hc. split_and!; [done|by apply Hh'|by apply index_ok_insert|].
  intros o x. rewrite owned_insert by done. case_decide as Eo; [subst o|naive_solver].
  rewrite elem_of_app, list_elem_of_singleton. naive_solver.
Qed.

Lemma remove_owned d owner id :
  db_healthy d → index_ok (db_contents d) →
  ∃ d', logged (idx_removeFromList (prefixOwnerAssets +:+ owner) id) d = (d', Ret tt) ∧ db_healthy d' ∧
    index_ok (db_contents d') ∧
    ∀ o x, x ∈ owned (db_contents d') o ↔ x ∈ owned (db_contents d) o ∧ ¬ (o = owner ∧ x = id).
Proof.
  intros Hh Hok. destruct (getList_owned d owner Hh Hok) as (l & E & El & En).
  unfold logged, idx_removeFromList. erewrite bind_Ret by (apply wrap_Ret_inv; exact E).
  destruct l as [ids|].
  2:{ exists d. split_and!; try done. intros o x. split; [|by intros [? _]]. intros Hx. split; [done|].
      intros [-> _]. rewrite En in Hx by done. by apply elem_of_nil in Hx. }
  simpl in El. subst ids.
  assert (Forall (λ s, valid_utf8 s = true) (filter (λ x, x ≠ id) (owned (db_contents d) owner))) as Hv.
  { pose proof (owned_valid _ owner Hok) as Hall. rewrite Forall_forall in *.
    intros x [_ Hx]%list_elem_of_filter. by apply Hall. }
  destruct (Set_law (prefixOwnerAssets +:+ owner)
    (ids_enc (filter (λ x, x ≠ id) (owned (db_contents d) owner))) d)
    as (d' & o & -> & [(-> & Hc & Hh')|(Hu & _)]); [|done].
  exists d'. rewrite Hc. split_and!; [done|by apply Hh'|by apply index_ok_insert|].
  intros o x. rewrite owned_insert by done. case_decide as Eo; [subst o|naive_solver].
  rewrite list_elem_of_filter. naive_solver.
Qed.

(** What the subscribers do to the lists of a healthy store, for the events the
    handlers emit. *)
Definition before_after d (f : Event → M D unit) ev (change : Prop → string → string → Prop) : Prop :=
  index_ok (db_contents (f ev d).1) ∧
  ∀ o x, x ∈ owned (db_contents (f ev d).1) o ↔ change (x ∈ owned (db_contents d) o) o x.

Lemma minted_event d ev id owner :
  db_healthy d → index_ok (db_contents d) → valid_utf8 id = true → id ≠ "" → owner ≠ "" →
  ev_Data ev !! "asset_id" = Some (GString id) → ev_Data ev !! "owner" = Some (GString owner) →
  before_after d onAssetMinted ev (λ was o x, was ∨ (o = owner ∧ x = id)).
Proof.
  intros Hh Hok Hv Hid Ho Eid Eow. unfold before_after, onAssetMinted. rewrite Eid, Eow. cbn [as_string].
  rewrite bool_decide_eq_false_2 by naive_solver.
  destruct (add_owned d owner id Hh Hok Hv) as (d' & -> & _ & Hok' & H). by split.
Qed.

Lemma burned_event d ev id owner :
  db_healthy d → index_ok (db_contents d) → id ≠ "" → owner ≠ "" →
  ev_Data ev !! "asset_id" = Some (GString id) → ev_Data ev !! "owner" = Some (GString owner) →
  before_after d onAssetBurned ev (λ was o x, was ∧ ¬ (o = owner ∧ x = id)).
Proof.
  intros Hh Hok Hid Ho Eid Eow. unfold before_after, onAssetBurned. rewrite Eid, Eow. cbn [as_string].
  rewrite bool_decide_eq_false_2 by naive_solver.
  destruct (remove_owned d owner id Hh Hok) as (d' & -> & _ & Hok' & H). by split.
Qed.

Lemma transferred_event d ev id from to :
  db_healthy d → index_ok (db_contents d) → valid_utf8 id = true → id ≠ "" → from ≠ "" → to ≠ "" →
  ev_Data ev !! "asset_id" = Some (GString id) → ev_Data ev !! "from" = Some (GString from) →
  ev_Data ev !! "to" = Some (GString to) →
  before_after d onAssetTransferred ev (λ was o x, (was ∧ ¬ (o = from ∧ x = id)) ∨ (o = to ∧ x = id)).
Proof.
  intros Hh Hok Hv Hid Hf Ht Eid Ef Et. unfold before_after, onAssetTransferred. rewrite Eid, Ef, Et. cbn [as_string].
  rewrite bool_decide_eq_false_2 by naive_solver.
  destruct (remove_owned d from id Hh Hok) as (d1 & E1 & Hh1 & Hok1 & H1).
  destruct (add_owned d1 to id Hh1 Hok1 Hv) as (d' & E2 & _ & Hok' & H).
  erewrite bind_Ret by exact E1. rewrite E2. split; [done|]. intros o x. simpl. rewrite H, H1. done.
Qed.
End OwnerIndex.

(** ** Sessions are not indexed *)

Section Sessions.
Context `{C : Crypto, F : FloatFmt, O : MapOrder} {D : Type} `{HD : DB D, HDR : DBRep D, HDL : !DBLaws D}.

Lemma keeps_Subscribe {W} (P : W → Prop) (e : Emitter W) typ h ev :
  keeps P (Emit e ev) → (ev_Type ev = typ → keeps P (h ev)) → keeps P (Emit (Subscribe typ h e) ev).
Proof.
  intros He Hh w Hw. specialize (He w Hw). rewrite Emit_run in He |- *. unfold Subscribe. simpl in *.
  destruct (decide (ev_Type ev = typ)) as [<-|Hne].
  - rewrite lookup_insert_eq. simpl. rewrite foldl_app. by apply Hh.
  - by rewrite lookup_insert_ne.
Qed.

Definition same_sessions (m : gmap string string) (d : D) : Prop :=
  ∀ player, db_contents d !! (prefixPlayerSession +:+ player) = m !! (prefixPlayerSession +:+ player).

Lemma keeps_on_db_owner m (h : M D unit) :
  touches (has_prefix prefixOwnerAssets) h → keeps (store_prop (same_sessions m)) (on_db h).
Proof.
  intros Hh n Hn. destruct (Hh (nd_db n)) as [Hk _]. unfold on_db, on_part.
  destruct (h (nd_db n)) as [d o]. intros player. rewrite <- Hn. by apply Hk.
Qed.

Lemma indexer_keeps_sessions m ev :
  emitted ev → keeps (store_prop (same_sessions m)) (Emit (idx_New NewEmitter) ev).
Proof.
  intros Hev. unfold idx_New. destruct (asset_handlers_touch ev) as (H1 & H2 & H3).
  repeat (apply keeps_Subscribe; [|intros Ht]); try by apply keeps_on_db_owner.
  - by intros n Hn.
  - assert (onSessionOpen ev = (mret tt : M D unit)) as ->; [|by intros n Hn].
    assert (as_anys (ev_Data ev !! "players") = []) as Hp.
    { specialize (Hev Ht). destruct (ev_Data ev !! "players") as [[]|]; naive_solver. }
    unfold onSessionOpen. cbn zeta. rewrite Hp. by case_bool_decide.
Qed.

(** Whatever blocks a node executes, with its indexer subscribed, no list
    of sessions ever changes: the handler of [session_open] emits the players as
    a [[]string], and [onSessionOpen] asks for a [[]any]. *)
Theorem sessions_never_indexed b (n : Node D) player :
  db_contents (nd_db (ExecuteBlock (mkExecutor globalRegistry (Some (idx_New NewEmitter))) b n).1)
    !! (prefixPlayerSession +:+ player) =
  db_contents (nd_db n) !! (prefixPlayerSession +:+ player).
Proof.
  refine (ExecuteBlock_keeps _ (framed_store (same_sessions (db_contents (nd_db n)))) (Some (idx_New NewEmitter)) _ b n _ player).
  - apply indexer_keeps_sessions.
  - by intros p.
Qed.

End Sessions.

(** ** Purchases are not indexed *)

Section Transactions.
Context `{C : Crypto, CL : !CryptoLaws, F : FloatFmt, FL : !FloatLaws, O : MapOrder}.
Context {D : Type} `{HD : DB D, HDR : DBRep D, HDL : !DBLaws D}.

(** The node with its indexer. *)
Definition node_executor : Executor (Node D) :=
  mkExecutor globalRegistry (Some (idx_New NewEmitter)).

Lemma node_executor_ok : executor_ok node_executor.
Proof. split; [apply globalRegistry_ref|]. apply quiet_silent, indexer_quiet, quiet_new. Qed.

(** Event types without a subscriber. *)
Lemma indexer_ignores m ev :
  ev_Type ev = EventMarketBuy ∨ ev_Type ev = EventTxExecuted →
  keeps (store_prop (λ d, db_contents d = m)) (Emit (idx_New NewEmitter) ev).
Proof.
  intros Hev. unfold idx_New. repeat (apply keeps_Subscribe; [|intros Ht; rewrite Ht in Hev; by destruct Hev]).
  by intros n Hn.
Qed.

Lemma buy_handler (h : Handler (Node D)) : (TxBuyMarket, h) ∈ handler_list → h = handleBuyMarket.
Proof.
  unfold handler_list. rewrite !elem_of_cons, elem_of_nil. intros H.
  repeat (destruct H as [[=]|H]; try done).
Qed.

Lemma buy_effect b tx w w' :
  tx_effect b tx w w' → tx_Type tx = TxBuyMarket →
  ∃ lid l a', listings w !! lid = Some l ∧ lst_Active l = true ∧ lst_Seller l ≠ tx_From tx ∧
    assets w' !! lst_AssetID l = Some a' ∧ ast_Owner a' = tx_From tx.
Proof.
  destruct 1 as [| | | | | |p l a Hty Hp Hl Ha Hs| |]; intros Ht;
    try match goal with H : tx_Type tx = _ |- _ => rewrite Ht in H; discriminate H end.
  eexists _, l, _. split_and!; [exact Hl|done|done|simpl; apply lookup_insert_eq|done].
Qed.

(** A purchase hands the asset to the buyer and leaves the whole store,
    the owner lists included, as it was: the indexer does not subscribe to
    purchases, so the asset stays in the list of its former owner. *)
Theorem purchases_not_indexed b tx (n n' : Node D) :
  block_ok b → is_u64 (tx_Fee tx) → st_inv n → st_healthy n → tx_Type tx = TxBuyMarket →
  ExecuteTx node_executor b tx n = (n', Ret tt) →
  db_contents (nd_db n') = db_contents (nd_db n) ∧
  ∃ lid l a', listings (world_at n) !! lid = Some l ∧ lst_Active l = true ∧ lst_Seller l ≠ tx_From tx ∧
    assets (world_at n') !! lst_AssetID l = Some a' ∧ ast_Owner a' = tx_From tx.
Proof.
  intros Hb Hf Hn Hh Ht E. split.
  - assert (keeps (store_prop (λ d, db_contents d = db_contents (nd_db n)))
      (ExecuteTx node_executor b tx)) as Hk; [|specialize (Hk n eq_refl); by rewrite E in Hk].
    apply ExecuteTx_keeps_handler; [apply framed_store| |by apply indexer_ignores; right].
    intros h Hin. rewrite Ht in Hin. apply buy_handler in Hin as ->.
    pose proof (keeps_state_ops _ (framed_store (λ d, db_contents d = db_contents (nd_db n)))) as Hops.
    unfold handleBuyMarket. repeat keep_step. by apply indexer_ignores; left.
  - destruct (ExecuteTx_ref _ _ _ _ _ _ node_executor_ok Hb Hn E) as (_ & _ & [[Hr _]|[Hu _]]); [|done].
    apply run_tx_effect in Hr; [|done|done|by apply st_wf].
    destruct (buy_effect _ _ _ _ Hr Ht) as (lid & l & a' & Hl & Hrest).
    destruct (fee_effect_maps b tx (world_at n)) as (_ & _ & _ & El). rewrite El in Hl. eauto 10.
Qed.

(** ** The owner index follows the transactions *)

(** The subscriber of a type is what an emission runs on the store. *)
Lemma indexer_runs ev (n : Node D) (f : Event → M D unit) :
  (ev_Type ev, f) ∈ [(EventAssetMinted, onAssetMinted); (EventAssetTransfer, onAssetTransferred);
    (EventAssetBurned, onAssetBurned)] →
  nd_db (Emit (idx_New NewEmitter) ev n).1 = (f ev (nd_db n)).1.
Proof.
  rewrite !elem_of_cons, elem_of_nil, Emit_run.
  intros [[= -> ->]|[[= -> ->]|[[= -> ->]|[]]]]; cbn [fst].
  - change (nd_db (on_db (onAssetMinted ev) n).1 = (onAssetMinted ev (nd_db n)).1).
    unfold on_db, on_part. by destruct (onAssetMinted ev (nd_db n)).
  - change (nd_db (on_db (onAssetTransferred ev) n).1 = (onAssetTransferred ev (nd_db n)).1).
    unfold on_db, on_part. by destruct (onAssetTransferred ev (nd_db n)).
  - change (nd_db (on_db (onAssetBurned ev) n).1 = (onAssetBurned ev (nd_db n)).1).
    unfold on_db, on_part. by destruct (onAssetBurned ev (nd_db n)).
Qed.

(** The state operations leave the store as it was. *)
Definition on_store (d : D) : Node D → Prop := store_prop (λ d', d' = d).

#[local] Ltac follow_store :=
  repeat match goal with
  | E : ?m ?x = (?y, _), Hx : on_store ?d ?x |- _ =>
      lazymatch goal with H : on_store d y |- _ => fail | _ => idtac end;
      assert (on_store d y) by
        (let K := fresh in assert (keeps (on_store d) m) as K by auto; specialize (K x Hx); rewrite E in K; exact K)
  end.

#[local] Abbreviation ctx b tx := (mkContext b tx (Some (idx_New NewEmitter))).
Definition event_of (b : Block) (tx : Transaction) (typ : string) (data : gmap string goval) : Event :=
  mkEvent typ (tx_ID tx) (hdr_Height (blk_Header b)) data.

Lemma decoded {A} msg (dec : A → jv → option A) zero payload (n n' : Node D) x :
  decode_payload msg dec zero payload n = (n', Ret x) → n' = n ∧ Unmarshal dec zero payload = Some x.
Proof.
  unfold decode_payload. intros [H ->]%wrap_Ret_inv%liftO_Ret_inv. split; [done|].
  unfold of_option in H. destruct (Unmarshal dec zero payload); [|done]. by injection H as <-.
Qed.

(** The handlers of assets emit last, on the store they found. *)
Lemma mint_emits b tx (n n' : Node D) :
  handleMintAsset (ctx b tx) (tx_Payload tx) n = (n', Ret tt) →
  ∃ p owner n1, Unmarshal MintAssetPayload_dec MintAssetPayload_zero (tx_Payload tx) = Some p ∧
    owner = (if decide (mp_Owner p = "") then tx_From tx else mp_Owner p) ∧ on_store (nd_db n) n1 ∧
    n' = (Emit (idx_New NewEmitter) (event_of b tx EventAssetMinted
      (<["asset_id" := GString (asset_id (tx_ID tx) (mp_TemplateID p))]>
         (<["template_id" := GString (mp_TemplateID p)]> (<["owner" := GString owner]> ∅)))) n1).1.
Proof.
  pose proof (keeps_state_ops (on_store (nd_db n)) (framed_store _)) as K. destruct_and! K.
  assert (on_store (nd_db n) n) as Hn by done.
  unfold handleMintAsset. intros E. run_inv.
  match goal with H : decode_payload _ _ _ _ _ = (_, Ret ?x) |- _ => apply decoded in H as [-> Hp]; rename x into p end.
  match goal with H : (if _ then _ else _) ?x = (?y, Ret ?o) |- _ =>
    assert (y = x ∧ o = (if decide (mp_Owner p = "") then tx_From tx else mp_Owner p)) as [-> ->]
      by (destruct (bool_decide _) eqn:?; run_inv; by rewrite ?decide_True, ?decide_False by done) end.
  follow_store. eexists p, _, _. split_and!; [done..|eassumption|]. exact (eq_sym (f_equal fst E)).
Qed.

Lemma burn_emits b tx (n n' : Node D) :
  handleBurnAsset (ctx b tx) (tx_Payload tx) n = (n', Ret tt) →
  ∃ p n1, Unmarshal BurnAssetPayload_dec BurnAssetPayload_zero (tx_Payload tx) = Some p ∧ on_store (nd_db n) n1 ∧
    n' = (Emit (idx_New NewEmitter) (event_of b tx EventAssetBurned
      (<["asset_id" := GString (bp_AssetID p)]> (<["owner" := GString (tx_From tx)]> ∅))) n1).1.
Proof.
  pose proof (keeps_state_ops (on_store (nd_db n)) (framed_store _)) as K. destruct_and! K.
  assert (on_store (nd_db n) n) as Hn by done.
  unfold handleBurnAsset. intros E. run_inv.
  match goal with H : decode_payload _ _ _ _ _ = (_, Ret ?x) |- _ => apply decoded in H as [-> Hp]; rename x into p end.
  match goal with H : ast_Owner _ = _ |- _ => rewrite H in E end.
  follow_store. eexists p, _. split_and!; [done|eassumption|]. exact (eq_sym (f_equal fst E)).
Qed.

Lemma transfer_emits b tx (n n' : Node D) :
  handleTransferAsset (ctx b tx) (tx_Payload tx) n = (n', Ret tt) →
  ∃ p n1, Unmarshal TransferAssetPayload_dec TransferAssetPayload_zero (tx_Payload tx) = Some p ∧ tap_To p ≠ "" ∧
    on_store (nd_db n) n1 ∧
    n' = (Emit (idx_New NewEmitter) (event_of b tx EventAssetTransfer
      (<["asset_id" := GString (tap_AssetID p)]> (<["from" := GString (tx_From tx)]>
         (<["to" := GString (tap_To p)]> ∅)))) n1).1.
Proof.
  pose proof (keeps_state_ops (on_store (nd_db n)) (framed_store _)) as K. destruct_and! K.
  assert (on_store (nd_db n) n) as Hn by done.
  unfold handleTransferAsset. intros E. run_inv.
  match goal with H : decode_payload _ _ _ _ _ = (_, Ret ?x) |- _ => apply decoded in H as [-> Hp]; rename x into p end.
  follow_store. eexists p, _. split_and!; [done|done|eassumption|]. exact (eq_sym (f_equal fst E)).
Qed.

(** A transaction: its handler runs on the store as it was, and nobody listens
    to the event of the executor. *)
Lemma ExecuteTx_handler b tx (n n' : Node D) :
  ExecuteTx node_executor b tx n = (n', Ret tt) →
  tx_From tx ≠ "" ∧ ∃ h n1 n2, (tx_Type tx, h) ∈ handler_list ∧ on_store (nd_db n) n1 ∧
    h (ctx b tx) (tx_Payload tx) n1 = (n2, Ret tt) ∧ on_store (nd_db n2) n'.
Proof.
  pose proof (keeps_state_ops (on_store (nd_db n)) (framed_store _)) as K. destruct_and! K.
  assert (on_store (nd_db n) n) as Hn by done.
  unfold ExecuteTx. intros (n0 & u & HV & E)%bind_Ret_inv. apply wrap_Ret_inv, liftO_Ret_inv in HV as [HV ->].
  destruct u. apply bind_Ret_inv in E as (n1 & id & ES & E). apply wrap_Ret_inv in ES.
  apply bind_Ret_inv in E as (n2 & o & EA & E).
  unfold attempt in EA. destruct (applyTx node_executor b tx n1) as [n2' o'] eqn:EA'. injection EA as -> ->. rename EA' into EA.
  split; [by apply tx_Verify_Ret_inv in HV as (? & _)|].
  destruct o as [[]|err|msg]; [|by apply bind_Ret_inv in E as (? & [] & _ & E)|done].
  apply bind_Ret_inv in EA as (n3 & [] & EC & EH). cbn [ex_registry ex_emitter node_executor] in EH.
  unfold reg_Execute in EH. rewrite globalRegistry_eq in EH.
  destruct (list_to_map handler_list !! tx_Type tx) as [h|] eqn:Eh; [|done].
  exists h, n3, n2. split; [by apply elem_of_list_to_map_2|].
  assert (keeps (on_store (nd_db n)) (charge b tx)) as Hc by (unfold charge; repeat keep_step).
  follow_store. split_and!; [done|done|].
  assert (keeps (on_store (nd_db n2)) (emit (ex_emitter node_executor) (tx_event b tx))) as He.
  { cbn [ex_emitter node_executor emit]. unfold idx_New.
    repeat (apply keeps_Subscribe; [|intros Ht; discriminate Ht]). by intros m Hm. }
  specialize (He n2 eq_refl). by rewrite E in He.
Qed.

(** The other handlers leave the lists of owners alone. *)
Definition same_owners (m : gmap string string) (d : D) : Prop :=
  ∀ owner, db_contents d !! (prefixOwnerAssets +:+ owner) = m !! (prefixOwnerAssets +:+ owner).
Definition asset_events : list string := [EventAssetMinted; EventAssetBurned; EventAssetTransfer].
Definition asset_types : list string := [TxMintAsset; TxBurnAsset; TxTransferAsset].

Lemma indexer_keeps_owners m ev :
  ev_Type ev ∉ asset_events → keeps (store_prop (same_owners m)) (Emit (idx_New NewEmitter) ev).
Proof.
  intros Hev. unfold idx_New.
  repeat (apply keeps_Subscribe; [|intros Ht; try (exfalso; apply Hev; rewrite Ht; unfold asset_events; set_solver)]).
  - by intros n Hn.
  - intros n Hn. destruct (session_handler_touches ev (nd_db n)) as [Hk _]. unfold on_db, on_part.
    destruct (onSessionOpen ev (nd_db n)) as [d o]. intros owner. rewrite <- Hn. by apply Hk.
Qed.

Lemma others_keep_owners b tx (n : Node D) :
  tx_Type tx ∉ asset_types →
  keeps (store_prop (same_owners (db_contents (nd_db n)))) (ExecuteTx node_executor b tx).
Proof.
  intros Ht. set (P := store_prop _). assert (framed P) as HP by apply framed_store.
  pose proof (keeps_state_ops P HP) as Hops.
  assert (∀ typ data, typ ∉ asset_events → keeps P (emit_ctx (ctx b tx) typ data)) as He
    by (intros typ data Hty; by apply indexer_keeps_owners).
  apply ExecuteTx_keeps_handler; [done| |by apply indexer_keeps_owners; unfold asset_events; vm_compute; set_solver].
  intros h Hin. unfold handler_list in Hin. rewrite !elem_of_cons, elem_of_nil in Hin.
  unfold asset_types in Ht. rewrite !not_elem_of_cons in Ht. destruct Ht as (N1 & N2 & N3 & _).
  destruct Hin as [[= ? _]|[[= ? _]|[[= ? _]|[[= _ ->]|[[= _ ->]|[[= _ ->]|[[= _ ->]|
    [[= _ ->]|[[= _ ->]|[]]]]]]]]]]; [done..| | | | | |].
  - unfold handleRegisterTemplate. repeat keep_step. apply He. by vm_compute; set_solver.
  - unfold handleTransfer. repeat keep_step. apply He. by vm_compute; set_solver.
  - unfold handleListMarket. repeat keep_step. apply He. by vm_compute; set_solver.
  - unfold handleBuyMarket. repeat keep_step. apply He. by vm_compute; set_solver.
  - unfold handleSessionOpen, lock_stake. repeat keep_step; apply He; by vm_compute; set_solver.
  - unfold handleSessionResult, pay_reward. repeat keep_step. apply He. by vm_compute; set_solver.
Qed.

(** What an asset transaction does to the world. *)
Lemma asset_tx_effect b tx (n n' : Node D) :
  block_ok b → is_u64 (tx_Fee tx) → st_inv n → st_healthy n → ExecuteTx node_executor b tx n = (n', Ret tt) →
  let w := world_at n in let w' := world_at n' in
  (∀ p, tx_Type tx = TxMintAsset →
     Unmarshal MintAssetPayload_dec MintAssetPayload_zero (tx_Payload tx) = Some p →
     ∃ a, assets w' !! asset_id (tx_ID tx) (mp_TemplateID p) = Some a ∧
       ast_Owner a = (if decide (mp_Owner p = "") then tx_From tx else mp_Owner p)) ∧
  (∀ p, tx_Type tx = TxBurnAsset →
     Unmarshal BurnAssetPayload_dec BurnAssetPayload_zero (tx_Payload tx) = Some p →
     ∃ a, assets w !! bp_AssetID p = Some a ∧ ast_Owner a = tx_From tx ∧ assets w' !! bp_AssetID p = None) ∧
  (∀ p, tx_Type tx = TxTransferAsset →
     Unmarshal TransferAssetPayload_dec TransferAssetPayload_zero (tx_Payload tx) = Some p →
     ∃ a a', assets w !! tap_AssetID p = Some a ∧ ast_Owner a = tx_From tx ∧
       assets w' !! tap_AssetID p = Some a' ∧ ast_Owner a' = tap_To p).
Proof.
  intros Hb Hf Hn Hh E. cbn zeta.
  destruct (ExecuteTx_ref _ _ _ _ _ _ node_executor_ok Hb Hn E) as (_ & _ & [[Hr _]|[Hu _]]); [|done].
  apply run_tx_effect in Hr; [|done|done|by apply st_wf].
  destruct (fee_effect_maps b tx (world_at n)) as (Ea & _). rewrite <- Ea.
  destruct Hr as [|p t owner Hty Hp Htm Ho|p a Hty Hp Ha Ho|p a Hty Hp Ha Ho| | | | |]; split_and!; intros p' Ht Hp';
    try match goal with H : tx_Type tx = _ |- _ => rewrite H in Ht; discriminate Ht end;
    rewrite Hp in Hp'; apply (inj Some) in Hp' as <-; cbn [assets set_assets].
  - eexists. split; [apply lookup_insert_eq|exact Ho].
  - exists a. split_and!; [done|done|apply lookup_delete_eq].
  - exists a. eexists. split_and!; [done|done|apply lookup_insert_eq|done].
Qed.

Lemma asset_handlers typ (h : Handler (Node D)) :
  (typ, h) ∈ handler_list →
  (typ = TxMintAsset → h = handleMintAsset) ∧ (typ = TxBurnAsset → h = handleBurnAsset) ∧
  (typ = TxTransferAsset → h = handleTransferAsset).
Proof.
  unfold handler_list. rewrite !elem_of_cons, elem_of_nil. intros H.
  repeat (destruct H as [[= -> ->]|H]; [by split_and!|]). done.
Qed.

(** Before and after a transaction. *)
Definition index_change (n n' : Node D) (change : Prop → string → string → Prop) : Prop :=
  index_ok (db_contents (nd_db n')) ∧
  ∀ o x, x ∈ owned (db_contents (nd_db n')) o ↔ change (x ∈ owned (db_contents (nd_db n)) o) o x.

Lemma emission_indexed b tx (n n1 n2 n3 n' : Node D) typ data f change :
  on_store (nd_db n) n1 → on_store (nd_db n1) n3 → on_store (nd_db n2) n' →
  (typ, f) ∈ [(EventAssetMinted, onAssetMinted); (EventAssetTransfer, onAssetTransferred);
    (EventAssetBurned, onAssetBurned)] →
  n2 = (Emit (idx_New NewEmitter) (event_of b tx typ data) n3).1 →
  before_after (nd_db n) f (event_of b tx typ data) change → index_change n n' change.
Proof.
  intros S1 S3 S2 Hin E2 H.
  assert (nd_db n' = (f (event_of b tx typ data) (nd_db n)).1) as En.
  { rewrite S2, E2, (indexer_runs (event_of b tx typ data) n3 f Hin), S3. by rewrite S1. }
  unfold index_change. by rewrite En.
Qed.

Section Indexed.
Context (b : Block) (tx : Transaction) (n n' : Node D).
Hypotheses (Hb : block_ok b) (Hf : is_u64 (tx_Fee tx)) (Hn : st_inv n) (Hh : st_healthy n).
Hypotheses (Hok : index_ok (db_contents (nd_db n))) (Hempty : assets (world_at n) !! "" = None).
Hypothesis E : ExecuteTx node_executor b tx n = (n', Ret tt).

Lemma mint_indexed :
  tx_Type tx = TxMintAsset → ∃ p a,
    Unmarshal MintAssetPayload_dec MintAssetPayload_zero (tx_Payload tx) = Some p ∧
    let id := asset_id (tx_ID tx) (mp_TemplateID p) in
    assets (world_at n') !! id = Some a ∧ index_change n n' (λ was o x, was ∨ (o = ast_Owner a ∧ x = id)).
Proof.
  intros Ht. destruct (asset_tx_effect b tx n n' Hb Hf Hn Hh E) as (Wm & _ & _).
  destruct (ExecuteTx_handler b tx n n' E) as (Hfrom & h & n1 & n2 & Hin & S1 & Eh & S2).
  destruct (asset_handlers _ _ Hin) as (H & _ & _). rewrite (H Ht) in Eh. clear H.
  apply mint_emits in Eh as (p & owner & n3 & Hp & Ho & S3 & E2). destruct (Wm p Ht Hp) as (a & Ha & Hao).
  rewrite <- Ho in Hao. exists p, a. split; [done|]. cbn zeta. split; [exact Ha|]. rewrite Hao.
  refine (emission_indexed b tx n n1 n2 n3 n' _ _ _ _ S1 S3 S2 _ E2 _); [by left|].
  apply minted_event; [done|done|apply Hash_valid|apply Hash_nonempty| |reflexivity|reflexivity].
  rewrite Ho. by case_decide.
Qed.

Lemma burn_indexed :
  tx_Type tx = TxBurnAsset → ∃ p a,
    Unmarshal BurnAssetPayload_dec BurnAssetPayload_zero (tx_Payload tx) = Some p ∧
    let id := bp_AssetID p in
    assets (world_at n) !! id = Some a ∧ assets (world_at n') !! id = None ∧
    index_change n n' (λ was o x, was ∧ ¬ (o = ast_Owner a ∧ x = id)).
Proof.
  intros Ht. destruct (asset_tx_effect b tx n n' Hb Hf Hn Hh E) as (_ & Wb & _).
  destruct (ExecuteTx_handler b tx n n' E) as (Hfrom & h & n1 & n2 & Hin & S1 & Eh & S2).
  destruct (asset_handlers _ _ Hin) as (_ & H & _). rewrite (H Ht) in Eh. clear H.
  apply burn_emits in Eh as (p & n3 & Hp & S3 & E2). destruct (Wb p Ht Hp) as (a & Ha & Hao & Hgone).
  exists p, a. split; [done|]. cbn zeta. split; [done|]. split; [done|]. rewrite Hao.
  refine (emission_indexed b tx n n1 n2 n3 n' _ _ _ _ S1 S3 S2 _ E2 _); [by right; right; left|].
  apply burned_event; [done|done|congruence|done|reflexivity|reflexivity].
Qed.

Lemma transfer_indexed :
  tx_Type tx = TxTransferAsset → ∃ p a a',
    Unmarshal TransferAssetPayload_dec TransferAssetPayload_zero (tx_Payload tx) = Some p ∧
    let id := tap_AssetID p in
    assets (world_at n) !! id = Some a ∧ assets (world_at n') !! id = Some a' ∧ ast_Owner a' = tap_To p ∧
    index_change n n' (λ was o x, (was ∧ ¬ (o = ast_Owner a ∧ x = id)) ∨ (o = ast_Owner a' ∧ x = id)).
Proof.
  intros Ht. destruct (asset_tx_effect b tx n n' Hb Hf Hn Hh E) as (_ & _ & Wt).
  destruct (ExecuteTx_handler b tx n n' E) as (Hfrom & h & n1 & n2 & Hin & S1 & Eh & S2).
  destruct (asset_handlers _ _ Hin) as (_ & _ & H). rewrite (H Ht) in Eh. clear H.
  apply transfer_emits in Eh as (p & n3 & Hp & Hto & S3 & E2). destruct (Wt p Ht Hp) as (a & a' & Ha & Hao & Ha' & Hao').
  exists p, a, a'. split; [done|]. cbn zeta. split; [done|]. split; [done|]. split; [done|]. rewrite Hao, Hao'.
  refine (emission_indexed b tx n n1 n2 n3 n' _ _ _ _ S1 S3 S2 _ E2 _); [by right; left|].
  apply transferred_event; [done|done| |congruence|done|done|reflexivity|reflexivity|reflexivity].
  by apply Unmarshal_Some in Hp as (v & _ & [? _]%TransferAssetPayload_dec_valid).
Qed.

Lemma other_indexed : tx_Type tx ∉ asset_types → index_change n n' (λ was _ _, was).
Proof.
  intros Ht. pose proof (others_keep_owners b tx n Ht n) as K. rewrite E in K. specialize (K (λ _, eq_refl)).
  change (same_owners (db_contents (nd_db n)) (nd_db n')) in K. split.
  - intros owner data. rewrite K. apply Hok.
  - intros o x. unfold owned, listed. by rewrite K.
Qed.
End Indexed.

(** C35: a transaction that succeeds on a node with its indexer and a healthy
    store (with no asset under the empty ID), through the event its handler
    emits: a mint adds the asset it made to the list of its owner, a burn takes
    the asset it names from the list of the owner it had, a transfer moves the
    asset it names from the list of the former to that of the new owner;
    every other entry of every owner's list stays, other transactions leave the
    lists as they are, and the lists stay readable. *)
Theorem index_follows_events b tx (n n' : Node D) :
  block_ok b → is_u64 (tx_Fee tx) → st_inv n → st_healthy n →
  index_ok (db_contents (nd_db n)) → assets (world_at n) !! "" = None →
  ExecuteTx node_executor b tx n = (n', Ret tt) →
  let before o x := x ∈ owned (db_contents (nd_db n)) o in
  let after o x := x ∈ owned (db_contents (nd_db n')) o in
  index_ok (db_contents (nd_db n')) ∧
  (tx_Type tx = TxMintAsset → ∃ p a,
     Unmarshal MintAssetPayload_dec MintAssetPayload_zero (tx_Payload tx) = Some p ∧
     let id := asset_id (tx_ID tx) (mp_TemplateID p) in
     assets (world_at n') !! id = Some a ∧ ∀ o x, after o x ↔ before o x ∨ (o = ast_Owner a ∧ x = id)) ∧
  (tx_Type tx = TxBurnAsset → ∃ p a,
     Unmarshal BurnAssetPayload_dec BurnAssetPayload_zero (tx_Payload tx) = Some p ∧
     let id := bp_AssetID p in
     assets (world_at n) !! id = Some a ∧ assets (world_at n') !! id = None ∧
     ∀ o x, after o x ↔ before o x ∧ ¬ (o = ast_Owner a ∧ x = id)) ∧
  (tx_Type tx = TxTransferAsset → ∃ p a a',
     Unmarshal TransferAssetPayload_dec TransferAssetPayload_zero (tx_Payload tx) = Some p ∧
     let id := tap_AssetID p in
     assets (world_at n) !! id = Some a ∧ assets (world_at n') !! id = Some a' ∧ ast_Owner a' = tap_To p ∧
     ∀ o x, after o x ↔ (before o x ∧ ¬ (o = ast_Owner a ∧ x = id)) ∨ (o = ast_Owner a' ∧ x = id)) ∧
  (tx_Type tx ∉ asset_types → ∀ o x, after o x ↔ before o x).
Proof.
  intros Hb Hf Hn Hh Hok Hempty E before after.
  pose proof (mint_indexed b tx n n' Hb Hf Hn Hh Hok E) as Hm.
  pose proof (burn_indexed b tx n n' Hb Hf Hn Hh Hok Hempty E) as Hbu.
  pose proof (transfer_indexed b tx n n' Hb Hf Hn Hh Hok Hempty E) as Htr.
  pose proof (other_indexed b tx n n' Hok E) as Hot.
  split_and!; unfold index_change in *; [|naive_solver..].
  destruct (decide (tx_Type tx ∈ asset_types)) as [Hin|Hin]; [|by apply Hot].
  unfold asset_types in Hin. rewrite !elem_of_cons, elem_of_nil in Hin. naive_solver.
Qed.
End Transactions.
