(* ===== verification/Consensus.v ===== *)
(** * Proof of authority

    Models [src/consensus/poa.go]: whose turn it is, producing a block (collect,
    execute, sign, store, flush, announce, clean the pool) and judging a block
    of another validator.  The engine's pointers to the blockchain, the state
    and the mempool are the parts of the [Node] its methods run on; the current
    time is an argument. *)
From Stdlib Require Import Ascii Lia ZArith.
From stdpp Require Import base gmap strings list.
From S2P Require Import Prelude Crypto Json JsonFacts JsonParse JsonTyped Types Transaction Block.
From S2P Require Import State DB StateDB Events Vm Economy AssetModule Market SessionModule.
From S2P Require Import Executor Ledger Invariants Mempool Blockchain Config Node Frame Indexer.

Record PoA (W : Type) : Type := mkPoA {
  poa_cfg : Config;
  poa_exec : Executor W;
  poa_emitter : Emitter W;
  poa_privKey : string;
  poa_pubKey : string
}.
Arguments mkPoA {W}.
Arguments poa_cfg {W}.
Arguments poa_exec {W}.
Arguments poa_emitter {W}.
Arguments poa_privKey {W}.
Arguments poa_pubKey {W}.

(** [l[i]] *)
Definition index {A} (l : list A) (i : Z) : outcome A :=
  if bool_decide (i < 0) then Panic "index out of range"
  else match l !! Z.to_nat i with Some x => Ret x | None => Panic "index out of range" end.

(** The validator of a height: Go's [%] takes the sign of the dividend. *)
Definition scheduled (validators : list string) (height : Z) : outcome string :=
  index validators (Z.rem height (Z.of_nat (length validators))).

Definition maxBlockTimeDrift : Z := 15000000000.

Section PoA.
Context `{C : Crypto, F : FloatFmt, O : MapOrder} {D : Type} `{HD : DB D}.
Implicit Types (p : PoA (Node D)) (n : Node D).

Definition poa_New (cfg : Config) (exec : Executor (Node D)) (emitter : Emitter (Node D))
    (privKey : string) : outcome (PoA (Node D)) :=
  pub ← Public privKey; Ret (mkPoA cfg exec emitter privKey pub).

Definition IsProposer p n : outcome bool :=
  if bool_decide (length (cfg_Validators (poa_cfg p)) = 0%nat) then Ret false
  else
    let nextHeight := addi64 (Height (nd_chain n)) 1 in
    v ← scheduled (cfg_Validators (poa_cfg p)) nextHeight;
    Ret (bool_decide (v = PublicKey_Hex (poa_pubKey p))).

(** [block.Header.StateRoot = root] *)
Definition with_root (b : Block) (root : string) : Block :=
  mkBlock (set_StateRoot (blk_Header b) root) (blk_Transactions b) (blk_Hash b) (blk_Signature b).

(** Hash and height the next block continues. *)
Definition next_position (tip : option Block) : string * Z :=
  match tip with
  | None => (GenesisHash, 1)
  | Some t => (blk_Hash t, addi64 (hdr_Height (blk_Header t)) 1)
  end.

Definition block_limit p : Z :=
  let limit := cfg_MaxBlockTxs (poa_cfg p) in if bool_decide (limit ≤ 0) then 500 else limit.

Definition commit_event (b : Block) : Event :=
  mkEvent EventBlockCommit "" (hdr_Height (blk_Header b))
    (<["hash" := GString (blk_Hash b)]> (<["txs" := GInt (Z.of_nat (length (blk_Transactions b)))]> ∅)).

(** Up to the stored block; what follows only flushes and announces it. *)
Definition store_block p (now : Z) (txs : list Transaction) : M (Node D) Block := λ n,
  let '(prevHash, nextHeight) := next_position (Tip (nd_chain n)) in
  (block ← liftO (NewBlock now (gen_ChainID (cfg_Genesis (poa_cfg p))) nextHeight prevHash
                    (PublicKey_Hex (poa_pubKey p)) (Some <$> txs));
   ExecuteBlock (poa_exec p) block errorf "execute block";;
   root ← read_root;
   block ← liftO (blk_Sign (poa_privKey p) (with_root block root));
   on_chain (AddBlock block) errorf "add block";;
   mret block) n.

(** A failed commit ends the process. *)
Definition commit_or_die : M (Node D) unit :=
  o ← attempt Commit;
  match o with
  | Ret _ => mret tt
  | Fail _ => fatal "block stored but state commit failed"
  | Panic msg => panic msg
  end.

Definition ProduceBlock p (now : Z) : M (Node D) Block := λ n,
  (mine ← liftO (IsProposer p n);
   reject_if (negb mine) (EMsg "not the proposer for this round");;
   txs ← liftO (Pending (block_limit p) (nd_pool n));
   block ← store_block p now txs;
   commit_or_die;;
   Emit (poa_emitter p) (commit_event block);;
   on_pool (Remove (tx_ID <$> txs));;
   mret block) n.

(** The checks against the current tip. *)
Definition check_tip (block : Block) (tip : option Block) : outcome unit :=
  let h := blk_Header block in
  match tip with
  | None =>
      if IsGenesisHash (hdr_PrevHash h) then Ret tt
      else Fail (EMsg "first block must reference genesis prev-hash")
  | Some t =>
      if bool_decide (hdr_PrevHash h ≠ blk_Hash t) then Fail (EMsg "prev_hash mismatch")
      else if bool_decide (hdr_Height h ≠ addi64 (hdr_Height (blk_Header t)) 1)
      then Fail (EMsg "height mismatch")
      else if bool_decide (hdr_Timestamp h < hdr_Timestamp (blk_Header t))
      then Fail (EMsg "block timestamp before previous block")
      else Ret tt
  end.

(** On a pointer, as a peer sends it; the clock and the tip are read. *)
Definition ValidateBlock p (now : Z) (pb : option Block) n : outcome unit :=
  if bool_decide (length (cfg_Validators (poa_cfg p)) = 0%nat)
  then Fail (EMsg "no validators configured")
  else
    block ← deref pb;
    let h := blk_Header block in
    if bool_decide (hdr_ChainID h ≠ gen_ChainID (cfg_Genesis (poa_cfg p)))
    then Fail (EMsg "chain ID mismatch")
    else
      expected ← scheduled (cfg_Validators (poa_cfg p)) (hdr_Height h);
      if bool_decide (hdr_Proposer h ≠ expected) then Fail (EMsg "wrong proposer")
      else
        pub ← wrapO "invalid proposer pubkey" (PubKeyFromHex (hdr_Proposer h));
        _ ← wrapO "block signature invalid" (blk_Verify block pub);
        txRoot ← ComputeTxRoot (blk_Transactions block);
        if bool_decide (hdr_TxRoot h ≠ txRoot) then Fail (EMsg "tx_root mismatch")
        else if bool_decide (hdr_Timestamp h > addi64 now maxBlockTimeDrift)
        then Fail (EMsg "block timestamp too far in future")
        else check_tip block (Tip (nd_chain n)).

(** One round of [Run]: errors are logged, a panic ends the process. *)
Definition produce_tick p (now : Z) : M (Node D) unit := λ n,
  (mine ← liftO (IsProposer p n);
   if mine : bool then logged (ProduceBlock p now) else mret tt) n.

(** [Run], given the times of the ticks it receives before [done] is closed. *)
Definition Run p (ticks : list Z) : M (Node D) unit := for_each (produce_tick p) ticks.
End PoA.

(** ** Invariants *)

(** A transaction as the program holds it: checked, with values its types
    allow. *)
Definition sound_tx `{C : Crypto} (tx : Transaction) : Prop :=
  valid_Transaction tx ∧ tx_Verify tx = Ret tt.

Record node_ok `{C : Crypto, F : FloatFmt} {D} `{HD : DB D, HDR : DBRep D}
    (n : Node D) (chain : list Block) : Prop := {
  no_state : st_inv n;
  no_chain : bc_ok (nd_chain n) chain;
  no_pool : mp_ok (nd_pool n);
  no_txs : map_Forall (λ _ tx, valid_Transaction tx) (mp_txs (nd_pool n))
}.

(** An engine as [main] builds it. *)
Record poa_ok `{C : Crypto, F : FloatFmt, O : MapOrder} {D} `{HD : DB D, HDR : DBRep D}
    (p : PoA (Node D)) : Prop := {
  po_registry : ex_registry (poa_exec p) = globalRegistry;
  po_subs : ex_emitter (poa_exec p) = Some (poa_emitter p);
  po_quiet : quiet (poa_emitter p);
  po_key : is_keypair (poa_privKey p);
  po_pub : Public (poa_privKey p) = Ret (poa_pubKey p);
  po_chainid : valid_utf8 (gen_ChainID (cfg_Genesis (poa_cfg p))) = true
}.

(** When a block may follow the tip [t], whatever the time. *)
Record valid_after `{C : Crypto, F : FloatFmt, O : MapOrder} {D} `{HD : DB D}
    (p : PoA (Node D)) (t b : Block) : Prop := {
  va_validators : length (cfg_Validators (poa_cfg p)) ≠ 0%nat;
  va_chain : hdr_ChainID (blk_Header b) = gen_ChainID (cfg_Genesis (poa_cfg p));
  va_turn : scheduled (cfg_Validators (poa_cfg p)) (hdr_Height (blk_Header b)) = Ret (hdr_Proposer (blk_Header b));
  va_seal : ∃ pub, PubKeyFromHex (hdr_Proposer (blk_Header b)) = Ret pub ∧ blk_Verify b pub = Ret tt;
  va_root : ComputeTxRoot (blk_Transactions b) = Ret (hdr_TxRoot (blk_Header b));
  va_prev : hdr_PrevHash (blk_Header b) = blk_Hash t;
  va_height : hdr_Height (blk_Header b) = addi64 (hdr_Height (blk_Header t)) 1;
  va_time : hdr_Timestamp (blk_Header t) ≤ hdr_Timestamp (blk_Header b)
}.

Section Facts.
Context `{C : Crypto, CL : !CryptoLaws, F : FloatFmt, FL : !FloatLaws, O : MapOrder}.
Context {D : Type} `{HD : DB D, HDR : DBRep D, HDL : !DBLaws D}.
Implicit Types (p : PoA (Node D)) (n : Node D).

Lemma sound_tx_enc tx : sound_tx tx → is_Some (Transaction_enc tx).
Proof.
  intros [_ (_ & Hh & _)%tx_Verify_Ret_inv]. unfold tx_Hash, signingBody_enc in Hh. unfold Transaction_enc.
  simpl in Hh. destruct (enc_raw (tx_Payload tx)); [|done]. simpl. eauto.
Qed.

Lemma marshal_sound b txs :
  blk_Transactions b = Some <$> txs → Forall sound_tx txs → is_ret (marshal_block b) = true.
Proof.
  intros Ht Hs. unfold marshal_block, Block_enc. rewrite Ht.
  assert (is_Some (mapM enc_tx_ptr (Some <$> txs))) as [vs ->]; [|done].
  apply mapM_is_Some, Forall_fmap. eapply Forall_impl; [exact Hs|]. intros tx. apply sound_tx_enc.
Qed.

Lemma poa_executor p : poa_ok p → poa_exec p = mkExecutor globalRegistry (Some (poa_emitter p)).
Proof. intros []. destruct (poa_exec p). simpl in *. congruence. Qed.

Lemma poa_executor_ok p : poa_ok p → executor_ok (poa_exec p).
Proof.
  intros Hp. rewrite (poa_executor _ Hp). split; [apply globalRegistry_ref|]. apply quiet_silent, Hp.
Qed.

Lemma poa_Hex p : poa_ok p → PubKeyFromHex (PublicKey_Hex (poa_pubKey p)) = Ret (poa_pubKey p).
Proof.
  intros []. destruct (keypair_Public _ po_key0) as (seed & Hl & _ & H). rewrite po_pub0 in H.
  injection H as ->. by apply PubKeyFromHex_Hex, ed25519_pub_length.
Qed.

(** Executing a block changes the state buffer and index entries only. *)
Lemma ExecuteBlock_frame p b n n' o :
  poa_ok p → ExecuteBlock (poa_exec p) b n = (n', o) → same_frame n n'.
Proof.
  intros Hp E. rewrite (poa_executor _ Hp) in E.
  pose proof (ExecuteBlock_keeps (same_frame n) (framed_same_frame n) (Some (poa_emitter p))
    (λ ev _, quiet_same_frame _ ev n (po_quiet _ Hp)) b n (same_frame_refl n)) as H.
  by rewrite E in H.
Qed.

Lemma same_frame_chain n n' chain :
  same_frame n n' → bc_ok (nd_chain n) chain → bc_ok (nd_chain n') chain.
Proof.
  intros (Ht & Hh & _ & _ & Hk). apply bc_ok_ext; [done|done|]. intros k Hc. symmetry. apply Hk.
  destruct (is_index_key k) eqn:E; [|done]. exfalso. revert Hc E. apply chain_index_keys.
Qed.

(** The block [ProduceBlock] executes, before it has a state root. *)
Definition next_block p (now : Z) (txs : list Transaction) n : Block :=
  let '(prevHash, nextHeight) := next_position (nd_tip n) in
  mkBlock (mkBlockHeader (gen_ChainID (cfg_Genesis (poa_cfg p))) nextHeight prevHash ""
             (Hash (root_text txs)) now (PublicKey_Hex (poa_pubKey p))) (Some <$> txs) "" "".

(** [b] is [b0] with its root and seal. *)
Record sealed p (b0 b : Block) (root : string) : Prop := {
  sl_header : blk_Header b = set_StateRoot (blk_Header b0) root;
  sl_txs : blk_Transactions b = blk_Transactions b0;
  sl_hash : blk_Hash b = ComputeHash b;
  sl_verify : blk_Verify b (poa_pubKey p) = Ret tt;
  sl_sig : valid_utf8 (blk_Signature b) = true
}.

Lemma blk_Sign_sealed p b0 root :
  poa_ok p → ∃ b, blk_Sign (poa_privKey p) (with_root b0 root) = Ret b ∧ sealed p b0 b root.
Proof.
  intros Hp. unfold blk_Sign.
  destruct (Sign_Verify _ _ (ComputeHash (with_root b0 root)) (po_key _ Hp) (po_pub _ Hp)) as (sig & Hs & HV).
  rewrite Hs. eexists. split; [done|]. split; try done.
  - unfold blk_Verify. simpl. by rewrite bool_decide_eq_false_2 by (by intros []).
  - simpl. unfold Verify in HV. destruct (hex_DecodeString sig) eqn:E; [|done]. by eapply hex_decode_valid.
Qed.

Lemma addi64_range a b : is_i64 (addi64 a b).
Proof.
  unfold addi64, wrap_int64, is_i64, min_int64, max_int64.
  pose proof (Z.mod_pos_bound (a + b + 9223372036854775808) two64 eq_refl). unfold two64 in *. lia.
Qed.

Lemma sealed_good p now txs n chain b root :
  poa_ok p → bc_ok (nd_chain n) chain → is_i64 now → Forall sound_tx txs → valid_utf8 root = true →
  sealed p (next_block p now txs n) b root → good_block b.
Proof.
  intros Hp Hc Hnow Ht Hroot [Hh Htx Hhash _ Hsig]. split; [|done].
  assert (Forall (λ q, match q with Some t => valid_Transaction t | None => True end) (blk_Transactions b)) as Hts.
  { rewrite Htx. unfold next_block. destruct (next_position _). simpl. apply Forall_fmap.
    eapply Forall_impl; [exact Ht|]. by intros tx []. }
  unfold valid_Block. rewrite Hhash. split; [|split; [done|split; [apply Hash_valid|done]]].
  rewrite Hh. unfold next_block, next_position, valid_BlockHeader.
  assert (∀ t, nd_tip n = Some t → valid_utf8 (blk_Hash t) = true) as Htip.
  { intros t E. destruct Hc as [_ _ Hg Hl _]. simpl in Hl. rewrite E in Hl. symmetry in Hl.
    apply last_Some in Hl as [l ->]. apply Forall_app in Hg as [_ Hg].
    inversion Hg as [|?? [_ Hgt] _]; subst. rewrite Hgt. apply Hash_valid. }
  destruct (nd_tip n) as [t|]; simpl; split_and!; try done; auto using Hash_valid, addi64_range, hex_valid;
    by apply Hp.
Qed.

(** [store_block], step by step. *)
Lemma store_block_steps p now txs n :
  store_block p now txs n =
  match ExecuteBlock (poa_exec p) (next_block p now txs n) n with
  | (n1, Ret _) =>
      match blk_Sign (poa_privKey p) (with_root (next_block p now txs n) (ComputeRoot n1)) with
      | Ret b =>
          match on_chain (AddBlock b) n1 with
          | (n2, Ret _) => (n2, Ret b)
          | (n2, Fail e) => (n2, Fail (EWrap "add block" e))
          | (n2, Panic msg) => (n2, Panic msg)
          end
      | Fail e => (n1, Fail e)
      | Panic msg => (n1, Panic msg)
      end
  | (n1, Fail e) => (n1, Fail (EWrap "execute block" e))
  | (n1, Panic msg) => (n1, Panic msg)
  end.
Proof.
  unfold store_block, next_block, Tip. simpl bc_tip. destruct (next_position (nd_tip n)) as [prev h].
  unfold NewBlock. rewrite ComputeTxRoot_Some. fold (root_text txs).
  unfold wrap, liftO, read_root, mbind, M_bind, outcome_bind.
  destruct (ExecuteBlock _ _ n) as [n1 [[]| |]]; [|done..]. simpl.
  destruct (blk_Sign _ _) as [b| |]; [|done..]. by destruct (on_chain (AddBlock b) n1) as [n2 [[]| |]].
Qed.

Lemma next_block_ok p now txs n : is_i64 now → block_ok (next_block p now txs n).
Proof. intros Hnow. unfold next_block. destruct (next_position _). split; [done|apply hex_valid]. Qed.

Lemma next_block_txs p now txs n : blk_Transactions (next_block p now txs n) = Some <$> txs.
Proof. unfold next_block. by destruct (next_position _). Qed.

Lemma ComputeRoot_valid n : valid_utf8 (ComputeRoot n) = true.
Proof. apply Hash_valid. Qed.

(** What is left when a block was executed and, perhaps, stored. *)
Lemma store_block_cases p now txs n n' o chain :
  poa_ok p → st_inv n → bc_ok (nd_chain n) chain → is_i64 now → Forall sound_tx txs →
  store_block p now txs n = (n', o) →
  let b0 := next_block p now txs n in
  st_inv n' ∧ (st_healthy n → st_healthy n') ∧ nd_pool n' = nd_pool n ∧ nd_exited n' = nd_exited n ∧
  same_state_keys (db_contents (nd_db n)) (db_contents (nd_db n')) ∧
  ((∃ b root, o = Ret b ∧ sealed p b0 b root ∧ good_block b ∧ nd_tip n' = Some b ∧
      (bc_ok (nd_chain n') (chain ++ [b]) ∨ collision_in (header_text <$> chain ++ [b])) ∧
      (st_healthy n → root = world_root (world_at n') ∧
         run_txs b0 (Some <$> txs) (world_at n) = (world_at n', Ret tt))) ∨
   (is_ret o = false ∧ nd_tip n' = nd_tip n ∧ bc_ok (nd_chain n') chain)).
Proof.
  intros Hp Hn Hc Hnow Ht. rewrite store_block_steps. cbn zeta.
  destruct (ExecuteBlock (poa_exec p) (next_block p now txs n) n) as [n1 o1] eqn:E1.
  pose proof (ExecuteBlock_frame _ _ _ _ _ Hp E1) as Hf.
  destruct (ExecuteBlock_ref _ _ _ _ _ (poa_executor_ok _ Hp) (next_block_ok p now txs n Hnow) Hn E1)
    as (Hn1 & Hh1 & _ & Hr). rewrite next_block_txs in Hr.
  pose proof (same_frame_chain _ _ _ Hf Hc) as Hc1. destruct Hf as (Ft & Fh & Fp & Fx & Fk).
  assert (same_state_keys (db_contents (nd_db n)) (db_contents (nd_db n1))) as Hs1.
  { intros k Hk. symmetry. apply Fk. destruct (is_index_key k) eqn:E; [|done].
    apply index_keys_not_state in E. congruence. }
  destruct o1 as [[]|e|msg]; [|intros [= <- <-]; split_and!; try done; by right..].
  destruct (blk_Sign_sealed p (next_block p now txs n) (ComputeRoot n1) Hp) as (b & -> & Hb).
  assert (good_block b) as Hg
    by exact (sealed_good _ _ _ _ _ _ _ Hp Hc Hnow Ht (ComputeRoot_valid n1) Hb).
  destruct (on_chain (AddBlock b) n1) as [n2 o2] eqn:E2.
  destruct (on_chain_AddBlock _ _ _ _ Hn1 E2) as (Hn2 & Ha2 & Hh2).
  destruct (AddBlock_frame _ _ _ _ E2) as (Gp & Gx & _ & Gk & _).
  assert (same_state_keys (db_contents (nd_db n)) (db_contents (nd_db n2))) as Hs2.
  { intros k Hk. rewrite Hs1 by done. symmetry. apply Gk. destruct (is_chain_key k) eqn:E; [|done].
    apply chain_key_not_state in E. congruence. }
  intros E. assert (n' = n2) as -> by (by destruct o2; injection E).
  split; [done|]. split; [by auto|]. split; [congruence|]. split; [congruence|]. split; [done|].
  destruct (on_chain_AddBlock_ok _ _ _ _ _ Hc1 Hg E2) as [(-> & Gt & Hc2)|(Ho & Hc2 & Gt & _)].
  - left. exists b, (ComputeRoot n1). injection E as <-. split_and!; try done. intros Hh.
    unfold world_at. rewrite Ha2. fold (world_at n1). split; [by apply Root_ref, Hh1|].
    by destruct Hr as [|[? _]].
  - right. split; [by destruct o2 as [[]| |]; [|injection E as <-..]|]. split; [congruence|done].
Qed.

(** The transactions [ProduceBlock] takes from the pool. *)
Lemma block_limit_pos p : 1 ≤ block_limit p.
Proof. unfold block_limit. case_bool_decide; lia. Qed.

Lemma Pending_sound n chain k :
  node_ok n chain → 1 ≤ k → ∃ txs, Pending k (nd_pool n) = Ret txs ∧ Forall sound_tx txs.
Proof.
  intros [_ _ Hp Hv] Hk. unfold Pending. rewrite bool_decide_eq_false_2 by lia. eexists. split; [done|].
  rewrite pending_loop_take by (lia || (simpl; lia) || (intros; by apply Hp)). simpl.
  apply Forall_take, Forall_forall. intros tx (id & _ & Htx)%list_elem_of_omap.
  split; [by apply (Hv id)|by apply (txs_verified _ Hp id)].
Qed.

Lemma ProduceBlock_steps p now txs n :
  IsProposer p n = Ret true → Pending (block_limit p) (nd_pool n) = Ret txs →
  ProduceBlock p now n =
  match store_block p now txs n with
  | (n1, Ret b) =>
      match commit_or_die n1 with
      | (n2, Ret _) =>
          let n3 := (Emit (poa_emitter p) (commit_event b) n2).1 in
          (set_nd_pool (Remove (tx_ID <$> txs) (nd_pool n3)).1 n3, Ret b)
      | (n2, Fail e) => (n2, Fail e)
      | (n2, Panic msg) => (n2, Panic msg)
      end
  | r => r
  end.
Proof.
  intros Hi Ht. unfold ProduceBlock, liftO, mbind at 1, M_bind at 1. rewrite Hi. cbn [negb reject_if].
  erewrite bind_Ret by done. rewrite Ht. erewrite bind_Ret by done.
  unfold mbind, M_bind. destruct (store_block p now txs n) as [n1 [b| |]]; [|done..].
  destruct (commit_or_die n1) as [n2 [[]| |]]; [|done..]. by rewrite Emit_run.
Qed.

(** Committing, or dying: only an unhealthy store makes the process end. *)
Lemma commit_or_die_cases n n' o :
  st_inv n → commit_or_die n = (n', o) →
  st_inv n' ∧ nd_tip n' = nd_tip n ∧ nd_height n' = nd_height n ∧ nd_pool n' = nd_pool n ∧
  (∀ k, is_state_key k = false → db_contents (nd_db n') !! k = db_contents (nd_db n) !! k) ∧
  world_at n' = world_at n ∧
  ((o = Ret tt ∧ clean n' ∧ nd_exited n' = nd_exited n ∧ (st_healthy n → st_healthy n')) ∨
   (¬ st_healthy n ∧ nd_exited n' = true ∧ ∃ msg, o = Panic msg)).
Proof.
  intros Hn. unfold commit_or_die, attempt, mbind, M_bind.
  destruct (Commit_ref n Hn) as (n1 & o1 & E1 & Hi & Hw & Hr). rewrite E1.
  destruct (Commit_frame _ _ _ Hn E1) as (Ht & Hh & Hp & Hx & Hk & Hc).
  destruct Hr as [(-> & _ & Hhe)|(Hu & e & -> & Ha)]; intros [= <- <-]; split_and!; try done.
  - left. by split_and!; [|apply Hc| |].
  - right. split_and!; [done|done|by eexists].
Qed.

Lemma state_keys_not_chain m1 m2 :
  (∀ k, is_state_key k = false → m2 !! k = m1 !! k) → same_chain_keys m1 m2.
Proof. intros H k Hk. symmetry. apply H. by apply chain_key_not_state. Qed.

(** After [commit_or_die] and the announcement. *)
Lemma announce_cases p n ev :
  poa_ok p → st_inv n → clean n →
  let n' := (Emit (poa_emitter p) ev n).1 in
  st_inv n' ∧ world_at n' = world_at n ∧ clean n' ∧ (st_healthy n → st_healthy n') ∧ same_frame n n'.
Proof.
  intros Hp Hn Hc. cbn zeta.
  destruct (emit_silent (Some (poa_emitter p)) ev n (quiet_silent _ (po_quiet _ Hp)) Hn) as (_ & H1 & H2 & H3).
  change (emit (Some (poa_emitter p)) ev n) with (Emit (poa_emitter p) ev n) in *.
  split_and!; [done|by unfold world_at; rewrite H2|by apply quiet_clean; [apply Hp|]|done|].
  apply quiet_same_frame; [apply Hp|apply same_frame_refl].
Qed.

Lemma pool_removed n ids :
  mp_ok (nd_pool n) → map_Forall (λ _ tx, valid_Transaction tx) (mp_txs (nd_pool n)) →
  let m := (Remove ids (nd_pool n)).1 in mp_ok m ∧ map_Forall (λ _ tx, valid_Transaction tx) (mp_txs m).
Proof.
  intros Hm Hv. cbn zeta. split; [by eapply mp_ok_Remove|].
  intros id tx. simpl. rewrite foldl_delete_lookup. case_decide; [done|]. apply Hv.
Qed.

Lemma ProduceBlock_cases p now n chain n' o :
  poa_ok p → node_ok n chain → is_i64 now → ProduceBlock p now n = (n', o) →
  (∃ txs b root, IsProposer p n = Ret true ∧ Pending (block_limit p) (nd_pool n) = Ret txs ∧ o = Ret b ∧
     Forall sound_tx txs ∧
     sealed p (next_block p now txs n) b root ∧ nd_tip n' = Some b ∧ clean n' ∧
     nd_pool n' = (Remove (tx_ID <$> txs) (nd_pool n)).1 ∧ nd_exited n' = nd_exited n ∧
     (st_healthy n → st_healthy n' ∧ root = world_root (world_at n') ∧
        run_txs (next_block p now txs n) (Some <$> txs) (world_at n) = (world_at n', Ret tt)) ∧
     (node_ok n' (chain ++ [b]) ∨ collision_in (header_text <$> chain ++ [b]))) ∨
  (is_ret o = false ∧
   ((nd_exited n' = true ∧ ¬ st_healthy n) ∨
    (node_ok n' chain ∧ nd_tip n' = nd_tip n ∧ nd_pool n' = nd_pool n))).
Proof.
  intros Hp Hok Hnow E. pose proof Hok as [Hn Hc Hpl Hv].
  destruct (IsProposer p n) as [[]|e|msg] eqn:Ei.
  2-4: right; revert E; unfold ProduceBlock, liftO, mbind, M_bind; rewrite Ei; intros [= <- <-];
    split; [done|by right].
  destruct (Pending_sound n chain (block_limit p) Hok (block_limit_pos p)) as (txs & Et & Hs).
  rewrite (ProduceBlock_steps _ _ _ _ Ei Et) in E.
  destruct (store_block p now txs n) as [n1 o1] eqn:E1.
  destruct (store_block_cases _ _ _ _ _ _ _ Hp Hn Hc Hnow Hs E1) as (Hn1 & Hh1 & Hp1 & Hx1 & _ & Hr).
  destruct Hr as [(b & root & -> & Hb & Hg & Ht1 & Hc1 & Hrun)|(Ho & Ht1 & Hc1)].
  2: { right. destruct o1; [done|..]; injection E as <- <-; (split; [done|right]);
       (split; [split; rewrite ?Hp1; done|done]). }
  destruct (commit_or_die n1) as [n2 o2] eqn:E2.
  destruct (commit_or_die_cases _ _ _ Hn1 E2) as (Hn2 & Ht2 & Hh2 & Hp2 & Hk2 & Hw2 & Hr2).
  destruct Hr2 as [(-> & Hcl & Hx2 & Hh3)|(Hu & Hx2 & msg & ->)].
  2: { right. injection E as <- <-. split; [done|]. left. split; [done|]. by intros Hh%Hh1. }
  destruct (announce_cases p n2 (commit_event b) Hp Hn2 Hcl) as (Hn3 & Hw3 & Hcl3 & Hh4 & Hf3).
  injection E as <- <-. left. exists txs, b, root.
  pose proof Hf3 as (Ft & Fh & Fp & Fx & _).
  assert (nd_pool (Emit (poa_emitter p) (commit_event b) n2).1 = nd_pool n) as Hpool by congruence.
  cbn zeta. set (n3 := (Emit (poa_emitter p) (commit_event b) n2).1) in *.
  split_and!; [done|done|done|done|done|change (nd_tip n3 = Some b); congruence|done
    |by simpl; rewrite Hpool|change (nd_exited n3 = nd_exited n); congruence| |].
  - intros Hh. assert (∀ m, world_at (set_nd_pool m n3) = world_at n1) as ->.
    { intros m. change (world_at n3 = world_at n1). congruence. }
    split; [change (st_healthy n3); by auto|by apply Hrun].
  - destruct Hc1 as [Hc1|]; [left|by right].
    destruct (pool_removed n3 (tx_ID <$> txs)) as [Hm1 Hm2]; [by rewrite Hpool..|].
    split; [done| |done|done]. change (bc_ok (nd_chain n3) (chain ++ [b])).
    eapply same_frame_chain; [exact Hf3|].
    apply (bc_ok_ext n1); [done|done| |done]. by apply state_keys_not_chain.
Qed.

(** *** Success *)

Lemma next_height_links n chain :
  bc_ok (nd_chain n) chain → nd_height n < max_int64 →
  ∀ t, nd_tip n = Some t → nd_height n = hdr_Height (blk_Header t) ∧
    addi64 (hdr_Height (blk_Header t)) 1 = hdr_Height (blk_Header t) + 1.
Proof.
  intros [_ _ Hg Ht Hh] Hlt t Et. simpl in *. rewrite Et in Ht. symmetry in Ht.
  rewrite (Hh t Ht) in Hlt |- *. split; [done|]. apply addi64_exact.
  apply last_Some in Ht as [l ->]. apply Forall_app in Hg as [_ Hg].
  inversion Hg as [|?? [[Hv _] _] _]; subst. unfold valid_BlockHeader in Hv. destruct_and!.
  unfold is_i64, min_int64, max_int64 in *. lia.
Qed.

Lemma store_block_run p now txs n chain w' :
  poa_ok p → st_inv n → st_healthy n → bc_ok (nd_chain n) chain → is_i64 now → Forall sound_tx txs →
  nd_height n < max_int64 →
  run_txs (next_block p now txs n) (Some <$> txs) (world_at n) = (w', Ret tt) →
  ∃ n' b, store_block p now txs n = (n', Ret b).
Proof.
  intros Hp Hn Hh Hc Hnow Ht Hlt Hrun. rewrite store_block_steps.
  destruct (ExecuteBlock (poa_exec p) (next_block p now txs n) n) as [n1 o1] eqn:E1.
  destruct (ExecuteBlock_ref _ _ _ _ _ (poa_executor_ok _ Hp) (next_block_ok p now txs n Hnow) Hn E1)
    as (_ & Hh1 & _ & [Hr|[]]); [|done]. rewrite next_block_txs, Hrun in Hr. injection Hr as _ <-.
  destruct (ExecuteBlock_frame _ _ _ _ _ Hp E1) as (Ft & Fh & _).
  destruct (blk_Sign_sealed p (next_block p now txs n) (ComputeRoot n1) Hp) as (b & -> & Hb).
  destruct (on_chain_AddBlock_run n1 b) as [n2 ->]; [by apply Hh1| | |by eauto].
  - unfold check_link. simpl. rewrite Ft, Fh. destruct (nd_tip n) as [t|] eqn:Et; [|done].
    destruct (next_height_links _ _ Hc Hlt t Et) as [-> Hx].
    rewrite (sl_header _ _ _ _ Hb). unfold next_block, next_position. rewrite Et. simpl. rewrite Hx.
    rewrite bool_decide_eq_false_2 by lia. by rewrite !bool_decide_eq_false_2 by (by intros []).
  - apply (marshal_sound b txs); [|done]. by rewrite (sl_txs _ _ _ _ Hb), next_block_txs.
Qed.

(** *** Whose turn it is *)

Lemma IsProposer_scheduled p n :
  IsProposer p n = Ret true →
  length (cfg_Validators (poa_cfg p)) ≠ 0%nat ∧
  scheduled (cfg_Validators (poa_cfg p)) (addi64 (nd_height n) 1) = Ret (PublicKey_Hex (poa_pubKey p)).
Proof.
  unfold IsProposer. case_bool_decide; [done|]. intros H1. split; [done|]. revert H1.
  destruct (scheduled _ _) as [v| |]; simpl; [|done..]. intros [= H1%bool_decide_eq_true]. by rewrite H1.
Qed.

(** [ValidateBlock] decides [valid_after], and that the block is not from the
    future. *)
Lemma ValidateBlock_spec p now b n t :
  nd_tip n = Some t →
  ValidateBlock p now (Some b) n = Ret tt ↔
  valid_after p t b ∧ hdr_Timestamp (blk_Header b) ≤ addi64 now maxBlockTimeDrift.
Proof.
  intros Et. unfold ValidateBlock, check_tip, Tip. simpl. rewrite Et. split.
  - case_bool_decide; [done|]. simpl. case_bool_decide as Hg; [done|].
    destruct (scheduled _ _) as [v| |] eqn:Hs; simpl; [|done..]. case_bool_decide as Hv; [done|].
    destruct (PubKeyFromHex _) as [pub| |] eqn:Hp; simpl; [|done..].
    destruct (blk_Verify b pub) as [[]| |] eqn:Ev; simpl; [|done..].
    destruct (ComputeTxRoot _) as [r| |] eqn:Er; simpl; [|done..].
    case_bool_decide as Hr; [done|]. case_bool_decide; [done|]. case_bool_decide as Hph; [done|].
    case_bool_decide as Hh; [done|]. case_bool_decide; [done|]. intros _.
    split; [split; try done; eauto; try congruence; lia|lia].
  - intros [[Hl Hg Hs (pub & Hp & Ev) Hr Hph Hh Ht] Hd]. rewrite bool_decide_eq_false_2 by done. simpl.
    rewrite Hg, Hs. rewrite bool_decide_eq_false_2 by (by intros []). simpl.
    rewrite bool_decide_eq_false_2 by (by intros []). rewrite Hp. simpl. rewrite Ev. simpl. rewrite Hr. simpl.
    rewrite bool_decide_eq_false_2 by (by intros []). rewrite bool_decide_eq_false_2 by lia.
    rewrite Hph, Hh. rewrite !bool_decide_eq_false_2 by (by intros []).
    by rewrite bool_decide_eq_false_2 by lia.
Qed.

(** It looks at the hash and the header of the tip only. *)
Lemma valid_after_ext p t t' b :
  blk_Hash t' = blk_Hash t → blk_Header t' = blk_Header t → valid_after p t b → valid_after p t' b.
Proof. intros E1 E2 []. split; rewrite ?E1, ?E2; done. Qed.

(** A sealed block may follow the tip it was made on, its clock permitting. *)
Lemma sealed_valid_after p now txs n chain b root t p2 :
  poa_ok p → node_ok n chain → nd_height n < max_int64 → IsProposer p n = Ret true →
  sealed p (next_block p now txs n) b root → nd_tip n = Some t →
  cfg_Validators (poa_cfg p2) = cfg_Validators (poa_cfg p) →
  gen_ChainID (cfg_Genesis (poa_cfg p2)) = gen_ChainID (cfg_Genesis (poa_cfg p)) →
  hdr_Timestamp (blk_Header b) = now ∧ (hdr_Timestamp (blk_Header t) ≤ now ↔ valid_after p2 t b).
Proof.
  intros Hp [_ Hc _ _] Hlt Hi [Sh St Sx Sv _] Et Hv Hg.
  apply IsProposer_scheduled in Hi as [Hl Hi]. destruct (next_height_links _ _ Hc Hlt t Et) as [Eh Ex].
  rewrite Eh in Hi. rewrite next_block_txs in St. unfold next_block, next_position in Sh. rewrite Et in Sh.
  unfold set_StateRoot in Sh. simpl in Sh. split; [by rewrite Sh|]. split.
  - intros Ht. split; rewrite ?Hv, ?Hg, ?St, ?ComputeTxRoot_Some, ?Sh; try done.
    exists (poa_pubKey p). split; [by apply poa_Hex|done].
  - intros [_ _ _ _ _ _ _ Ht]. by rewrite Sh in Ht.
Qed.

(** *** Stale transactions *)

Lemma run_tx_stale b tx w :
  tx_Verify tx = Ret tt → nonce w (tx_From tx) ≠ tx_Nonce tx → ∃ e, run_tx b tx w = (w, Fail e).
Proof.
  intros HV Hn. unfold run_tx. rewrite HV. unfold applyTx, charge.
  unfold mbind, M_bind, wrap, reject_if, fail. simpl. unfold nonce in Hn.
  rewrite bool_decide_eq_true_2 by done. simpl. eauto.
Qed.

Lemma run_tx_error b tx w w' o : run_tx b tx w = (w', o) → o ≠ Ret tt → w' = w.
Proof.
  unfold run_tx. destruct (tx_Verify tx); try by intros [= <- _].
  destruct (applyTx _ _ _ _) as [s [[]| |]]; by intros [= <- <-].
Qed.

Lemma run_txs_executes b txs w w' o :
  block_ok b → Forall tx_ok txs → run_txs b (Some <$> txs) w = (w', o) →
  ∃ l, l `prefix_of` txs ∧ executes w l w'.
Proof.
  intros Hb Hok. revert w. induction Hok as [|tx txs Htx _ IH]; intros w; simpl.
  - intros [= <- _]. exists []. split; [done|constructor].
  - destruct (run_tx b tx w) as [w1 o1] eqn:E. destruct o1 as [[]|e|msg].
    + intros H. destruct (IH _ H) as (l & Hl & He). exists (tx :: l). split; [by apply prefix_cons|].
      econstructor; [|done]. by exists b.
    + intros [= <- _]. apply run_tx_error in E as ->; [|done]. exists []. split; [apply prefix_nil|constructor].
    + intros [= <- _]. apply run_tx_error in E as ->; [|done]. exists []. split; [apply prefix_nil|constructor].
Qed.

(** *** A block that does not execute *)

Lemma sound_tx_ok tx : sound_tx tx → tx_ok tx.
Proof. intros [Hv _]. unfold valid_Transaction in Hv. destruct_and!. by split. Qed.

Lemma ProduceBlock_fails p now n chain txs w' e :
  poa_ok p → node_ok n chain → st_healthy n → is_i64 now → IsProposer p n = Ret true →
  Pending (block_limit p) (nd_pool n) = Ret txs →
  run_txs (next_block p now txs n) (Some <$> txs) (world_at n) = (w', Fail e) →
  ∃ n', ProduceBlock p now n = (n', Fail (EWrap "execute block" e)) ∧ node_ok n' chain ∧
    st_healthy n' ∧ world_at n' = w' ∧ nd_tip n' = nd_tip n ∧ nd_pool n' = nd_pool n.
Proof.
  intros Hp Hok Hh Hnow Hi Ht Hrun. pose proof Hok as [Hn Hc Hpl Hv].
  rewrite (ProduceBlock_steps _ _ _ _ Hi Ht), store_block_steps.
  destruct (ExecuteBlock (poa_exec p) (next_block p now txs n) n) as [n1 o1] eqn:E1.
  destruct (ExecuteBlock_ref _ _ _ _ _ (poa_executor_ok _ Hp) (next_block_ok p now txs n Hnow) Hn E1)
    as (Hn1 & Hh1 & _ & [Hr|[]]); [|done]. rewrite next_block_txs, Hrun in Hr. injection Hr as -> <-.
  pose proof (ExecuteBlock_frame _ _ _ _ _ Hp E1) as Hf.
  pose proof (same_frame_chain _ _ _ Hf Hc) as Hc1. destruct Hf as (Ft & _ & Fp & _).
  exists n1. split; [done|]. split; [by split; rewrite ?Fp|]. split; [by apply Hh1|done].
Qed.

(** The first transaction the pool offers was already executed. *)
Definition stuck p n : Prop := ∃ tx txs,
  Pending (block_limit p) (nd_pool n) = Ret (tx :: txs) ∧ tx_Nonce tx < nonce (world_at n) (tx_From tx).

Definition still p n0 chain n : Prop :=
  node_ok n chain ∧ st_healthy n ∧ stuck p n ∧
  nd_tip n = nd_tip n0 ∧ nd_pool n = nd_pool n0 ∧ world_at n = world_at n0.

Lemma stuck_tick p now n0 chain : poa_ok p → is_i64 now → keeps (still p n0 chain) (produce_tick p now).
Proof.
  intros Hp Hnow n Hst. unfold produce_tick, liftO, mbind at 1, M_bind at 1.
  destruct (IsProposer p n) as [[]|e|msg] eqn:Ei; [|done..].
  destruct Hst as (Hok & Hh & (tx & txs & Ht & Hlt) & Et & Ep & Ew).
  destruct (Pending_sound n chain (block_limit p) Hok (block_limit_pos p)) as (txs' & Ht' & Hs).
  rewrite Ht in Ht'. injection Ht' as <-. apply Forall_cons in Hs as [[_ HV] _].
  destruct (run_tx_stale (next_block p now (tx :: txs) n) tx (world_at n) HV) as [e Hr]; [lia|].
  destruct (ProduceBlock_fails p now n chain (tx :: txs) (world_at n) (EWrap "tx failed" e))
    as (n' & E & Hok' & Hh' & Hw' & Ht1 & Hp1); [done..|by simpl; rewrite Hr|].
  unfold logged. rewrite E. simpl. split_and!; try congruence; try done.
  exists tx, txs. rewrite Hp1, Hw'. done.
Qed.
End Facts.

(** ** Properties *)

Section Properties.
Context `{C : Crypto, CL : !CryptoLaws, F : FloatFmt, FL : !FloatLaws, O : MapOrder}.
Context {D : Type} `{HD : DB D, HDR : DBRep D, HDL : !DBLaws D}.
Implicit Types (p : PoA (Node D)) (n : Node D).

(** C7: whatever happens, [ProduceBlock] leaves a consistent node: either it
    returns a sealed block that extends the chain and is the new tip, with the
    state flushed and the pool rid of the block's transactions (and, on a
    healthy store, with the root of the world these lead to); or it does not
    return a block, and chain, tip and pool are as they were; or, on a faulty
    store only, the process has ended.  (Or two headers of the chain are a
    SHA-256 collision.) *)
Theorem produce_block_outcome p now n chain n' o :
  poa_ok p → node_ok n chain → is_i64 now → ProduceBlock p now n = (n', o) →
  (∃ txs b root, Pending (block_limit p) (nd_pool n) = Ret txs ∧ o = Ret b ∧
     sealed p (next_block p now txs n) b root ∧ nd_tip n' = Some b ∧ clean n' ∧
     nd_pool n' = (Remove (tx_ID <$> txs) (nd_pool n)).1 ∧
     (st_healthy n → root = world_root (world_at n') ∧
        run_txs (next_block p now txs n) (Some <$> txs) (world_at n) = (world_at n', Ret tt)) ∧
     (node_ok n' (chain ++ [b]) ∨ collision_in (header_text <$> chain ++ [b]))) ∨
  (is_ret o = false ∧
   ((nd_exited n' = true ∧ ¬ st_healthy n) ∨
    (node_ok n' chain ∧ nd_tip n' = nd_tip n ∧ nd_pool n' = nd_pool n))).
Proof.
  intros Hp Hok Hnow E. destruct (ProduceBlock_cases _ _ _ _ _ _ Hp Hok Hnow E) as [H|H]; [left|by right].
  destruct H as (txs & b & root & _ & H1 & H2 & _ & H3 & H4 & H5 & H6 & _ & H7 & H8).
  exists txs, b, root. split_and!; try done. intros Hh. by destruct (H7 Hh).
Qed.

(** C8: progress: on a healthy node, the validator whose turn it is produces
    the next block whenever the transactions it takes from the pool execute. *)
Theorem produces_block p now n chain txs w' :
  poa_ok p → node_ok n chain → st_healthy n → is_i64 now → nd_height n < max_int64 →
  IsProposer p n = Ret true → Pending (block_limit p) (nd_pool n) = Ret txs →
  run_txs (next_block p now txs n) (Some <$> txs) (world_at n) = (w', Ret tt) →
  ∃ n' b, ProduceBlock p now n = (n', Ret b) ∧ world_at n' = w' ∧ clean n' ∧ nd_tip n' = Some b ∧
    sealed p (next_block p now txs n) b (world_root w').
Proof.
  intros Hp Hok Hh Hnow Hlt Hi Ht Hrun. pose proof Hok as [Hn Hc Hpl Hv].
  destruct (Pending_sound n chain (block_limit p) Hok (block_limit_pos p)) as (txs' & Ht' & Hs).
  rewrite Ht in Ht'. injection Ht' as <-.
  destruct (store_block_run _ _ _ _ _ _ Hp Hn Hh Hc Hnow Hs Hlt Hrun) as (n1 & b & E1).
  destruct (ProduceBlock p now n) as [n' o] eqn:E.
  assert (o = Ret b) as ->.
  { rewrite (ProduceBlock_steps _ _ _ _ Hi Ht), E1 in E.
    destruct (store_block_cases _ _ _ _ _ _ _ Hp Hn Hc Hnow Hs E1) as (Hn1 & Hh1 & _).
    destruct (commit_or_die n1) as [n2 o2] eqn:E2.
    destruct (commit_or_die_cases _ _ _ Hn1 E2) as (_ & _ & _ & _ & _ & _ & [(-> & _)|(Hu & _)]).
    - by injection E.
    - destruct (Hu (Hh1 Hh)). }
  destruct (ProduceBlock_cases _ _ _ _ _ _ Hp Hok Hnow E) as [H|[H _]]; [|done].
  destruct H as (txs' & b' & root & _ & H1 & H2 & _ & H3 & H4 & H5 & _ & _ & H7 & _).
  injection H2 as <-. rewrite Ht in H1. injection H1 as <-. destruct (H7 Hh) as (_ & -> & Hr).
  rewrite Hrun in Hr. injection Hr as ->. by exists n', b.
Qed.

(** C25: a block another node produced on the same tip passes [ValidateBlock]
    exactly when its time is at most 15 seconds ahead and not before the tip's:
    every other check is satisfied by construction. *)
Theorem produced_block_validates p now n chain n' b t p2 now2 n2 t2 :
  poa_ok p → node_ok n chain → is_i64 now → nd_height n < max_int64 →
  ProduceBlock p now n = (n', Ret b) → nd_tip n = Some t →
  cfg_Validators (poa_cfg p2) = cfg_Validators (poa_cfg p) →
  gen_ChainID (cfg_Genesis (poa_cfg p2)) = gen_ChainID (cfg_Genesis (poa_cfg p)) →
  nd_tip n2 = Some t2 → blk_Hash t2 = blk_Hash t → blk_Header t2 = blk_Header t →
  (ValidateBlock p2 now2 (Some b) n2 = Ret tt ↔
   now ≤ addi64 now2 maxBlockTimeDrift ∧ hdr_Timestamp (blk_Header t) ≤ now).
Proof.
  intros Hp Hok Hnow Hlt E Et Hv Hg Et2 Hh2 Hd2.
  destruct (ProduceBlock_cases _ _ _ _ _ _ Hp Hok Hnow E) as [H|[H _]]; [|done].
  destruct H as (txs & b' & root & Hi & _ & [= <-] & _ & Hs & _).
  destruct (sealed_valid_after p now txs n chain b root t p2) as [Hb Hva]; try done.
  rewrite (ValidateBlock_spec _ _ _ _ _ Et2), Hb, Hva. split; intros [H1 H2]; split; try done.
  - by eapply valid_after_ext, H1.
  - by eapply valid_after_ext, H2.
Qed.

(** C26: one bad transaction halts a validator.  When the first transaction of
    the pool executes and a later one of the same block does not, no block is
    made, the effects of the first stay in the state buffer and both stay in
    the pool; from then on the first one is a replay, so that however often
    the production loop ticks, no block is ever made and nothing leaves the
    pool. *)
Theorem failed_block_stalls p now ticks n chain tx txs w1 w2 e :
  poa_ok p → node_ok n chain → st_healthy n → is_i64 now → Forall is_i64 ticks →
  IsProposer p n = Ret true → Pending (block_limit p) (nd_pool n) = Ret (tx :: txs) →
  run_tx (next_block p now (tx :: txs) n) tx (world_at n) = (w1, Ret tt) →
  run_txs (next_block p now (tx :: txs) n) (Some <$> txs) w1 = (w2, Fail e) →
  let n' := (Run p ticks (produce_tick p now n).1).1 in
  nd_tip n' = nd_tip n ∧ nd_pool n' = nd_pool n ∧ world_at n' = w2 ∧
  tx_Nonce tx < nonce (world_at n') (tx_From tx).
Proof.
  intros Hp Hok Hh Hnow Hticks Hi Ht Hr1 Hr2. cbn zeta.
  destruct (Pending_sound n chain (block_limit p) Hok (block_limit_pos p)) as (txs' & Ht' & Hs).
  rewrite Ht in Ht'. injection Ht' as <-.
  assert (Forall tx_ok (tx :: txs)) as [Htx Htxs]%Forall_cons
    by (eapply Forall_impl; [exact Hs|]; intros ?; apply sound_tx_ok).
  pose proof (next_block_ok p now (tx :: txs) n Hnow) as Hb.
  pose proof (st_wf n (no_state _ _ Hok)) as [Hwf _]. change (wf_world (world_at n)) in Hwf.
  assert (tx_step (world_at n) tx w1) as Hst by (by exists (next_block p now (tx :: txs) n)).
  destruct (tx_step_nonce _ _ _ (tx_From tx) Hwf Hst) as (Hn1 & Hn0 & _). rewrite decide_True in Hn1 by done.
  destruct (run_txs_executes _ _ _ _ _ Hb Htxs Hr2) as (l & _ & He).
  destruct (executes_nonce _ _ _ (tx_From tx) (tx_step_wf _ _ _ Hwf Hst) He) as [Hn2 _].
  destruct (ProduceBlock_fails p now n chain (tx :: txs) w2 e) as (n1 & E & Hok1 & Hh1 & Hw1 & Ht1 & Hp1);
    [done..|by simpl; rewrite Hr1|].
  assert ((produce_tick p now n).1 = n1) as ->.
  { unfold produce_tick, liftO, mbind, M_bind, logged. rewrite Hi, E. done. }
  assert (still p n1 chain n1) as Hstill.
  { split_and!; try done. exists tx, txs. rewrite Hp1, Hw1. split; [done|lia]. }
  destruct (keeps_for_each (still p n1 chain) (produce_tick p) ticks) with (w := n1)
    as (_ & _ & _ & Et & Ep & Ew); [|done|].
  { intros t Hin. apply stuck_tick; [done|]. by eapply Forall_forall in Hticks. }
  unfold Run. rewrite Et, Ep, Ew, Hw1. split_and!; [done|done|done|lia].
Qed.

(** A block with a negative height that is no multiple of the number of
    validators makes [ValidateBlock] panic: Go's remainder is negative there.
    Any peer can send one, signed or not. *)
Theorem negative_height_panics p now b n :
  cfg_Validators (poa_cfg p) ≠ [] → hdr_ChainID (blk_Header b) = gen_ChainID (cfg_Genesis (poa_cfg p)) →
  hdr_Height (blk_Header b) < 0 →
  hdr_Height (blk_Header b) mod Z.of_nat (length (cfg_Validators (poa_cfg p))) ≠ 0 →
  ValidateBlock p now (Some b) n = Panic "index out of range".
Proof.
  intros Hv Hg Hh Hm. unfold ValidateBlock.
  assert (length (cfg_Validators (poa_cfg p)) ≠ 0%nat) as Hl by (by intros ?%length_zero_iff_nil).
  rewrite bool_decide_eq_false_2 by done. simpl. rewrite bool_decide_eq_false_2 by (by intros []).
  assert (scheduled (cfg_Validators (poa_cfg p)) (hdr_Height (blk_Header b)) = Panic "index out of range") as ->;
    [|done].
  unfold scheduled, index. set (k := Z.of_nat _) in *. set (z := hdr_Height (blk_Header b)) in *.
  assert (0 < k) by lia.
  assert (Z.rem z k ≠ 0) as Hr.
  { intros E%Z.rem_divide; [|lia]. apply Hm. by apply Z.mod_divide; [lia|]. }
  pose proof (Z.rem_nonpos z k). rewrite bool_decide_eq_true_2; [done|lia].
Qed.
End Properties.
