(* ===== verification/Startup.v ===== *)
(** * Starting a node

    Models the part of [main] in [src/cmd/node/main.go] that opens the chain:
    restore the tip from the store, and on a fresh store create, execute and
    store the genesis block ([src/config/genesis.go]).  Reading flags, keys and
    files, and starting the servers, is left out. *)
From Stdlib Require Import Ascii Lia ZArith.
From stdpp Require Import base gmap strings list.
From S2P Require Import Prelude Crypto Json JsonFacts JsonParse JsonTyped Types Transaction Block.
From S2P Require Import State DB StateDB Events Vm Executor Ledger Invariants.
From S2P Require Import Mempool Blockchain Config Transit Node Frame Indexer Consensus.

Section Startup.
Context `{C : Crypto, F : FloatFmt, O : MapOrder} {D : Type} `{HD : DB D}.

(** [if err != nil { log.Fatalf(...) }] *)
Definition or_die {A} (msg : string) (m : M (Node D) A) : M (Node D) A :=
  o ← attempt m;
  match o with
  | Ret a => mret a
  | Fail _ => fatal msg
  | Panic p => panic p
  end.

Definition current_tip : M (Node D) (option Block) := λ n, (n, Ret (Tip (nd_chain n))).

Definition boot (now : Z) (cfg : Config) (privKey : string) : M (Node D) unit :=
  or_die "blockchain init" (on_chain Init);;
  tip ← current_tip;
  match tip with
  | Some _ => mret tt
  | None =>
      genesisBlock ← or_die "genesis" (CreateGenesisBlock now cfg privKey);
      or_die "add genesis" (on_chain (AddBlock genesisBlock))
  end.

(** The process starts over the store [d]. *)
Definition start (now : Z) (cfg : Config) (privKey : string) (d : D) : Node D * outcome unit :=
  boot now cfg privKey (NewNode d).
End Startup.

(** ** Genesis *)

Definition genesis_accounts (alloc : gmap string Z) : gmap string Account :=
  map_imap (λ a z, Some (mkAccount a z 0)) alloc.
Definition genesis_world (alloc : gmap string Z) : world :=
  mkWorld (genesis_accounts alloc) ∅ ∅ ∅ ∅.

Definition alloc_of (cfg : Config) : gmap string Z := default ∅ (gen_Alloc (cfg_Genesis cfg)).

(** The header of the genesis block. *)
Definition genesis_header `{C : Crypto} (now : Z) (cfg : Config) (pub : string) : BlockHeader :=
  mkBlockHeader (gen_ChainID (cfg_Genesis cfg)) 0 GenesisHash (world_root (genesis_world (alloc_of cfg)))
    (Hash (gen_ChainID (cfg_Genesis cfg))) now (PublicKey_Hex pub).

(** A configuration a node can start with. *)
Record startable (cfg : Config) : Prop := {
  su_chainid : valid_utf8 (gen_ChainID (cfg_Genesis cfg)) = true;
  su_alloc : map_Forall (λ a z, valid_utf8 a = true ∧ is_u64 z) (alloc_of cfg)
}.

Section Genesis.
Context `{C : Crypto, CL : !CryptoLaws, F : FloatFmt, FL : !FloatLaws, O : MapOrder}.

Lemma abs_credit (l : list (string * Z)) (s : AbsState) :
  for_each credit_alloc l s =
  (mkAbs (set_accounts (foldl (λ m '(a, z), <[a := mkAccount a z 0]> m) (accounts (abs_world s)) l)
     (abs_world s)) (abs_snaps s), Ret tt).
Proof.
  revert s. induction l as [|[a z] l IH]; intros [w sn]; simpl; [by destruct w|].
  erewrite bind_Ret by done. by rewrite IH.
Qed.

Lemma credit_accounts (alloc : gmap string Z) :
  foldl (λ m '(a, z), <[a := mkAccount a z 0]> m) ∅ (range 0 alloc) = genesis_accounts alloc.
Proof.
  assert (∀ l (m : gmap string Account), foldl (λ m '(a, z), <[a := mkAccount a z 0]> m) m l =
    foldl (λ m '(k, x), <[k := x]> m) m ((λ e : string * Z, (e.1, mkAccount e.1 e.2 0)) <$> l)) as Hl.
  { induction l as [|[a z] l IH]; intros m; [done|]. simpl. apply IH. }
  rewrite Hl.
  assert (((λ e : string * Z, (e.1, mkAccount e.1 e.2 0)) <$> range 0 alloc).*1 = (range 0 alloc).*1) as Hk.
  { rewrite <- list_fmap_compose. done. }
  rewrite foldl_insert_entries by (rewrite Hk, range_perm; apply NoDup_fst_map_to_list).
  rewrite (right_id_L ∅ (∪)). apply map_eq. intros a. unfold genesis_accounts. rewrite map_lookup_imap.
  destruct (alloc !! a) as [z|] eqn:E; simpl.
  - apply elem_of_list_to_map_1; [rewrite Hk, range_perm; apply NoDup_fst_map_to_list|].
    apply list_elem_of_fmap. exists (a, z). split; [done|]. by rewrite range_perm, elem_of_map_to_list.
  - apply not_elem_of_list_to_map_1. rewrite Hk, range_perm.
    intros ([a' z] & -> & Hin%elem_of_map_to_list)%list_elem_of_fmap. simpl in E. congruence.
Qed.

Lemma supply_genesis (alloc : gmap string Z) : supply (genesis_world alloc) = msum (λ z, z) alloc.
Proof.
  unfold supply. simpl. change (msum locked ∅) with 0. rewrite Z.add_0_r. unfold genesis_accounts.
  induction alloc as [|a z m Hm IH] using map_ind; [done|].
  rewrite map_imap_insert. simpl. rewrite !msum_insert_new; [by rewrite IH|done|].
  by rewrite map_lookup_imap, Hm.
Qed.

Context {D : Type} `{HD : DB D, HDR : DBRep D, HDL : !DBLaws D}.

Lemma NewNode_inv (d : D) : db_contents d = ∅ → st_inv (NewNode d) ∧ world_at (NewNode d) = empty_world.
Proof.
  intros Hd. assert (clean (NewNode d)) as Hc by done. split.
  - split; [|constructor]. split; [by intros ? ?|by intros ? ?|]. simpl. rewrite Hd, overlay_empty.
    by split; intros a v; rewrite lookup_empty.
  - unfold world_at. rewrite (clean_world _ Hc). unfold nd_db. simpl. by rewrite Hd.
Qed.

Lemma credit_run (alloc : gmap string Z) (n : Node D) :
  map_Forall (λ a z, valid_utf8 a = true ∧ is_u64 z) alloc →
  st_inv n → st_healthy n → world_at n = empty_world →
  ∃ n', for_each credit_alloc (range 0 alloc) n = (n', Ret tt) ∧ st_inv n' ∧ st_healthy n' ∧
    world_at n' = genesis_world alloc ∧ same_frame n n'.
Proof.
  intros Ha Hn Hh Hw. destruct (for_each credit_alloc (range 0 alloc) n) as [n' o] eqn:E.
  assert (same_frame n n') as Hf.
  { pose proof (keeps_state_ops (same_frame n) (framed_same_frame n)) as (_ & Hs & _).
    pose proof (keeps_for_each (same_frame n) credit_alloc (range 0 alloc) (λ x _, Hs _) n (same_frame_refl n)) as H.
    by rewrite E in H. }
  assert (refines (λ _, True) (for_each credit_alloc (range 0 alloc)) (for_each credit_alloc (range 0 alloc))) as Hr.
  { apply refines_for_each. intros [a z] Hin. apply SetAccount_ref.
    rewrite range_perm, elem_of_map_to_list in Hin. destruct (Ha _ _ Hin). by split_and!. }
  destruct (Hr _ _ _ Hn E) as (Hn' & _ & Hh' & [(Habs & _)|[? _]]); [|done].
  rewrite abs_credit in Habs. apply pair_equal_spec in Habs as [Habs <-]. exists n'. split; [done|].
  split; [done|]. split; [by apply Hh'|]. split; [|done].
  unfold world_at in *. rewrite Hw in Habs. apply (f_equal abs_world) in Habs.
  simpl in Habs. by rewrite credit_accounts in Habs.
Qed.

Lemma CreateGenesis_run now cfg priv pub (n : Node D) :
  is_keypair priv → Public priv = Ret pub → startable cfg → is_i64 now →
  st_inv n → st_healthy n → world_at n = empty_world →
  ∃ n' b, CreateGenesisBlock now cfg priv n = (n', Ret b) ∧ st_inv n' ∧ st_healthy n' ∧ clean n' ∧
    world_at n' = genesis_world (alloc_of cfg) ∧
    nd_tip n' = nd_tip n ∧ nd_height n' = nd_height n ∧ nd_pool n' = nd_pool n ∧ nd_exited n' = nd_exited n ∧
    same_chain_keys (db_contents (nd_db n)) (db_contents (nd_db n')) ∧
    blk_Header b = genesis_header now cfg pub ∧ blk_Transactions b = [] ∧
    blk_Verify b pub = Ret tt ∧ good_block b.
Proof.
  intros Hk HP [Hid Hal] Hnow Hn Hh Hw. unfold CreateGenesisBlock, liftO at 1. rewrite HP.
  erewrite bind_Ret by done. fold (alloc_of cfg).
  destruct (credit_run (alloc_of cfg) n Hal Hn Hh Hw) as (n1 & E1 & Hn1 & Hh1 & Hw1 & Hf1).
  erewrite bind_Ret by exact E1. erewrite bind_Ret by done.
  destruct (Commit_ref n1 Hn1) as (n2 & o2 & E2 & Hn2 & Hw2 & [(-> & _ & Hh2)|(? & _)]); [|done].
  erewrite bind_Ret by exact E2. destruct (Commit_frame _ _ _ Hn1 E2) as (Ct & Ch & Cp & Cx & Ck & Cc).
  rewrite (Root_ref _ Hn1 Hh1). fold (world_at n1). rewrite Hw1.
  unfold NewBlock. erewrite bind_Ret by done. cbn [set_roots blk_Header blk_Transactions blk_Hash blk_Signature
    hdr_ChainID hdr_Height hdr_PrevHash hdr_Timestamp hdr_Proposer]. fold (genesis_header now cfg pub).
  set (b0 := mkBlock (genesis_header now cfg pub) [] "" "").
  destruct (Sign_Verify priv pub (ComputeHash b0) Hk HP) as (sig & Hs & HV).
  exists n2, (mkBlock (genesis_header now cfg pub) [] (ComputeHash b0) sig).
  assert (valid_utf8 sig = true) as Hsig.
  { unfold Verify in HV. destruct (hex_DecodeString sig) eqn:Ex; [|done]. by eapply hex_decode_valid. }
  destruct Hf1 as (Ft & Fh & Fp & Fx & Fk). split_and!; try congruence; try done.
  - unfold liftO, blk_Sign. cbn zeta. change (ComputeHash (set_roots _ _ _)) with (ComputeHash b0). by rewrite Hs.
  - by apply Hh2.
  - by apply Cc.
  - unfold world_at in *. congruence.
  - intros k Hc. rewrite Ck by (by apply chain_key_not_state). symmetry. apply Fk.
    destruct (is_index_key k) eqn:Ei; [|done]. destruct (chain_index_keys _ Hc Ei).
  - unfold blk_Verify. simpl. by rewrite bool_decide_eq_false_2 by (by intros []).
  - split; [|done]. unfold valid_Block, valid_BlockHeader. simpl.
    split_and!; try done; auto using Hash_valid, hex_valid; apply Hash_valid.
Qed.
End Genesis.

(** ** What starting leaves *)

Section Facts.
Context `{C : Crypto, CL : !CryptoLaws, F : FloatFmt, FL : !FloatLaws, O : MapOrder}.
Context {D : Type} `{HD : DB D, HDR : DBRep D, HDL : !DBLaws D}.
Implicit Types (d : D) (n : Node D).

Lemma new_pool_ok : mp_ok NewMempool.
Proof. apply (history_ok []). constructor. Qed.

Lemma or_die_Ret {A} msg (m : M (Node D) A) n n' a : m n = (n', Ret a) → or_die msg m n = (n', Ret a).
Proof. intros E. unfold or_die, attempt, mbind, M_bind. by rewrite E. Qed.

Lemma start_fresh now cfg priv pub d :
  is_keypair priv → Public priv = Ret pub → startable cfg → is_i64 now →
  db_contents d = ∅ → db_healthy d →
  ∃ n b, start now cfg priv d = (n, Ret tt) ∧ node_ok n [b] ∧ clean n ∧ (st_healthy n ∧ nd_exited n = false) ∧
    nd_tip n = Some b ∧
    blk_Header b = genesis_header now cfg pub ∧ blk_Transactions b = [] ∧ blk_Verify b pub = Ret tt ∧
    world_at n = genesis_world (alloc_of cfg).
Proof.
  intros Hk HP Hs Hnow Hd Hh. destruct (NewNode_inv d Hd) as [Hn Hw].
  destruct (CreateGenesis_run now cfg priv pub (NewNode d) Hk HP Hs Hnow Hn Hh Hw)
    as (n1 & b & E1 & Hn1 & Hh1 & Hc1 & Hw1 & Ht1 & Hht1 & Hp1 & Hx1 & Hk1 & Hbh & Hbt & Hbv & Hbg).
  destruct (on_chain_AddBlock_run n1 b) as [n2 E2]; [done| |by eapply (marshal_sound b [])|].
  { unfold check_link. simpl. by rewrite Ht1. }
  destruct (on_chain_AddBlock _ _ _ _ Hn1 E2) as (Hn2 & Ha2 & Hh2).
  destruct (AddBlock_frame _ _ _ _ E2) as (Gp & Gx & Gs & _ & _).
  assert (bc_ok (nd_chain n1) []) as Hok1.
  { split; simpl; try done. split; [by intros ? ?%elem_of_nil..| |].
    - simpl. rewrite <- Hk1; [|by apply (chain_keys "" 0)].
      change (db_contents d !! tip_key = None). by rewrite Hd.
    - intros z h. rewrite <- Hk1; [|by apply (chain_keys "" z)].
      change (db_contents d !! height_key z = Some h → ∃ x, x ∈ @nil Block ∧ hdr_Height (blk_Header x) = z).
      by rewrite Hd. }
  exists n2, b. split_and!; try done.
  - assert (on_chain Init (NewNode d) = (NewNode d, Ret tt)) as Ei.
    { unfold on_chain, on_part. change (nd_chain (NewNode d)) with (NewBlockchain d).
      by rewrite (Init_empty d) by (done || by rewrite Hd). }
    transitivity ((g ← or_die "genesis" (CreateGenesisBlock now cfg priv);
                   or_die "add genesis" (on_chain (AddBlock g))) (NewNode d)).
    { unfold start, boot. by erewrite bind_Ret by (apply or_die_Ret; exact Ei). }
    erewrite bind_Ret by (apply or_die_Ret; exact E1). by apply or_die_Ret.
  - destruct (on_chain_AddBlock_ok _ _ _ _ _ Hok1 Hbg E2) as [(_ & _ & [Hok2|Hcol])|(? & _)]; [|exfalso|done].
    + split; [done|done|rewrite Gp, Hp1; apply new_pool_ok|rewrite Gp, Hp1; done].
    + destruct Hcol as (m1 & m2 & H1 & H2 & Hne & _). simpl in H1, H2.
      apply list_elem_of_singleton in H1 as ->. by apply list_elem_of_singleton in H2 as ->.
  - unfold clean. by rewrite Gs.
  - by apply Hh2.
  - by rewrite Gx, Hx1.
  - destruct (on_chain_AddBlock_ok _ _ _ _ _ Hok1 Hbg E2) as [(_ & Gt & _)|(? & _)]; done.
  - unfold world_at in *. by rewrite Ha2.
Qed.

(** A clean node survives its process. *)
Lemma clean_inv n d :
  clean n → st_inv n → same_state_keys (db_contents (nd_db n)) (db_contents d) →
  st_inv (NewNode d) ∧ world_at (NewNode d) = world_at n.
Proof.
  intros Hc [Hb _] Hs. assert (clean (NewNode d)) as Hcd by done. split.
  - split; [|constructor]. apply (buffer_ok_ext _ _ _ Hs). destruct Hc as (Hd & Hx & _).
    unfold buffer in *. by rewrite Hd, Hx in Hb.
  - unfold world_at. rewrite (clean_world _ Hc), (clean_world _ Hcd). symmetry.
    by apply world_of_ext.
Qed.

Lemma start_again now cfg priv n l t :
  bc_ok (nd_chain n) (l ++ [t]) → st_healthy n → st_inv (NewNode (nd_db n)) →
  ∃ n' t', start now cfg priv (nd_db n) = (n', Ret tt) ∧ block_in_transit t t' ∧ nd_tip n' = Some t' ∧
    node_ok n' (l ++ [t']) ∧ clean n' ∧ st_healthy n' ∧ (nd_height n' = nd_height n ∧ nd_exited n' = false) ∧
    world_at n' = world_at (NewNode (nd_db n)).
Proof.
  intros Hok Hh Hn. destruct (Init_tip (nd_chain n) l t Hok Hh) as (t' & E & Ht & Hht).
  set (n' := mkNode (NewStateDB (nd_db n)) (Some t') (hdr_Height (blk_Header t')) NewMempool false).
  assert (on_chain Init (NewNode (nd_db n)) = (n', Ret tt)) as Ei.
  { unfold on_chain, on_part. change (nd_chain (NewNode (nd_db n))) with (NewBlockchain (bc_store (nd_chain n))).
    by rewrite E. }
  exists n', t'. split_and!; try done.
  - unfold start, boot. erewrite bind_Ret by (apply or_die_Ret; exact Ei). done.
  - split; [exact Hn| |apply new_pool_ok|done].
    pose proof (bc_ok_transit (nd_chain n) l t t' Hok Ht) as H. simpl in H, Hht. by rewrite Hht in H.
Qed.
End Facts.

(** ** Properties *)

Section Properties.
Context `{C : Crypto, CL : !CryptoLaws, F : FloatFmt, FL : !FloatLaws, O : MapOrder}.
Context {D : Type} `{HD : DB D, HDR : DBRep D, HDL : !DBLaws D}.
Implicit Types (d : D) (n : Node D).

(** On an empty, healthy store a node starts with a signed genesis block as
    its tip and the allocation of the configuration as its world, whatever
    order Go ranges over it in; the supply is the sum of the allocation. *)
Theorem fresh_start now cfg priv pub d :
  is_keypair priv → Public priv = Ret pub → startable cfg → is_i64 now →
  db_contents d = ∅ → db_healthy d →
  ∃ n b, start now cfg priv d = (n, Ret tt) ∧ node_ok n [b] ∧ clean n ∧ nd_tip n = Some b ∧
    blk_Header b = genesis_header now cfg pub ∧ blk_Verify b pub = Ret tt ∧
    world_at n = genesis_world (alloc_of cfg) ∧ supply (world_at n) = msum (λ z, z) (alloc_of cfg).
Proof.
  intros Hk HP Hs Hnow Hd Hh.
  destruct (start_fresh now cfg priv pub d Hk HP Hs Hnow Hd Hh) as (n & b & H1 & H2 & H3 & _ & H4 & H5 & _ & H6 & H7).
  exists n, b. rewrite H7, supply_genesis. by split_and!.
Qed.

(** Genesis is not shared.  Two nodes that start with the same
    configuration, but at different times or with different keys, have
    different genesis blocks, so that neither accepts a block built on the
    other's; or the two headers are a SHA-256 collision. *)
Theorem genesis_not_shared now1 now2 cfg priv1 priv2 pub1 pub2 d1 d2 :
  is_keypair priv1 → Public priv1 = Ret pub1 → is_keypair priv2 → Public priv2 = Ret pub2 →
  startable cfg → is_i64 now1 → is_i64 now2 → (now1, pub1) ≠ (now2, pub2) →
  db_contents d1 = ∅ → db_healthy d1 → db_contents d2 = ∅ → db_healthy d2 →
  let n1 := (start now1 cfg priv1 d1).1 in
  let n2 := (start now2 cfg priv2 d2).1 in
  ∃ g1 g2, nd_tip n1 = Some g1 ∧ nd_tip n2 = Some g2 ∧
  ((blk_Hash g1 ≠ blk_Hash g2 ∧
    ∀ (p : PoA (Node D)) now b, hdr_PrevHash (blk_Header b) = blk_Hash g1 →
      ValidateBlock p now (Some b) n2 ≠ Ret tt) ∨
   collision_in [header_text g1; header_text g2]).
Proof.
  intros Hk1 HP1 Hk2 HP2 Hs Hn1 Hn2 Hne Hd1 Hh1 Hd2 Hh2. cbn zeta.
  destruct (start_fresh now1 cfg priv1 pub1 d1) as (n1 & g1 & -> & [_ Hc1 _ _] & _ & _ & Ht1 & Hg1 & _); [done..|].
  destruct (start_fresh now2 cfg priv2 pub2 d2) as (n2 & g2 & -> & [_ Hc2 _ _] & _ & _ & Ht2 & Hg2 & _); [done..|].
  exists g1, g2. split; [done|]. split; [done|]. simpl.
  pose proof (Forall_inv (bco_good _ _ Hc1)) as Hgg1. pose proof (Forall_inv (bco_good _ _ Hc2)) as Hgg2.
  assert (blk_Hash g1 ≠ blk_Hash g2 ∨ collision_in [header_text g1; header_text g2]) as [Hh|]; [|left|by right].
  { destruct (decide (blk_Hash g1 = blk_Hash g2)) as [E|]; [right|by left].
    destruct (good_hash_header _ _ Hgg1 Hgg2 E) as [E2|]; [exfalso|done]. apply Hne.
    rewrite Hg1, Hg2 in E2. injection E2 as -> Hx. f_equal. by apply hex_encode_inj. }
  split; [done|]. intros p now b Hb E. unfold ValidateBlock in E. revert E.
  case_bool_decide; [done|]. simpl. case_bool_decide; [done|].
  destruct (scheduled _ _) as [v| |]; simpl; [|done..]. case_bool_decide; [done|].
  destruct (PubKeyFromHex _) as [pub| |]; simpl; [|done..].
  destruct (blk_Verify b pub) as [[]| |]; simpl; [|done..].
  destruct (ComputeTxRoot _) as [r| |]; simpl; [|done..]. case_bool_decide; [done|]. case_bool_decide; [done|].
  unfold check_tip, Tip. simpl. rewrite Ht2. rewrite bool_decide_eq_true_2; [done|]. congruence.
Qed.

(** A node stopped when nothing is buffered continues where it was: its
    process restarts with the same chain (the tip's payloads in stored form),
    height and world, and all invariants. *)
Theorem restart_continues now cfg priv n l t :
  node_ok n (l ++ [t]) → clean n → st_healthy n →
  ∃ n' t', start now cfg priv (nd_db n) = (n', Ret tt) ∧ block_in_transit t t' ∧
    node_ok n' (l ++ [t']) ∧ clean n' ∧ nd_height n' = nd_height n ∧ world_at n' = world_at n.
Proof.
  intros [Hn Hc _ _] Hcl Hh. destruct (clean_inv n (nd_db n) Hcl Hn) as [Hi Hw]; [done|].
  destruct (start_again now cfg priv n l t Hc Hh Hi) as (n' & t' & H1 & H2 & _ & H3 & H4 & _ & [H5 _] & H6).
  exists n', t'. rewrite H6. by split_and!.
Qed.

(** C23: the block is stored before the state.  If the process dies in between,
    the restarted node has the new block as its tip but the world from before
    it, whose root is not the one the block names, unless the block changed
    nothing or two root texts are a SHA-256 collision. *)
Theorem crash_before_commit p now txs n chain n1 b now' cfg priv :
  poa_ok p → node_ok n chain → clean n → st_healthy n → is_i64 now → Forall sound_tx txs →
  store_block p now txs n = (n1, Ret b) →
  short_entries (encode_world (world_at n)) → short_entries (encode_world (world_at n1)) →
  (∃ n2 b', start now' cfg priv (nd_db n1) = (n2, Ret tt) ∧ nd_tip n2 = Some b' ∧ block_in_transit b b' ∧
     world_at n2 = world_at n ∧ hdr_StateRoot (blk_Header b') = world_root (world_at n1) ∧
     (world_at n1 = world_at n ∨ hdr_StateRoot (blk_Header b') ≠ ComputeRoot n2 ∨
      collision_in [root_bytes (encode_world (world_at n1)); root_bytes (encode_world (world_at n))])) ∨
  collision_in (header_text <$> chain ++ [b]).
Proof.
  intros Hp [Hn Hc _ _] Hcl Hh Hnow Hs E Hsh0 Hsh1.
  destruct (store_block_cases _ _ _ _ _ _ _ Hp Hn Hc Hnow Hs E) as (Hn1 & Hh1 & _ & _ & Hk & [Hr|(? & _)]); [|done].
  destruct Hr as (b1 & root & [= <-] & Hsl & _ & Ht & [Hok|] & Hrun); [left|by right].
  destruct (Hrun Hh) as [-> _].
  destruct (clean_inv n (nd_db n1) Hcl Hn Hk) as [Hi Hw].
  destruct (start_again now' cfg priv n1 chain b Hok (Hh1 Hh) Hi)
    as (n2 & b' & H1 & H2 & H3 & [Hn2 _ _ _] & H4 & H5 & _ & H6). rewrite Hw in H6.
  assert (hdr_StateRoot (blk_Header b') = world_root (world_at n1)) as Hroot.
  { rewrite (bt_header _ _ H2), (sl_header _ _ _ _ Hsl). done. }
  exists n2, b'. split_and!; try done. rewrite Hroot, (Root_ref n2 Hn2 H5). fold (world_at n2). rewrite H6.
  destruct (decide (world_root (world_at n1) = world_root (world_at n))) as [Er|]; [|by right; left].
  apply world_root_inj in Er as [Er|]; [by left|by right; right| | |done..].
  - by destruct (st_wf n1 Hn1).
  - by destruct (st_wf n Hn).
Qed.
End Properties.
