(* ===== verification/Peer.v ===== *)
(** * Connections between nodes

    Models [src/network/peer.go]: messages, their length-prefixed framing, and
    a peer over a [net.Conn].  A connection is its two byte streams; when it is
    broken (closed, reset, or past a deadline) every operation fails, and
    [io.ReadFull] fails when the stream ends before the buffer is full.  What
    the operating system yields when it is asked to dial or to listen is an
    argument ([Net]). *)
From Stdlib Require Import Ascii Lia ZArith.
From stdpp Require Import base gmap strings list.
From S2P Require Import Prelude Crypto Json JsonFacts JsonParse JsonTyped Types Transaction Config Tls.

Definition MsgHello : string := "hello".
Definition MsgTx : string := "tx".
Definition MsgBlock : string := "block".
Definition MsgGetBlocks : string := "get_blocks".
Definition MsgBlocks : string := "blocks".

Record Message : Type := mkMessage { msg_Type : string; msg_Payload : string }.
Definition Message_zero : Message := mkMessage "" "".

Definition Message_enc (m : Message) : option jv :=
  p ← enc_raw (msg_Payload m);
  Some (VObj [("type", enc_string (msg_Type m)); ("payload", p)]).
Definition Message_dec : Message → jv → option Message := dec_struct [
  ("type", λ m v, x ← dec_string (msg_Type m) v; Some (mkMessage x (msg_Payload m)));
  ("payload", λ m v, x ← dec_raw (msg_Payload m) v; Some (mkMessage (msg_Type m) x))].

(** ** net.Conn *)

(** The bytes that can still be read, those written, and whether the connection
    is unusable.  A write puts all its bytes into the stream or fails with none:
    a connection that breaks in the middle of a frame is not represented. *)
Record Conn : Type := mkConn { cn_in : string; cn_out : string; cn_broken : bool }.

Definition conn_error : error := EMsg "connection".

Definition conn_SetDeadline : M Conn unit := λ c,
  (c, if cn_broken c then Fail conn_error else Ret tt).
Definition conn_Write (data : string) : M Conn unit := λ c,
  if cn_broken c then (c, Fail conn_error)
  else (mkConn (cn_in c) (cn_out c +:+ data) false, Ret tt).
(** [io.ReadFull] into a buffer of [n] bytes. *)
Definition conn_ReadFull (n : nat) : M Conn string := λ c,
  if cn_broken c then (c, Fail conn_error)
  else if bool_decide (String.length (cn_in c) < n)%nat
  then (mkConn "" (cn_out c) false, Fail (EMsg "EOF"))
  else (mkConn (string_drop n (cn_in c)) (cn_out c) false, Ret (string_take n (cn_in c))).
Definition conn_Close : M Conn unit := λ c, (mkConn (cn_in c) (cn_out c) true, Ret tt).

(** ** Peer *)

Record Peer : Type := mkPeer {
  peer_ID : string;
  peer_Addr : string;
  peer_conn : Conn;
  peer_closed : bool
}.

Definition NewPeer (id addr : string) (conn : Conn) : Peer := mkPeer id addr conn false.

(** Packages net and crypto/tls: connections, and the addresses listened on. *)
Record Net : Type := mkNet {
  net_Dial : string → outcome Conn;
  tls_Dial : string → tls_Config → outcome Conn;
  net_Listen : string → outcome string;
  tls_Listen : string → tls_Config → outcome string
}.

(** [Connect] dials with TLS when it is configured. *)
Definition dial (net : Net) (tlsCfg : option tls_Config) (addr : string) : outcome Conn :=
  match tlsCfg with Some c => tls_Dial net addr c | None => net_Dial net addr end.
Definition Connect (id addr : string) (dialled : outcome Conn) : outcome Peer :=
  conn ← wrapO "connect to" dialled;
  Ret (NewPeer id addr conn).

Definition set_conn (c : Conn) (p : Peer) : Peer := mkPeer (peer_ID p) (peer_Addr p) c (peer_closed p).
Definition on_conn {A} (m : M Conn A) : M Peer A := on_part peer_conn set_conn m.

Definition is_closed : M Peer bool := λ p, (p, Ret (peer_closed p)).

(** [json.Marshal] of a message. *)
Definition marshal_msg (m : Message) : outcome string :=
  match Message_enc m with Some v => Ret (print v) | None => Fail (EMsg "json") end.

Definition Send (m : Message) : M Peer unit :=
  data ← liftO (marshal_msg m);
  closed ← is_closed;
  reject_if closed (EMsg "peer closed");;
  on_conn conn_SetDeadline errorf "set write deadline";;
  on_conn (conn_Write (be32 (zlen data)));;
  on_conn (conn_Write data).

Definition maxMessageSize : Z := 10 * 1024 * 1024.

Definition Receive : M Peer Message :=
  on_conn conn_SetDeadline errorf "set read deadline";;
  header ← on_conn (conn_ReadFull 4);
  let length := match read_be32 header with Some (n, _) => n | None => 0 end in
  reject_if (bool_decide (length > maxMessageSize)) (EMsg "message too large");;
  buf ← on_conn (conn_ReadFull (Z.to_nat length));
  liftO (of_option (EMsg "json") (Unmarshal Message_dec Message_zero buf)).

Definition Close : M Peer unit := λ p,
  if peer_closed p then (p, Ret tt)
  else (mkPeer (peer_ID p) (peer_Addr p) (conn_Close (peer_conn p)).1 true, Ret tt).

(** ** Framing *)

Definition live (p : Peer) : Prop := peer_closed p = false ∧ cn_broken (peer_conn p) = false.

(** A peer after writing, and one after reading. *)
Definition wrote (s : string) (p : Peer) : Peer :=
  set_conn (mkConn (cn_in (peer_conn p)) (cn_out (peer_conn p) +:+ s) (cn_broken (peer_conn p))) p.
Definition incoming (s : string) (p : Peer) : Peer :=
  set_conn (mkConn s (cn_out (peer_conn p)) (cn_broken (peer_conn p))) p.

Lemma Send_run m p data :
  live p → marshal_msg m = Ret data → Send m p = (wrote (frame data) p, Ret tt).
Proof.
  intros [Hc Hb] Hm. destruct p as [id addr [i o br] cl]. simpl in *. subst.
  unfold Send, liftO. rewrite Hm. do 5 erewrite bind_Ret by reflexivity.
  unfold frame, wrote, on_conn, on_part, conn_Write.
  cbn [peer_conn set_conn cn_broken cn_in cn_out peer_ID peer_Addr peer_closed]. by rewrite sapp_assoc.
Qed.

Lemma Send_cases m p :
  (∃ data, marshal_msg m = Ret data ∧ live p ∧ Send m p = (wrote (frame data) p, Ret tt)) ∨
  ((marshal_msg m = Fail (EMsg "json") ∨ ¬ live p) ∧ ∃ e, Send m p = (p, Fail e)).
Proof.
  destruct (Message_enc m) as [v|] eqn:Ev.
  - assert (marshal_msg m = Ret (print v)) as Em by (unfold marshal_msg; by rewrite Ev).
    destruct (decide (peer_closed p = false)) as [Hc|Hc], (decide (cn_broken (peer_conn p) = false)) as [Hb|Hb].
    + left. exists (print v). split_and!; [done|done|by apply Send_run].
    + right. split; [right; by intros []|]. destruct p as [id addr [i o []] cl]; [|done]. simpl in Hc. subst.
      unfold Send, liftO. rewrite Em. eauto.
    + right. split; [right; by intros []|]. destruct p as [id addr c []]; [|done].
      unfold Send, liftO. rewrite Em. eauto.
    + right. split; [right; by intros []|]. destruct p as [id addr c []]; [|done].
      unfold Send, liftO. rewrite Em. eauto.
  - right. unfold Send, liftO, marshal_msg. rewrite Ev. split; [by left|eauto].
Qed.

Lemma string_take_app_len n s r : String.length s = n → string_take n (s +:+ r) = s.
Proof. intros <-. apply string_take_app. Qed.
Lemma string_drop_app_len n s r : String.length s = n → string_drop n (s +:+ r) = r.
Proof. intros <-. apply string_drop_app. Qed.

Lemma ReadFull_app n s r o :
  String.length s = n → conn_ReadFull n (mkConn (s +:+ r) o false) = (mkConn r o false, Ret s).
Proof.
  intros Hl. unfold conn_ReadFull. simpl. rewrite bool_decide_eq_false_2 by (rewrite slength_app; lia).
  by rewrite string_take_app_len, string_drop_app_len.
Qed.

Lemma zlen_frame_header data : String.length (be32 (zlen data)) = 4%nat.
Proof. done. Qed.

Lemma Receive_frame data rest p :
  live p → zlen data <= maxMessageSize →
  Receive (incoming (frame data +:+ rest) p) =
  (incoming rest p, of_option (EMsg "json") (Unmarshal Message_dec Message_zero data)).
Proof.
  intros [Hc Hb] Hl. destruct p as [id addr [i o br] cl]. simpl in *. subst.
  assert (0 ≤ zlen data < 4294967296) as Hr.
  { pose proof (zlen_nonneg data). unfold maxMessageSize in Hl. lia. }
  unfold Receive, incoming, frame. simpl. erewrite bind_Ret by done.
  rewrite sapp_assoc. erewrite bind_Ret.
  2: { unfold on_conn, on_part. cbn [peer_conn set_conn]. rewrite ReadFull_app by done. reflexivity. }
  assert (read_be32 (be32 (zlen data)) = Some (zlen data, "")) as ->.
  { rewrite <- (sapp_nil_r (be32 (zlen data))). by apply read_be32_app. }
  cbn zeta. rewrite bool_decide_eq_false_2 by lia. erewrite bind_Ret by done. erewrite bind_Ret.
  2: { unfold on_conn, on_part. cbn [peer_conn set_conn]. rewrite ReadFull_app; [reflexivity|].
       unfold zlen. lia. }
  done.
Qed.

Lemma Receive_oversize data rest p :
  live p → maxMessageSize < zlen data < 4294967296 →
  (Receive (incoming (frame data +:+ rest) p)).2 = Fail (EMsg "message too large").
Proof.
  intros [Hc Hb] Hr. destruct p as [id addr [i o br] cl]. simpl in *. subst.
  unfold Receive, incoming, frame. simpl. erewrite bind_Ret by done.
  rewrite sapp_assoc. erewrite bind_Ret.
  2: { unfold on_conn, on_part. cbn [peer_conn set_conn]. rewrite ReadFull_app by done. reflexivity. }
  assert (read_be32 (be32 (zlen data)) = Some (zlen data, "")) as ->.
  { rewrite <- (sapp_nil_r (be32 (zlen data))). apply read_be32_app. unfold maxMessageSize in Hr. lia. }
  cbn zeta. rewrite bool_decide_eq_true_2 by lia. done.
Qed.

(** What a message becomes on the wire. *)
Definition msg_transit (m m' : Message) : Prop :=
  ∃ v, enc_raw (msg_Payload m) = Some v ∧ m' = mkMessage (msg_Type m) (print v).

Lemma Message_text m v :
  valid_utf8 (msg_Type m) = true → Message_enc m = Some v →
  ∃ m', Unmarshal Message_dec Message_zero (print v) = Some m' ∧ msg_transit m m'.
Proof.
  intros Hv (p & Hp & [= <-])%bind_Some. exists (mkMessage (msg_Type m) (print p)). split; [|by exists p].
  apply Unmarshal_print.
  - cbn [wf_jv forallb]. by rewrite wf_enc_string, (wf_enc_raw _ _ Hp).
  - unfold Message_dec, dec_struct.
    dec_field_step; [|rewrite dec_enc_string by done; simpl; reflexivity].
    dec_field_step; [|simpl; reflexivity]. reflexivity.
Qed.

(** Reads [k] messages. *)
Fixpoint Receive_n (k : nat) : M Peer (list Message) :=
  match k with
  | O => mret []
  | S k => m ← Receive; ms ← Receive_n k; mret (m :: ms)
  end.

(** A message that can be sent and received. *)
Definition sendable (m : Message) : Prop :=
  valid_utf8 (msg_Type m) = true ∧ ∃ data, marshal_msg m = Ret data ∧ zlen data <= maxMessageSize.

Lemma wrote_nil p : wrote "" p = p.
Proof. destruct p as [id addr [i o br] cl]. unfold wrote, set_conn. simpl. by rewrite sapp_nil_r. Qed.

Lemma wrote_wrote s1 s2 p : wrote s2 (wrote s1 p) = wrote (s1 +:+ s2) p.
Proof. destruct p as [id addr [i o br] cl]. unfold wrote, set_conn. simpl. by rewrite sapp_assoc. Qed.

Lemma wrote_live s p : live p → live (wrote s p).
Proof. done. Qed.

Lemma marshal_msg_text m data :
  valid_utf8 (msg_Type m) = true → marshal_msg m = Ret data →
  ∃ m', Unmarshal Message_dec Message_zero data = Some m' ∧ msg_transit m m'.
Proof.
  intros Hv. unfold marshal_msg. destruct (Message_enc m) as [v|] eqn:E; [|done]. intros [= <-].
  by apply Message_text.
Qed.

(** A message of at most 10 MB that was sent arrives. *)
Lemma send_receive m data p q rest :
  live p → live q → valid_utf8 (msg_Type m) = true → marshal_msg m = Ret data →
  zlen data <= maxMessageSize →
  Send m p = (wrote (frame data) p, Ret tt) ∧
  ∃ m', Receive (incoming (frame data +:+ rest) q) = (incoming rest q, Ret m') ∧ msg_transit m m'.
Proof.
  intros Hp Hq Hv Hm Hl. destruct (marshal_msg_text _ _ Hv Hm) as (m' & Hd & Ht).
  split; [by apply Send_run|]. exists m'. split; [|done]. rewrite Receive_frame by done. by rewrite Hd.
Qed.

(** What reading does to a peer: the stream gets shorter, nothing else changes. *)
Definition read_from (p p' : Peer) : Prop :=
  peer_ID p' = peer_ID p ∧ peer_Addr p' = peer_Addr p ∧ peer_closed p' = peer_closed p ∧
  cn_out (peer_conn p') = cn_out (peer_conn p) ∧ cn_broken (peer_conn p') = cn_broken (peer_conn p).

Lemma ReadFull_cases n c c' o :
  conn_ReadFull n c = (c', o) →
  cn_out c' = cn_out c ∧ cn_broken c' = cn_broken c ∧
  match o with
  | Ret s => String.length (cn_in c) = (n + String.length (cn_in c'))%nat
  | _ => True
  end.
Proof.
  unfold conn_ReadFull. destruct (cn_broken c) eqn:Eb; [intros [= <- <-]; by rewrite Eb|].
  case_bool_decide as Hl; intros [= <- <-]; simpl; [done|]. split; [done|]. split; [done|].
  rewrite string_drop_length. lia.
Qed.

Lemma Receive_cases p p' o :
  Receive p = (p', o) →
  read_from p p' ∧ (is_ret o = true → String.length (cn_in (peer_conn p')) < String.length (cn_in (peer_conn p)))%nat ∧
  ∀ msg, o ≠ Panic msg.
Proof.
  unfold Receive, wrap, on_conn, on_part, liftO, mbind, M_bind, conn_SetDeadline.
  destruct p as [id addr c cl]. cbn [peer_conn set_conn].
  destruct (cn_broken c) eqn:Eb; cbn [wrapO].
  { intros [= <- <-]. by split_and!. }
  destruct (conn_ReadFull 4 c) as [c1 o1] eqn:E1.
  destruct (ReadFull_cases _ _ _ _ E1) as (Ho1 & Hb1 & H1).
  destruct o1 as [hd|e|m]; [|intros [= <- <-]; by split_and!|].
  2: { exfalso. revert E1. unfold conn_ReadFull. rewrite Eb. by case_bool_decide. }
  cbn [peer_conn set_conn peer_ID peer_Addr peer_closed].
  set (k := match read_be32 hd with Some (n, _) => n | None => 0 end).
  unfold reject_if. case_bool_decide; [unfold fail; intros [= <- <-]; by split_and!|]. unfold mret, M_ret.
  cbn [peer_conn set_conn peer_ID peer_Addr peer_closed].
  destruct (conn_ReadFull (Z.to_nat k) c1) as [c2 o2] eqn:E2.
  destruct (ReadFull_cases _ _ _ _ E2) as (Ho2 & Hb2 & H2).
  destruct o2 as [buf|e|m]; [|simpl; intros [= <- <-]; split; [split_and!; simpl; congruence|done]|].
  2: { exfalso. revert E2. unfold conn_ReadFull. rewrite Hb1, Eb. by case_bool_decide. }
  intros [= <- <-]. split; [split_and!; simpl; congruence|]. split; [simpl; lia|].
  intros msg. by destruct (Unmarshal _ _ _).
Qed.

(** ** Properties *)

(** C34: a stream of messages sent to a peer arrives there complete, in order,
    message by message, with types and payloads unchanged but for the spelling
    of the JSON; what follows in the stream stays there. *)
Theorem messages_arrive ms p q rest :
  live p → live q → Forall sendable ms →
  ∃ wire ms', for_each Send ms p = (wrote wire p, Ret tt) ∧
    Receive_n (length ms) (incoming (wire +:+ rest) q) = (incoming rest q, Ret ms') ∧
    Forall2 msg_transit ms ms'.
Proof.
  intros Hp Hq Hs. revert p Hp. induction Hs as [|m ms (Hv & data & Hm & Hl) _ IH]; intros p Hp.
  { exists "", []. by rewrite wrote_nil. }
  destruct (IH (wrote (frame data) p) (wrote_live _ _ Hp)) as (wire & ms' & Hs & Hr & Hf).
  destruct (send_receive m data p q (wire +:+ rest) Hp Hq Hv Hm Hl) as (E1 & m' & E2 & Ht).
  exists (frame data +:+ wire), (m' :: ms'). rewrite sapp_assoc. split_and!; [| |by constructor].
  - cbn [for_each]. erewrite bind_Ret by exact E1. by rewrite Hs, wrote_wrote.
  - cbn [Receive_n length]. erewrite bind_Ret by exact E2. by erewrite bind_Ret by exact Hr.
Qed.

(** The sender accepts messages the receiver refuses: a message of more
    than 10 MB (and less than 4 GB) is sent without an error, and receiving it
    fails. *)
Theorem oversized_message_refused m data p q rest :
  live p → live q → marshal_msg m = Ret data → maxMessageSize < zlen data < 4294967296 →
  Send m p = (wrote (frame data) p, Ret tt) ∧
  (Receive (incoming (frame data +:+ rest) q)).2 = Fail (EMsg "message too large").
Proof. intros Hp Hq Hm Hl. split; [by apply Send_run|by apply Receive_oversize]. Qed.
