(* ===== verification/Network.v ===== *)
(** * The peers of a node

    Models [src/network/node.go]: registering peers and handlers, broadcasting,
    accepting connections, and the read loop that hands a peer's messages to
    their handlers.  A [*Peer] is a reference into [ht_conns], so that the table
    of peers, a read loop and a handler share one object.  The handlers are
    registered before the node starts and are an argument of the read loop.
    What [go n.readLoop(peer)] starts is a computation of its own: [readLoop] on
    the peer's reference.  What dialling, listening and accepting yield are
    arguments; the locks are left out. *)
From Stdlib Require Import Ascii Lia ZArith.
From stdpp Require Import base gmap strings list.
From S2P Require Import Prelude Crypto Json JsonFacts JsonParse JsonTyped Types Transaction Block.
From S2P Require Import State DB StateDB Mempool Blockchain Files Config Tls Transit Node Frame Peer.

Definition DefaultMaxPeers : Z := 50.

(** A listener: its address, and whether it was closed. *)
Record Listener : Type := mkListener { ln_Addr : string; ln_closed : bool }.

Record Host (D : Type) : Type := mkHost {
  ht_node : Node D;
  ht_conns : list Peer;
  ht_peers : gmap string nat;
  ht_stopped : bool;
  ht_clock : nat → Z;
  ht_listener : option Listener
}.
Arguments mkHost {D}.
Arguments ht_node {D}.
Arguments ht_conns {D}.
Arguments ht_peers {D}.
Arguments ht_stopped {D}.
Arguments ht_clock {D}.
Arguments ht_listener {D}.

(** [MessageHandler] and the table of them. *)
Definition MessageHandler (D : Type) : Type := nat → Message → M (Host D) unit.
Abbreviation Handlers D := (gmap string (MessageHandler D)).

Section Network.
Context `{C : Crypto, F : FloatFmt, O : MapOrder} {D : Type} `{HD : DB D}.
Implicit Type h : Host D.

Definition set_ht_node (n : Node D) h : Host D :=
  mkHost n (ht_conns h) (ht_peers h) (ht_stopped h) (ht_clock h) (ht_listener h).
Definition on_node {A} (m : M (Node D) A) : M (Host D) A := on_part ht_node set_ht_node m.

Definition set_ht_conns (l : list Peer) h : Host D :=
  mkHost (ht_node h) l (ht_peers h) (ht_stopped h) (ht_clock h) (ht_listener h).
Definition set_ht_peers (m : gmap string nat) h : Host D :=
  mkHost (ht_node h) (ht_conns h) m (ht_stopped h) (ht_clock h) (ht_listener h).

(** A method of the peer a reference points to. *)
Definition on_peer {A} (r : nat) (m : M Peer A) : M (Host D) A := λ h,
  match ht_conns h !! r with
  | None => (h, Panic "nil pointer dereference")
  | Some p => let '(p', o) := m p in (set_ht_conns (<[r := p']> (ht_conns h)) h, o)
  end.

(** [time.Now().UnixNano()]: the clock's readings are given. *)
Definition read_clock : M (Host D) Z := λ h,
  (mkHost (ht_node h) (ht_conns h) (ht_peers h) (ht_stopped h) (λ i, ht_clock h (S i)) (ht_listener h), Ret (ht_clock h 0%nat)).

Definition new_peer (p : Peer) : M (Host D) nat := λ h,
  (set_ht_conns (ht_conns h ++ [p]) h, Ret (length (ht_conns h))).

(** [n.peers[id] = peer], [delete(n.peers, id)] *)
Definition register (id : string) (r : nat) : M (Host D) unit := λ h,
  (set_ht_peers (<[id := r]> (ht_peers h)) h, Ret tt).
Definition unregister (id : string) : M (Host D) unit := λ h,
  (set_ht_peers (delete id (ht_peers h)) h, Ret tt).

Definition handleTx (_ : nat) (msg : Message) : M (Host D) unit :=
  match Unmarshal Transaction_dec Transaction_zero (msg_Payload msg) with
  | None => mret tt
  | Some tx => now ← read_clock; logged (on_node (on_pool (Add now tx)))
  end.

Definition Handle (typ : string) (hd : MessageHandler D) (tbl : Handlers D) : Handlers D :=
  <[typ := hd]> tbl.

Definition default_handlers : Handlers D := Handle MsgTx handleTx ∅.
Definition NewHost (n : Node D) (clock : nat → Z) : Host D := mkHost n [] ∅ false clock None.

(** [Peer]: the connected peer of that name, if any. *)
Definition peer_by_id (id : string) h : option nat := ht_peers h !! id.

(** [AddPeer], given what dialling returns. *)
Definition AddPeer (nodeID id addr : string) (dialled : outcome Conn) : M (Host D) unit :=
  peer ← liftO (Connect id addr dialled);
  r ← new_peer peer;
  register id r;;
  logged (on_peer r (Send (mkMessage MsgHello (print (VObj [("node_id", enc_string nodeID)]))))).

(** The body of [acceptLoop] for a new connection: the reference of the peer
    whose read loop is started, or nothing when the connection is refused. *)
Definition accept (maxPeers : Z) (remote : string) (conn : Conn) : M (Host D) (option nat) := λ h,
  if bool_decide (maxPeers ≤ Z.of_nat (size (ht_peers h))) then (h, Ret None)
  else (r ← new_peer (NewPeer remote remote conn); register remote r;; mret (Some r)) h.

(** One round of [acceptLoop], for what [Accept] returned: whether the loop goes
    on, and the new peer.  An error ends the loop once the node was stopped. *)
Definition accept_step (maxPeers : Z) (accepted : outcome (string * Conn)) : M (Host D) (bool * option nat) := λ h,
  match accepted with
  | Ret (remote, conn) => (r ← accept maxPeers remote conn; mret (true, r)) h
  | _ => (h, Ret (negb (ht_stopped h), None))
  end.

(** [acceptLoop], for the results of successive [Accept]s: the peers whose read
    loops it starts. *)
Fixpoint acceptLoop (maxPeers : Z) (results : list (outcome (string * Conn))) : M (Host D) (list nat) :=
  match results with
  | [] => mret []
  | accepted :: results =>
      '(more, r) ← accept_step maxPeers accepted;
      rs ← (if more : bool then acceptLoop maxPeers results else mret []);
      mret (option_list r ++ rs)
  end.

(** [Start]: the accept loop runs from here on. *)
Definition listen (net : Net) (tlsCfg : option tls_Config) (addr : string) : outcome string :=
  match tlsCfg with Some c => tls_Listen net addr c | None => net_Listen net addr end.
Definition set_listener (ln : Listener) : M (Host D) unit := λ h,
  (mkHost (ht_node h) (ht_conns h) (ht_peers h) (ht_stopped h) (ht_clock h) (Some ln), Ret tt).
Definition Start (net : Net) (tlsCfg : option tls_Config) (listenAddr : string) : M (Host D) unit :=
  addr ← liftO (wrapO "listen" (listen net tlsCfg listenAddr));
  set_listener (mkListener addr false).

(** [Broadcast]: the peers are collected first, then sent to one by one. *)
Definition Broadcast (msg : Message) : M (Host D) unit := λ h,
  for_each (λ q, logged (on_peer q.2 (Send msg))) (range 0 (ht_peers h)) h.

Definition BroadcastTx (tx : Transaction) : M (Host D) unit :=
  match Transaction_enc tx with
  | None => mret tt
  | Some v => Broadcast (mkMessage MsgTx (print v))
  end.

Definition BroadcastBlock (b : Block) : M (Host D) unit :=
  match marshal_block b with
  | Ret data => Broadcast (mkMessage MsgBlock data)
  | _ => mret tt
  end.

(** [Stop]: closing [stopCh] twice panics. *)
Definition Stop : M (Host D) unit := λ h,
  if ht_stopped h then (h, Panic "close of closed channel")
  else for_each (λ q, on_peer q.2 Close) (range 0 (ht_peers h))
         (mkHost (ht_node h) (ht_conns h) (ht_peers h) true (ht_clock h)
            ((λ ln, mkListener (ln_Addr ln) true) <$> ht_listener h)).

(** One iteration of the loop of [readLoop]; false at its [return]. *)
Definition read_step (tbl : Handlers D) (r : nat) : M (Host D) bool :=
  o ← attempt (on_peer r Receive);
  match o with
  | Ret msg => match tbl !! msg_Type msg with Some hd => hd r msg;; mret true | None => mret true end
  | Fail _ => mret false
  | Panic msg => panic msg
  end.

(** The loop; false when [fuel] iterations did not reach the [return]. *)
Fixpoint read_msgs (fuel : nat) (tbl : Handlers D) (r : nat) : M (Host D) bool :=
  match fuel with
  | 0%nat => mret false
  | S k => more ← read_step tbl r; if more : bool then read_msgs k tbl r else mret true
  end.

(** The deferred function of [readLoop]. *)
Definition drop_peer (r : nat) : M (Host D) unit := λ h,
  (on_peer r Close;; unregister (match ht_conns h !! r with Some p => peer_ID p | None => "" end)) h.

(** [readLoop]: a panic of a handler is recovered, the end of the process
    ([log.Fatalf]) is not. *)
Definition readLoop (fuel : nat) (tbl : Handlers D) (r : nat) : M (Host D) bool := λ h,
  match read_msgs fuel tbl r h with
  | (h', Ret false) => (h', Ret false)
  | (h', o) =>
      if nd_exited (ht_node h') then (h', o) else (drop_peer r;; mret true) h'
  end.
End Network.

(** ** What handlers and read loops leave alone *)

Definition same_peer (p p' : Peer) : Prop :=
  peer_ID p' = peer_ID p ∧ peer_closed p' = peer_closed p ∧ cn_broken (peer_conn p') = cn_broken (peer_conn p).

(** Data was read from and written to the connections, no more; when [quiet_in]
    holds it was only written. *)
Definition io_only {D} (quiet_in : bool) (h h' : Host D) : Prop :=
  ht_peers h' = ht_peers h ∧
  ∀ r p, ht_conns h !! r = Some p → ∃ p', ht_conns h' !! r = Some p' ∧ same_peer p p' ∧
    (quiet_in = true → cn_in (peer_conn p') = cn_in (peer_conn p)).

Lemma io_only_refl {D} q (h : Host D) : io_only q h h.
Proof. split; [done|]. intros r p Hp. by exists p. Qed.

Lemma io_only_weaken {D} (h h' : Host D) : io_only true h h' → io_only false h h'.
Proof. intros [H1 H2]. split; [done|]. intros r p Hp. destruct (H2 r p Hp) as (p' & ? & ? & _). by exists p'. Qed.

Lemma io_only_trans {D} q (h h1 h2 : Host D) : io_only q h h1 → io_only q h1 h2 → io_only q h h2.
Proof.
  intros [E1 H1] [E2 H2]. split; [congruence|]. intros r p Hp.
  destruct (H1 r p Hp) as (p1 & Hp1 & (? & ? & ?) & Hi1). destruct (H2 r p1 Hp1) as (p2 & Hp2 & (? & ? & ?) & Hi2).
  exists p2. split; [done|]. split; [unfold same_peer; split_and!; congruence|].
  intros Hq. by rewrite Hi2, Hi1.
Qed.

(** Handlers that leave the streams to be read, and the table of peers, to the
    read loops. *)
Definition tame {D} (hd : MessageHandler D) : Prop :=
  ∀ r msg h0, keeps (io_only true h0) (hd r msg).
Definition tame_table {D} (tbl : Handlers D) : Prop := map_Forall (λ _ hd, tame hd) tbl.

Section Facts.
Context `{C : Crypto, F : FloatFmt, O : MapOrder} {D : Type} `{HD : DB D}.
Implicit Types (h : Host D) (tbl : Handlers D).

Lemma keeps_logged {W A} (P : W → Prop) (m : M W A) : keeps P m → keeps P (logged m).
Proof. intros Hm w Hw. specialize (Hm w Hw). unfold logged. by destruct (m w) as [w' [| |]]. Qed.

Lemma io_on_node {A} (m : M (Node D) A) q h0 : keeps (io_only q h0) (on_node m).
Proof. intros h Hh. unfold on_node, on_part. by destruct (m (ht_node h)). Qed.

Lemma io_clock q h0 : keeps (io_only q h0) read_clock.
Proof. by intros h Hh. Qed.

(** A step of one peer. *)
Lemma on_peer_Some {A} r (m : M Peer A) h p :
  ht_conns h !! r = Some p →
  on_peer r m h = (set_ht_conns (<[r := (m p).1]> (ht_conns h)) h, (m p).2).
Proof. intros Hp. unfold on_peer. rewrite Hp. by destruct (m p). Qed.

Lemma io_on_peer {A} r (m : M Peer A) q h0 :
  (∀ p, same_peer p (m p).1 ∧ (q = true → cn_in (peer_conn (m p).1) = cn_in (peer_conn p))) →
  keeps (io_only q h0) (on_peer r m).
Proof.
  intros Hm h Hh. destruct (ht_conns h !! r) as [p|] eqn:Hp; [|unfold on_peer; by rewrite Hp].
  rewrite (on_peer_Some _ _ _ _ Hp). eapply io_only_trans; [exact Hh|]. split; [done|]. intros r' p' Hp'.
  simpl. rewrite list_lookup_insert. case_decide as Hr.
  - destruct Hr as [-> Hl]. rewrite Hp in Hp'. injection Hp' as <-. eexists. split; [done|]. apply Hm.
  - exists p'. by split_and!.
Qed.

Lemma io_Send r msg q h0 : keeps (io_only q h0) (on_peer r (Send msg)).
Proof.
  apply io_on_peer. intros p.
  destruct (Send_cases msg p) as [(data & _ & _ & ->)|(_ & e & ->)]; by split_and!.
Qed.

Lemma io_Receive r h0 : keeps (io_only false h0) (on_peer r Receive).
Proof.
  apply io_on_peer. intros p. destruct (Receive p) as [p' o] eqn:E.
  destruct (Receive_cases _ _ _ E) as ((? & ? & ? & ? & ?) & _). by split_and!.
Qed.

Lemma tame_handleTx : tame (D := D) handleTx.
Proof.
  intros r msg h0. unfold handleTx. destruct (Unmarshal _ _ _); [|apply keeps_ret].
  apply keeps_bind; [apply io_clock|]. intros now. apply keeps_logged, io_on_node.
Qed.

Lemma tame_Handle typ hd tbl : tame hd → tame_table tbl → tame_table (Handle typ hd tbl).
Proof.
  intros Hd Ht k x. unfold Handle. rewrite lookup_insert. case_decide; [by intros [= <-]|apply Ht].
Qed.

Lemma tame_default : tame_table (D := D) default_handlers.
Proof. apply tame_Handle; [apply tame_handleTx|done]. Qed.

(** One iteration reads at least the length prefix. *)
Lemma read_step_cases tbl r h p h' o :
  tame_table tbl → ht_conns h !! r = Some p → read_step tbl r h = (h', o) →
  io_only false h h' ∧ ∃ p', ht_conns h' !! r = Some p' ∧
  (o = Ret true → String.length (cn_in (peer_conn p')) < String.length (cn_in (peer_conn p)))%nat.
Proof.
  intros Ht Hp. unfold read_step, attempt, mbind, M_bind. rewrite (on_peer_Some _ _ _ _ Hp).
  destruct (Receive p) as [p1 o1] eqn:E1. cbn [fst snd].
  set (h1 := set_ht_conns (<[r := p1]> (ht_conns h)) h).
  assert (io_only false h h1) as Hio.
  { pose proof (io_Receive r h h (io_only_refl _ h)) as H. by rewrite (on_peer_Some _ _ _ _ Hp), E1 in H. }
  destruct (Receive_cases _ _ _ E1) as (_ & Hl & _).
  assert (ht_conns h1 !! r = Some p1) as Hp1.
  { simpl. rewrite list_lookup_insert_eq; [done|]. by eapply lookup_lt_Some. }
  destruct o1 as [msg|e|m].
  2-3: intros [= <- <-]; split; [done|]; by exists p1.
  specialize (Hl eq_refl). destruct (tbl !! msg_Type msg) as [hd|] eqn:Ehd.
  2: { intros [= <- <-]. split; [done|]. exists p1. by split. }
  pose proof (Ht _ _ Ehd r msg h1 h1 (io_only_refl _ h1)) as Hio2.
  destruct (hd r msg h1) as [h2 o2] eqn:E2. cbn [fst] in Hio2. intros E.
  assert (h' = h2) as -> by (destruct o2; by injection E).
  split; [by eapply io_only_trans, io_only_weaken|].
  destruct Hio2 as [_ Hc]. destruct (Hc r p1 Hp1) as (p2 & Hp2 & _ & Hin). exists p2. split; [done|].
  intros _. by rewrite Hin.
Qed.

Lemma read_msgs_ends fuel tbl r h p :
  tame_table tbl → ht_conns h !! r = Some p → (String.length (cn_in (peer_conn p)) < fuel)%nat →
  ∃ h' o, read_msgs fuel tbl r h = (h', o) ∧ o ≠ Ret false ∧ io_only false h h'.
Proof.
  intros Ht. revert h p. induction fuel as [|k IH]; intros h p Hp Hl; [lia|]. cbn [read_msgs].
  unfold mbind, M_bind. destruct (read_step tbl r h) as [h1 o1] eqn:E1.
  destruct (read_step_cases _ _ _ _ _ _ Ht Hp E1) as (Hio & p1 & Hp1 & Hlt).
  destruct o1 as [[]|e|m].
  - destruct (IH h1 p1 Hp1) as (h2 & o2 & E2 & Ho2 & Hio2); [specialize (Hlt eq_refl); lia|].
    exists h2, o2. split; [done|]. split; [done|]. by eapply io_only_trans.
  - by exists h1, (Ret true).
  - by exists h1, (Fail e).
  - by exists h1, (Panic m).
Qed.

Lemma Close_cases p :
  Close p = ((Close p).1, Ret tt) ∧ peer_ID (Close p).1 = peer_ID p ∧ peer_closed (Close p).1 = true.
Proof. unfold Close. by destruct (peer_closed p) eqn:E. Qed.

Lemma drop_peer_run r h p :
  ht_conns h !! r = Some p →
  drop_peer r h =
  (set_ht_peers (delete (peer_ID p) (ht_peers h)) (set_ht_conns (<[r := (Close p).1]> (ht_conns h)) h), Ret tt).
Proof.
  intros Hp. destruct (Close_cases p) as [E _]. unfold drop_peer, mbind, M_bind.
  by rewrite Hp, (on_peer_Some _ _ _ _ Hp), E.
Qed.

(** What [readLoop] leaves: the peer is closed and its name is free. *)
Lemma readLoop_run fuel tbl r h p :
  tame_table tbl → ht_conns h !! r = Some p → (String.length (cn_in (peer_conn p)) < fuel)%nat →
  ∃ h' o, readLoop fuel tbl r h = (h', o) ∧ o ≠ Ret false ∧
  (nd_exited (ht_node h') = true ∨
   o = Ret true ∧ ht_peers h' = delete (peer_ID p) (ht_peers h) ∧
   (∃ p', ht_conns h' !! r = Some p' ∧ peer_ID p' = peer_ID p ∧ peer_closed p' = true) ∧
   ∀ r' q, r' ≠ r → ht_conns h !! r' = Some q → ∃ q', ht_conns h' !! r' = Some q' ∧ same_peer q q').
Proof.
  intros Ht Hp Hl. destruct (read_msgs_ends fuel tbl r h p Ht Hp Hl) as (h1 & o1 & E1 & Ho1 & [Hps Hc]).
  unfold readLoop. rewrite E1. destruct (Hc r p Hp) as (p1 & Hp1 & (Hid & _ & _) & _).
  assert ((if nd_exited (ht_node h1) then (h1, o1) else (drop_peer r;; mret true) h1) =
    match o1 with Ret false => (h1, Ret false) | _ =>
      if nd_exited (ht_node h1) then (h1, o1) else (drop_peer r;; mret true) h1 end) as <-
    by (by destruct o1 as [[]| |]).
  destruct (nd_exited (ht_node h1)) eqn:Ex; [exists h1, o1; split_and!; [done|done|by left]|].
  eexists _, _. split; [|split; [|right; split; [|split_and!]]].
  - erewrite bind_Ret by (by apply drop_peer_run). reflexivity.
  - done.
  - done.
  - simpl. by rewrite Hps, Hid.
  - simpl. rewrite list_lookup_insert_eq by (by eapply lookup_lt_Some). eexists. split; [done|].
    destruct (Close_cases p1) as (_ & -> & ->). done.
  - intros r' q Hr Hq. simpl. rewrite list_lookup_insert_ne by done.
    destruct (Hc r' q Hq) as (q' & ? & ? & _). by exists q'.
Qed.
End Facts.

(** ** The table of peers *)

(** Every name in the table stands for a peer of that name. *)
Definition table_ok {D} (h : Host D) : Prop :=
  map_Forall (λ id r, ∃ p, ht_conns h !! r = Some p ∧ peer_ID p = id) (ht_peers h).

#[export] Instance live_dec p : Decision (live p) := ltac:(unfold live; apply _).

Section Table.
Context `{C : Crypto, F : FloatFmt, O : MapOrder} {D : Type} `{HD : DB D}.
Implicit Types (h : Host D) (tbl : Handlers D).

(** The hosts reached from a new one, with the number of [AddPeer] calls.  The
    read loops of different peers may interleave between messages. *)
Inductive reached tbl (maxPeers : Z) : nat → Host D → Prop :=
| rc_new n clock : reached tbl maxPeers 0 (NewHost n clock)
| rc_add k h nodeID id addr dialled :
    reached tbl maxPeers k h → reached tbl maxPeers (S k) (AddPeer nodeID id addr dialled h).1
| rc_start k h net tlsCfg addr :
    reached tbl maxPeers k h → reached tbl maxPeers k (Start net tlsCfg addr h).1
| rc_accept k h accepted :
    reached tbl maxPeers k h → reached tbl maxPeers k (accept_step maxPeers accepted h).1
| rc_read k h r : reached tbl maxPeers k h → reached tbl maxPeers k (read_step tbl r h).1
| rc_drop k h r : reached tbl maxPeers k h → reached tbl maxPeers k (drop_peer r h).1
| rc_broadcast k h msg : reached tbl maxPeers k h → reached tbl maxPeers k (Broadcast msg h).1
| rc_stop k h : reached tbl maxPeers k h → reached tbl maxPeers k (Stop h).1
| rc_node k h A (m : M (Node D) A) : reached tbl maxPeers k h → reached tbl maxPeers k (on_node m h).1.

Lemma table_ext h h' :
  ht_peers h' = ht_peers h →
  (∀ r p, ht_conns h !! r = Some p → ∃ p', ht_conns h' !! r = Some p' ∧ peer_ID p' = peer_ID p) →
  table_ok h → table_ok h'.
Proof.
  intros Ep Hc Ht id r Hr. rewrite Ep in Hr. destruct (Ht id r Hr) as (p & Hp & <-). by apply Hc.
Qed.

Lemma table_io q h h' : io_only q h h' → table_ok h → table_ok h'.
Proof.
  intros [Ep Hc]. apply table_ext; [done|]. intros r p Hp.
  destruct (Hc r p Hp) as (p' & ? & (? & _) & _). by exists p'.
Qed.

(** A peer that joins the table under its own name. *)
Definition joined (p : Peer) h : Host D :=
  set_ht_peers (<[peer_ID p := length (ht_conns h)]> (ht_peers h)) (set_ht_conns (ht_conns h ++ [p]) h).

Lemma table_joined p h : table_ok h → table_ok (joined p h).
Proof.
  intros Ht id r. unfold joined. simpl. rewrite lookup_insert. case_decide as Hid.
  - intros [= <-]. exists p. by rewrite lookup_app_r, Nat.sub_diag by done.
  - intros Hr. destruct (Ht id r Hr) as (q & Hq & <-). exists q. split; [|done]. by apply lookup_app_l_Some.
Qed.

Lemma joined_size p h : (size (ht_peers (joined p h)) ≤ S (size (ht_peers h)))%nat.
Proof.
  unfold joined. simpl. destruct (ht_peers h !! peer_ID p) eqn:E.
  - rewrite map_size_insert_Some; [lia|by rewrite E].
  - by rewrite map_size_insert_None.
Qed.

Lemma AddPeer_run nodeID id addr conn h :
  AddPeer nodeID id addr (Ret conn) h =
  logged (on_peer (length (ht_conns h)) (Send (mkMessage MsgHello (print (VObj [("node_id", enc_string nodeID)])))))
    (joined (NewPeer id addr conn) h).
Proof. done. Qed.

Lemma accept_run maxPeers remote conn h :
  accept maxPeers remote conn h =
  if bool_decide (maxPeers ≤ Z.of_nat (size (ht_peers h))) then (h, Ret None)
  else (joined (NewPeer remote remote conn) h, Ret (Some (length (ht_conns h)))).
Proof. done. Qed.

Lemma io_Broadcast msg q h0 : keeps (io_only q h0) (Broadcast msg).
Proof.
  intros h Hh. unfold Broadcast. revert h Hh.
  enough (∀ l, keeps (io_only q h0) (for_each (λ p : string * nat, logged (on_peer p.2 (Send msg))) l)) as H
    by (intros h; apply H).
  intros l. apply keeps_for_each. intros p _. apply keeps_logged, io_Send.
Qed.

Lemma read_step_io tbl r h : tame_table tbl → io_only false h (read_step tbl r h).1.
Proof.
  intros Ht. destruct (read_step tbl r h) as [h' o] eqn:E. destruct (ht_conns h !! r) as [p|] eqn:Hp.
  - by destruct (read_step_cases _ _ _ _ _ _ Ht Hp E).
  - revert E. unfold read_step, attempt, mbind, M_bind, on_peer. rewrite Hp. intros [= <- _]. apply io_only_refl.
Qed.

Lemma Stop_table h : table_ok h → table_ok (Stop h).1 ∧ ht_peers (Stop h).1 = ht_peers h.
Proof.
  intros Ht. unfold Stop. destruct (ht_stopped h); [done|].
  set (h1 := mkHost _ _ _ _ _ _). assert (table_ok h1 ∧ ht_peers h1 = ht_peers h) as H1 by done.
  clearbody h1. revert h1 H1. apply (keeps_for_each (λ h1, table_ok h1 ∧ ht_peers h1 = ht_peers h)).
  intros q _ h1 [H1 E1]. unfold on_peer. destruct (ht_conns h1 !! q.2) as [p|] eqn:Hp; [|done].
  destruct (Close_cases p) as (-> & Hid & _). split; [|done]. eapply table_ext, H1; [done|].
  intros r p' Hp'. simpl. rewrite list_lookup_insert. case_decide as Hr.
  - destruct Hr as [<- Hl]. rewrite Hp in Hp'. injection Hp' as <-. eauto.
  - eauto.
Qed.

Lemma table_inv tbl maxPeers k h :
  tame_table tbl → 0 ≤ maxPeers → reached tbl maxPeers k h →
  table_ok h ∧ Z.of_nat (size (ht_peers h)) ≤ maxPeers + Z.of_nat k.
Proof.
  intros Ht Hm. induction 1 as [n clock|k h nodeID id addr dialled _ [IH Hs]|k h net tls addr _ [IH Hs]|k h accepted _ [IH Hs]
    |k h r _ [IH Hs]|k h r _ [IH Hs]|k h msg _ [IH Hs]|k h _ [IH Hs]|k h A m _ [IH Hs]].
  - split; [done|]. change (Z.of_nat 0 ≤ maxPeers + Z.of_nat 0). lia.
  - destruct dialled as [conn|e|msg].
    2-3: match goal with |- context [(AddPeer ?n ?i ?a ?d ?h).1] => change (AddPeer n i a d h).1 with h end;
      split; [done|lia].
    rewrite AddPeer_run.
    pose proof (keeps_logged _ _ (io_Send (length (ht_conns h))
      (mkMessage MsgHello (print (VObj [("node_id", enc_string nodeID)]))) true (joined (NewPeer id addr conn) h)))
      as Hk. specialize (Hk _ (io_only_refl _ _)). split; [by eapply table_io, table_joined|].
    pose proof (joined_size (NewPeer id addr conn) h). destruct Hk as [-> _]. lia.
  - unfold Start, mbind, M_bind, liftO. destruct (wrapO _ _) as [ln|e|msg]; exact (conj IH Hs).
  - destruct accepted as [[remote conn]|e|msg]; [|done..]. unfold accept_step, mbind, M_bind.
    rewrite accept_run. case_bool_decide as Hb; [done|]. split; [by apply table_joined|].
    pose proof (joined_size (NewPeer remote remote conn) h). simpl fst. lia.
  - pose proof (read_step_io tbl r h Ht) as Hio. split; [by eapply table_io|]. by destruct Hio as [-> _].
  - destruct (ht_conns h !! r) as [p|] eqn:Hp.
    + rewrite (drop_peer_run _ _ _ Hp). cbn [fst ht_peers set_ht_peers]. split.
      * intros id r' Hr. cbn [ht_peers set_ht_peers] in Hr. apply lookup_delete_Some in Hr as [Hne Hr]. destruct (IH id r' Hr) as (p' & Hp' & Hid).
        exists p'. simpl. rewrite list_lookup_insert_ne; [done|]. intros ->. congruence.
      * etrans; [|exact Hs]. apply inj_le. apply map_subseteq_size, delete_subseteq.
    + unfold drop_peer, mbind, M_bind, on_peer. by rewrite Hp.
  - pose proof (io_Broadcast msg true h h (io_only_refl _ _)) as Hio. split; [by eapply table_io|]. by destruct Hio as [-> _].
  - destruct (Stop_table h IH) as [? ->]. done.
  - unfold on_node, on_part. by destruct (m (ht_node h)).
Qed.

(** *** Broadcasting *)

Lemma for_each_send msg data (l : list (string * nat)) h :
  marshal_msg msg = Ret data → NoDup l.*2 → (∀ r, r ∈ l.*2 → is_Some (ht_conns h !! r)) →
  ∃ h', for_each (λ q, logged (on_peer q.2 (Send msg))) l h = (h', Ret tt) ∧
    ht_peers h' = ht_peers h ∧ ht_node h' = ht_node h ∧
    ∀ r p, ht_conns h !! r = Some p →
      ht_conns h' !! r = Some (if bool_decide (r ∈ l.*2 ∧ live p) then wrote (frame data) p else p).
Proof.
  intros Hm. revert h. induction l as [|[id r0] l IH]; intros h; cbn [fmap list_fmap snd].
  { intros _ _. exists h. by split_and!. }
  intros [Hn Hnd]%NoDup_cons Hall. destruct (Hall r0) as [p0 Hp0]; [set_solver|].
  set (h1 := set_ht_conns (<[r0 := if bool_decide (live p0) then wrote (frame data) p0 else p0]> (ht_conns h)) h).
  assert (logged (on_peer r0 (Send msg)) h = (h1, Ret tt)) as E1.
  { unfold logged. rewrite (on_peer_Some _ _ _ _ Hp0).
    destruct (Send_cases msg p0) as [(d & Hd & Hl & E)|(Hd & e & E)]; rewrite E; simpl.
    - rewrite Hm in Hd. injection Hd as <-. unfold h1. by rewrite bool_decide_eq_true_2.
    - unfold h1. rewrite bool_decide_eq_false_2; [done|]. rewrite Hm in Hd. by destruct Hd. }
  assert (∀ r p, ht_conns h !! r = Some p → ht_conns h1 !! r =
    Some (if bool_decide (r = r0 ∧ live p) then wrote (frame data) p else p)) as H1.
  { intros r p Hp. simpl. destruct (decide (r = r0)) as [->|Hr].
    - rewrite Hp0 in Hp. injection Hp as <-. rewrite list_lookup_insert_eq by (by eapply lookup_lt_Some).
      repeat case_bool_decide; naive_solver.
    - rewrite list_lookup_insert_ne by done. rewrite bool_decide_eq_false_2; [done|naive_solver]. }
  destruct (IH h1) as (h' & E & Ep & En & H2); [done| |].
  { intros r Hr. destruct (Hall r) as [p Hp]; [set_solver|]. rewrite (H1 _ _ Hp). eauto. }
  exists h'. split; [|split; [|split]].
  - cbn [for_each snd]. by erewrite bind_Ret by exact E1.
  - done.
  - done.
  - intros r p Hp. rewrite (H2 _ _ (H1 _ _ Hp)). f_equal. destruct (decide (r = r0)) as [->|Hr].
    + rewrite (bool_decide_eq_false_2 (_ ∈ l.*2 ∧ _)) by naive_solver.
      repeat case_bool_decide; naive_solver set_solver.
    + rewrite (bool_decide_eq_false_2 (r = r0 ∧ _)) by naive_solver.
      repeat case_bool_decide; naive_solver set_solver.
Qed.

Lemma table_refs h l : table_ok h → l ≡ₚ map_to_list (ht_peers h) →
  NoDup l.*2 ∧ ∀ r, r ∈ l.*2 ↔ ∃ p, ht_conns h !! r = Some p ∧ ht_peers h !! peer_ID p = Some r.
Proof.
  intros Ht Hl.
  assert (∀ q, q ∈ l ↔ ht_peers h !! q.1 = Some q.2) as Hin.
  { intros [id r]. by rewrite Hl, elem_of_map_to_list. }
  split.
  - apply NoDup_fmap_2_strong; [|rewrite Hl; apply NoDup_map_to_list].
    intros [id1 r1] [id2 r2] H1%Hin H2%Hin. simpl in *. intros <-.
    destruct (Ht _ _ H1) as (p & Hp & <-), (Ht _ _ H2) as (p' & Hp' & <-). congruence.
  - intros r. rewrite list_elem_of_fmap. split.
    + intros ([id r'] & -> & Hr%Hin). cbn [fst snd] in *. destruct (Ht _ _ Hr) as (p & Hp & <-). eauto.
    + intros (p & _ & Hr). exists (peer_ID p, r). by rewrite Hin.
Qed.
End Table.

(** ** Messages between two hosts *)

Section Messages.
Context `{C : Crypto, F : FloatFmt, O : MapOrder} {D : Type} `{HD : DB D}.
Implicit Types (h : Host D) (tbl : Handlers D).

(** A message whose payload was marshalled. *)
Definition message_text (typ : string) (v : jv) : string :=
  print (VObj [("type", enc_string typ); ("payload", v)]).

Lemma marshal_msg_self typ v :
  wf_jv v = true → escaped v → marshal_msg (mkMessage typ (print v)) = Ret (message_text typ v).
Proof. intros Hw He. unfold marshal_msg, Message_enc. simpl. by rewrite enc_raw_self. Qed.

Lemma msg_transit_self typ v m :
  wf_jv v = true → escaped v → msg_transit (mkMessage typ (print v)) m → m = mkMessage typ (print v).
Proof. intros Hw He (v' & Hv & ->). simpl in Hv. rewrite enc_raw_self in Hv by done. by injection Hv as <-. Qed.

(** The read loop hands the message to its handler as it was sent. *)
Lemma read_step_message tbl r h p typ v rest hd :
  ht_conns h !! r = Some (incoming (frame (message_text typ v) +:+ rest) p) → live p →
  valid_utf8 typ = true → wf_jv v = true → escaped v → zlen (message_text typ v) <= maxMessageSize →
  tbl !! typ = Some hd →
  read_step tbl r h =
  (hd r (mkMessage typ (print v));; mret true) (set_ht_conns (<[r := incoming rest p]> (ht_conns h)) h).
Proof.
  intros Hp Hl Ht Hw He Hz Hhd. unfold read_step, attempt. unfold mbind at 1, M_bind at 1.
  rewrite (on_peer_Some _ _ _ _ Hp).
  destruct (send_receive (mkMessage typ (print v)) (message_text typ v) p p rest) as (_ & m & E & Hm);
    [done|done|done|by apply marshal_msg_self|done|].
  apply msg_transit_self in Hm as ->; [|done..]. rewrite E. simpl. by rewrite Hhd.
Qed.
End Messages.

(** ** Properties *)

Section Properties.
Context `{C : Crypto, F : FloatFmt, O : MapOrder} {D : Type} `{HD : DB D}.
Implicit Types (h : Host D) (tbl : Handlers D).

(** C32: a read loop ends: whatever bytes a peer sends, each iteration reads at
    least four of them, so as many iterations as there are bytes, and one more,
    reach its [return] (or a handler ended the process).  Then the peer is
    closed and its name removed from the table. *)
Theorem read_loop_ends fuel tbl r h p :
  tame_table tbl → ht_conns h !! r = Some p → (String.length (cn_in (peer_conn p)) < fuel)%nat →
  ∃ h' o, readLoop fuel tbl r h = (h', o) ∧ o ≠ Ret false ∧
  (nd_exited (ht_node h') = true ∨
   o = Ret true ∧ ht_peers h' = delete (peer_ID p) (ht_peers h) ∧
   ∃ p', ht_conns h' !! r = Some p' ∧ peer_closed p' = true).
Proof.
  intros Ht Hp Hl. destruct (readLoop_run fuel tbl r h p Ht Hp Hl) as (h' & o & E & Ho & H).
  exists h', o. split; [done|]. split; [done|]. destruct H as [|(-> & Hd & (p' & Hp' & _ & Hc) & _)]; [by left|].
  right. split; [done|]. split; [done|]. by exists p'.
Qed.

(** C33: the table of peers stays consistent, whatever connects, disconnects,
    sends or panics and however the read loops interleave: every name stands
    for a peer of that name, no peer has two names, and there are at most
    [maxPeers] peers plus one for each call of [AddPeer], which does not look
    at the limit. *)
Theorem peer_table_invariant tbl maxPeers k h :
  tame_table tbl → 0 ≤ maxPeers → reached tbl maxPeers k h →
  (∀ id r, ht_peers h !! id = Some r → ∃ p, ht_conns h !! r = Some p ∧ peer_ID p = id) ∧
  (∀ id1 id2 r, ht_peers h !! id1 = Some r → ht_peers h !! id2 = Some r → id1 = id2) ∧
  Z.of_nat (size (ht_peers h)) ≤ maxPeers + Z.of_nat k.
Proof.
  intros Ht Hm Hr. destruct (table_inv tbl maxPeers k h Ht Hm Hr) as [Hok Hs]. split_and!; [done| |done].
  intros id1 id2 r H1 H2. destruct (Hok _ _ H1) as (p & Hp & <-), (Hok _ _ H2) as (p' & Hp' & <-). congruence.
Qed.

(** A peer that connects again under its name is forgotten when its first
    connection ends: the read loop of the first removes the name, whose entry
    is the second's.  The second stays open but is no longer in the table, so
    that nothing is broadcast to it. *)
Theorem reconnected_peer_forgotten fuel tbl nodeID id addr conn r h p :
  tame_table tbl → ht_peers h !! id = Some r → ht_conns h !! r = Some p → peer_ID p = id →
  (String.length (cn_in (peer_conn p)) < fuel)%nat → cn_broken conn = false →
  let h1 := (AddPeer nodeID id addr (Ret conn) h).1 in
  let h2 := (readLoop fuel tbl r h1).1 in
  ∃ r2, peer_by_id id h1 = Some r2 ∧
  (nd_exited (ht_node h2) = true ∨
   peer_by_id id h2 = None ∧ ∃ p2, ht_conns h2 !! r2 = Some p2 ∧ peer_ID p2 = id ∧ live p2).
Proof.
  intros Ht Hid Hp Hpid Hl Hb. cbn zeta. rewrite AddPeer_run.
  set (p2 := NewPeer id addr conn). set (r2 := length (ht_conns h)). set (hello := mkMessage MsgHello _).
  pose proof (keeps_logged _ _ (io_Send r2 hello true (joined p2 h)) _ (io_only_refl _ _)) as [Hps Hc].
  set (h1 := (logged (on_peer r2 (Send hello)) (joined p2 h)).1) in *.
  exists r2. split; [unfold peer_by_id; rewrite Hps; apply lookup_insert_eq|].
  assert (r2 ≠ r) as Hne by (apply lookup_lt_Some in Hp; unfold r2; lia).
  destruct (Hc r p) as (p1 & Hp1 & (Hid1 & _) & Hin); [by apply lookup_app_l_Some|].
  destruct (Hc r2 p2) as (q & Hq & (Hidq & Hclq & Hbq) & _).
  { unfold joined, r2. simpl. by rewrite lookup_app_r, Nat.sub_diag by done. }
  destruct (readLoop_run fuel tbl r h1 p1 Ht Hp1) as (h2 & o & -> & _ & H); [by rewrite Hin|].
  destruct H as [|(_ & Hd & _ & Hoth)]; [by left|right]. cbn [fst]. split.
  - unfold peer_by_id. rewrite Hd, Hid1, Hpid. apply lookup_delete_eq.
  - destruct (Hoth r2 q Hne Hq) as (q' & Hq' & Hid' & Hcl' & Hb'). exists q'. split; [done|].
    split; [by rewrite Hid', Hidq|]. split; [by rewrite Hcl', Hclq|]. by rewrite Hb', Hbq.
Qed.

Lemma accept_step_run maxPeers accepted h :
  ∃ h1 more r, accept_step maxPeers accepted h = (h1, Ret (more, r)) ∧ ht_stopped h1 = ht_stopped h ∧
    Z.of_nat (size (ht_peers h1)) ≤ Z.max maxPeers (Z.of_nat (size (ht_peers h))) ∧
    (is_ret accepted = false → h1 = h ∧ more = negb (ht_stopped h) ∧ r = None).
Proof.
  destruct accepted as [[remote conn]|e|msg]; 
    [|exists h, (negb (ht_stopped h)), None; split_and!; [done|done|lia|done]..].
  unfold accept_step, mbind, M_bind. rewrite accept_run. case_bool_decide as Hb.
  - eexists _, _, _. split_and!; [done|done|lia|done].
  - pose proof (joined_size (NewPeer remote remote conn) h). eexists _, _, _. split_and!; [done|done|lia|done].
Qed.

(** [acceptLoop] lives until the node is stopped: errors of [Accept] before that
    change nothing, the first one after ends it.  However many connections come
    in, it does not fill the table beyond [maxPeers]. *)
Theorem accept_loop maxPeers results h :
  (ht_stopped h = false → acceptLoop maxPeers results h = acceptLoop maxPeers (filter is_ret results) h) ∧
  (ht_stopped h = true → ∀ e rest, results = Fail e :: rest → acceptLoop maxPeers results h = (h, Ret [])) ∧
  Z.of_nat (size (ht_peers (acceptLoop maxPeers results h).1)) ≤ Z.max maxPeers (Z.of_nat (size (ht_peers h))).
Proof.
  split_and!.
  - revert h. induction results as [|a l IH]; intros h Hs; [done|]. rewrite filter_cons.
    destruct (accept_step_run maxPeers a h) as (h1 & more & r & E & Hs1 & _ & Hf). case_decide as Ha.
    + cbn [acceptLoop]. unfold mbind, M_bind. rewrite E. destruct more; [|done]. by rewrite IH by congruence.
    + destruct Hf as (-> & -> & ->); [by destruct (is_ret a)|]. rewrite <- IH by done. cbn [acceptLoop].
      unfold mbind, M_bind. rewrite E, Hs. simpl. by destruct (acceptLoop maxPeers l h) as [? [| |]].
  - intros Hs e rest ->. cbn [acceptLoop]. unfold mbind, M_bind, accept_step. by rewrite Hs.
  - revert h. induction results as [|a l IH]; intros h; [simpl; lia|].
    destruct (accept_step_run maxPeers a h) as (h1 & more & r & E & _ & Hz & _). cbn [acceptLoop].
    unfold mbind, M_bind. rewrite E. destruct more; [|simpl; lia]. specialize (IH h1).
    destruct (acceptLoop maxPeers l h1) as [h2 [| |]]; simpl in *; lia.
Qed.

(** [Broadcast] sends the message once to every peer of the table whose
    connection works, and to no other, whatever order Go ranges over the table
    in. *)
Theorem broadcast_reaches_peers msg data h :
  table_ok h → marshal_msg msg = Ret data →
  ∃ h', Broadcast msg h = (h', Ret tt) ∧ ht_peers h' = ht_peers h ∧
  ∀ r p, ht_conns h !! r = Some p →
    ht_conns h' !! r =
    Some (if bool_decide (ht_peers h !! peer_ID p = Some r ∧ live p) then wrote (frame data) p else p).
Proof.
  intros Ht Hm. destruct (table_refs h (range 0 (ht_peers h)) Ht (range_perm _ _)) as [Hnd Hin].
  destruct (for_each_send msg data (range 0 (ht_peers h)) h Hm Hnd) as (h' & E & Ep & _ & Hc).
  { intros r (p & Hp & _)%Hin. by rewrite Hp. }
  exists h'. split; [done|]. split; [done|]. intros r p Hp. rewrite (Hc r p Hp). f_equal.
  assert (r ∈ (range 0 (ht_peers h)).*2 ↔ ht_peers h !! peer_ID p = Some r) as Hr.
  { rewrite Hin. split; [|by eauto]. intros (p' & Hp' & Hr). by simplify_eq. }
  repeat case_bool_decide; naive_solver.
Qed.

(** C31: gossip: a transaction that a node broadcasts enters the pool of every
    peer that can take it (its clock within the window, room in the pool, not
    there yet), unchanged but for the spelling of its payload, and verified
    there as here. *)
Theorem gossip_reaches_pool tbl tx v h1 r1 p1 h2 r2 q rest :
  table_ok h1 → ht_conns h1 !! r1 = Some p1 → ht_peers h1 !! peer_ID p1 = Some r1 → live p1 →
  valid_Transaction tx → tx_Verify tx = Ret tt → Transaction_enc tx = Some v →
  zlen (message_text MsgTx v) <= maxMessageSize →
  let now := ht_clock h2 0%nat in
  let pool := nd_pool (ht_node h2) in
  tbl !! MsgTx = Some handleTx → live q →
  ht_conns h2 !! r2 = Some (incoming (frame (message_text MsgTx v) +:+ rest) q) →
  ¬ (now > tx_Timestamp tx ∧ subi64 now (tx_Timestamp tx) > maxTxAge) →
  ¬ (tx_Timestamp tx > now ∧ subi64 (tx_Timestamp tx) now > maxTxFuture) →
  Size pool < maxMempoolSize → mp_txs pool !! tx_ID tx = None →
  (∃ h1', BroadcastTx tx h1 = (h1', Ret tt) ∧
     ht_conns h1' !! r1 = Some (wrote (frame (message_text MsgTx v)) p1)) ∧
  ∃ h2' tx', read_step tbl r2 h2 = (h2', Ret true) ∧ in_transit (Some tx) (Some tx') ∧
    tx_Verify tx' = Ret tt ∧ mp_txs (nd_pool (ht_node h2')) !! tx_ID tx = Some tx'.
Proof.
  intros Ht Hp1 Hid Hl1 Hv HV Hen Hz now pool Htbl Hq Hp2 Hage Hfut Hsz Hnew.
  pose proof (Transaction_wf _ _ Hen) as Hw. pose proof (escaped_Transaction _ _ Hen) as He. split.
  - destruct (table_refs h1 (range 0 (ht_peers h1)) Ht (range_perm _ _)) as [Hnd Hin].
    destruct (for_each_send (mkMessage MsgTx (print v)) (message_text MsgTx v) (range 0 (ht_peers h1)) h1)
      as (h' & E & _ & _ & Hc); [by apply marshal_msg_self|done|intros r (p & -> & _)%Hin; eauto|].
    exists h'. unfold BroadcastTx. rewrite Hen. split; [exact E|]. rewrite (Hc _ _ Hp1).
    rewrite bool_decide_eq_true_2; [done|]. split; [|done]. apply Hin. eauto.
  - rewrite (read_step_message _ _ _ _ _ _ _ _ Hp2 Hq) by done.
    destruct (Transaction_dec_enc _ _ Hv Hen) as (p & Hp & Hd).
    set (tx' := with_payload tx (print p)) in *.
    assert (tx_Verify tx' = Ret tt) as HV' by (unfold tx'; by rewrite tx_Verify_with_payload).
    unfold handleTx. cbn [msg_Payload]. rewrite (Unmarshal_print _ _ _ _ Hw Hd).
    unfold mbind, M_bind, read_clock, logged, on_node, on_part. cbn [ht_node set_ht_conns].
    unfold on_pool, on_part. rewrite (Add_run _ tx'); [|done..].
    eexists _, tx'. split; [reflexivity|]. split; [by exists p|]. split; [done|].
    simpl. apply lookup_insert_eq.
Qed.
End Properties.
