(* ===== verification/Sync.v ===== *)
(** * Block synchronisation

    Models [src/network/sync.go]: asking a peer for blocks, serving them, and
    judging, executing, storing and flushing the blocks a peer sends.  The
    syncer's pointers to the blockchain and the state are the parts of the
    host's node. *)
From Stdlib Require Import Ascii Lia ZArith.
From stdpp Require Import base gmap strings list.
From S2P Require Import Prelude Crypto Json JsonFacts JsonParse JsonTyped Types Transaction Block.
From S2P Require Import State DB StateDB Events Vm Economy AssetModule Market SessionModule.
From S2P Require Import Executor Ledger Invariants Mempool Blockchain Config Transit Node Frame Indexer.
From S2P Require Import Consensus Peer Network.

Record GetBlocksRequest : Type := mkGetBlocks { gr_FromHeight : Z; gr_Limit : Z }.

Definition GetBlocksRequest_enc (q : GetBlocksRequest) : jv :=
  VObj [("from_height", enc_int (gr_FromHeight q)); ("limit", enc_int (gr_Limit q))].
Definition GetBlocksRequest_dec : GetBlocksRequest → jv → option GetBlocksRequest := dec_struct [
  ("from_height", λ q v, x ← dec_i64 (gr_FromHeight q) v; Some (mkGetBlocks x (gr_Limit q)));
  ("limit", λ q v, x ← dec_i64 (gr_Limit q) v; Some (mkGetBlocks (gr_FromHeight q) x))].
Definition GetBlocksRequest_zero : GetBlocksRequest := mkGetBlocks 0 0.

(** [BlocksResponse]: its one field.  A peer may send nil blocks. *)
Definition dec_block_ptr (v : jv) : option (option Block) :=
  match v with VNull => Some None | _ => Some <$> Block_dec Block_zero v end.
Definition dec_block_ptrs (v : jv) : option (list (option Block)) :=
  match v with VNull => Some [] | VArr vs => mapM dec_block_ptr vs | _ => None end.
Definition BlocksResponse_enc (bs : list Block) : option jv :=
  vs ← mapM Block_enc bs; Some (VObj [("blocks", VArr vs)]).
Definition BlocksResponse_dec : list (option Block) → jv → option (list (option Block)) := dec_struct [
  ("blocks", λ _ v, dec_block_ptrs v)].

(** [Syncer]: its interfaces may be nil; the state is only compared with nil. *)
Record Syncer (D : Type) : Type := mkSyncer {
  sy_validator : option (Z → option Block → Node D → outcome unit);
  sy_exec : option (Executor (Node D));
  sy_state : bool
}.
Arguments mkSyncer {D}.
Arguments sy_validator {D}.
Arguments sy_exec {D}.
Arguments sy_state {D}.

Section Sync.
Context `{C : Crypto, F : FloatFmt, O : MapOrder} {D : Type} `{HD : DB D}.
Implicit Types (s : Syncer D) (h : Host D) (n : Node D).

Definition request_msg (fromHeight : Z) : Message :=
  mkMessage MsgGetBlocks (print (GetBlocksRequest_enc (mkGetBlocks fromHeight 50))).

Definition RequestBlocks (r : nat) (fromHeight : Z) : M (Host D) unit :=
  on_peer r (Send (request_msg fromHeight)).

Definition next_height h : Z := addi64 (Height (nd_chain (ht_node h))) 1.

(** [SyncWithPeer], and [handleHello]. *)
Definition SyncWithPeer (r : nat) : M (Host D) unit := λ h, logged (RequestBlocks r (next_height h)) h.
Definition handleHello (r : nat) (_ : Message) : M (Host D) unit := SyncWithPeer r.

(** The loop of [handleGetBlocks] from height [z] to [stop]. *)
Fixpoint collect_blocks (fuel : nat) (z stop : Z) : M (Blockchain D) (list Block) :=
  match fuel with
  | 0%nat => mret []
  | S k =>
      if bool_decide (z < stop) then
        o ← attempt (bc_GetBlockByHeight z);
        match o with
        | Ret b => bs ← collect_blocks k (addi64 z 1) stop; mret (b :: bs)
        | Fail _ => mret []
        | Panic msg => panic msg
        end
      else mret []
  end.

Definition served_limit (limit : Z) : Z := if bool_decide (limit ≤ 0 ∨ limit > 200) then 50 else limit.

Definition handleGetBlocks (r : nat) (msg : Message) : M (Host D) unit :=
  match Unmarshal GetBlocksRequest_dec GetBlocksRequest_zero (msg_Payload msg) with
  | None => mret tt
  | Some req =>
      let limit := served_limit (gr_Limit req) in
      blocks ← on_node (on_chain (collect_blocks (Z.to_nat limit) (gr_FromHeight req)
                                    (addi64 (gr_FromHeight req) limit)));
      match BlocksResponse_enc blocks with
      | None => mret tt
      | Some v => logged (on_peer r (Send (mkMessage MsgBlocks (print v))))
      end
  end.

Definition revert_or_die (id : Z) : M (Node D) unit :=
  o ← attempt (RevertToSnapshot id);
  match o with
  | Ret _ => mret tt
  | Fail _ => fatal "revert failed"
  | Panic msg => panic msg
  end.

(** [s.exec != nil && s.state != nil] *)
Definition applied_by s : option (Executor (Node D)) :=
  if sy_state s then sy_exec s else None.

(** Storing the block, and flushing or reverting the state. *)
Definition store_synced (applied : option Z) (b : Block) : M (Node D) bool :=
  o ← attempt (on_chain (AddBlock b));
  match o with
  | Ret _ => match applied with Some _ => commit_or_die | None => mret tt end;; mret true
  | Fail _ => match applied with Some id => revert_or_die id | None => mret tt end;; mret true
  | Panic msg => panic msg
  end.

(** The body of the loop of [handleBlocks] at time [now]: true when the loop
    goes on, false at its [return]s.  Logging an error reads the header. *)
Definition sync_block s (now : Z) (pb : option Block) : M (Node D) bool := λ n,
  match (match sy_validator s with Some validate => validate now pb n | None => Ret tt end) with
  | Panic msg => (n, Panic msg)
  | Fail _ => (_ ← liftO (deref pb); mret false) n
  | Ret _ =>
      (match applied_by s with
       | None => b ← liftO (deref pb); store_synced None b
       | Some exec =>
           snap ← attempt Snapshot;
           b ← liftO (deref pb);
           match snap with
           | Panic msg => panic msg
           | Fail _ => mret true
           | Ret id =>
               o ← attempt (ExecuteBlock exec b);
               match o with
               | Panic msg => panic msg
               | Fail _ => revert_or_die id;; mret true
               | Ret _ =>
                   root ← read_root;
                   if bool_decide (hdr_StateRoot (blk_Header b) ≠ "" ∧ root ≠ hdr_StateRoot (blk_Header b))
                   then revert_or_die id;; mret false
                   else store_synced (Some id) b
               end
           end
       end) n
  end.

Fixpoint sync_blocks s (bs : list (option Block)) : M (Host D) bool :=
  match bs with
  | [] => mret true
  | pb :: bs' =>
      now ← read_clock;
      more ← on_node (sync_block s now pb);
      if more : bool then sync_blocks s bs' else mret false
  end.

Definition handleBlocks s (r : nat) (msg : Message) : M (Host D) unit :=
  match Unmarshal BlocksResponse_dec [] (msg_Payload msg) with
  | None => mret tt
  | Some blocks =>
      more ← sync_blocks s blocks;
      if more && bool_decide (50 ≤ length blocks)%nat then SyncWithPeer r else mret tt
  end.

(** [NewSyncer]: the handlers it registers. *)
Definition NewSyncer s (tbl : Handlers D) : Handlers D :=
  Handle MsgBlocks (handleBlocks s) (Handle MsgGetBlocks handleGetBlocks (Handle MsgHello handleHello tbl)).

(** The syncer and the handlers [main] sets up. *)
Definition main_syncer (p : PoA (Node D)) : Syncer D :=
  mkSyncer (Some (ValidateBlock p)) (Some (poa_exec p)) true.
Definition main_handlers (p : PoA (Node D)) : Handlers D := NewSyncer (main_syncer p) default_handlers.

(** The seed peers of [main], given what dialling them returns. *)
Definition lookup_peer (id : string) : M (Host D) (option nat) := λ h, (h, Ret (peer_by_id id h)).
Definition connect_seed (nodeID : string) (dial : SeedPeer → outcome Conn) (sp : SeedPeer) : M (Host D) unit :=
  o ← attempt (AddPeer nodeID (sp_ID sp) (sp_Addr sp) (dial sp));
  match o with
  | Panic msg => panic msg
  | Fail _ => mret tt
  | Ret _ => found ← lookup_peer (sp_ID sp); match found with Some r => SyncWithPeer r | None => mret tt end
  end.
Definition connect_seeds (nodeID : string) (dial : SeedPeer → outcome Conn) (sps : list SeedPeer) : M (Host D) unit :=
  for_each (connect_seed nodeID dial) sps.
End Sync.

(** *** The syncer leaves the read loops their streams *)

Section Tame.
Context `{C : Crypto, F : FloatFmt, O : MapOrder} {D : Type} `{HD : DB D}.

Lemma tame_SyncWithPeer r (h0 : Host D) : keeps (io_only true h0) (SyncWithPeer r).
Proof. intros h. exact (keeps_logged _ _ (io_Send r (request_msg (next_height h)) true h0) h). Qed.

Lemma tame_handleGetBlocks : tame (D := D) handleGetBlocks.
Proof.
  intros r msg h0. unfold handleGetBlocks. destruct (Unmarshal _ _ _) as [req|]; [|apply keeps_ret].
  apply keeps_bind; [apply io_on_node|]. intros bs.
  destruct (BlocksResponse_enc bs); [|apply keeps_ret]. apply keeps_logged, io_Send.
Qed.

Lemma tame_sync_blocks s bs (h0 : Host D) : keeps (io_only true h0) (sync_blocks s bs).
Proof.
  induction bs as [|pb bs IH]; [apply keeps_ret|]. cbn [sync_blocks].
  apply keeps_bind; [apply io_clock|]. intros now. apply keeps_bind; [apply io_on_node|].
  intros []; [exact IH|apply keeps_ret].
Qed.

Lemma tame_handleBlocks (s : Syncer D) : tame (handleBlocks s).
Proof.
  intros r msg h0. unfold handleBlocks. destruct (Unmarshal _ _ _) as [blocks|]; [|apply keeps_ret].
  apply keeps_bind; [apply tame_sync_blocks|]. intros more.
  destruct (more && _); [apply tame_SyncWithPeer|apply keeps_ret].
Qed.

(** The handlers of a node are of the kind the theorems on read loops ask for. *)
Lemma tame_main_handlers p : tame_table (D := D) (main_handlers p).
Proof.
  unfold main_handlers, NewSyncer.
  apply tame_Handle; [apply tame_handleBlocks|]. apply tame_Handle; [apply tame_handleGetBlocks|].
  apply tame_Handle; [|apply tame_default]. intros r msg h0. apply tame_SyncWithPeer.
Qed.
End Tame.

(** ** A stretch of chain *)

(** Blocks that may follow [t] one after the other and lead from the world [w]
    to [w']. *)
Inductive certified `{C : Crypto, F : FloatFmt, O : MapOrder} {D} `{HD : DB D}
    (p : PoA (Node D)) : Block → world → list Block → world → Prop :=
| cert_nil t w : certified p t w [] w
| cert_cons t w b bs w1 w' :
    valid_after p t b → run_txs b (blk_Transactions b) w = (w1, Ret tt) →
    (hdr_StateRoot (blk_Header b) = "" ∨ hdr_StateRoot (blk_Header b) = world_root w1) →
    certified p b w1 bs w' → certified p t w (b :: bs) w'.

(** ** One block *)

Section Facts.
Context `{C : Crypto, CL : !CryptoLaws, F : FloatFmt, FL : !FloatLaws, O : MapOrder}.
Context {D : Type} `{HD : DB D, HDR : DBRep D, HDL : !DBLaws D}.
Implicit Types (p : PoA (Node D)) (n : Node D) (h : Host D).

Lemma node_ok_frame n n' chain : st_inv n' → same_frame n n' → node_ok n chain → node_ok n' chain.
Proof.
  intros Hi Hf [_ Hc Hp Hv]. pose proof (same_frame_chain _ _ _ Hf Hc) as Hc'.
  destruct Hf as (_ & _ & Ep & _). split; by rewrite ?Ep.
Qed.

Lemma same_frame_trans n1 n2 n3 : same_frame n1 n2 → same_frame n2 n3 → same_frame n1 n3.
Proof.
  intros (H1 & H2 & H3 & H4 & H5) (K1 & K2 & K3 & K4 & K5). split_and!; try congruence.
  intros k Hk. by rewrite K5, H5.
Qed.

Lemma Snapshot_frame n n' o : Snapshot n = (n', o) → same_frame n n'.
Proof.
  intros E. pose proof (keeps_state_ops (same_frame n) (framed_same_frame n)) as H. destruct_and!.
  match goal with H : keeps _ Snapshot |- _ => specialize (H n (same_frame_refl n)); by rewrite E in H end.
Qed.

Lemma Revert_frame id n n' o : RevertToSnapshot id n = (n', o) → same_frame n n'.
Proof.
  intros E. pose proof (keeps_state_ops (same_frame n) (framed_same_frame n)) as H. destruct_and!.
  match goal with H : ∀ i, keeps _ (RevertToSnapshot i) |- _ =>
    specialize (H id n (same_frame_refl n)); by rewrite E in H end.
Qed.

(** Back to the snapshot taken at [n]. *)
Lemma revert_or_die_run n n2 l :
  st_inv n2 → saved n2 = saved n ++ world_at n :: l →
  ∃ n3, revert_or_die (Z.of_nat (length (saved n))) n2 = (n3, Ret tt) ∧ st_inv n3 ∧ st_abs n3 = st_abs n ∧
    same_frame n2 n3 ∧ (st_healthy n2 → st_healthy n3).
Proof.
  intros Hi Hs. destruct (revert_last n2 (saved n) Hi) as (n3 & E & Hi3 & Hs3 & Hw3 & Hh3); [eauto|].
  exists n3. split; [unfold revert_or_die, attempt, mbind, M_bind; by rewrite E|]. split; [done|].
  split; [|by split; [eapply Revert_frame|]].
  rewrite Hs, list_lookup_middle in Hw3 by done. apply (inj Some) in Hw3.
  rewrite (abs_eq (st_abs n3) (world_at n) (saved n)) by done. symmetry. by apply abs_eq.
Qed.

Lemma ValidateBlock_Ret p now b n :
  ValidateBlock p now (Some b) n = Ret tt →
  blk_Hash b = ComputeHash b ∧ ∃ ts, blk_Transactions b = Some <$> ts.
Proof.
  unfold ValidateBlock. case_bool_decide; [done|]. simpl. case_bool_decide; [done|].
  destruct (scheduled _ _) as [v| |]; simpl; [|done..]. case_bool_decide; [done|].
  destruct (PubKeyFromHex _) as [pub| |]; simpl; [|done..].
  destruct (blk_Verify b pub) as [[]| |] eqn:Ev; simpl; [|done..].
  destruct (ComputeTxRoot _) as [r| |] eqn:Er; simpl; [|done..]. intros _. split.
  - revert Ev. unfold blk_Verify. case_bool_decide as Hh; [done|]. intros _.
    destruct (decide (blk_Hash b = ComputeHash b)); [done|by destruct Hh].
  - by eapply ComputeTxRoot_Ret_inv.
Qed.

(** What [sync_block] leaves of a node when it does not accept the block. *)
Definition refused n n' (o : outcome bool) chain : Prop :=
  node_ok n' chain ∧ nd_tip n' = nd_tip n ∧ nd_pool n' = nd_pool n ∧ nd_exited n' = nd_exited n ∧
  (st_healthy n → st_healthy n') ∧ ((∃ msg, o = Panic msg) ∨ st_abs n' = st_abs n).

Definition accepted n n' b chain : Prop :=
  nd_tip n' = Some b ∧ clean n' ∧ nd_pool n' = nd_pool n ∧ nd_exited n' = nd_exited n ∧
  (st_healthy n → st_healthy n' ∧
     run_txs b (blk_Transactions b) (world_at n) = (world_at n', Ret tt) ∧
     (hdr_StateRoot (blk_Header b) = "" ∨ hdr_StateRoot (blk_Header b) = world_root (world_at n'))) ∧
  (node_ok n' (chain ++ [b]) ∨ collision_in (header_text <$> chain ++ [b])).

Lemma refused_frame n n' o chain :
  node_ok n chain → st_inv n' → same_frame n n' → (st_healthy n → st_healthy n') →
  (∃ msg, o = Panic msg) ∨ st_abs n' = st_abs n → refused n n' o chain.
Proof.
  intros Hn Hi Hf Hh Ha. pose proof (node_ok_frame _ _ _ Hi Hf Hn) as Hok.
  destruct Hf as (Ft & _ & Fp & Fx & _). by split_and!.
Qed.

(** Nothing of the state was flushed. *)
Definition unflushed n n' : Prop := same_state_keys (db_contents (nd_db n)) (db_contents (nd_db n')).

Lemma frame_unflushed n n' : same_frame n n' → unflushed n n'.
Proof.
  intros (_ & _ & _ & _ & Hk) k Hs. symmetry. apply Hk. destruct (is_index_key k) eqn:E; [|done].
  apply index_keys_not_state in E. congruence.
Qed.

Lemma AddBlock_unflushed b n n' o : on_chain (AddBlock b) n = (n', o) → unflushed n n'.
Proof.
  intros E. destruct (AddBlock_frame _ _ _ _ E) as (_ & _ & _ & Gk & _). intros k Hs. symmetry. apply Gk.
  destruct (is_chain_key k) eqn:Ek; [|done]. apply chain_key_not_state in Ek. congruence.
Qed.

Lemma unflushed_trans n1 n2 n3 : unflushed n1 n2 → unflushed n2 n3 → unflushed n1 n3.
Proof. intros H1 H2 k Hk. by rewrite H1, H2. Qed.

(** Storing an executed block. *)
Lemma store_synced_cases b n n2 l chain n' o :
  node_ok n chain → good_block b → st_inv n2 → same_frame n n2 → (st_healthy n → st_healthy n2) →
  saved n2 = saved n ++ world_at n :: l →
  (st_healthy n → run_txs b (blk_Transactions b) (world_at n) = (world_at n2, Ret tt)) →
  (st_healthy n → hdr_StateRoot (blk_Header b) = "" ∨ hdr_StateRoot (blk_Header b) = world_root (world_at n2)) →
  store_synced (Some (Z.of_nat (length (saved n)))) b n2 = (n', o) →
  (o = Ret true ∧ accepted n n' b chain) ∨ (refused n n' o chain ∧ unflushed n n' ∧ o ≠ Ret false) ∨
  (nd_exited n' = true ∧ ¬ st_healthy n ∧ ∃ msg, o = Panic msg).
Proof.
  intros Hok Hg Hi2 Hf2 Hh2 Hs2 Hrun Hroot. unfold store_synced, attempt, mbind, M_bind.
  pose proof Hok as [Hn Hc Hpl Hv].
  pose proof (node_ok_frame _ _ _ Hi2 Hf2 Hok) as [_ Hc2 _ _].
  destruct (on_chain (AddBlock b) n2) as [n3 o3] eqn:E3.
  destruct (on_chain_AddBlock _ _ _ _ Hi2 E3) as (Hi3 & Ha3 & Hh3).
  destruct (AddBlock_frame _ _ _ _ E3) as (Gp & Gx & _ & Gk & _).
  pose proof (unflushed_trans _ _ _ (frame_unflushed _ _ Hf2) (AddBlock_unflushed _ _ _ _ E3)) as Hu3.
  destruct Hf2 as (Ft & Fh & Fp & Fx & Fk).
  destruct (on_chain_AddBlock_ok _ _ _ _ _ Hc2 Hg E3) as [(-> & Gt & Hc3)|(Ho3 & Hc3 & Gt & Gh)].
  - destruct (commit_or_die n3) as [n4 o4] eqn:E4.
    destruct (commit_or_die_cases _ _ _ Hi3 E4) as (Hi4 & Kt & Kh & Kp & Kk & Kw & Kr).
    destruct Kr as [(-> & Hcl & Kx & Kh4)|(Hu & Hx & msg & ->)]; intros [= <- <-]; [left|right; right].
    2: { split; [done|]. split; [|by eexists]. intros Hh. by apply Hu, Hh3, Hh2. }
    split; [done|]. assert (world_at n4 = world_at n2) as Ew by (rewrite Kw; unfold world_at; by rewrite Ha3).
    split_and!; [congruence|done|congruence|congruence| |].
    + intros Hh. rewrite Ew. split; [by auto|]. split; [by apply Hrun|by apply Hroot].
    + destruct Hc3 as [Hc3|]; [left|by right].
      split; [done| |by rewrite Kp, Gp, Fp..].
      apply (bc_ok_ext n3); [done|done| |done]. by apply state_keys_not_chain.
  - assert (saved n3 = saved n ++ world_at n :: l) as Hs3 by (unfold saved in *; by rewrite Ha3).
    assert (refused n n3 (Panic (A := bool) "") chain) as Hr3.
    { split; [by split; rewrite ?Gp, ?Fp|]. split_and!; try congruence; [by auto|]. left. eauto. }
    destruct o3 as [[]|e|msg]; [done| |].
    + destruct (revert_or_die_run n n3 l Hi3 Hs3) as (n4 & E4 & Hi4 & Ha4 & Hf4 & Hh4). rewrite E4.
      intros [= <- <-]. right. left.
      split; [|split; [by eapply unflushed_trans, frame_unflushed|done]].
      destruct Hr3 as (Hok3 & ? & ? & ? & ? & _). pose proof (node_ok_frame _ _ _ Hi4 Hf4 Hok3) as Hok4.
      destruct Hf4 as (? & _ & ? & ? & _). split_and!; try congruence; [by auto|by right].
    + intros [= <- <-]. right. left. split; [|done]. destruct Hr3 as (? & ? & ? & ? & ? & _).
      split_and!; try done. left. eauto.
Qed.

Lemma sync_block_cases p now b n chain n' o :
  poa_ok p → node_ok n chain → valid_Block b →
  sync_block (main_syncer p) now (Some b) n = (n', o) →
  (o = Ret true ∧ ValidateBlock p now (Some b) n = Ret tt ∧ accepted n n' b chain) ∨
  (refused n n' o chain ∧ unflushed n n') ∨ (nd_exited n' = true ∧ ¬ st_healthy n ∧ ∃ msg, o = Panic msg).
Proof.
  intros Hp Hok Hv. unfold sync_block. cbn [sy_validator main_syncer applied_by sy_state sy_exec].
  assert (∀ n' o, (n, o) = (n', o) → refused n n' o chain ∧ unflushed n n') as Hsame.
  { intros n1 o1 [= <-]. split; [|by intros k]. apply refused_frame; [done|apply Hok|apply same_frame_refl|done|by right]. }
  destruct (ValidateBlock p now (Some b) n) as [[]|e|msg] eqn:EV.
  2-3: intros [= <- <-]; right; left; by apply Hsame.
  destruct (ValidateBlock_Ret _ _ _ _ EV) as (Hhash & ts & Hts).
  pose proof (no_state _ _ Hok) as Hn.
  destruct (Snapshot_ref n Hn) as (n1 & E1 & Hi1 & Ha1 & Hh1). pose proof (Snapshot_frame _ _ _ E1) as Hf1.
  fold (saved n) in E1. unfold attempt, mbind, M_bind. rewrite E1. cbn [liftO deref].
  assert (saved n1 = saved n ++ [world_at n] ∧ world_at n1 = world_at n) as [Hs1 Hw1].
  { unfold saved, world_at. by rewrite Ha1. }
  destruct (ExecuteBlock (poa_exec p) b n1) as [n2 o2] eqn:E2.
  destruct (ExecuteBlock_ref _ _ _ _ _ (poa_executor_ok _ Hp) (valid_block_ok _ Hv) Hi1 E2)
    as (Hi2 & Hh2 & [l Hs2] & Hr2).
  pose proof (same_frame_trans _ _ _ Hf1 (ExecuteBlock_frame _ _ _ _ _ Hp E2)) as Hf2.
  rewrite Hs1, <- app_assoc in Hs2.
  assert (st_healthy n → st_healthy n2) as Hh12 by auto.
  destruct (revert_or_die_run n n2 l Hi2 Hs2) as (n3 & E3 & Hi3 & Ha3 & Hf3 & Hh3).
  assert (∀ o, refused n n3 o chain ∧ unflushed n n3) as Hrev.
  { intros o0. split; [|by eapply frame_unflushed, same_frame_trans]. eapply refused_frame; [done|done|by eapply same_frame_trans|auto|by right]. }
  destruct o2 as [[]|e|msg].
  - unfold read_root. case_bool_decide as Hroot.
    { rewrite E3. intros [= <- <-]. right. by left. }
    intros E. destruct (store_synced_cases b n n2 l chain n' o) as [(-> & H)|[(H & Hk & _)|H]]; try done; [..|by auto].
    + intros Hh. rewrite <- Hw1. destruct Hr2 as [Hr2|[Hu _]]; [done|by destruct Hu; auto].
    + intros Hh. rewrite (Root_ref n2 Hi2 (Hh12 Hh)) in Hroot. fold (world_at n2) in Hroot.
      destruct (decide (hdr_StateRoot (blk_Header b) = "")); [by left|right].
      destruct (decide (world_root (world_at n2) = hdr_StateRoot (blk_Header b))); [done|]. by destruct Hroot.
    + left. by split_and!.
    + right. by left.
  - rewrite E3. intros [= <- <-]. right. by left.
  - intros [= <- <-]. right. left. split; [|by apply frame_unflushed]. eapply refused_frame; eauto.
Qed.

(** ** Serving blocks *)

(** The loop reads the stored blocks of consecutive heights, in stored form,
    and stops at [stop] or at the first height without a block. *)
Lemma collect_blocks_spec fuel z stop (bc : Blockchain D) chain :
  bc_ok bc chain → db_healthy (bc_store bc) → is_i64 z → stop ≤ max_int64 →
  ∃ bs, collect_blocks fuel z stop bc = (bc, Ret bs) ∧
    (∀ i b', bs !! i = Some b' → z + Z.of_nat i < stop ∧
       ∃ b, b ∈ chain ∧ block_in_transit b b' ∧ hdr_Height (blk_Header b) = z + Z.of_nat i) ∧
    (length bs = fuel ∨ (length bs < fuel)%nat ∧
       (stop ≤ z + Z.of_nat (length bs) ∨ ∀ b, b ∈ chain → hdr_Height (blk_Header b) ≠ z + Z.of_nat (length bs))).
Proof.
  intros Hok Hh. revert z. induction fuel as [|k IH]; intros z Hz Hs; cbn [collect_blocks].
  { exists []. split; [done|]. split; [done|by left]. }
  case_bool_decide as Hlt.
  2: { exists []. split; [done|]. split; [done|]. right. simpl. split; [lia|left; lia]. }
  destruct (decide (Exists (λ b, hdr_Height (blk_Header b) = z) chain)) as [Hex|Hno].
  - apply Exists_exists in Hex as (b & Hb & Hbz).
    destruct (GetByHeight_stored _ _ _ Hok Hh Hb) as (b' & Ht & _ & E). rewrite Hbz in E.
    assert (addi64 z 1 = z + 1) as Ez by (apply addi64_exact; unfold is_i64, max_int64 in *; lia).
    destruct (IH (addi64 z 1)) as (bs & Ebs & Hin & Hend); [rewrite Ez; unfold is_i64, max_int64 in *; lia|done|].
    rewrite Ez in Hin, Hend.
    exists (b' :: bs). split; [|split].
    + unfold attempt, mbind, M_bind. rewrite E. by rewrite Ebs.
    + intros [|i] x; simpl.
      * intros [= <-]. split; [lia|]. exists b. split; [done|]. split; [done|lia].
      * intros Hx. destruct (Hin i x Hx) as (? & b0 & ? & ? & ?). split; [lia|]. exists b0. split_and!; [done|done|lia].
    + simpl. destruct Hend as [->|(Hl & Hend)]; [by left|right]. split; [lia|].
      destruct Hend as [?|Hend]; [left; lia|right]. intros b0 Hb0. specialize (Hend b0 Hb0). lia.
  - exists []. split; [|split; [done|right]].
    + unfold attempt, mbind, M_bind. rewrite (GetByHeight_missing _ _ _ Hok Hh); [done|].
      intros b Hb Hbz. apply Hno, Exists_exists. eauto.
    + simpl. split; [lia|right]. intros b Hb Hbz. apply Hno, Exists_exists. exists b. split; [done|lia].
Qed.

Lemma served_limit_range limit : 1 ≤ served_limit limit ≤ 200.
Proof. unfold served_limit. case_bool_decide; lia. Qed.

(** Heights along a chain. *)
Lemma linked_height pre t seg i b :
  linked (pre ++ t :: seg) → seg !! i = Some b →
  hdr_Height (blk_Header b) = hdr_Height (blk_Header t) + 1 + Z.of_nat i.
Proof.
  revert t pre i. induction seg as [|x seg IH]; intros t pre i Hl; [done|].
  assert (hdr_Height (blk_Header x) = hdr_Height (blk_Header t) + 1) as Hx.
  { clear IH. induction pre as [|y pre IHp]; [by destruct Hl|]. apply IHp. simpl in Hl. by destruct pre; destruct Hl as (_ & _ & ?). }
  destruct i as [|i]; simpl; [intros [= <-]; lia|]. intros Hi.
  rewrite (IH x (pre ++ [t]) i); [lia| |done]. by rewrite <- app_assoc.
Qed.

Lemma linked_prefix l1 l2 : linked (l1 ++ l2) → linked l1.
Proof.
  induction l2 as [|x l2 IH] using rev_ind; [by rewrite app_nil_r|]. rewrite app_assoc.
  intros [Hl _]%linked_app. by apply IH.
Qed.

Lemma linked_below pre t seg b :
  linked (pre ++ t :: seg) → b ∈ pre ++ [t] → hdr_Height (blk_Header b) ≤ hdr_Height (blk_Header t).
Proof.
  intros Hl Hb. change (t :: seg) with ([t] ++ seg) in Hl. rewrite app_assoc in Hl.
  apply linked_prefix in Hl. eapply linked_heights; [exact Hl|by rewrite last_snoc|done].
Qed.

(** Asked for what follows [t], the loop finds the next blocks of the chain. *)
Lemma collect_next fuel stop (bc : Blockchain D) pre t seg :
  bc_ok bc (pre ++ t :: seg) → db_healthy (bc_store bc) →
  let z := hdr_Height (blk_Header t) + 1 in
  is_i64 z → z + Z.of_nat fuel = stop → stop ≤ max_int64 →
  ∃ bs, collect_blocks fuel z stop bc = (bc, Ret bs) ∧ Forall2 block_in_transit (take fuel seg) bs.
Proof.
  intros Hok Hh z Hz Hst Hmax. pose proof (bco_linked _ _ Hok) as Hl.
  destruct (collect_blocks_spec fuel z stop bc _ Hok Hh Hz Hmax) as (bs & E & Hin & Hend).
  exists bs. split; [done|].
  assert (∀ b i, b ∈ pre ++ t :: seg → hdr_Height (blk_Header b) = z + Z.of_nat i → seg !! i = Some b) as Hat.
  { intros b i Hb Hbi. rewrite cons_middle, app_assoc in Hb.
    apply elem_of_app in Hb as [Hb|Hb].
    { pose proof (linked_below _ _ _ _ Hl Hb). unfold z in *. lia. }
    apply list_elem_of_lookup in Hb as [j Hj]. pose proof (linked_height _ _ _ _ _ Hl Hj) as Hbj.
    by assert (i = j) as -> by (unfold z in *; lia). }
  assert (length bs = length (take fuel seg)) as Hlen.
  { rewrite length_take. destruct (decide (length bs < length seg)%nat) as [Hlt|Hge].
    - apply lookup_lt_is_Some in Hlt as [b Hb]. pose proof (linked_height _ _ _ _ _ Hl Hb) as Hbz.
      apply lookup_lt_Some in Hb as Hlt.
      assert (b ∈ pre ++ t :: seg) as Hin2 by (apply list_elem_of_lookup_2 in Hb; set_solver).
      destruct Hend as [Hf|(Hf & [Hs|Hno])]; [lia|unfold z in *; lia|]. by destruct (Hno b Hin2).
    - assert (length bs ≤ length seg)%nat as Hle.
      { destruct (decide (length seg < length bs)%nat) as [Hlt|]; [|lia]. exfalso.
        apply lookup_lt_is_Some in Hlt as [b' Hb']. destruct (Hin _ _ Hb') as (_ & b & Hb & _ & Hbz).
        apply Hat in Hbz; [|done]. apply lookup_lt_Some in Hbz. lia. }
      destruct Hend as [|[]]; lia. }
  apply Forall2_same_length_lookup_2; [done|]. intros i b b' [Hb Hi]%lookup_take_Some Hb'.
  destruct (Hin _ _ Hb') as (_ & b0 & Hb0 & Ht & Hbz). apply Hat in Hbz; [|done]. by simplify_eq.
Qed.

(** ** Accepting what a peer serves *)

Definition encodable (b : Block) : Prop := is_ret (marshal_block b) = true.

#[export] Instance in_transit_trans : Transitive in_transit.
Proof.
  intros q1 q2 q3. destruct q1 as [t1|], q2 as [t2|], q3 as [t3|]; try done. intros (v & Hv & ->) (v' & Hv' & ->).
  exists v. split; [done|]. simpl in Hv'. rewrite (enc_raw_print _ _ Hv) in Hv'. by injection Hv' as <-.
Qed.

#[export] Instance block_transit_trans : Transitive block_in_transit.
Proof.
  intros b1 b2 b3 [H1 H2 H3 H4] [K1 K2 K3 K4]. split; try congruence.
  by etrans.
Qed.

Lemma encodable_transit b b' : block_in_transit b b' → encodable b → encodable b'.
Proof. intros Ht. unfold encodable. by rewrite (marshal_transit _ _ Ht). Qed.

Lemma encodable_stored (m : gmap string string) chain b : chain_rep m chain → b ∈ chain → encodable b.
Proof. intros [Hb _ _ _] Hin. destruct (Hb b Hin) as (data & Hd & _). unfold encodable. by rewrite Hd. Qed.

(** A response is read as the blocks that were served. *)
Lemma BlocksResponse_transit bs :
  Forall valid_Block bs → Forall encodable bs →
  ∃ v, BlocksResponse_enc bs = Some v ∧ wf_jv v = true ∧ escaped v ∧
  ∃ bs', Unmarshal BlocksResponse_dec [] (print v) = Some (Some <$> bs') ∧ Forall2 block_in_transit bs bs'.
Proof.
  intros Hv He.
  assert (∃ vs bs', mapM Block_enc bs = Some vs ∧ forallb wf_jv vs = true ∧ Forall escaped vs ∧
    mapM dec_block_ptr vs = Some (Some <$> bs') ∧ Forall2 block_in_transit bs bs')
    as (vs & bs' & Em & Hw & Hes & Hd & Ht).
  { induction Hv as [|b bs Hb _ IH]; [by exists [], []|]. apply Forall_cons in He as [Heb He].
    destruct (IH He) as (vs & bs' & Em & Hw & Hes & Hd & Ht).
    unfold encodable, marshal_block in Heb. destruct (Block_enc b) as [v|] eqn:Ev; [|done].
    destruct (Block_dec_enc _ _ Hb Ev) as (Hwv & b' & Hdv & Htv). exists (v :: vs), (b' :: bs'). split_and!.
    - simpl. by rewrite Ev, Em.
    - simpl. by rewrite Hwv.
    - constructor; [by eapply escaped_Block|done].
    - simpl. rewrite Hd. unfold dec_block_ptr. rewrite Hdv.
      unfold Block_enc in Ev. by apply bind_Some in Ev as (? & _ & [= <-]).
    - by constructor. }
  exists (VObj [("blocks", VArr vs)]). unfold BlocksResponse_enc. rewrite Em. split; [done|].
  assert (wf_jv (VObj [("blocks", VArr vs)]) = true) as Hwf by (cbn [wf_jv forallb]; by rewrite Hw).
  split; [done|]. split; [solve_escaped; by apply escaped_arr|]. exists bs'. split; [|done].
  apply Unmarshal_print; [done|]. unfold BlocksResponse_dec, dec_struct.
  dec_field_step; [|simpl; rewrite Hd; reflexivity]. reflexivity.
Qed.

Lemma valid_after_transit p t t' b b' :
  blk_Hash t' = blk_Hash t → blk_Header t' = blk_Header t → block_in_transit b b' →
  valid_after p t b → valid_after p t' b'.
Proof.
  intros E1 E2 Ht. pose proof (ComputeHash_transit _ _ Ht) as Hc. destruct Ht as [Hh Hhs Hsg Htx].
  intros [Hl Hg Hs (pub & Hp & Hv) Hr Hph Hht Htm].
  split; rewrite ?E1, ?E2, ?Hh; try done.
  - exists pub. split; [done|]. unfold blk_Verify. rewrite Hhs, Hsg, Hc. exact Hv.
  - by rewrite <- (tx_root_transit _ _ Htx).
Qed.

Lemma valid_fees b : valid_Block b → fees_ok (blk_Transactions b).
Proof.
  intros (_ & Ht & _). eapply Forall_impl; [exact Ht|]. intros [t|]; [|done].
  unfold valid_Transaction. intros ?. by destruct_and!.
Qed.

Lemma AddBlock_tip n n' b : on_chain (AddBlock b) n = (n', Ret tt) → nd_tip n' = Some b.
Proof.
  unfold on_chain, on_part. destruct (AddBlock b (nd_chain n)) as [bc o] eqn:E. intros [= <- ->]. simpl.
  revert E. unfold AddBlock. by intros (? & ? & _ & (? & ? & _ & [= <-])%bind_Ret_inv)%bind_Ret_inv.
Qed.

(** A block that links to the tip, on a healthy node, is stored and flushed. *)
Lemma store_synced_run id n b t :
  st_inv n → st_healthy n → nd_tip n = Some t → encodable b → is_i64 (nd_height n + 1) →
  hdr_Height (blk_Header b) = nd_height n + 1 → hdr_PrevHash (blk_Header b) = blk_Hash t →
  ∃ n', store_synced (Some id) b n = (n', Ret true) ∧ nd_tip n' = Some b.
Proof.
  intros Hi Hh Etip Hen Hr Hheight Hprev. destruct (on_chain_AddBlock_run n b Hh) as [n3 E3]; [|done|].
  { unfold check_link. simpl. rewrite Etip, Hheight, Hprev.
    rewrite bool_decide_eq_false_2 by lia. rewrite addi64_exact by done.
    by rewrite !bool_decide_eq_false_2 by (by intros []). }
  unfold store_synced, attempt, mbind, M_bind. rewrite E3.
  destruct (on_chain_AddBlock _ _ _ _ Hi E3) as (Hi3 & _ & Hh3).
  destruct (commit_or_die n3) as [n4 o4] eqn:E4.
  destruct (commit_or_die_cases _ _ _ Hi3 E4) as (_ & Kt & _ & _ & _ & _ & [(-> & _)|(Hu & _)]);
    [|by destruct Hu; auto].
  exists n4. split; [done|]. rewrite Kt. by eapply AddBlock_tip.
Qed.

Lemma blk_Verify_hash b pub : blk_Verify b pub = Ret tt → blk_Hash b = ComputeHash b.
Proof.
  unfold blk_Verify. case_bool_decide as E; [done|]. intros _.
  destruct (decide (blk_Hash b = ComputeHash b)); [done|by destruct E].
Qed.

Lemma sync_block_run p now b b' n chain t t' w' :
  poa_ok p → node_ok n chain → st_healthy n → nd_height n < max_int64 →
  nd_tip n = Some t' → blk_Hash t' = blk_Hash t → blk_Header t' = blk_Header t →
  valid_after p t b → hdr_Timestamp (blk_Header b) ≤ addi64 now maxBlockTimeDrift →
  valid_Block b → encodable b → block_in_transit b b' →
  run_txs b (blk_Transactions b) (world_at n) = (w', Ret tt) →
  (hdr_StateRoot (blk_Header b) = "" ∨ hdr_StateRoot (blk_Header b) = world_root w') →
  ∃ n', sync_block (main_syncer p) now (Some b') n = (n', Ret true) ∧ world_at n' = w' ∧ accepted n n' b' chain.
Proof.
  intros Hp Hok Hh Hlt Etip Eh Ehd Hva Hclk Hvb Hen Ht Hrun Hroot.
  pose proof (bt_header _ _ Ht) as Hbh.
  assert (good_block b) as Hgood.
  { split; [done|]. destruct (va_seal _ _ _ Hva) as (pub & _ & Hv). by eapply blk_Verify_hash. }
  destruct (good_transit _ _ Ht Hgood) as [Hvb' _].
  assert (ValidateBlock p now (Some b') n = Ret tt) as EV.
  { apply (ValidateBlock_spec _ _ _ _ _ Etip). split; [by eapply valid_after_transit|by rewrite Hbh]. }
  destruct (sync_block (main_syncer p) now (Some b') n) as [n' o] eqn:E.
  pose proof (sync_block_cases _ _ _ _ _ _ _ Hp Hok Hvb' E) as Hcases.
  assert (hdr_Height (blk_Header b') = nd_height n + 1 ∧ hdr_PrevHash (blk_Header b') = blk_Hash t') as [Hheight Hprev].
  { destruct (next_height_links _ _ (no_chain _ _ Hok) Hlt t' Etip) as [Ehn Ex]. rewrite Hbh, Ehn.
    rewrite (va_height _ _ _ Hva), (va_prev _ _ _ Hva), <- Ehd, Eh. done. }
  assert (o = Ret true ∧ nd_tip n' = Some b') as [-> Htip].
  { revert E. unfold sync_block. cbn [sy_validator main_syncer applied_by sy_state sy_exec]. rewrite EV.
    pose proof (no_state _ _ Hok) as Hn.
    destruct (Snapshot_ref n Hn) as (n1 & E1 & Hi1 & Ha1 & Hh1). pose proof (Snapshot_frame _ _ _ E1) as Hf1.
    unfold attempt, mbind, M_bind. rewrite E1. cbn [liftO deref].
    assert (world_at n1 = world_at n) as Hw1 by (unfold world_at; by rewrite Ha1).
    destruct (ExecuteBlock (poa_exec p) b' n1) as [n2 o2] eqn:E2.
    destruct (ExecuteBlock_ref _ _ _ _ _ (poa_executor_ok _ Hp) (valid_block_ok _ Hvb') Hi1 E2)
      as (Hi2 & Hh2 & _ & [Hr2|[Hu _]]); [|by destruct Hu; auto].
    rewrite Hw1 in Hr2. rewrite (run_txs_transit b b' (blk_Transactions b) _ _ w') in Hr2;
      [|by apply valid_block_ok|by apply valid_fees|exact (proj1 (st_wf n Hn))|done|apply Ht|done].
    injection Hr2 as Hw2 <-.
    unfold read_root. rewrite (Root_ref n2 Hi2) by auto. fold (world_at n2). rewrite <- Hw2, Hbh.
    rewrite bool_decide_eq_false_2 by (intros [H1 H2]; destruct Hroot; congruence).
    pose proof (same_frame_trans _ _ _ Hf1 (ExecuteBlock_frame _ _ _ _ _ Hp E2)) as (Ft & Fh & _).
    destruct (store_synced_run (Z.of_nat (length (abs_snaps (st_abs n)))) n2 b' t') as (n3 & E3 & Et3);
      [done|auto|congruence|by eapply encodable_transit| | |done|].
    - rewrite Fh, <- Hheight. destruct Hvb' as [Hvh _]. unfold valid_BlockHeader in Hvh. by destruct_and!.
    - by rewrite Fh.
    - rewrite E3. by intros [= <- <-]. }
  exists n'. destruct Hcases as [(_ & _ & Hacc)|[[(_ & Hbad & _) _]|(_ & Hu & _)]]; [|exfalso|done].
  - split; [done|]. split; [|done]. destruct Hacc as (_ & _ & _ & _ & Hw & _). destruct (Hw Hh) as (_ & Hr & _).
    rewrite (run_txs_transit b b' (blk_Transactions b) _ _ w') in Hr;
      [|by apply valid_block_ok|by apply valid_fees|exact (proj1 (st_wf n (no_state _ _ Hok)))|done|apply Ht|done].
    by injection Hr as ->.
  - rewrite Htip, Etip in Hbad. injection Hbad as <-.
    destruct (next_height_links _ _ (no_chain _ _ Hok) Hlt b' Etip) as [Ehn _]. lia.
Qed.
End Facts.

(** ** Properties *)

Section Properties.
Context `{C : Crypto, CL : !CryptoLaws, F : FloatFmt, FL : !FloatLaws, O : MapOrder}.
Context {D : Type} `{HD : DB D, HDR : DBRep D, HDL : !DBLaws D}.
Implicit Types (p : PoA (Node D)) (n : Node D) (h : Host D).

Lemma sync_nil_block p now n : ∃ msg, sync_block (main_syncer p) now None n = (n, Panic msg).
Proof.
  unfold sync_block. simpl. unfold ValidateBlock. case_bool_decide; simpl; eauto.
Qed.

Lemma sync_blocks_cases p pbs h chain t h' o :
  poa_ok p → node_ok (ht_node h) chain → nd_tip (ht_node h) = Some t →
  Forall (λ q, match q with Some b => valid_Block b | None => True end) pbs →
  sync_blocks (main_syncer p) pbs h = (h', o) →
  (∃ bs w', (Some <$> bs) `sublist_of` pbs ∧ node_ok (ht_node h') (chain ++ bs) ∧
     nd_tip (ht_node h') = last (t :: bs) ∧
     (st_healthy (ht_node h) → st_healthy (ht_node h') ∧ certified p t (world_at (ht_node h)) bs w' ∧
        (world_at (ht_node h') = w' ∨ ∃ msg, o = Panic msg))) ∨
  collision_in (header_text <$> chain ++ omap id pbs) ∨
  (nd_exited (ht_node h') = true ∧ ¬ st_healthy (ht_node h)).
Proof.
  intros Hp Hok Et Hv. revert h chain t Hok Et. induction Hv as [|q pbs Hq _ IH]; intros h chain t Hok Et.
  { intros [= <- _]. left. exists [], (world_at (ht_node h)). rewrite app_nil_r. split_and!; try done.
    intros Hh. split; [done|]. split; [constructor|by left]. }
  cbn [sync_blocks]. erewrite bind_Ret by reflexivity.
  set (h0 := mkHost (ht_node h) (ht_conns h) (ht_peers h) (ht_stopped h) (λ i, ht_clock h (S i)) (ht_listener h)).
  unfold mbind, M_bind, on_node, on_part. change (ht_node h0) with (ht_node h).
  assert (∀ n1 (o1 : outcome bool), refused (ht_node h) n1 o1 chain →
    ∃ bs w', (Some <$> bs) `sublist_of` q :: pbs ∧ node_ok n1 (chain ++ bs) ∧ nd_tip n1 = last (t :: bs) ∧
      (st_healthy (ht_node h) → st_healthy n1 ∧ certified p t (world_at (ht_node h)) bs w' ∧
        (world_at n1 = w' ∨ ∃ msg, o1 = Panic msg))) as Hstop.
  { intros n1 o1 (Hok1 & Et1 & _ & _ & Hh1 & Hw1). exists [], (world_at (ht_node h)). rewrite app_nil_r.
    split; [apply sublist_nil_l|]. split; [done|]. split; [by rewrite Et1|]. intros Hh. split; [by auto|].
    split; [constructor|]. destruct Hw1 as [|Hw1]; [by right|left]. unfold world_at. by rewrite Hw1. }
  destruct q as [b|].
  2: { destruct (sync_nil_block p (ht_clock h 0%nat) (ht_node h)) as [msg ->]. intros [= <- <-]. left.
       apply Hstop. apply refused_frame; [done|apply Hok|apply same_frame_refl|done|by right]. }
  destruct (sync_block (main_syncer p) (ht_clock h 0%nat) (Some b) (ht_node h)) as [n1 o1] eqn:E1.
  destruct (sync_block_cases p _ b _ chain _ _ Hp Hok Hq E1) as [(-> & EV & Hacc)|[[Href _]|(Hx & Hu & msg & ->)]].
  - destruct Hacc as (Et1 & _ & _ & _ & Hw1 & [Hok1|Hcol]).
    2: { intros _. right. left. eapply collision_in_mono; [|exact Hcol]. intros x. simpl. set_solver. }
    intros E. apply (ValidateBlock_spec _ _ _ _ _ Et) in EV as [Hva _].
    destruct (IH (set_ht_node n1 h0) (chain ++ [b]) b Hok1 Et1 E) as [(bs & w' & Hsub & Hok' & Hl & Hr)|[Hcol|[Hx Hu]]].
    + left. exists (b :: bs), w'. rewrite <- app_assoc in Hok'. split; [by apply sublist_skip|]. split; [done|].
      split; [done|]. intros Hh. destruct (Hw1 Hh) as (Hh1 & Hrun & Hroot). destruct (Hr Hh1) as (Hh' & Hc & Hw').
      split; [done|]. split; [by eapply cert_cons|done].
    + right. left. by rewrite <- app_assoc in Hcol.
    + right. right. split; [done|]. intros Hh. by apply Hu, Hw1.
  - destruct o1 as [[]|e|msg].
    + intros E. destruct Href as (Hok1 & Et1 & _ & _ & Hh1 & [[? ?]|Hw1]); [done|].
      assert (world_at n1 = world_at (ht_node h)) as Ew by (unfold world_at; by rewrite Hw1).
      destruct (IH (set_ht_node n1 h0) chain t Hok1) as [(bs & w' & Hsub & Hok' & Hl & Hr)|[Hcol|[Hx Hu]]];
        [simpl; congruence|done|..].
      * left. exists bs, w'. split; [by apply sublist_cons|]. simpl ht_node in Hr. rewrite Ew in Hr. auto.
      * right. left. eapply collision_in_mono; [|exact Hcol]. intros x. simpl. set_solver.
      * right. right. split; [done|]. intros Hh. by apply Hu, Hh1.
    + intros [= <- <-]. left. by apply Hstop.
    + intros [= <- <-]. left. by apply Hstop.
    + intros [= <- <-]. left. by apply Hstop.
  - intros [= <- <-]. by right; right.
Qed.

Lemma dec_block_ptrs_valid v l :
  dec_block_ptrs v = Some l → Forall (λ q, match q with Some b => valid_Block b | None => True end) l.
Proof.
  destruct v as [| | | |vs|]; simpl; try done; [by intros [= <-]|]. intros H%mapM_Some.
  induction H as [|q v l vs Hq _ IH]; constructor; [|done].
  assert (q = VNull ∨ dec_block_ptr q = Some <$> Block_dec Block_zero q) as [->|E]
    by (destruct q; auto); [by injection Hq as <-|].
  rewrite E in Hq. apply fmap_Some in Hq as (b & Hb & ->). by eapply Block_dec_valid.
Qed.

Lemma response_valid data l :
  Unmarshal BlocksResponse_dec [] data = Some l →
  Forall (λ q, match q with Some b => valid_Block b | None => True end) l.
Proof.
  intros (v & _ & H)%bind_Some. revert H. apply dec_struct_invariant; [constructor|].
  apply Forall_cons. split; [|by apply Forall_nil].
  intros r y b _ H. by eapply dec_block_ptrs_valid.
Qed.

(** C6: whatever blocks a peer sends, valid or not, in any order, with nil
    entries: the node keeps a consistent chain, pool and state.  The blocks it
    accepts are among those sent, in that order, and extend its chain up to its
    new tip; each is valid after the one before it (the first after the node's
    former tip) and executes from the world the ones before it lead to, with the
    state root it names (if it names one), also when the handler panics later
    on.  The node's world is the one the accepted blocks lead to, unless the
    handler panicked.  Otherwise two headers are a SHA-256 collision, or, on a
    faulty store only, the process has ended; validity and roots are stated for
    a healthy store. *)
Theorem peer_blocks_safe p r msg blocks h chain t h' o :
  poa_ok p → node_ok (ht_node h) chain → nd_tip (ht_node h) = Some t →
  Unmarshal BlocksResponse_dec [] (msg_Payload msg) = Some blocks →
  handleBlocks (main_syncer p) r msg h = (h', o) →
  (∃ bs w', (Some <$> bs) `sublist_of` blocks ∧ node_ok (ht_node h') (chain ++ bs) ∧
     nd_tip (ht_node h') = last (t :: bs) ∧
     (st_healthy (ht_node h) → st_healthy (ht_node h') ∧ certified p t (world_at (ht_node h)) bs w' ∧
        (world_at (ht_node h') = w' ∨ ∃ msg, o = Panic msg))) ∨
  collision_in (header_text <$> chain ++ omap id blocks) ∨
  (nd_exited (ht_node h') = true ∧ ¬ st_healthy (ht_node h)).
Proof.
  intros Hp Hok Et Hd. unfold handleBlocks. rewrite Hd. unfold mbind, M_bind.
  destruct (sync_blocks (main_syncer p) blocks h) as [h1 o1] eqn:E1.
  pose proof (sync_blocks_cases p _ _ _ _ _ _ Hp Hok Et (response_valid _ _ Hd) E1) as H.
  intros E. assert (ht_node h' = ht_node h1 ∧ ((∃ m, o1 = Panic m) → ∃ m, o = Panic m)) as [-> Ho].
  { revert E. destruct o1 as [more|e|m]; [|intros [= <- <-]; by split; [|naive_solver]..].
    intros E. split; [|by intros [? ?]]. revert E. destruct (more && _); [|by intros [= <- _]].
    unfold SyncWithPeer, logged, RequestBlocks, on_peer.
    destruct (ht_conns h1 !! r) as [q|]; [|by intros [= <- _]].
    destruct (Send _ q) as [q' [| |]]; by intros [= <- _]. }
  destruct H as [(bs & w' & H1 & H2 & H3 & H4)|H]; [left|by right]. exists bs, w'. split_and!; [done..|].
  intros Hh. destruct (H4 Hh) as (Hh' & Hc & [Hw|Hm]); auto.
Qed.

(** A request is answered with the stored blocks of consecutive heights from
    the one asked for, at most 200 of them (fifty when the request says
    nothing sensible), up to the first height without a block. *)
Theorem get_blocks_served r msg req h chain :
  bc_ok (nd_chain (ht_node h)) chain → st_healthy (ht_node h) →
  Unmarshal GetBlocksRequest_dec GetBlocksRequest_zero (msg_Payload msg) = Some req →
  let z := gr_FromHeight req in
  let limit := served_limit (gr_Limit req) in
  is_i64 z →
  ∃ bs, (length bs ≤ 200)%nat ∧
    (∀ i b', bs !! i = Some b' →
       ∃ b, b ∈ chain ∧ block_in_transit b b' ∧ hdr_Height (blk_Header b) = z + Z.of_nat i) ∧
    (z + limit ≤ max_int64 → Z.of_nat (length bs) < limit →
       ∀ b, b ∈ chain → hdr_Height (blk_Header b) ≠ z + Z.of_nat (length bs)) ∧
    ∃ v, BlocksResponse_enc bs = Some v ∧
      handleGetBlocks r msg h = logged (on_peer r (Send (mkMessage MsgBlocks (print v)))) h.
Proof.
  intros Hok Hh Hreq z limit Hz. pose proof (served_limit_range (gr_Limit req)) as Hl. fold limit in Hl.
  assert (addi64 z limit ≤ max_int64) as Hstop by (pose proof (addi64_range z limit); unfold is_i64 in *; lia).
  destruct (collect_blocks_spec (Z.to_nat limit) z (addi64 z limit) _ _ Hok Hh Hz Hstop) as (bs & E & Hin & Hend).
  exists bs. split; [destruct Hend as [|[]]; lia|]. split; [|split].
  - intros i b' Hb'. by destruct (Hin i b' Hb') as [_ ?].
  - intros Hmax Hlt. destruct Hend as [Hf|[_ [Hs|]]]; [lia| |done].
    rewrite addi64_exact in Hs; [lia|]. unfold is_i64 in *. lia.
  - assert (Forall (λ b, valid_Block b ∧ encodable b) bs) as [Hv He]%Forall_and.
    { apply Forall_lookup_2. intros i b' Hb'. destruct (Hin i b' Hb') as (_ & b & Hb & Ht & _).
      pose proof (bco_good _ _ Hok) as Hg. rewrite Forall_forall in Hg. split.
      - eapply valid_transit; [exact Ht|]. by apply Hg.
      - eapply encodable_transit; [exact Ht|]. by eapply encodable_stored; [apply Hok|]. }
    destruct (BlocksResponse_transit bs Hv He) as (v & Ev & _). exists v. split; [done|].
    unfold handleGetBlocks. rewrite Hreq. fold z limit.
    assert (on_node (on_chain (collect_blocks (Z.to_nat limit) z (addi64 z limit))) h = (h, Ret bs)) as E1.
    { unfold on_node, on_chain, on_part. rewrite E. by destruct h as [[[] ? ? ? ?] ? ? ? ?]. }
    erewrite bind_Ret by exact E1. by rewrite Ev.
Qed.
End Properties.
