(* ===== verification/Thread.v ===== *)
(** * Threads

    A goroutine as the sequence of its actions: [Act offer m k] runs [m] while
    nobody else does and goes on with what came of it.  [run] is the thread
    without interference; [safe] says that each action keeps an invariant, on
    whatever state that satisfies it the action finds. *)
From Stdlib Require Import Ascii Lia ZArith.
From stdpp Require Import base gmap strings list.
From S2P Require Import Prelude Crypto Json JsonFacts JsonParse JsonTyped Types Transaction Block.

(** [Act offer m k] runs [m] while nobody else does and goes on with its outcome;
    [offer] notes the block it asks the blockchain to store. *)
Inductive thread (S A : Type) : Type :=
| Done (o : outcome A)
| Act {B : Type} (offer : option Block) (m : M S B) (k : outcome B → thread S A).
Arguments Done {S A} o.
Arguments Act {S A B} offer m k.

Section Thread.
Context {S : Type}.

#[export] Instance thread_ret : MRet (thread S) := λ A a, Done (Ret a).
#[export] Instance thread_bind : MBind (thread S) := λ A B f,
  fix go t :=
    match t with
    | Done (Ret a) => f a
    | Done (Fail e) => Done (Fail e)
    | Done (Panic msg) => Done (Panic msg)
    | Act offer m k => Act offer m (λ o, go (k o))
    end.

Definition act {A} (m : M S A) : thread S A := Act None m Done.

(** What a thread comes to, as a value. *)
Fixpoint attempt_t {A} (t : thread S A) : thread S (outcome A) :=
  match t with
  | Done o => Done (Ret o)
  | Act offer m k => Act offer m (λ o, attempt_t (k o))
  end.
Definition wrap_t {A} (msg : string) (t : thread S A) : thread S A :=
  o ← attempt_t t; Done (wrapO msg o).
(** Logged and forgotten. *)
Definition ignore {A} (t : thread S A) : thread S unit := _ ← attempt_t t; mret tt.

(** [if cond { return err }] *)
Definition reject_t (cond : bool) (e : error) : thread S unit := Done (if cond then Fail e else Ret tt).
(** Errors are logged; a panic goes on. *)
Definition logged_t {A} (t : thread S A) : thread S unit :=
  o ← attempt_t t; match o with Panic msg => Done (Panic msg) | _ => mret tt end.
(** The object must be absent. *)
Definition expect_absent_t {A} (t : thread S A) (exists_err : error) (msg : string) : thread S unit :=
  o ← attempt_t t;
  Done match o with
       | Ret _ => Fail exists_err
       | Fail e => if is_not_found e then Ret tt else Fail (EWrap msg e)
       | Panic p => Panic p
       end.

Fixpoint each {X} (f : X → thread S unit) (l : list X) : thread S unit :=
  match l with
  | [] => mret tt
  | x :: l => f x;; each f l
  end.

(** Without interference. *)
Fixpoint run {A} (t : thread S A) : M S A :=
  match t with
  | Done o => λ s, (s, o)
  | Act _ m k => λ s, let '(s', o) := m s in run (k o) s'
  end.

Lemma run_bind {A B} (t : thread S A) (f : A → thread S B) s :
  run (t ≫= f) s = (run t ≫= λ a, run (f a)) s.
Proof.
  revert s. induction t as [[a|e|msg]|X offer m k IH]; intros s; [done..|].
  change (Act offer m k ≫= f) with (Act offer m (λ o, k o ≫= f)). cbn [run]. unfold mbind at 2, M_bind. cbn [run].
  destruct (m s) as [s' o]. apply IH.
Qed.

(** A bind of threads against a bind of computations. *)
Lemma run_bind_as {A B} (t : thread S A) (f : A → thread S B) (m : M S A) (g : A → M S B) s :
  run t s = m s → (∀ a s, run (f a) s = g a s) → run (t ≫= f) s = (m ≫= g) s.
Proof.
  intros Ht Hf. rewrite run_bind. unfold mbind, M_bind. rewrite Ht. destruct (m s) as [s' [a| |]]; [apply Hf|done..].
Qed.

Lemma run_act {A} (m : M S A) s : run (act m) s = m s.
Proof. cbn. by destruct (m s). Qed.

Lemma run_attempt {A} (t : thread S A) s : run (attempt_t t) s = attempt (run t) s.
Proof.
  revert s. induction t as [o|X offer m k IH]; intros s; [done|]. cbn [attempt_t run]. unfold attempt in *.
  destruct (m s) as [s' o]. apply IH.
Qed.

Lemma run_wrap {A} msg (t : thread S A) s : run (wrap_t msg t) s = wrap msg (run t) s.
Proof.
  unfold wrap_t. rewrite run_bind. unfold mbind, M_bind. rewrite run_attempt. unfold attempt, wrap.
  by destruct (run t s).
Qed.

Lemma run_each {X} (f : X → thread S unit) (g : X → M S unit) l s :
  (∀ x s, run (f x) s = g x s) → run (each f l) s = for_each g l s.
Proof.
  intros Hf. revert s. induction l as [|x l IH]; intros s; [done|]. cbn [each for_each]. rewrite run_bind.
  unfold mbind, M_bind. rewrite Hf. destruct (g x s) as [s' [| |]]; [apply IH|done..].
Qed.
Lemma attempt_alone {A} (t : thread S A) (m : M S A) s : run t s = m s → run (attempt_t t) s = attempt m s.
Proof. intros E. rewrite run_attempt. unfold attempt. by rewrite E. Qed.

Lemma wrap_alone {A} msg (t : thread S A) (m : M S A) s : run t s = m s → run (wrap_t msg t) s = wrap msg m s.
Proof. intros E. rewrite run_wrap. unfold wrap. by rewrite E. Qed.

Lemma reject_alone cond e s : run (reject_t cond e) s = reject_if cond e s.
Proof. by destruct cond. Qed.

Lemma logged_alone {A} (t : thread S A) (m : M S A) s : run t s = m s → run (logged_t t) s = logged m s.
Proof.
  intros E. unfold logged_t, logged. rewrite run_bind. unfold mbind, M_bind. rewrite run_attempt. unfold attempt.
  rewrite E. by destruct (m s) as [s' [| |]].
Qed.

Lemma ignore_alone (t : thread S unit) (m : M S unit) s : run t s = m s → run (ignore t) s = recover m s.
Proof.
  intros E. unfold ignore, recover. rewrite run_bind. unfold mbind, M_bind. rewrite run_attempt. unfold attempt.
  rewrite E. by destruct (m s).
Qed.

Lemma expect_absent_alone {A} (t : thread S A) (m : M S A) e msg s :
  run t s = m s → run (expect_absent_t t e msg) s = expect_absent m e msg s.
Proof.
  intros E. unfold expect_absent_t, expect_absent. rewrite run_bind. unfold mbind, M_bind. rewrite run_attempt.
  unfold attempt. rewrite E. destruct (m s) as [s' [|e'|]]; [done| |done]. cbn. by destruct (is_not_found e').
Qed.
End Thread.

(** ** Safety *)

Section Safety.
Context {S : Type} (I : list Block → S → Prop) (bad : list Block → Prop).

(** Every action keeps the invariant, unless something bad was offered; the
    results satisfy [Q]. *)
Fixpoint safe {A} (Q : A → Prop) (t : thread S A) : Prop :=
  match t with
  | Done o => ∀ a, o = Ret a → Q a
  | Act offer m k => ∀ log s, I log s →
      bad (log ++ option_list offer) ∨ (I (log ++ option_list offer) (m s).1 ∧ safe Q (k (m s).2))
  end.

Lemma safe_bind {A B} (Q : A → Prop) (R : B → Prop) (t : thread S A) f :
  safe Q t → (∀ a, Q a → safe R (f a)) → safe R (t ≫= f).
Proof.
  intros Ht Hf. induction t as [[a|e|msg]|X offer m k IH]; [by apply Hf, Ht|done..|].
  change (Act offer m k ≫= f) with (Act offer m (λ o, k o ≫= f)). intros log s Hs.
  destruct (Ht log s Hs) as [|[H1 H2]]; [by left|right]. split; [done|]. by apply IH.
Qed.

Lemma safe_attempt {A} (Q : A → Prop) (t : thread S A) :
  safe Q t → safe (λ o, ∀ a, o = Ret a → Q a) (attempt_t t).
Proof.
  intros Ht. induction t as [o|X offer m k IH]; [by intros o' [= <-]|]. intros log s Hs.
  destruct (Ht log s Hs) as [|[H1 H2]]; [by left|right]. split; [done|]. by apply IH.
Qed.

Lemma safe_ret {A} (Q : A → Prop) a : Q a → safe Q (mret a).
Proof. by intros HQ a' [= <-]. Qed.

Lemma safe_done {A} (Q : A → Prop) o : (∀ a, o = Ret a → Q a) → safe Q (Done o).
Proof. done. Qed.

Lemma safe_wrap {A} msg (Q : A → Prop) (t : thread S A) : safe Q t → safe Q (wrap_t msg t).
Proof.
  intros Ht. eapply safe_bind; [by apply safe_attempt|]. intros [a|e|m] Ho a' [= <-]. by apply Ho.
Qed.

Lemma safe_ignore {A} (Q : A → Prop) (t : thread S A) : safe Q t → safe (λ _, True) (ignore t).
Proof. intros Ht. eapply safe_bind; [by apply safe_attempt|]. done. Qed.

Lemma safe_weaken {A} (Q R : A → Prop) (t : thread S A) : (∀ a, Q a → R a) → safe Q t → safe R t.
Proof.
  intros Hqr Ht. induction t as [o|X offer m k IH]; [by intros a Ha; apply Hqr, Ht|]. intros log s Hs.
  destruct (Ht log s Hs) as [|[H1 H2]]; [by left|right]. split; [done|]. by apply IH.
Qed.

Lemma safe_each {X} (f : X → thread S unit) l :
  (∀ x, x ∈ l → safe (λ _, True) (f x)) → safe (λ _, True) (each f l).
Proof.
  intros Hf. induction l as [|x l IH]; [by apply safe_ret|]. cbn [each].
  eapply safe_bind; [apply Hf; by left|]. intros _ _. apply IH. intros y Hy. apply Hf. by right.
Qed.

(** An action that offers nothing. *)
Lemma safe_act {A} (Q : A → Prop) (m : M S A) :
  (∀ log s, I log s → I log (m s).1 ∧ ∀ a, (m s).2 = Ret a → Q a) → safe Q (act m).
Proof. intros Hm log s Hs. right. cbn [option_list]. rewrite app_nil_r. by apply Hm. Qed.
Lemma safe_reject cond e : safe (λ _, cond = false) (reject_t cond e).
Proof. by destruct cond. Qed.

Lemma safe_logged {A} (Q : A → Prop) (t : thread S A) : safe Q t → safe (λ _, True) (logged_t t).
Proof. intros Ht. eapply safe_bind; [by apply safe_attempt|]. by intros [| |] _. Qed.

Lemma safe_expect_absent {A} (Q : A → Prop) (t : thread S A) e msg :
  safe Q t → safe (λ _, True) (expect_absent_t t e msg).
Proof. intros Ht. eapply safe_bind; [by apply safe_attempt|]. done. Qed.
End Safety.
