(* ===== verification/ThreadVm.v ===== *)
(** * The executor as a thread

    [Executor], the nine transaction handlers and the indexer run on a goroutine
    of their caller and hold no lock between their calls: each method of the
    state takes the lock of [StateDB] ([src/storage/statedb.go]) and gives it
    back, each access of the indexer to the store is a call of its own.  Here
    they are written as threads with one action per such call, so that other
    goroutines may act between any two of them; run without interference they
    are the computations of [Vm], the handler modules and [Indexer]. *)
From Stdlib Require Import Ascii Lia ZArith.
From stdpp Require Import base gmap strings list.
From S2P Require Import Prelude Crypto Json JsonFacts JsonParse JsonTyped Types Transaction Block.
From S2P Require Import State DB StateDB Events Vm Economy AssetModule Market SessionModule Executor.
From S2P Require Import Ledger Invariants Mempool Blockchain Node Frame Indexer Thread.

(** ** Handlers *)

Definition ThreadHandler (W : Type) : Type := Context W → string → thread W unit.

(** Decoding and checking need no lock. *)
Definition decode_t {W A} (msg : string) (dec : A → jv → option A) (zero : A) (payload : string) : thread W A :=
  Done (wrapO msg (of_option (EMsg "json") (Unmarshal dec zero payload))).
Definition key_t {W} (msg s : string) : thread W string := wrap_t msg (Done (PubKeyFromHex s)).

Section Handlers.
Context {W : Type} `{F : FloatFmt, C : Crypto, O : MapOrder, HS : State W}.

(** The delivery of an event to its subscribers, in place of [ctx.Emitter]. *)
Variable deliver : Event → thread W unit.

Definition emit_t (ctx : Context W) (typ : string) (data : gmap string goval) : thread W unit :=
  deliver (mkEvent typ (tx_ID (ctx_Tx ctx)) (hdr_Height (blk_Header (ctx_Block ctx))) data).

Definition handleTransfer_t : ThreadHandler W := λ ctx payload,
  p ← decode_t "decode transfer payload" TransferPayload_dec TransferPayload_zero payload;
  reject_t (bool_decide (tp_Amount p = 0)) (EMsg "transfer amount must be > 0");;
  reject_t (bool_decide (tp_To p = "")) (EMsg "transfer to address required");;
  _ ← key_t "invalid to address" (tp_To p);
  sender ← act (GetAccount (tx_From (ctx_Tx ctx)));
  reject_t (bool_decide (acc_Balance sender < tp_Amount p)) (EMsg "insufficient balance");;
  act (SetAccount (mkAccount (acc_Address sender) (sub64 (acc_Balance sender) (tp_Amount p))
                     (acc_Nonce sender)));;
  recipient ← act (GetAccount (tp_To p));
  reject_t (bool_decide (acc_Balance recipient > max_uint64 - tp_Amount p))
    (EMsg "recipient balance overflow");;
  act (SetAccount (mkAccount (acc_Address recipient) (add64 (acc_Balance recipient) (tp_Amount p))
                     (acc_Nonce recipient)));;
  emit_t ctx EventTokenTransfer
    (<["from" := GString (tx_From (ctx_Tx ctx))]> (<["to" := GString (tp_To p)]>
       (<["amount" := GUint64 (tp_Amount p)]> ∅))).

Definition handleMintAsset_t : ThreadHandler W := λ ctx payload,
  p ← decode_t "decode mint_asset payload" MintAssetPayload_dec MintAssetPayload_zero payload;
  reject_t (bool_decide (mp_TemplateID p = "")) (EMsg "template_id required");;
  tmpl ← wrap_t "template not found" (act (GetTemplate (mp_TemplateID p)));
  owner ← (if bool_decide (mp_Owner p = "") then mret (tx_From (ctx_Tx ctx))
           else _ ← key_t "invalid owner pubkey" (mp_Owner p); mret (mp_Owner p));
  let assetID := asset_id (tx_ID (ctx_Tx ctx)) (mp_TemplateID p) in
  act (SetAsset (mkAsset assetID (mp_TemplateID p) owner (mp_Properties p) (tmpl_Tradeable tmpl)
                   (hdr_Timestamp (blk_Header (ctx_Block ctx))) ""));;
  emit_t ctx EventAssetMinted
    (<["asset_id" := GString assetID]> (<["template_id" := GString (mp_TemplateID p)]>
       (<["owner" := GString owner]> ∅))).

Definition handleBurnAsset_t : ThreadHandler W := λ ctx payload,
  p ← decode_t "decode burn_asset payload" BurnAssetPayload_dec BurnAssetPayload_zero payload;
  asset ← wrap_t "asset not found" (act (GetAsset (bp_AssetID p)));
  reject_t (bool_decide (ast_Owner asset ≠ tx_From (ctx_Tx ctx)))
    (EMsg "only the asset owner can burn it");;
  reject_t (bool_decide (ast_ActiveListingID asset ≠ ""))
    (EMsg "asset has an active listing; cancel it before burning");;
  act (DeleteAsset (bp_AssetID p));;
  emit_t ctx EventAssetBurned
    (<["asset_id" := GString (bp_AssetID p)]> (<["owner" := GString (ast_Owner asset)]> ∅)).

Definition handleTransferAsset_t : ThreadHandler W := λ ctx payload,
  p ← decode_t "decode transfer_asset payload" TransferAssetPayload_dec TransferAssetPayload_zero payload;
  reject_t (bool_decide (tap_To p = "")) (EMsg "to address required");;
  _ ← key_t "invalid to pubkey" (tap_To p);
  asset ← wrap_t "asset not found" (act (GetAsset (tap_AssetID p)));
  reject_t (bool_decide (ast_Owner asset ≠ tx_From (ctx_Tx ctx)))
    (EMsg "only the asset owner can transfer it");;
  reject_t (negb (ast_Tradeable asset)) (EMsg "asset is not tradeable");;
  reject_t (bool_decide (ast_ActiveListingID asset ≠ ""))
    (EMsg "asset has an active listing; cancel it before transferring");;
  act (SetAsset (set_Owner asset (tap_To p)));;
  emit_t ctx EventAssetTransfer
    (<["asset_id" := GString (tap_AssetID p)]> (<["from" := GString (tx_From (ctx_Tx ctx))]>
       (<["to" := GString (tap_To p)]> ∅))).

Definition handleRegisterTemplate_t : ThreadHandler W := λ ctx payload,
  p ← decode_t "decode register_template payload" RegisterTemplatePayload_dec RegisterTemplatePayload_zero payload;
  reject_t (bool_decide (rp_ID p = "")) (EMsg "template id required");;
  expect_absent_t (act (GetTemplate (rp_ID p))) (EMsg "template already exists") "check template";;
  act (SetTemplate (mkAssetTemplate (rp_ID p) (rp_Name p) (rp_Schema p) (rp_Tradeable p)
                      (tx_From (ctx_Tx ctx))));;
  emit_t ctx EventTemplateReg
    (<["template_id" := GString (rp_ID p)]> (<["name" := GString (rp_Name p)]> ∅)).

Definition handleListMarket_t : ThreadHandler W := λ ctx payload,
  p ← decode_t "decode list_market payload" ListMarketPayload_dec ListMarketPayload_zero payload;
  reject_t (bool_decide (lm_Price p = 0)) (EMsg "price must be > 0");;
  asset ← wrap_t "asset not found" (act (GetAsset (lm_AssetID p)));
  reject_t (bool_decide (ast_Owner asset ≠ tx_From (ctx_Tx ctx)))
    (EMsg "only the asset owner can list it");;
  reject_t (negb (ast_Tradeable asset)) (EMsg "asset is not tradeable");;
  reject_t (bool_decide (ast_ActiveListingID asset ≠ "")) (EMsg "asset is already listed");;
  let listingID := listing_id (tx_ID (ctx_Tx ctx)) (lm_AssetID p) in
  act (SetListing (mkMarketListing listingID (lm_AssetID p) (tx_From (ctx_Tx ctx)) (lm_Price p) true
                     (hdr_Timestamp (blk_Header (ctx_Block ctx)))));;
  act (SetAsset (set_ActiveListingID asset listingID));;
  emit_t ctx EventMarketList
    (<["listing_id" := GString listingID]> (<["asset_id" := GString (lm_AssetID p)]>
       (<["price" := GUint64 (lm_Price p)]> ∅))).

Definition handleBuyMarket_t : ThreadHandler W := λ ctx payload,
  p ← decode_t "decode buy_market payload" BuyMarketPayload_dec BuyMarketPayload_zero payload;
  listing ← wrap_t "listing not found" (act (GetListing (bm_ListingID p)));
  reject_t (negb (lst_Active listing)) (EMsg "listing is no longer active");;
  reject_t (bool_decide (lst_Seller listing = tx_From (ctx_Tx ctx)))
    (EMsg "seller cannot buy their own listing");;
  buyer ← act (GetAccount (tx_From (ctx_Tx ctx)));
  reject_t (bool_decide (acc_Balance buyer < lst_Price listing)) (EMsg "insufficient balance");;
  act (SetAccount (mkAccount (acc_Address buyer) (sub64 (acc_Balance buyer) (lst_Price listing))
                     (acc_Nonce buyer)));;
  seller ← act (GetAccount (lst_Seller listing));
  reject_t (bool_decide (acc_Balance seller > max_uint64 - lst_Price listing))
    (EMsg "seller balance overflow");;
  act (SetAccount (mkAccount (acc_Address seller) (add64 (acc_Balance seller) (lst_Price listing))
                     (acc_Nonce seller)));;
  asset ← wrap_t "asset not found" (act (GetAsset (lst_AssetID listing)));
  act (SetAsset (set_ActiveListingID (set_Owner asset (tx_From (ctx_Tx ctx))) ""));;
  act (SetListing (set_Active listing false));;
  emit_t ctx EventMarketBuy
    (<["listing_id" := GString (bm_ListingID p)]> (<["asset_id" := GString (lst_AssetID listing)]>
       (<["buyer" := GString (tx_From (ctx_Tx ctx))]> (<["seller" := GString (lst_Seller listing)]>
         (<["price" := GUint64 (lst_Price listing)]> ∅))))).

Definition lock_stake_t (stakes : Z) (player : string) : thread W unit :=
  acc ← wrap_t "player account" (act (GetAccount player));
  reject_t (bool_decide (acc_Balance acc < stakes))
    (EMsg "player insufficient balance for stakes");;
  act (SetAccount (mkAccount (acc_Address acc) (sub64 (acc_Balance acc) stakes) (acc_Nonce acc))).

Definition handleSessionOpen_t : ThreadHandler W := λ ctx payload,
  p ← decode_t "decode session_open payload" SessionOpenPayload_dec SessionOpenPayload_zero payload;
  reject_t (bool_decide (so_SessionID p = "")) (EMsg "session_id required");;
  reject_t (bool_decide (length (so_Players p) = 0%nat)) (EMsg "at least one player required");;
  expect_absent_t (act (GetSession (so_SessionID p))) (EMsg "session already exists") "checking session";;
  (if bool_decide (so_Stakes p > 0) then each (lock_stake_t (so_Stakes p)) (so_Players p)
   else mret tt);;
  act (SetSession (mkSession (so_SessionID p) (so_GameID p) (tx_From (ctx_Tx ctx)) (so_Players p)
                     (so_Stakes p) "open" (Some ∅) (hdr_Timestamp (blk_Header (ctx_Block ctx))) 0));;
  emit_t ctx EventSessionOpen
    (<["session_id" := GString (so_SessionID p)]> (<["game_id" := GString (so_GameID p)]>
       (<["players" := GStrings (so_Players p)]> ∅))).

Definition pay_reward_t (r : string * Z) : thread W unit :=
  acc ← wrap_t "outcome account" (act (GetAccount r.1));
  reject_t (bool_decide (acc_Balance acc > max_uint64 - r.2)) (EMsg "reward overflow for player");;
  act (SetAccount (mkAccount (acc_Address acc) (add64 (acc_Balance acc) r.2) (acc_Nonce acc))).

Definition handleSessionResult_t : ThreadHandler W := λ ctx payload,
  p ← decode_t "decode session_result payload" SessionResultPayload_dec SessionResultPayload_zero payload;
  sess ← wrap_t "session not found" (act (GetSession (sr_SessionID p)));
  reject_t (bool_decide (sess_Status sess ≠ "open")) (EMsg "session already closed");;
  reject_t (bool_decide (tx_From (ctx_Tx ctx) ≠ sess_Creator sess))
    (EMsg "only the session creator can submit results");;
  let outc := default ∅ (sr_Outcome p) in
  each (λ r : string * Z, reject_t (bool_decide (r.1 ∉ sess_Players sess))
            (EMsg "outcome recipient is not a session player")) (range 0 outc);;
  let nPlayers := Z.of_nat (length (sess_Players sess)) in
  reject_t (bool_decide (sess_Stakes sess > 0 ∧ nPlayers > max_uint64 / sess_Stakes sess))
    (EMsg "total stakes overflow");;
  let totalStakes := mul64 (sess_Stakes sess) nPlayers in
  totalRewards ← Done (sum_rewards totalStakes 0 (range 1 outc));
  reject_t (bool_decide (totalRewards ≠ totalStakes)) (EMsg "rewards must equal total stakes");;
  each pay_reward_t (range 2 outc);;
  act (SetSession (close_session sess (sr_Outcome p) (hdr_Timestamp (blk_Header (ctx_Block ctx)))));;
  emit_t ctx EventSessionClose (<["session_id" := GString (sr_SessionID p)]> ∅).

(** ** Executor *)

(** The handlers the packages register. *)
Definition handlers_t : gmap string (ThreadHandler W) := list_to_map [
  (TxMintAsset, handleMintAsset_t); (TxBurnAsset, handleBurnAsset_t);
  (TxTransferAsset, handleTransferAsset_t); (TxRegisterTemplate, handleRegisterTemplate_t);
  (TxTransfer, handleTransfer_t); (TxListMarket, handleListMarket_t); (TxBuyMarket, handleBuyMarket_t);
  (TxSessionOpen, handleSessionOpen_t); (TxSessionResult, handleSessionResult_t)].

Definition charge_t (block : Block) (tx : Transaction) : thread W unit :=
  let proposer_id := hdr_Proposer (blk_Header block) in
  acc ← wrap_t "get account" (act (GetAccount (tx_From tx)));
  reject_t (bool_decide (acc_Nonce acc ≠ tx_Nonce tx)) (EMsg "invalid nonce");;
  reject_t (bool_decide (acc_Balance acc < tx_Fee tx)) (EMsg "insufficient balance for fee");;
  reject_t (bool_decide (acc_Nonce acc = max_uint64)) (EMsg "nonce overflow");;
  let acc := mkAccount (acc_Address acc) (sub64 (acc_Balance acc) (tx_Fee tx))
               (add64 (acc_Nonce acc) 1) in
  if bool_decide (tx_Fee tx > 0 ∧ proposer_id ≠ "" ∧ tx_From tx ≠ proposer_id) then
    act (SetAccount acc);;
    proposer ← wrap_t "get proposer account" (act (GetAccount proposer_id));
    reject_t (bool_decide (acc_Balance proposer > max_uint64 - tx_Fee tx))
      (EMsg "proposer balance overflow");;
    wrap_t "set proposer account"
      (act (SetAccount (mkAccount (acc_Address proposer) (add64 (acc_Balance proposer) (tx_Fee tx))
                          (acc_Nonce proposer))))
  else
    let acc := if bool_decide (tx_Fee tx > 0 ∧ tx_From tx = proposer_id)
               then mkAccount (acc_Address acc) (add64 (acc_Balance acc) (tx_Fee tx)) (acc_Nonce acc)
               else acc in
    act (SetAccount acc).

(** The handlers deliver their events with [deliver], not with the context's emitter. *)
Definition applyTx_t (block : Block) (tx : Transaction) : thread W unit :=
  charge_t block tx;;
  match handlers_t !! tx_Type tx with
  | None => Done (Fail (EMsg "vm: no handler registered for TxType"))
  | Some h => h (mkContext block tx None) (tx_Payload tx)
  end.

Definition ExecuteTx_t (block : Block) (tx : Transaction) : thread W unit :=
  wrap_t "signature" (Done (tx_Verify tx));;
  snapID ← wrap_t "snapshot" (act Snapshot);
  o ← attempt_t (applyTx_t block tx);
  match o with
  | Panic msg => Done (Panic msg)
  | Fail err =>
      r ← attempt_t (act (RevertToSnapshot snapID));
      Done match r with
           | Ret _ => Fail err
           | Fail _ => Fail (EWrap "revert snapshot after tx failure" err)
           | Panic msg => Panic msg
           end
  | Ret _ => deliver (tx_event block tx)
  end.

Definition ExecuteBlock_t (block : Block) : thread W unit :=
  each (λ q, tx ← Done (deref q); wrap_t "tx failed" (ExecuteTx_t block tx)) (blk_Transactions block).
End Handlers.

(** ** Indexer *)

Section Indexer.
Context {D : Type} `{HD : DB D}.

Definition getList_t (key : string) : thread (Node D) (option (list string)) :=
  o ← attempt_t (act (on_db (db_Get key)));
  Done match o with
       | Ret data => wrapO "indexer unmarshal" (of_option (EMsg "json") (Unmarshal ids_dec None data))
       | Fail e => if is_not_found e then Ret None else Fail e
       | Panic p => Panic p
       end.

Definition addToList_t (key value : string) : thread (Node D) unit :=
  ids ← wrap_t "read list" (getList_t key);
  let ids := default [] ids in
  if bool_decide (value ∈ ids) then mret tt else act (on_db (db_Set key (ids_enc (ids ++ [value])))).

Definition removeFromList_t (key value : string) : thread (Node D) unit :=
  ids ← wrap_t "read list" (getList_t key);
  match ids with
  | None => mret tt
  | Some ids => act (on_db (db_Set key (ids_enc (filter (λ id, id ≠ value) ids))))
  end.

Definition onAssetMinted_t (ev : Event) : thread (Node D) unit :=
  let owner := as_string (ev_Data ev !! "owner") in
  let assetID := as_string (ev_Data ev !! "asset_id") in
  if bool_decide (owner = "" ∨ assetID = "") then mret tt
  else logged_t (addToList_t (prefixOwnerAssets +:+ owner) assetID).

Definition onAssetTransferred_t (ev : Event) : thread (Node D) unit :=
  let from := as_string (ev_Data ev !! "from") in
  let to := as_string (ev_Data ev !! "to") in
  let assetID := as_string (ev_Data ev !! "asset_id") in
  if bool_decide (assetID = "" ∨ from = "" ∨ to = "") then mret tt
  else
    logged_t (removeFromList_t (prefixOwnerAssets +:+ from) assetID);;
    logged_t (addToList_t (prefixOwnerAssets +:+ to) assetID).

Definition onAssetBurned_t (ev : Event) : thread (Node D) unit :=
  let owner := as_string (ev_Data ev !! "owner") in
  let assetID := as_string (ev_Data ev !! "asset_id") in
  if bool_decide (owner = "" ∨ assetID = "") then mret tt
  else logged_t (removeFromList_t (prefixOwnerAssets +:+ owner) assetID).

Definition onSessionOpen_t (ev : Event) : thread (Node D) unit :=
  let sessionID := as_string (ev_Data ev !! "session_id") in
  let players := as_anys (ev_Data ev !! "players") in
  if bool_decide (sessionID = "") then mret tt
  else each (λ p,
    let player := as_string (Some p) in
    if bool_decide (player = "") then mret tt
    else logged_t (addToList_t (prefixPlayerSession +:+ player) sessionID)) players.

(** The subscriptions of [New] on the emitter [main] makes, and [Emit], which
    runs the subscribers of the type of an event under [recover]. *)
Definition subscribers_t : gmap string (Event → thread (Node D) unit) := list_to_map [
  (EventAssetMinted, onAssetMinted_t); (EventAssetTransfer, onAssetTransferred_t);
  (EventAssetBurned, onAssetBurned_t); (EventSessionOpen, onSessionOpen_t)].
Definition Emit_t (ev : Event) : thread (Node D) unit :=
  match subscribers_t !! ev_Type ev with Some h => ignore (h ev) | None => mret tt end.
End Indexer.

(** ** Alone, they are the sequential computations *)

(** Follows a thread and a computation in lock step. *)
Ltac alone_step :=
  match goal with
  | |- run (_ ≫= _) _ = _ => apply run_bind_as; [|intros ? ?]
  | |- run (act _) _ = _ => apply run_act
  | |- run (wrap_t _ _) _ = _ => apply wrap_alone
  | |- run (attempt_t _) _ = _ => apply attempt_alone
  | |- run (logged_t _) _ = _ => apply logged_alone
  | |- run (reject_t _ _) _ = _ => apply reject_alone
  | |- run (expect_absent_t _ _ _) _ = _ => apply expect_absent_alone
  | |- run (each _ _) _ = _ => apply run_each; intros ? ?
  | |- run (if ?b then _ else _) _ = _ => destruct b
  | |- run (let _ := _ in _) _ = _ => cbv zeta
  | H : ∀ ev w, run (?d ev) w = _ |- run (?d _) _ = _ => apply H
  | H : ∀ ev w, run (?d ev) w = _ |- run (emit_t ?d _ _ _) _ = _ => apply H
  | |- _ => reflexivity
  end.

Section HandlersAlone.
Context {W : Type} `{F : FloatFmt, C : Crypto, O : MapOrder, HS : State W}.
Context (deliver : Event → thread W unit) (em : option (Emitter W)).
Hypothesis Hdeliver : ∀ ev w, run (deliver ev) w = emit em ev w.

Lemma charge_alone block tx w : run (charge_t block tx) w = charge block tx w.
Proof. unfold charge_t, charge. repeat alone_step. Qed.

(** A handler cut into actions, against the handler. *)
Definition cuts (t : ThreadHandler W) (h : Handler W) : Prop := ∀ block tx payload w,
  run (t (mkContext block tx None) payload) w = h (mkContext block tx em) payload w.

#[local] Ltac alone_handler := intros block tx payload w; repeat alone_step.

Lemma handleTransfer_alone : cuts (handleTransfer_t deliver) handleTransfer.
Proof. unfold handleTransfer_t, handleTransfer. alone_handler. Qed.
Lemma handleMintAsset_alone : cuts (handleMintAsset_t deliver) handleMintAsset.
Proof. unfold handleMintAsset_t, handleMintAsset. alone_handler. Qed.
Lemma handleBurnAsset_alone : cuts (handleBurnAsset_t deliver) handleBurnAsset.
Proof. unfold handleBurnAsset_t, handleBurnAsset. alone_handler. Qed.
Lemma handleTransferAsset_alone : cuts (handleTransferAsset_t deliver) handleTransferAsset.
Proof. unfold handleTransferAsset_t, handleTransferAsset. alone_handler. Qed.
Lemma handleRegisterTemplate_alone : cuts (handleRegisterTemplate_t deliver) handleRegisterTemplate.
Proof. unfold handleRegisterTemplate_t, handleRegisterTemplate. alone_handler. Qed.
Lemma handleListMarket_alone : cuts (handleListMarket_t deliver) handleListMarket.
Proof. unfold handleListMarket_t, handleListMarket. alone_handler. Qed.
Lemma handleBuyMarket_alone : cuts (handleBuyMarket_t deliver) handleBuyMarket.
Proof. unfold handleBuyMarket_t, handleBuyMarket. alone_handler. Qed.
Lemma handleSessionOpen_alone : cuts (handleSessionOpen_t deliver) handleSessionOpen.
Proof. unfold handleSessionOpen_t, handleSessionOpen, lock_stake_t, lock_stake. alone_handler. Qed.
Lemma handleSessionResult_alone : cuts (handleSessionResult_t deliver) handleSessionResult.
Proof. unfold handleSessionResult_t, handleSessionResult, pay_reward_t, pay_reward. alone_handler. Qed.

#[local] Ltac one typ t tac :=
  destruct (decide (typ = t)) as [->|?];
  [rewrite !(lookup_insert_eq _ t); exact tac|rewrite !(lookup_insert_ne _ t typ) by congruence].

Lemma handlers_alone typ :
  match handlers_t deliver !! typ, reg_handlers globalRegistry !! typ with
  | None, None => True
  | Some t, Some h => cuts t h
  | _, _ => False
  end.
Proof.
  rewrite globalRegistry_eq. unfold handlers_t, handler_list. cbn [list_to_map foldr uncurry].
  one typ TxMintAsset handleMintAsset_alone. one typ TxBurnAsset handleBurnAsset_alone.
  one typ TxTransferAsset handleTransferAsset_alone. one typ TxRegisterTemplate handleRegisterTemplate_alone.
  one typ TxTransfer handleTransfer_alone. one typ TxListMarket handleListMarket_alone.
  one typ TxBuyMarket handleBuyMarket_alone. one typ TxSessionOpen handleSessionOpen_alone.
  by one typ TxSessionResult handleSessionResult_alone.
Qed.

Lemma applyTx_alone block tx w :
  run (applyTx_t deliver block tx) w = applyTx (mkExecutor globalRegistry em) block tx w.
Proof.
  unfold applyTx_t, applyTx. apply run_bind_as; [apply charge_alone|]. intros _ w1. unfold reg_Execute.
  cbn [ex_registry ex_emitter]. pose proof (handlers_alone (tx_Type tx)) as H.
  destruct (handlers_t deliver !! tx_Type tx), (reg_handlers _ !! tx_Type tx); done.
Qed.

Lemma ExecuteBlock_alone block w :
  run (ExecuteBlock_t deliver block) w = ExecuteBlock (mkExecutor globalRegistry em) block w.
Proof.
  apply run_each. intros q w1. apply run_bind_as; [done|]. intros tx w2. apply wrap_alone.
  unfold ExecuteTx_t, ExecuteTx. do 2 (apply run_bind_as; [repeat alone_step|intros ? ?]).
  apply run_bind_as; [apply attempt_alone, applyTx_alone|]. intros [[]|err|msg] w3; [apply Hdeliver| |done].
  apply run_bind_as; [repeat alone_step|]. by intros [| |] ?.
Qed.
End HandlersAlone.

Section IndexerAlone.
Context {D : Type} `{HD : DB D}.
Implicit Types (n : Node D) (ev : Event).

(** A thread of the indexer on the node, against the computation on its store. *)
Definition indexes {A} (t : thread (Node D) A) (m : M D A) : Prop := ∀ n, run t n = on_db m n.

Lemma on_db_bind {A B} (m : M D A) (f : A → M D B) n : on_db (m ≫= f) n = (on_db m ≫= λ a, on_db (f a)) n.
Proof.
  unfold on_db, on_part, mbind, M_bind. destruct (m (nd_db n)) as [d [a| |]]; [|done..].
  change (nd_db (set_nd_db d n)) with d. by destruct (f a d).
Qed.

Lemma indexes_bind {A B} (t : thread (Node D) A) f (m : M D A) (g : A → M D B) :
  indexes t m → (∀ a, indexes (f a) (g a)) → indexes (t ≫= f) (m ≫= g).
Proof. intros Ht Hf n. rewrite on_db_bind. by apply run_bind_as. Qed.

Lemma indexes_act {A} (m : M D A) : indexes (act (on_db m)) m.
Proof. intros n. apply run_act. Qed.

Lemma indexes_ret {A} (a : A) : indexes (mret a) (mret a).
Proof. by intros [[] ? ? ? ?]. Qed.

Lemma indexes_wrap {A} msg (t : thread (Node D) A) m : indexes t m → indexes (wrap_t msg t) (wrap msg m).
Proof.
  intros Ht n. rewrite (wrap_alone _ _ _ n (Ht n)). unfold wrap, on_db, on_part. by destruct (m (nd_db n)).
Qed.

Lemma indexes_logged {A} (t : thread (Node D) A) m : indexes t m → indexes (logged_t t) (logged m).
Proof.
  intros Ht n. rewrite (logged_alone _ _ n (Ht n)). unfold logged, on_db, on_part.
  by destruct (m (nd_db n)) as [d [| |]].
Qed.

Lemma indexes_each {X} (f : X → thread (Node D) unit) g l :
  (∀ x, indexes (f x) (g x)) → indexes (each f l) (for_each g l).
Proof.
  intros Hf. induction l as [|x l IH]; [apply indexes_ret|]. apply indexes_bind; [apply Hf|]. intros _. exact IH.
Qed.

Lemma getList_alone key : indexes (getList_t key) (idx_getList key).
Proof.
  intros n. unfold getList_t. rewrite run_bind. unfold mbind, M_bind. rewrite run_attempt. unfold attempt.
  rewrite run_act. unfold on_db, on_part, idx_getList. destruct (db_Get key (nd_db n)) as [d [|e|]]; [done| |done].
  simpl. by destruct (is_not_found e).
Qed.

Lemma addToList_alone key value : indexes (addToList_t key value) (idx_addToList key value).
Proof.
  apply indexes_bind; [apply indexes_wrap, getList_alone|]. intros ids. cbn zeta.
  case_bool_decide; [apply indexes_ret|apply indexes_act].
Qed.

Lemma removeFromList_alone key value : indexes (removeFromList_t key value) (idx_removeFromList key value).
Proof.
  apply indexes_bind; [apply indexes_wrap, getList_alone|]. intros [ids|]; [apply indexes_act|apply indexes_ret].
Qed.

Lemma subscribers_alone ev :
  indexes (onAssetMinted_t ev) (onAssetMinted ev) ∧ indexes (onAssetTransferred_t ev) (onAssetTransferred ev) ∧
  indexes (onAssetBurned_t ev) (onAssetBurned ev) ∧ indexes (onSessionOpen_t ev) (onSessionOpen ev).
Proof.
  split_and!; cbv beta delta [onAssetMinted_t onAssetMinted onAssetTransferred_t onAssetTransferred
    onAssetBurned_t onAssetBurned onSessionOpen_t onSessionOpen]; cbn zeta;
    (case_bool_decide; [apply indexes_ret|]);
    repeat first [apply indexes_bind; [|intros _] | apply indexes_logged | apply addToList_alone
      | apply removeFromList_alone | apply indexes_each; intros p; cbn zeta; case_bool_decide
      | apply indexes_ret].
Qed.

(** [Emit] on the emitter with the subscriptions of the indexer. *)
Lemma Emit_alone ev n : run (Emit_t ev) n = Emit (idx_New NewEmitter) ev n.
Proof.
  destruct (subscribers_alone ev) as (H1 & H2 & H3 & H4).
  assert (∀ h m, indexes h m →
    run (ignore h) n = for_each (λ g : EventHandler (Node D), recover (g ev)) [λ _, on_db m] n) as Hone.
  { intros h m H. rewrite (ignore_alone _ _ n (H n)). cbn. unfold recover. done. }
  unfold Emit_t, Emit, subscribers_t, idx_New, Subscribe. cbn [list_to_map foldr uncurry em_handlers NewEmitter].
  destruct (decide (ev_Type ev = EventAssetMinted)) as [->|N1]; [exact (Hone _ _ H1)|].
  destruct (decide (ev_Type ev = EventAssetTransfer)) as [->|N2]; [exact (Hone _ _ H2)|].
  destruct (decide (ev_Type ev = EventAssetBurned)) as [->|N3]; [exact (Hone _ _ H3)|].
  destruct (decide (ev_Type ev = EventSessionOpen)) as [->|N4]; [exact (Hone _ _ H4)|].
  by rewrite !lookup_insert_ne, !lookup_empty by (done || congruence).
Qed.
End IndexerAlone.

(** ** Safety *)

Section Safety.
Context `{C : Crypto, F : FloatFmt, FL : !FloatLaws, O : MapOrder}.
Context {D : Type} `{HD : DB D, HDR : DBRep D, HDL : !DBLaws D}.
Implicit Types (n : Node D) (ev : Event).

(** An invariant of the node that allows what the state operations and the
    indexer do: it speaks of the buffer only through [st_inv]. *)
Context (I : list Block → Node D → Prop) (bad : list Block → Prop).
Hypothesis I_state : ∀ log n, I log n → st_inv n.
Hypothesis I_frame : ∀ log n n', st_inv n' → same_frame n n' → I log n → I log n'.
Abbreviation safely := (safe I bad).

(** An operation of the state gives what its refinement promises, whatever the
    other goroutines did to the state before. *)
Lemma safe_op {A} (Q : A → Prop) (m : M (Node D) A) ma :
  refines Q m ma → (∀ n0, keeps (same_frame n0) m) → safely Q (act m).
Proof.
  intros Hr Hk. apply safe_act. intros log n Hn. pose proof (Hk n n (same_frame_refl n)) as Hf.
  destruct (m n) as [n' o] eqn:E. destruct (Hr _ _ _ (I_state _ _ Hn) E) as (Hi & _ & _ & Ho).
  split; [by eapply I_frame|]. intros a Ha. destruct Ho as [(_ & HQ & _)|(_ & e & -> & _)]; [by apply HQ|done].
Qed.

Lemma safe_key msg s : safely (λ pub, PubKeyFromHex s = Ret pub) (key_t msg s).
Proof. by apply safe_wrap, safe_done. Qed.

Lemma safe_decode {A} msg (dec : A → jv → option A) zero payload (P : A → Prop) :
  (∀ v x, dec zero v = Some x → P x) → safely P (decode_t msg dec zero payload).
Proof.
  intros HP. apply safe_done. intros a. unfold of_option, Unmarshal.
  destruct (parse payload) as [v|]; [|done]. simpl. destruct (dec zero v) eqn:E; [|done].
  intros [= <-]. eauto.
Qed.

(** *** The indexer *)

Lemma safe_index (m : M D unit) : index_only m → safely (λ _, True) (act (on_db m)).
Proof.
  intros Hm. apply safe_act. intros log n Hn. split; [|done].
  destruct (index_only_silent m n Hm (I_state _ _ Hn)) as (Hi & _). eapply I_frame; [exact Hi| |exact Hn].
  destruct (Hm (nd_db n)) as [Hk _]. unfold on_db, on_part. destruct (m (nd_db n)) as [d o].
  split_and!; try done.
Qed.

Lemma safe_getList key : safely (λ _, True) (getList_t key).
Proof.
  eapply safe_bind; [apply safe_attempt, (safe_act _ _ (λ _, True))|by intros [| |] _].
  intros log n Hn. split; [|done]. unfold on_db, on_part.
  assert ((db_Get key (nd_db n)).1 = nd_db n) as E by (destruct (Get_law key (nd_db n)) as [->|(_ & e & -> & _)]; done).
  destruct (db_Get key (nd_db n)) as [d o]. simpl in *. subst d. by destruct n as [[] ? ? ? ?].
Qed.

Lemma safe_addToList key value : is_index_key key = true → safely (λ _, True) (addToList_t key value).
Proof.
  intros Hk. eapply safe_bind; [apply safe_wrap, safe_getList|]. intros ids _. cbn zeta.
  case_bool_decide; [by apply safe_ret|]. by apply safe_index, touches_Set.
Qed.

Lemma safe_removeFromList key value : is_index_key key = true → safely (λ _, True) (removeFromList_t key value).
Proof.
  intros Hk. eapply safe_bind; [apply safe_wrap, safe_getList|].
  intros [ids|] _; [by apply safe_index, touches_Set|by apply safe_ret].
Qed.

Lemma index_keys k : is_index_key (prefixOwnerAssets +:+ k) = true ∧ is_index_key (prefixPlayerSession +:+ k) = true.
Proof. unfold is_index_key. rewrite !own_prefix. by rewrite orb_true_r. Qed.

Lemma safe_subscribers ev :
  safely (λ _, True) (onAssetMinted_t ev) ∧ safely (λ _, True) (onAssetTransferred_t ev) ∧
  safely (λ _, True) (onAssetBurned_t ev) ∧ safely (λ _, True) (onSessionOpen_t ev).
Proof.
  split_and!; cbv beta delta [onAssetMinted_t onAssetTransferred_t onAssetBurned_t onSessionOpen_t]; cbn zeta;
    (case_bool_decide; [by apply safe_ret|]);
    repeat first [eapply safe_bind; [|intros _ _] | eapply safe_logged | apply safe_addToList, index_keys
      | apply safe_removeFromList, index_keys | apply safe_each; intros p _; cbn zeta; case_bool_decide
      | by apply safe_ret].
Qed.

Lemma safe_Emit ev : safely (λ _, True) (Emit_t ev).
Proof.
  destruct (safe_subscribers ev) as (H1 & H2 & H3 & H4). unfold Emit_t.
  destruct (subscribers_t !! ev_Type ev) as [h|] eqn:E; [|by apply safe_ret]. apply (safe_ignore _ _ (λ _, True)).
  apply elem_of_list_to_map_2 in E. repeat (apply elem_of_cons in E as [[= _ ->]|E]; [done|]). by apply elem_of_nil in E.
Qed.

(** *** The handlers *)

#[local] Ltac keeps_op :=
  intros n0; pose proof (keeps_state_ops (same_frame n0) (framed_same_frame n0)); destruct_and!; done.
#[local] Ltac safe_call L := eapply safe_op; [eapply L; try typeclasses eauto|keeps_op].

(** Follows a handler; goals on the arguments of the state operations remain. *)
#[local] Ltac safe_step :=
  match goal with
  | |- safe _ _ _ (_ ≫= _) => eapply safe_bind; [|intros ? ?]
  | |- safe _ _ _ (mret _) => apply safe_ret; exact Logic.I
  | |- safe _ _ _ (wrap_t _ _) => apply safe_wrap
  | |- safe _ _ _ (reject_t _ _) => apply safe_reject || (eapply safe_weaken, safe_reject; done)
  | |- safe _ _ _ (key_t _ _) => apply safe_key
  | |- safe _ _ _ (expect_absent_t _ _ _) => eapply safe_expect_absent
  | |- safe _ _ _ (each _ _) => apply safe_each; intros ? ?
  | |- safe _ _ _ (emit_t _ _ _ _) => apply safe_Emit
  | |- safe _ _ _ (act (GetAccount _)) => safe_call GetAccount_ref
  | |- safe _ _ _ (act (SetAccount _)) => safe_call SetAccount_ref
  | |- safe _ _ _ (act (GetAsset _)) => safe_call GetAsset_ref
  | |- safe _ _ _ (act (SetAsset _)) => safe_call SetAsset_ref
  | |- safe _ _ _ (act (DeleteAsset _)) => safe_call DeleteAsset_ref
  | |- safe _ _ _ (act (GetTemplate _)) => safe_call GetTemplate_ref
  | |- safe _ _ _ (act (SetTemplate _)) => safe_call SetTemplate_ref
  | |- safe _ _ _ (act (GetSession _)) => safe_call GetSession_ref
  | |- safe _ _ _ (act (SetSession _)) => safe_call SetSession_ref
  | |- safe _ _ _ (act (GetListing _)) => safe_call GetListing_ref
  | |- safe _ _ _ (act (SetListing _)) => safe_call SetListing_ref
  | |- safe _ _ _ (if ?b then _ else _) => let E := fresh in destruct b eqn:E
  | |- safe _ _ _ (let _ := _ in _) => cbv zeta
  end.
#[local] Ltac safe_handler := repeat safe_step.

Lemma safe_charge block tx :
  valid_utf8 (tx_From tx) = true → valid_utf8 (hdr_Proposer (blk_Header block)) = true →
  safely (λ _, True) (charge_t block tx).
Proof. intros Hf Hp. unfold charge_t. safe_handler. all: solve_valid_arg; case_match; solve_valid_arg. Qed.

(** A handler in a context whose times and addresses are valid. *)
Definition safe_for (t : ThreadHandler (Node D)) : Prop := ∀ ctx payload,
  ctx_ok ctx → safely (λ _, True) (t ctx payload).

#[local] Ltac start dec := intros ctx payload [Hf Ht]; eapply safe_bind; [apply safe_decode, dec|].

Lemma safe_handleTransfer : safe_for (handleTransfer_t Emit_t).
Proof. start TransferPayload_dec_valid. intros p [Hto Ham]. safe_handler. all: solve_valid_arg. Qed.

Lemma safe_handleMintAsset : safe_for (handleMintAsset_t Emit_t).
Proof.
  start MintAssetPayload_dec_valid. intros p (Hto & Ho & Hp). do 2 (safe_step; [safe_handler|]).
  eapply (safe_bind _ _ (λ o, valid_utf8 o = true)); [|intros o Hvo; safe_handler; solve_valid_arg].
  destruct (bool_decide (mp_Owner p = _)); [by apply safe_ret|]. safe_step; [safe_handler|]. by apply safe_ret.
Qed.

Lemma safe_handleBurnAsset : safe_for (handleBurnAsset_t Emit_t).
Proof. start BurnAssetPayload_dec_valid. intros p Hp. safe_handler. Qed.

Lemma safe_handleTransferAsset : safe_for (handleTransferAsset_t Emit_t).
Proof. start TransferAssetPayload_dec_valid. intros p [Hp Hto]. safe_handler. solve_valid_arg. Qed.

Lemma safe_handleRegisterTemplate : safe_for (handleRegisterTemplate_t Emit_t).
Proof. start RegisterTemplatePayload_dec_valid. intros p (Hi & Hn & Hp). safe_handler. solve_valid_arg. Qed.

Lemma safe_handleListMarket : safe_for (handleListMarket_t Emit_t).
Proof. start ListMarketPayload_dec_valid. intros p [Hp Hpr]. safe_handler. all: solve_valid_arg. Qed.

Lemma safe_handleBuyMarket : safe_for (handleBuyMarket_t Emit_t).
Proof. start BuyMarketPayload_dec_valid. intros p Hp. safe_handler. all: solve_valid_arg. Qed.

Lemma safe_handleSessionOpen : safe_for (handleSessionOpen_t Emit_t).
Proof.
  start SessionOpenPayload_dec_valid. intros p (Hi & Hg & Hp & Hst). pose proof Hp as Hp'. rewrite Forall_forall in Hp'.
  unfold lock_stake_t. safe_handler. all: solve_valid_arg; try done.
Qed.

Lemma safe_handleSessionResult : safe_for (handleSessionResult_t Emit_t).
Proof.
  start SessionResultPayload_dec_valid. intros p (Hi & Ho). unfold pay_reward_t.
  assert (∀ k x, x ∈ range k (default ∅ (sr_Outcome p)) → valid_utf8 x.1 = true) as Hk.
  { intros k [a z]. rewrite range_perm, elem_of_map_to_list. intros E.
    destruct (sr_Outcome p); [by apply (Ho _ _ E)|done]. }
  safe_handler. all: try by apply (safe_done _ _ (λ _, True)). all: solve_valid_arg; done.
Qed.

(** *** The executor *)

Lemma safe_handlers typ t : handlers_t Emit_t !! typ = Some t → safe_for t.
Proof.
  intros E%elem_of_list_to_map_2.
  repeat (apply elem_of_cons in E as [[= _ ->]|E];
    [first [exact safe_handleMintAsset | exact safe_handleBurnAsset | exact safe_handleTransferAsset
       | exact safe_handleRegisterTemplate | exact safe_handleTransfer | exact safe_handleListMarket
       | exact safe_handleBuyMarket | exact safe_handleSessionOpen | exact safe_handleSessionResult]|]).
  by apply elem_of_nil in E.
Qed.

Lemma safe_snapshot : safely (λ _, True) (act Snapshot).
Proof.
  apply safe_act. intros log n Hn. split; [|done].
  destruct (Snapshot_ref n (I_state _ _ Hn)) as (n' & E & Hi & _).
  pose proof (keeps_state_ops (same_frame n) (framed_same_frame n)) as K. destruct_and! K.
  assert (keeps (same_frame n) Snapshot) as Hk by done. specialize (Hk n (same_frame_refl n)).
  rewrite E in *. by eapply I_frame.
Qed.

Lemma safe_revert_call id : safely (λ _, True) (act (RevertToSnapshot id)).
Proof.
  apply safe_act. intros log n Hn. split; [|done].
  destruct (Revert_ref n id (I_state _ _ Hn)) as (n' & o & E & Hi & _).
  pose proof (keeps_state_ops (same_frame n) (framed_same_frame n)) as K. destruct_and! K.
  assert (keeps (same_frame n) (RevertToSnapshot id)) as Hk by done. specialize (Hk n (same_frame_refl n)).
  rewrite E in *. by eapply I_frame.
Qed.

Lemma safe_ExecuteTx block tx : block_ok block → safely (λ _, True) (ExecuteTx_t Emit_t block tx).
Proof.
  intros [Ht Hp]. unfold ExecuteTx_t.
  eapply safe_bind; [apply safe_wrap, (safe_done _ _ (λ _, tx_Verify tx = Ret tt)); by intros [] ?|].
  intros u HV. pose proof (tx_Verify_From_valid _ HV) as Hf.
  eapply safe_bind; [apply safe_wrap, safe_snapshot|]. intros id _.
  eapply safe_bind; [apply safe_attempt|].
  { eapply safe_bind; [by apply safe_charge|]. intros _ _.
    destruct (handlers_t Emit_t !! tx_Type tx) as [t|] eqn:E; [|by apply (safe_done _ _ (λ _, True))].
    by apply (safe_handlers _ _ E). }
  intros [[]|err|msg] _; [apply safe_Emit| |done].
  eapply safe_bind; [apply safe_attempt, safe_revert_call|]. by intros [| |] _.
Qed.

Lemma safe_ExecuteBlock block : block_ok block → safely (λ _, True) (ExecuteBlock_t Emit_t block).
Proof.
  intros Hb. apply safe_each. intros q _. eapply safe_bind; [by apply (safe_done _ _ (λ _, True))|].
  intros tx _. by apply safe_wrap, safe_ExecuteTx.
Qed.
End Safety.
