(* ===== verification/Threads.v ===== *)
(** * Goroutines

    The production loop ([src/consensus/poa.go]), the read loops that take in
    blocks ([src/network/sync.go]) and the goroutines that take in transactions
    run at the same time and share the state, the chain and the mempool, each of
    which has a lock of its own that a method holds while it runs.  Each is a
    [thread] with one action per call that takes a lock or goes to the store:
    others may run between any two state calls of a transaction handler, between
    the indexer's read of a list and its write, between execution, root,
    storing, commit and the mempool.  Run without interference a thread is the
    sequential computation of [Consensus] or [Sync]; under any schedule the chain
    stays linked and readable, and the pool and the state buffer well-formed; but
    two read loops that take in the same block can end the process. *)
From Stdlib Require Import Ascii Lia ZArith.
From stdpp Require Import base gmap strings list.
From S2P Require Import Prelude Crypto Json JsonFacts JsonParse JsonTyped Types Transaction Block.
From S2P Require Import State DB StateDB Events Vm Executor Ledger Mempool Blockchain Files Config Transit.
From S2P Require Import Node Frame Indexer Consensus Startup Peer Network Sync Thread ThreadVm.

(** ** The goroutines of a node *)

Section Goroutines.
Context `{C : Crypto, F : FloatFmt, O : MapOrder} {D : Type} `{HD : DB D}.
Implicit Types (p : PoA (Node D)) (s : Syncer D) (n : Node D).

Definition look {A} (f : Node D → outcome A) : thread (Node D) A := act (λ n, (n, f n)).

(** [ExecuteBlock] of the executor [main] sets up: the global registry, and an
    emitter to which the indexer is subscribed. *)
Definition execute_t (b : Block) : thread (Node D) unit := ExecuteBlock_t Emit_t b.

Definition add_t (b : Block) : thread (Node D) unit := Act (Some b) (on_chain (AddBlock b)) Done.

Definition commit_t : thread (Node D) unit :=
  o ← attempt_t (act Commit);
  match o with
  | Ret _ => mret tt
  | Fail _ => act (fatal "block stored but state commit failed")
  | Panic msg => Done (Panic msg)
  end.

Definition revert_t (id : Z) : thread (Node D) unit :=
  o ← attempt_t (act (RevertToSnapshot id));
  match o with
  | Ret _ => mret tt
  | Fail _ => act (fatal "revert failed")
  | Panic msg => Done (Panic msg)
  end.

(** [ProduceBlock]: height, pool and tip are read one after the other. *)
Definition seal_t p (now : Z) (txs : list Transaction) : thread (Node D) Block :=
  tip ← look (λ n, Ret (Tip (nd_chain n)));
  let '(prevHash, nextHeight) := next_position tip in
  block ← Done (NewBlock now (gen_ChainID (cfg_Genesis (poa_cfg p))) nextHeight prevHash
                  (PublicKey_Hex (poa_pubKey p)) (Some <$> txs));
  wrap_t "execute block" (execute_t block);;
  root ← look (λ n, Ret (ComputeRoot n));
  block ← Done (blk_Sign (poa_privKey p) (with_root block root));
  wrap_t "add block" (add_t block);;
  mret block.
Definition produce_t p (now : Z) : thread (Node D) Block :=
  mine ← look (IsProposer p);
  if mine : bool then
    txs ← look (λ n, Pending (block_limit p) (nd_pool n));
    block ← seal_t p now txs;
    commit_t;;
    Emit_t (commit_event block);;
    act (on_pool (Remove (tx_ID <$> txs)));;
    mret block
  else Done (Fail (EMsg "not the proposer for this round")).

(** [Run] *)
Definition tick_t p (now : Z) : thread (Node D) unit :=
  mine ← look (IsProposer p);
  if mine : bool then
    o ← attempt_t (produce_t p now);
    match o with Panic msg => Done (Panic msg) | _ => mret tt end
  else mret tt.
Definition run_t p (ticks : list Z) : thread (Node D) unit := each (tick_t p) ticks.

Definition store_t (id : Z) (b : Block) : thread (Node D) bool :=
  o ← attempt_t (add_t b);
  match o with
  | Ret _ => commit_t;; mret true
  | Fail _ => revert_t id;; mret true
  | Panic msg => Done (Panic msg)
  end.

(** The body of the loop of [handleBlocks], with the validator, the state and the
    executor [main] gives the syncer. *)
Definition sync_t p (now : Z) (pb : option Block) : thread (Node D) bool :=
  judged ← attempt_t (look (ValidateBlock p now pb));
  match judged with
  | Panic msg => Done (Panic msg)
  | Fail _ => _ ← Done (deref pb); mret false
  | Ret _ =>
      snap ← attempt_t (act Snapshot);
      b ← Done (deref pb);
      match snap with
      | Panic msg => Done (Panic msg)
      | Fail _ => mret true
      | Ret id =>
          o ← attempt_t (execute_t b);
          match o with
          | Panic msg => Done (Panic msg)
          | Fail _ => revert_t id;; mret true
          | Ret _ =>
              root ← look (λ n, Ret (ComputeRoot n));
              if bool_decide (hdr_StateRoot (blk_Header b) ≠ "" ∧ root ≠ hdr_StateRoot (blk_Header b))
              then revert_t id;; mret false
              else store_t id b
          end
      end
  end.

(** The loop, for blocks with the times they are judged at. *)
Fixpoint blocks_t p (l : list (Z * option Block)) : thread (Node D) bool :=
  match l with
  | [] => mret true
  | (now, pb) :: l => more ← sync_t p now pb; if more : bool then blocks_t p l else mret false
  end.

(** *** Alone, they are the sequential computations *)

Lemma look_alone {A B} (f : Node D → outcome A) (k : A → thread (Node D) B) n :
  run (look f ≫= k) n = match f n with Ret a => run (k a) n | Fail e => (n, Fail e) | Panic msg => (n, Panic msg) end.
Proof. rewrite run_bind. unfold mbind, M_bind, look. by rewrite run_act. Qed.

Lemma liftO_bind {A B} (o : outcome A) (f : A → M (Node D) B) n :
  (liftO o ≫= f) n = match o with Ret a => f a n | Fail e => (n, Fail e) | Panic msg => (n, Panic msg) end.
Proof. by destruct o. Qed.

Lemma commit_alone n : run commit_t n = commit_or_die n.
Proof.
  apply run_bind_as; [apply attempt_alone, run_act|]. intros [[]|e|msg] m; [done|apply run_act|done].
Qed.

Lemma revert_alone id n : run (revert_t id) n = revert_or_die id n.
Proof.
  apply run_bind_as; [apply attempt_alone, run_act|]. intros [[]|e|msg] m; [done|apply run_act|done].
Qed.

Lemma store_alone id b n : run (store_t id b) n = store_synced (Some id) b n.
Proof.
  apply run_bind_as; [apply attempt_alone, run_act|].
  intros [[]|e|msg] m; [..|done]; apply run_bind_as; try done; [apply commit_alone|apply revert_alone].
Qed.

Section Engine.
(** An engine as [main] builds it. *)
Context (p : PoA (Node D)).
Hypothesis Hexec : poa_exec p = mkExecutor globalRegistry (Some (poa_emitter p)).
Hypothesis Hsubs : poa_emitter p = idx_New NewEmitter.

Lemma execute_alone b n : run (execute_t b) n = ExecuteBlock (poa_exec p) b n.
Proof. rewrite Hexec. apply ExecuteBlock_alone. intros ev m. rewrite Hsubs. apply Emit_alone. Qed.

Lemma sync_alone now pb n : run (sync_t p now pb) n = sync_block (main_syncer p) now pb n.
Proof.
  unfold sync_t, sync_block. rewrite run_bind. unfold mbind at 1, M_bind at 1. rewrite run_attempt.
  unfold attempt. cbn [look act run sy_validator main_syncer].
  destruct (ValidateBlock p now pb n) as [[]|e|msg]; [|by destruct pb|done].
  cbn [applied_by sy_state sy_exec].
  apply run_bind_as; [apply attempt_alone, run_act|]. intros snap m. apply run_bind_as; [done|]. intros b m1.
  destruct snap as [id|e|msg]; [|done..]. apply run_bind_as; [apply attempt_alone, execute_alone|].
  intros [[]|e|msg] m2; [|apply run_bind_as; [apply revert_alone|done]|done].
  apply run_bind_as; [apply run_act|]. intros root m3. case_bool_decide; [|apply store_alone].
  apply run_bind_as; [apply revert_alone|done].
Qed.

Lemma seal_alone now txs n : run (seal_t p now txs) n = store_block p now txs n.
Proof.
  unfold seal_t, store_block. rewrite look_alone. destruct (next_position _) as [prevHash nextHeight].
  apply run_bind_as; [done|]. intros b m. apply run_bind_as; [apply wrap_alone, execute_alone|]. intros [] m1.
  apply run_bind_as; [apply run_act|]. intros root m2. apply run_bind_as; [done|]. intros b' m3.
  apply run_bind_as; [apply wrap_alone, run_act|done].
Qed.

Lemma produce_alone now n : run (produce_t p now) n = ProduceBlock p now n.
Proof.
  unfold produce_t, ProduceBlock. rewrite look_alone, liftO_bind.
  destruct (IsProposer p n) as [[]|e|msg]; [|done..]. erewrite bind_Ret by done.
  rewrite look_alone, liftO_bind.
  destruct (Pending _ _) as [txs|e|msg]; [|done..].
  apply run_bind_as; [apply seal_alone|]. intros b m. apply run_bind_as; [apply commit_alone|]. intros [] m1.
  apply run_bind_as; [rewrite Hsubs; apply Emit_alone|]. intros [] m2. apply run_bind_as; [apply run_act|done].
Qed.

Lemma tick_alone now n : run (tick_t p now) n = produce_tick p now n.
Proof.
  unfold tick_t, produce_tick. rewrite look_alone, liftO_bind.
  destruct (IsProposer p n) as [[]|e|msg]; [|done..]. rewrite run_bind. unfold mbind, M_bind.
  rewrite run_attempt. unfold attempt, logged. rewrite produce_alone.
  by destruct (ProduceBlock p now n) as [m [| |]].
Qed.
End Engine.
End Goroutines.

(** ** Schedules *)

(** The goroutines of a node, started with what they will be given: the ticks
    of the clock, the blocks of a message, a transaction. *)
Inductive goroutine : Type :=
| GoRun (ticks : list Z)
| GoBlocks (blocks : list (Z * option Block))
| GoAdd (now : Z) (tx : Transaction).

Section Schedules.
Context `{C : Crypto, F : FloatFmt, O : MapOrder} {D : Type} `{HD : DB D}.

Definition body (p : PoA (Node D)) (g : goroutine) : thread (Node D) unit :=
  match g with
  | GoRun ticks => ignore (run_t p ticks)
  | GoBlocks blocks => ignore (blocks_t p blocks)
  | GoAdd now tx => ignore (act (on_pool (Add now tx)))
  end.

(** The threads, the node they share, and the blocks they offered to it. *)
Record system : Type := mkSystem {
  sys_threads : list (thread (Node D) unit);
  sys_node : Node D;
  sys_offered : list Block
}.

(** One action of a thread; none once the process ended. *)
Definition turn (i : nat) (sys : system) : system :=
  if nd_exited (sys_node sys) then sys
  else match sys_threads sys !! i with
       | Some (Act offer m k) =>
           let '(n', o) := m (sys_node sys) in
           mkSystem (<[i := k o]> (sys_threads sys)) n' (sys_offered sys ++ option_list offer)
       | _ => sys
       end.

Definition schedule (turns : list nat) (sys : system) : system := foldl (λ sys i, turn i sys) sys turns.
End Schedules.
Arguments system D : clear implicits.

(** ** What no schedule breaks *)

Section Interleaved.
Context `{C : Crypto, F : FloatFmt, O : MapOrder} {D : Type} `{HD : DB D}.
Context (I : list Block → Node D → Prop) (bad : list Block → Prop).
Hypothesis bad_grows : ∀ log more, bad log → bad (log ++ more).

Definition fine (sys : system D) : Prop :=
  bad (sys_offered sys) ∨
  (I (sys_offered sys) (sys_node sys) ∧ Forall (safe I bad (λ _, True)) (sys_threads sys)).

Lemma turn_fine i sys : fine sys → fine (turn i sys).
Proof.
  unfold turn. destruct (nd_exited _); [done|]. destruct (sys_threads sys !! i) as [[o|X offer m k]|] eqn:E; [done| |done].
  intros [Hb|[HI Ht]].
  { left. destruct (m (sys_node sys)). by apply bad_grows. }
  pose proof (Forall_lookup_1 _ _ _ _ Ht E _ _ HI) as H. destruct (m (sys_node sys)) as [n' o].
  destruct H as [Hb|[HI' Hk]]; [by left|right]. split; [done|]. by apply Forall_insert.
Qed.

Lemma schedule_fine turns sys : fine sys → fine (schedule turns sys).
Proof. revert sys. induction turns as [|i turns IH]; intros sys Hs; [done|]. by apply IH, turn_fine. Qed.
End Interleaved.

Section Properties.
Context `{C : Crypto, CL : !CryptoLaws, F : FloatFmt, FL : !FloatLaws, O : MapOrder}.
Context {D : Type} `{HD : DB D, HDR : DBRep D, HDL : !DBLaws D}.
Implicit Types (p : PoA (Node D)) (n : Node D) (b : Block).

Section Node.
Context (base : list Block) (p : PoA (Node D)) (Hp : poa_ok p).

Definition kept (log : list Block) n : Prop :=
  ∃ chain, base `prefix_of` chain ∧ chain ⊆ base ++ log ∧ node_ok n chain.
Definition collided (log : list Block) : Prop := collision_in (header_text <$> base ++ log).
Abbreviation safely := (safe kept collided).

Lemma kept_frame log n n' : st_inv n' → same_frame n n' → kept log n → kept log n'.
Proof. intros Hi Hf (chain & H1 & H2 & H3). exists chain. split_and!; try done. by eapply node_ok_frame. Qed.

Lemma kept_state log n : kept log n → st_inv n.
Proof. by intros (chain & _ & _ & [H _ _ _]). Qed.

Lemma safe_look {A} (Q : A → Prop) (f : Node D → outcome A) :
  (∀ log n a, kept log n → f n = Ret a → Q a) → safely Q (look f).
Proof. intros Hf. apply safe_act. intros log n Hk. split; [done|]. intros a Ha. by eapply Hf. Qed.

Lemma safe_fatal {A} msg : safely (λ _ : A, True) (act (fatal msg)).
Proof.
  apply safe_act. intros log n (chain & H1 & H2 & [H3 H4 H5 H6]). split; [|done]. exists chain. by split_and!.
Qed.

Lemma safe_add b : good_block b → safely (λ _, True) (add_t b).
Proof.
  intros Hg log n (chain & H1 & H2 & [Hi Hc Hpl Hv]). cbn [option_list].
  destruct (on_chain (AddBlock b) n) as [n' o] eqn:E. simpl.
  destruct (on_chain_AddBlock _ _ _ _ Hi E) as (Hi' & _ & _). destruct (AddBlock_frame _ _ _ _ E) as (Gp & _).
  destruct (on_chain_AddBlock_ok _ _ _ _ _ Hc Hg E) as [(-> & _ & [Hc'|Hb])|(_ & Hc' & _)].
  - right. split; [|done]. exists (chain ++ [b]). split_and!; [by apply prefix_app_r|set_solver|].
    split; by rewrite ?Gp.
  - left. eapply collision_in_mono, Hb. unfold collided. rewrite !fmap_app. set_solver.
  - right. split; [|done]. exists chain. split_and!; [done|set_solver|]. split; by rewrite ?Gp.
Qed.

Lemma safe_commit : safely (λ _, True) commit_t.
Proof.
  eapply safe_bind; [apply safe_attempt, (safe_act _ _ (λ _, True))|].
  - intros log n (chain & H1 & H2 & [Hi Hc Hpl Hv]). split; [|done].
    destruct (Commit_ref n Hi) as (n' & o & E & Hi' & _). rewrite E.
    destruct (Commit_frame _ _ _ Hi E) as (Ht & Hh & Hpool & _ & Hk & _). exists chain. split_and!; try done.
    cbn [fst]. split; rewrite ?Hpool; try done. apply (bc_ok_ext n); [done|done| |done]. by apply state_keys_not_chain.
  - intros [[]|e|msg] _; [by apply safe_ret|apply safe_fatal|done].
Qed.

Lemma safe_revert id : safely (λ _, True) (revert_t id).
Proof.
  eapply safe_bind; [apply safe_attempt, safe_revert_call; [exact kept_state|exact kept_frame]|].
  intros [[]|e|msg] _; [by apply safe_ret|apply safe_fatal|done].
Qed.

Lemma safe_execute b : block_ok b → safely (λ _, True) (execute_t b).
Proof. apply safe_ExecuteBlock; [exact kept_state|exact kept_frame]. Qed.

(** Actions on the mempool. *)
Lemma safe_pool {A} (m : M Mempool A) :
  (∀ pool, mp_ok pool → map_Forall (λ _ tx, valid_Transaction tx) (mp_txs pool) →
     mp_ok (m pool).1 ∧ map_Forall (λ _ tx, valid_Transaction tx) (mp_txs (m pool).1)) →
  safely (λ _, True) (act (on_pool m)).
Proof.
  intros Hm. apply safe_act. intros log n (chain & H1 & H2 & [Hi Hc Hpl Hv]). split; [|done].
  exists chain. split_and!; try done. unfold on_pool, on_part. destruct (Hm _ Hpl Hv) as [H3 H4].
  by destruct (m (nd_pool n)) as [pool o].
Qed.

(** *** Whole goroutines *)

(** A tip some node had. *)
Definition tip_of (tip : option Block) : Prop := ∃ n chain, bc_ok (nd_chain n) chain ∧ nd_tip n = tip.

Lemma safe_seal now txs : is_i64 now → Forall sound_tx txs → safely (λ _, True) (seal_t p now txs).
Proof.
  intros Hnow Hs. eapply safe_bind; [apply (safe_look tip_of)|].
  { intros log n tip (chain & _ & _ & [_ Hc _ _]) [= <-]. by exists n, chain. }
  intros tip (n & chain & Hc & <-).
  assert (∃ prev h, next_position (nd_tip n) = (prev, h) ∧
    NewBlock now (gen_ChainID (cfg_Genesis (poa_cfg p))) h prev (PublicKey_Hex (poa_pubKey p)) (Some <$> txs) =
    Ret (next_block p now txs n)) as (prev & h & -> & Eb).
  { unfold next_block. destruct (next_position (nd_tip n)) as [prev h]. exists prev, h. split; [done|].
    unfold NewBlock. by rewrite ComputeTxRoot_Some. }
  rewrite Eb. eapply safe_bind; [apply (safe_done _ _ (λ b, b = next_block p now txs n)); by intros b [= <-]|].
  intros b0 ->. eapply safe_bind; [by apply safe_wrap, safe_execute, next_block_ok|]. intros _ _.
  eapply safe_bind; [apply (safe_look (λ root, valid_utf8 root = true)); intros ? ? ? _ [= <-]; apply ComputeRoot_valid|].
  intros root Hroot. destruct (blk_Sign_sealed p (next_block p now txs n) root Hp) as (b & -> & Hb).
  eapply safe_bind; [apply (safe_done _ _ (λ x, x = b)); by intros x [= <-]|]. intros x ->.
  eapply safe_bind; [apply safe_wrap, safe_add; exact (sealed_good p now txs n chain b root Hp Hc Hnow Hs Hroot Hb)|]. intros _ _. by apply safe_ret.
Qed.

Lemma safe_run ticks : Forall is_i64 ticks → safely (λ _, True) (run_t p ticks).
Proof.
  intros Ht. apply safe_each. intros now Hnow. rewrite Forall_forall in Ht. specialize (Ht now Hnow).
  eapply safe_bind; [by apply (safe_look (λ _, True))|]. intros [] _; [|by apply safe_ret].
  eapply safe_bind; [apply safe_attempt, (safe_bind _ _ (λ _, True)); [by apply safe_look|]|by intros [| |] _].
  intros [] _; [|done]. eapply safe_bind; [apply (safe_look (Forall sound_tx))|].
  { intros log n txs (chain & _ & _ & Hok) E.
    destruct (Pending_sound n chain (block_limit p) Hok (block_limit_pos p)) as (txs' & E' & Hs).
    rewrite E in E'. by injection E' as ->. }
  intros txs Hs. eapply safe_bind; [by apply safe_seal|]. intros b _. eapply safe_bind; [apply safe_commit|]. intros _ _.
  eapply safe_bind; [apply safe_Emit; [exact kept_state|exact kept_frame]|]. intros _ _. eapply safe_bind; [|by intros _ _; apply (safe_ret _ _ (λ _, True))].
  apply safe_pool. intros pool H1 H2. split; [by eapply mp_ok_Remove|].
  intros id tx. simpl. rewrite foldl_delete_lookup. case_decide; [done|]. apply H2.
Qed.

Lemma safe_store id b : good_block b → safely (λ _, True) (store_t id b).
Proof.
  intros Hg. eapply safe_bind; [by apply safe_attempt, safe_add|].
  intros [[]|e|msg] _; [..|done]; (eapply safe_bind; [apply safe_commit || apply safe_revert|]); intros _ _;
    by apply safe_ret.
Qed.

Lemma safe_sync now pb : (∀ b, pb = Some b → valid_Block b) → safely (λ _, True) (sync_t p now pb).
Proof.
  intros Hv.
  assert (safely (λ o, ∀ a, o = Ret a → ∃ b, pb = Some b ∧ good_block b)
    (attempt_t (look (ValidateBlock p now pb)))) as Hj.
  { apply safe_attempt. apply (safe_look (λ _, ∃ b, pb = Some b ∧ good_block b)). intros log n [] _ E.
    destruct pb as [b|].
    - exists b. split; [done|]. split; [by apply Hv|]. by apply ValidateBlock_Ret in E as [? _].
    - exfalso. revert E. unfold ValidateBlock. by case_bool_decide. }
  eapply safe_bind; [exact Hj|]. intros [[]|e|msg] HQ; [|by destruct pb|done].
  destruct (HQ tt eq_refl) as (b & -> & Hg).
  eapply safe_bind; [apply safe_attempt, safe_snapshot; [exact kept_state|exact kept_frame]|].
  intros snap _. eapply safe_bind; [apply (safe_done _ _ (λ x, x = b)); by intros x [= <-]|]. intros x ->.
  destruct snap as [id|e|msg]; [|by apply safe_ret|done].
  eapply safe_bind; [apply safe_attempt, safe_execute, valid_block_ok; by apply Hv|].
  intros [[]|e|msg] _; [|eapply safe_bind; [apply safe_revert|by intros _ _; apply safe_ret]|done].
  eapply safe_bind; [by apply (safe_look (λ _, True))|]. intros root _. case_bool_decide; [|by apply safe_store].
  eapply safe_bind; [apply safe_revert|by intros _ _; apply safe_ret].
Qed.

Lemma safe_blocks l :
  Forall (λ q, ∀ b, q.2 = Some b → valid_Block b) l → safely (λ _, True) (blocks_t p l).
Proof.
  induction 1 as [|[now pb] l Hv _ IH]; [by apply safe_ret|]. cbn [blocks_t].
  eapply safe_bind; [by apply safe_sync|]. intros [] _; [exact IH|by apply safe_ret].
Qed.

Lemma safe_post now tx : valid_Transaction tx → safely (λ _, True) (act (on_pool (Add now tx))).
Proof.
  intros Ht. apply safe_pool. intros pool H1 H2. destruct (Add now tx pool) as [pool' o] eqn:E. cbn [fst].
  split; [by eapply mp_ok_Add|]. destruct o as [[]|e|msg].
  - apply Add_Ret_inv in E as (_ & _ & _ & _ & _ & ->). simpl. by apply map_Forall_insert_2.
  - by apply Add_error in E as ->.
  - by apply Add_error in E as ->.
Qed.

(** Times are those of a clock, blocks and transactions were read from JSON. *)
Definition goroutine_ok (g : goroutine) : Prop :=
  match g with
  | GoRun ticks => Forall is_i64 ticks
  | GoBlocks blocks => Forall (λ q, ∀ b, q.2 = Some b → valid_Block b) blocks
  | GoAdd _ tx => valid_Transaction tx
  end.

Lemma safe_body g : goroutine_ok g → safely (λ _, True) (body p g).
Proof.
  destruct g as [ticks|blocks|now tx]; cbn [body goroutine_ok]; intros Hg; apply (safe_ignore _ _ (λ _, True));
    [by apply safe_run|by apply safe_blocks|by apply safe_post].
Qed.

Lemma collided_grows log more : collided log → collided (log ++ more).
Proof. apply collision_in_mono. rewrite !fmap_app. set_solver. Qed.
End Node.

(** C4: however the production loop, the read loops that take in blocks and the
    goroutines that add transactions interleave, with others acting between any
    two calls that take a lock or go to the store (also in the middle of a
    transaction, or between the indexer's read of a list and its write), the
    chain the node had is kept and only extended by blocks they offered, it
    stays linked and readable under hashes and heights, and state buffer and
    mempool stay well-formed; or two of the headers involved are a SHA-256
    collision.  It does not say that the state is the one the chain leads to:
    interleaved executions of two blocks share one buffer. *)
Theorem interleaving_keeps_chain p n base gs turns :
  poa_ok p → node_ok n base → Forall goroutine_ok gs →
  let sys := schedule turns (mkSystem (body p <$> gs) n []) in
  (∃ chain, base `prefix_of` chain ∧ chain ⊆ base ++ sys_offered sys ∧ node_ok (sys_node sys) chain) ∨
  collision_in (header_text <$> base ++ sys_offered sys).
Proof.
  intros Hp Hn Hg. destruct (schedule_fine (kept base) (collided base) (collided_grows base p Hp) turns
    (mkSystem (body p <$> gs) n [])) as [Hb|[Hk _]]; [|by right|by left].
  right. split; [exists base; split_and!; try done; set_solver|]. simpl. apply Forall_fmap.
  eapply Forall_impl; [exact Hg|]. intros g. by apply safe_body.
Qed.

(** *** Two read loops and one block *)

(** The actions of the two, on the node they share: both are ready to store the
    block, one does, and the other has no snapshot left to go back to. *)
Lemma race_steps p n chain t b now1 now2 :
  poa_ok p → node_ok n chain → st_healthy n → nd_height n < max_int64 → nd_tip n = Some t →
  ValidateBlock p now1 (Some b) n = Ret tt → ValidateBlock p now2 (Some b) n = Ret tt →
  valid_Block b → blk_Transactions b = [] →
  (hdr_StateRoot (blk_Header b) = "" ∨ hdr_StateRoot (blk_Header b) = world_root (world_at n)) →
  ∃ n1 id1 n2 id2 n3 n4 n5 e5 n6 e6,
    (Snapshot n = (n1, Ret id1) ∧ ComputeRoot n1 = world_root (world_at n) ∧ ValidateBlock p now2 (Some b) n1 = Ret tt) ∧
    (Snapshot n1 = (n2, Ret id2) ∧ ComputeRoot n2 = world_root (world_at n)) ∧
    (on_chain (AddBlock b) n2 = (n3, Ret tt) ∧ Commit n3 = (n4, Ret tt)) ∧
    (on_chain (AddBlock b) n4 = (n5, Fail e5) ∧ RevertToSnapshot id2 n5 = (n6, Fail e6)) ∧
    Forall (λ m, nd_exited m = nd_exited n) [n1; n2; n3; n4; n5; n6].
Proof.
  intros Hp Hok Hh Hlt Et V1 V2 Hvb Htxs Hroot. pose proof (no_state _ _ Hok) as Hi.
  destruct (Snapshot_ref n Hi) as (n1 & E1 & Hi1 & Ha1 & Hh1). pose proof (Snapshot_frame _ _ _ E1) as Hf1.
  destruct (Snapshot_ref n1 Hi1) as (n2 & E2 & Hi2 & Ha2 & Hh2). pose proof (Snapshot_frame _ _ _ E2) as Hf2.
  pose proof (same_frame_trans _ _ _ Hf1 Hf2) as Hf. pose proof Hf as (Ft & Fh & _ & Fx & _).
  assert (world_at n1 = world_at n ∧ world_at n2 = world_at n) as [Hw1 Hw2].
  { unfold world_at. by rewrite Ha2, Ha1. }
  apply (ValidateBlock_spec _ _ _ _ _ Et) in V1 as [Hva _].
  destruct (next_height_links _ _ (no_chain _ _ Hok) Hlt t Et) as [Ehn Ex].
  assert (hdr_Height (blk_Header b) = nd_height n + 1) as Hhb by (rewrite (va_height _ _ _ Hva); lia).
  destruct (on_chain_AddBlock_run n2 b) as [n3 E3]; [exact (Hh2 (Hh1 Hh))| |by apply (marshal_sound b [])|].
  { unfold check_link. simpl. rewrite Ft, Fh, Et, Hhb, (va_prev _ _ _ Hva), Ehn, Ex.
    rewrite bool_decide_eq_false_2 by lia. by rewrite !bool_decide_eq_false_2 by (by intros []). }
  destruct (on_chain_AddBlock _ _ _ _ Hi2 E3) as (Hi3 & _ & Hh3). destruct (AddBlock_frame _ _ _ _ E3) as (_ & Gx & _).
  destruct (Commit_ref n3 Hi3) as (n4 & o4 & E4 & Hi4 & _ & Hr4).
  destruct Hr4 as [(-> & Hs4 & _)|[Hu _]]; [|by destruct Hu; auto].
  destruct (Commit_frame _ _ _ Hi3 E4) as (Kt & Kh & _ & Kx & _).
  destruct (on_chain (AddBlock b) n4) as [n5 o5] eqn:E5.
  assert (n5 = n4 ∧ ∃ e, o5 = Fail e) as [-> [e5 ->]].
  { assert (nd_tip n4 = Some b) as Etip by (rewrite Kt; by eapply AddBlock_tip).
    assert (nd_height n4 = hdr_Height (blk_Header b)) as Eht.
    { rewrite Kh. revert E3. unfold on_chain, on_part. destruct (AddBlock b (nd_chain n2)) as [bc o] eqn:E. intros [= <- ->].
      revert E. unfold AddBlock. by intros (? & ? & _ & (? & ? & _ & [= <-])%bind_Ret_inv)%bind_Ret_inv. }
    revert E5. unfold on_chain, on_part, AddBlock, check_link. simpl. rewrite Etip, Eht.
    rewrite bool_decide_eq_true_2 by lia. cbn. intros [= <- <-]. split; [by destruct n4 as [[] ? ? ? ?]|eauto]. }
  destruct (Revert_ref n4 (Z.of_nat (length (abs_snaps (st_abs n1)))) Hi4) as (n6 & o6 & E6 & _ & Ea & _).
  unfold abs_Revert in Ea. rewrite Hs4 in Ea. simpl in Ea. rewrite bool_decide_eq_true_2 in Ea by lia.
  pose proof (f_equal snd Ea) as Eo. simpl in Eo. subst o6. pose proof (Revert_frame _ _ _ _ E6) as (_ & _ & _ & Rx & _).
  destruct Hf1 as (F1t & _ & _ & F1x & _).
  exists n1, (Z.of_nat (length (abs_snaps (st_abs n)))), n2, (Z.of_nat (length (abs_snaps (st_abs n1)))), n3, n4, n4, e5, n6, (EMsg "invalid snapshot id").
  split_and!; try done.
  - rewrite Root_ref by auto. by fold (world_at n1); rewrite Hw1.
  - revert V2. unfold ValidateBlock, Tip. simpl. by rewrite F1t.
  - rewrite Root_ref by auto. by fold (world_at n2); rewrite Hw2.
  - repeat constructor; congruence.
Qed.

Lemma turn_act {B} i ts n log offer (m : M (Node D) B) k n' o :
  nd_exited n = false → ts !! i = Some (Act offer m k) → m n = (n', o) →
  turn i (mkSystem ts n log) = mkSystem (<[i := k o]> ts) n' (log ++ option_list offer).
Proof. intros Hx Hi Hm. unfold turn. cbn [sys_node sys_threads]. by rewrite Hx, Hi, Hm. Qed.

(** The actions of a read loop that takes in an empty block. *)
Lemma reader_actions p now b :
  blk_Transactions b = [] →
  ∃ k1 k2 k3 k4 k5 k6 k7,
    body p (GoBlocks [(now, Some b)]) = Act None (λ n, (n, ValidateBlock p now (Some b) n)) k1 ∧
    k1 (Ret tt) = Act None Snapshot k2 ∧
    (∀ id, k2 (Ret id) = Act None (λ n, (n, Ret (ComputeRoot n))) (k3 id)) ∧
    (∀ id root, hdr_StateRoot (blk_Header b) = "" ∨ hdr_StateRoot (blk_Header b) = root →
       k3 id (Ret root) = Act (Some b) (on_chain (AddBlock b)) (k4 id)) ∧
    (∀ id, k4 id (Ret tt) = Act None Commit (k5 id)) ∧
    (∀ id e, k4 id (Fail e) = Act None (RevertToSnapshot id) (k6 id)) ∧
    (∀ id e, k6 id (Fail e) = Act None (fatal (A := unit) "revert failed") (k7 id)).
Proof.
  destruct b as [h txs hash sig]. cbn [blk_Transactions]. intros ->. eexists _, _, _, _, _, _, _. split_and!.
  - reflexivity.
  - reflexivity.
  - intros id. reflexivity.
  - intros id root Hr. cbn [blk_Header] in *.
    assert (bool_decide (hdr_StateRoot h ≠ "" ∧ root ≠ hdr_StateRoot h) = false) as E
      by (apply bool_decide_eq_false_2; intros [? ?]; destruct Hr; congruence).
    cbn -[bool_decide on_chain AddBlock]. rewrite E. reflexivity.
  - intros id. reflexivity.
  - intros id e. reflexivity.
  - intros id e. reflexivity.
Qed.

#[local] Ltac take i := erewrite (turn_act i) by (done || eassumption || reflexivity); cbn [insert list_insert].

(** C24: two peers that answer with the same block can end the process: both read
    loops take a snapshot and execute the block; the first stores it and
    flushes the state, which discards all snapshots; the second, refused by the
    blockchain, cannot revert to its own, and calls [log.Fatalf]. *)
Theorem racing_readers_exit p n chain t b now1 now2 :
  poa_ok p → node_ok n chain → st_healthy n → nd_exited n = false → nd_height n < max_int64 → nd_tip n = Some t →
  ValidateBlock p now1 (Some b) n = Ret tt → ValidateBlock p now2 (Some b) n = Ret tt →
  valid_Block b → blk_Transactions b = [] →
  (hdr_StateRoot (blk_Header b) = "" ∨ hdr_StateRoot (blk_Header b) = world_root (world_at n)) →
  ∃ turns, nd_exited (sys_node (schedule turns
    (mkSystem (body p <$> [GoBlocks [(now1, Some b)]; GoBlocks [(now2, Some b)]]) n []))) = true.
Proof.
  intros Hp Hok Hh Hx Hlt Et V1 V2 Hvb Htxs Hroot.
  destruct (race_steps p n chain t b now1 now2 Hp Hok Hh Hlt Et V1 V2 Hvb Htxs Hroot)
    as (n1 & id1 & n2 & id2 & n3 & n4 & n5 & e5 & n6 & e6 & (S1 & R1 & W2) & (S2 & R2) & (A1 & K1) & (A2 & Rv) & HX).
  rewrite Hx in HX. rewrite !Forall_cons in HX. destruct HX as (X1 & X2 & X3 & X4 & X5 & X6 & _).
  exists [0; 0; 0; 1; 1; 1; 0; 0; 1; 1; 1]%nat.
  cbn [fmap list_fmap]. destruct (reader_actions p now1 b Htxs) as (k1 & k2 & k3 & k4 & k5 & k6 & k7 & -> & T1 & T2 & T3 & T4 & _).
  destruct (reader_actions p now2 b Htxs) as (l1 & l2 & l3 & l4 & l5 & l6 & l7 & -> & L1 & L2 & L3 & _ & L5 & L6).
  unfold schedule. cbn [foldl].
  take 0%nat. rewrite V1, T1. take 0%nat. rewrite T2. take 0%nat. rewrite R1, T3 by done.
  take 1%nat. rewrite W2, L1. take 1%nat. rewrite L2. take 1%nat. rewrite R2, L3 by done.
  take 0%nat. rewrite T4. take 0%nat.
  take 1%nat. rewrite L5. take 1%nat. rewrite L6. by take 1%nat.
Qed.
End Properties.
