(* ===== verification/Catchup.v ===== *)
(** * Two nodes that synchronise

    A follower and a leader, each a [Host] whose read loop runs the handlers
    [main] registers, exchange messages over one connection: the follower asks
    for the blocks after its tip, the leader answers, and so on until the
    follower is where the leader is. *)
From Stdlib Require Import Ascii Lia ZArith DecimalFacts DecimalString.
From stdpp Require Import base gmap strings list.
From S2P Require Import Prelude Crypto Json JsonFacts JsonParse JsonTyped Types Transaction Block.
From S2P Require Import State DB StateDB Events Vm Economy AssetModule Market SessionModule.
From S2P Require Import Executor Ledger Invariants Mempool Blockchain Config Transit Node Frame Indexer.
From S2P Require Import Consensus Peer Network Sync.

(** ** The size of a request *)

Lemma double_digits d :
  (Decimal.nb_digits (Decimal.Little.double d) ≤ S (Decimal.nb_digits d))%nat ∧
  (Decimal.nb_digits (Decimal.Little.succ_double d) ≤ S (Decimal.nb_digits d))%nat.
Proof. induction d; simpl in *; lia. Qed.

Lemma pos_digits p : (Decimal.nb_digits (Pos.to_uint p) ≤ Pos.to_nat (Pos.size p))%nat.
Proof.
  unfold Pos.to_uint. rewrite nb_digits_rev.
  induction p as [p IH|p IH|]; cbn [Pos.to_little_uint Pos.size]; [..|done].
  - pose proof (proj2 (double_digits (Pos.to_little_uint p))). rewrite Pos2Nat.inj_succ. lia.
  - pose proof (proj1 (double_digits (Pos.to_little_uint p))). rewrite Pos2Nat.inj_succ. lia.
Qed.

Lemma string_of_uint_length u : String.length (NilEmpty.string_of_uint u) = Decimal.nb_digits u.
Proof. induction u; simpl; auto. Qed.

Lemma pos_size_i64 p : Z.pos p ≤ 9223372036854775808 → (Pos.size p ≤ 64)%positive.
Proof.
  intros H. destruct (Pos.leb_spec (Pos.size p) 64) as [|Hs]; [done|exfalso].
  pose proof (Pos.size_le p) as Hle. apply Pos2Z.pos_le_pos in Hle. rewrite Pos2Z.inj_pow in Hle.
  assert (2 ^ 65 ≤ 2 ^ Z.pos (Pos.size p)) by (apply Z.pow_le_mono_r; lia).
  assert (2 ^ 65 = 36893488147419103232) by done. lia.
Qed.

Lemma dec_of_Z_length z : is_i64 z → (String.length (dec_of_Z z) ≤ 66)%nat.
Proof.
  intros [H1 H2]. unfold min_int64, max_int64 in *. unfold dec_of_Z, Z.to_int.
  assert (∀ p, Z.pos p ≤ 9223372036854775808 →
    (String.length (NilZero.string_of_uint (Pos.to_uint p)) ≤ 65)%nat) as Hp.
  { intros p Hp%pos_size_i64. pose proof (pos_digits p) as Hd. pose proof (string_of_uint_length (Pos.to_uint p)) as Hl.
    assert (Pos.to_nat (Pos.size p) ≤ 64)%nat by lia.
    unfold NilZero.string_of_uint. destruct (Pos.to_uint p); [simpl; lia|rewrite Hl; lia..]. }
  destruct z as [|p|p]; simpl; [lia| |]; specialize (Hp p); lia.
Qed.

Definition request_text (z : Z) : string := message_text MsgGetBlocks (GetBlocksRequest_enc (mkGetBlocks z 50)).

Lemma request_size z : is_i64 z → zlen (request_text z) <= maxMessageSize.
Proof.
  intros Hz. pose proof (dec_of_Z_length z Hz) as Hl.
  unfold zlen, request_text, message_text, GetBlocksRequest_enc, enc_int.
  cbn [gr_FromHeight gr_Limit]. revert Hl. generalize (dec_of_Z z). intros d Hd.
  set (t0 := print (VObj [("type", enc_string MsgGetBlocks);
    ("payload", VObj [("from_height", VNum ""); ("limit", VNum (dec_of_Z 50))])])).
  assert (print (VObj [("type", enc_string MsgGetBlocks);
    ("payload", VObj [("from_height", VNum d); ("limit", VNum (dec_of_Z 50))])]) =
    string_take 46 t0 +:+ (((d +:+ string_take 11 (string_drop 46 t0)) +:+ String "}" "") +:+ String "}" ""))
    as -> by (vm_compute; reflexivity).
  rewrite !slength_app.
  assert (String.length (string_take 46 t0) = 46)%nat as -> by (vm_compute; reflexivity).
  assert (String.length (string_take 11 (string_drop 46 t0)) = 11)%nat as -> by (vm_compute; reflexivity).
  simpl. unfold maxMessageSize. lia.
Qed.

Lemma request_fields z : wf_jv (GetBlocksRequest_enc (mkGetBlocks z 50)) = true ∧ escaped (GetBlocksRequest_enc (mkGetBlocks z 50)).
Proof.
  split; [unfold GetBlocksRequest_enc; cbn [wf_jv forallb]; by rewrite !wf_enc_int|].
  unfold GetBlocksRequest_enc. solve_escaped.
Qed.

Lemma request_read z :
  is_i64 z → Unmarshal GetBlocksRequest_dec GetBlocksRequest_zero (msg_Payload (request_msg z)) = Some (mkGetBlocks z 50).
Proof.
  intros Hz. apply Unmarshal_print; [apply request_fields|]. unfold GetBlocksRequest_dec, dec_struct, GetBlocksRequest_enc.
  dec_field_step; [|rewrite dec_enc_i64 by done; simpl; reflexivity].
  dec_field_step; [|rewrite dec_enc_i64 by done; simpl; reflexivity]. reflexivity.
Qed.

(** ** One message on each side *)

Section Steps.
Context `{C : Crypto, CL : !CryptoLaws, F : FloatFmt, FL : !FloatLaws, O : MapOrder}.
Context {D : Type} `{HD : DB D, HDR : DBRep D, HDL : !DBLaws D}.
Implicit Types (p : PoA (Node D)) (n : Node D) (h f g : Host D).

Lemma main_handlers_lookup p :
  main_handlers p !! MsgGetBlocks = Some handleGetBlocks ∧
  main_handlers p !! MsgBlocks = Some (handleBlocks (main_syncer p)) ∧
  main_handlers p !! MsgHello = Some handleHello ∧ main_handlers p !! MsgTx = Some handleTx ∧
  main_handlers p !! MsgBlock = None.
Proof. by split_and!. Qed.

(** Sending over a live peer of a host. *)
Lemma send_on_peer h r q typ v :
  ht_conns h !! r = Some q → live q → wf_jv v = true → escaped v →
  on_peer r (Send (mkMessage typ (print v))) h =
  (set_ht_conns (<[r := wrote (frame (message_text typ v)) q]> (ht_conns h)) h, Ret tt).
Proof.
  intros Hq Hl Hw He. rewrite (on_peer_Some _ _ _ _ Hq).
  by rewrite (Send_run _ _ _ Hl (marshal_msg_self typ v Hw He)).
Qed.

Lemma logged_Ret {W A} (m : M W A) w w' a : m w = (w', Ret a) → logged m w = (w', Ret tt).
Proof. intros E. unfold logged. by rewrite E. Qed.

Lemma SyncWithPeer_run h r q :
  ht_conns h !! r = Some q → live q →
  SyncWithPeer r h =
  (set_ht_conns (<[r := wrote (frame (request_text (next_height h))) q]> (ht_conns h)) h, Ret tt).
Proof.
  intros Hq Hl. unfold SyncWithPeer. eapply logged_Ret. unfold RequestBlocks, request_msg.
  destruct (request_fields (next_height h)). by apply send_on_peer.
Qed.

(** The leader answers a request for what follows [t]. *)
Lemma serve_request p g r q pre t seg :
  bc_ok (nd_chain (ht_node g)) (pre ++ t :: seg) → st_healthy (ht_node g) →
  let z := hdr_Height (blk_Header t) + 1 in
  is_i64 z → z + 50 ≤ max_int64 →
  ht_conns g !! r = Some (incoming (frame (request_text z) +:+ "") q) → live q →
  ∃ bs v, Forall2 block_in_transit (take 50 seg) bs ∧ BlocksResponse_enc bs = Some v ∧ wf_jv v = true ∧ escaped v ∧
    read_step (main_handlers p) r g =
    (set_ht_conns (<[r := wrote (frame (message_text MsgBlocks v)) (incoming "" q)]> (ht_conns g)) g, Ret true).
Proof.
  intros Hok Hh z Hz Hmax Hq Hl.
  destruct (collect_next 50 (z + 50) (nd_chain (ht_node g)) pre t seg Hok Hh) as (bs & Ec & Ht); [done|lia|done|].
  change (hdr_Height (blk_Header t) + 1) with z in Ec.
  assert (∀ b, b ∈ take 50 seg → b ∈ pre ++ t :: seg) as Hsub.
  { intros b Hb. apply list_elem_of_lookup in Hb as [i [Hi _]%lookup_take_Some].
    apply list_elem_of_lookup_2 in Hi. apply elem_of_app. right. by apply elem_of_cons; right. }
  assert (∀ b, b ∈ pre ++ t :: seg → valid_Block b ∧ encodable b) as Hgood.
  { intros b Hb. split; [|by eapply encodable_stored; [apply Hok|]].
    pose proof (bco_good _ _ Hok) as Hg. rewrite Forall_forall in Hg. by apply Hg. }
  assert (Forall (λ b, valid_Block b ∧ encodable b) bs) as Hbs.
  { apply Forall_lookup_2. intros i b' Hi. destruct (Forall2_lookup_r _ _ _ _ _ Ht Hi) as (b & Hb & Htr).
    destruct (Hgood b) as [Hv He]; [by eapply Hsub, list_elem_of_lookup_2|].
    pose proof (bco_good _ _ Hok) as Hg. rewrite Forall_forall in Hg.
    split; [|by eapply encodable_transit]. eapply good_transit; [exact Htr|].
    by eapply Hg, Hsub, list_elem_of_lookup_2. }
  apply Forall_and in Hbs as [Hv He].
  destruct (BlocksResponse_transit bs Hv He) as (v & Ev & Hw & Hes & _).
  exists bs, v. split_and!; try done.
  destruct (request_fields z) as [Hwr Her].
  rewrite (read_step_message (main_handlers p) r g q MsgGetBlocks _ "" handleGetBlocks Hq Hl eq_refl Hwr Her
    (request_size z Hz) eq_refl).
  unfold mbind at 1, M_bind at 1. unfold handleGetBlocks.
  fold (request_msg z). rewrite (request_read z Hz). cbn [gr_FromHeight gr_Limit]. change (served_limit 50) with 50.
  rewrite addi64_exact by (unfold is_i64 in *; lia). change (Z.to_nat 50) with 50%nat.
  set (g1 := set_ht_conns _ g).
  assert (on_node (on_chain (collect_blocks 50 z (z + 50))) g1 = (g1, Ret bs)) as E1.
  { unfold on_node, on_chain, on_part. change (ht_node g1) with (ht_node g). rewrite Ec.
    unfold g1, set_ht_node, set_nd_chain, set_ht_conns, nd_chain, nd_db. simpl.
    by destruct g as [[[] ? ? ? ?] ? ? ? ?]. }
  erewrite bind_Ret by exact E1. rewrite Ev.
  assert (ht_conns g1 !! r = Some (incoming "" q)) as Hr.
  { unfold g1. simpl. apply list_lookup_insert_eq. by eapply lookup_lt_Some. }
  erewrite logged_Ret by (by apply send_on_peer). unfold g1. simpl. by rewrite list_insert_insert_eq.
Qed.
End Steps.

(** ** A stretch of chain *)

(** [t'] stands for [t]: the same header and hash. *)
Definition stands_for (t t' : Block) : Prop := blk_Hash t' = blk_Hash t ∧ blk_Header t' = blk_Header t.

Lemma transit_stands b b' : block_in_transit b b' → stands_for b b'.
Proof. intros [H1 H2 _ _]. done. Qed.

Lemma header_text_1 b b' : block_in_transit b b' → header_text b' = header_text b.
Proof. intros H. unfold header_text. by rewrite (bt_header _ _ H). Qed.

Lemma header_text_transit bs bs' : Forall2 block_in_transit bs bs' → header_text <$> bs' = header_text <$> bs.
Proof.
  induction 1 as [|b b' bs bs' Hb _ IH]; [done|]. rewrite !fmap_cons, IH. f_equal.
  unfold header_text. by rewrite (bt_header _ _ Hb).
Qed.

Section Following.
Context `{C : Crypto, CL : !CryptoLaws, F : FloatFmt, FL : !FloatLaws, O : MapOrder}.
Context {D : Type} `{HD : DB D, HDR : DBRep D, HDL : !DBLaws D}.
Implicit Types (p : PoA (Node D)) (n : Node D) (h f g : Host D).

Lemma certified_app p t w l b r w' :
  certified p t w (l ++ b :: r) w' → ∃ w1, certified p t w (l ++ [b]) w1 ∧ certified p b w1 r w'.
Proof.
  revert t w. induction l as [|x l IH]; intros t w H; simpl in *; inversion H; subst.
  - exists w1. split; [|done]. eapply cert_cons; eauto using cert_nil.
  - edestruct IH as (w2 & Ha & Hb); [done|]. exists w2. split; [by eapply cert_cons|done].
Qed.

(** A node at the tip [t], in the world [w]. *)
Record at_tip n chain (t : Block) (w : world) : Prop := {
  at_ok : node_ok n chain;
  at_healthy : st_healthy n;
  at_block : ∃ t', nd_tip n = Some t' ∧ stands_for t t';
  at_world : world_at n = w
}.

Lemma at_height n chain t w : at_tip n chain t w → nd_height n = hdr_Height (blk_Header t).
Proof.
  intros [Hok _ (t' & Et & _ & Eh) _]. destruct (no_chain _ _ Hok) as [_ _ _ Ht Hh]. simpl in *.
  rewrite Et in Ht. by rewrite (Hh t'), Eh.
Qed.

Lemma at_i64 n chain t w : at_tip n chain t w → is_i64 (hdr_Height (blk_Header t)).
Proof.
  intros [Hok _ (t' & Et & _ & <-) _]. destruct (no_chain _ _ Hok) as [_ _ Hg Ht _]. simpl in Ht.
  rewrite Et in Ht. symmetry in Ht. apply last_Some in Ht as [l ->]. apply Forall_app in Hg as [_ Hg].
  inversion Hg as [|?? [[Hv _] _] _]; subst. unfold valid_BlockHeader in Hv. by destruct_and!.
Qed.

Lemma default_last_cons {A} (t b : A) bs : default t (last (b :: bs)) = default b (last bs).
Proof. rewrite last_cons. by destruct (last bs). Qed.

Lemma certified_height p t w bs w' :
  certified p t w bs w' → is_i64 (hdr_Height (blk_Header t)) →
  hdr_Height (blk_Header t) + Z.of_nat (length bs) ≤ max_int64 →
  hdr_Height (blk_Header (default t (last bs))) = hdr_Height (blk_Header t) + Z.of_nat (length bs).
Proof.
  induction 1 as [t w|t w b bs w1 w' Hva _ _ _ IH]; intros Hti Hmax; [simpl; lia|].
  rewrite default_last_cons. change (length (b :: bs)) with (S (length bs)) in *.
  assert (hdr_Height (blk_Header b) = hdr_Height (blk_Header t) + 1) as Eb.
  { rewrite (va_height _ _ _ Hva). apply addi64_exact. unfold is_i64 in *. lia. }
  rewrite IH; rewrite Eb; unfold is_i64 in *; lia.
Qed.

(** The clock moved on by [k] readings. *)
Definition later (k : nat) (c : nat → Z) : nat → Z := λ i, c (k + i)%nat.

(** The blocks of one message. *)
Lemma sync_blocks_run p h chain t w bs bs' w' :
  poa_ok p → at_tip (ht_node h) chain t w → certified p t w bs w' →
  Forall2 block_in_transit bs bs' → Forall (λ b, valid_Block b ∧ encodable b) bs →
  (∀ b i, b ∈ bs → hdr_Timestamp (blk_Header b) ≤ addi64 (ht_clock h i) maxBlockTimeDrift) →
  hdr_Height (blk_Header t) + Z.of_nat (length bs) ≤ max_int64 →
  (∃ h', sync_blocks (main_syncer p) (Some <$> bs') h = (h', Ret true) ∧
     at_tip (ht_node h') (chain ++ bs') (default t (last bs)) w' ∧
     ht_conns h' = ht_conns h ∧ ht_peers h' = ht_peers h ∧ ∃ k, ht_clock h' = later k (ht_clock h)) ∨
  collision_in (header_text <$> chain ++ bs).
Proof.
  intros Hp Hat Hc Ht. revert h chain Hat bs' Ht.
  induction Hc as [t w|t w b bs w1 w' Hva Hrun Hroot Hc IH]; intros h chain Hat bs' Ht Hall Hclk Hmax.
  { apply Forall2_nil_inv_l in Ht as ->. left. exists h. rewrite app_nil_r.
    split_and!; try done. by exists 0%nat. }
  apply Forall2_cons_inv_l in Ht as (b' & bs'' & Htb & Ht & ->).
  apply Forall_cons in Hall as [[Hvb Heb] Hall]. cbn [fmap list_fmap].
  set (h0 := mkHost (ht_node h) (ht_conns h) (ht_peers h) (ht_stopped h) (λ i, ht_clock h (S i)) (ht_listener h)).
  pose proof (at_height _ _ _ _ Hat) as Hht. pose proof (at_i64 _ _ _ _ Hat) as Hti. destruct Hat as [Hok Hh (t' & Et & Eh & Ehd) Hw].
  destruct (sync_block_run p (ht_clock h 0%nat) b b' (ht_node h) chain t t' w1)
    as (n1 & E1 & Hw1 & Hacc); try done.
  { rewrite Hht. change (length (b :: bs)) with (S (length bs)) in Hmax. lia. }
  { apply Hclk. set_solver. }
  { by rewrite Hw. }
  destruct Hacc as (Htip & _ & _ & _ & Hhw & [Hok1|Hcol]).
  2: { right. eapply collision_in_mono; [|exact Hcol]. rewrite !fmap_app.
       intros x. rewrite !fmap_cons, (header_text_1 _ _ Htb). set_solver. }
  set (h1 := set_ht_node n1 h0).
  destruct (IH h1 (chain ++ [b'])) with (bs' := bs'') as [(h' & E & Hat' & Ec & Ep & k & Ek)|Hcol]; try done.
  - split; [done|by apply Hhw| |done]. exists b'. split; [done|by apply transit_stands].
  - intros x i Hx. apply (Hclk x (S i)). set_solver.
  - rewrite (va_height _ _ _ Hva). change (length (b :: bs)) with (S (length bs)) in Hmax.
    rewrite addi64_exact; [lia|]. unfold is_i64 in *. lia.
  - left. exists h'. split; [|split; [|split; [done|split; [done|]]]].
    + cbn [sync_blocks]. erewrite bind_Ret by reflexivity. fold h0.
      assert (on_node (sync_block (main_syncer p) (ht_clock h 0%nat) (Some b')) h0 = (h1, Ret true)) as E2.
      { unfold on_node, on_part. change (ht_node h0) with (ht_node h). by rewrite E1. }
      by erewrite bind_Ret by exact E2.
    + rewrite <- app_assoc in Hat'. by rewrite default_last_cons.
    + exists (S k). rewrite Ek. done.
  - right. rewrite <- app_assoc in Hcol. simpl in Hcol.
    by rewrite fmap_app, fmap_cons, (header_text_1 _ _ Htb), <- fmap_cons, <- fmap_app in Hcol.
Qed.
End Following.

(** ** A connection between two hosts *)

(** What one side wrote arrives at the other. *)
Definition drained (q : Peer) : Peer :=
  set_conn (mkConn (cn_in (peer_conn q)) "" (cn_broken (peer_conn q))) q.
Definition pump {D} (r1 : nat) (h1 : Host D) (r2 : nat) (h2 : Host D) : Host D * Host D :=
  match ht_conns h1 !! r1, ht_conns h2 !! r2 with
  | Some q1, Some q2 =>
      (set_ht_conns (<[r1 := drained q1]> (ht_conns h1)) h1,
       set_ht_conns (<[r2 := incoming (cn_in (peer_conn q2) +:+ cn_out (peer_conn q1)) q2]> (ht_conns h2)) h2)
  | _, _ => (h1, h2)
  end.

Definition idle (q : Peer) : Prop := live q ∧ cn_in (peer_conn q) = "" ∧ cn_out (peer_conn q) = "".

Lemma idle_shapes q s :
  idle q → drained (wrote s q) = q ∧ incoming "" q = q ∧ cn_out (peer_conn (wrote s q)) = s ∧
    cn_in (peer_conn q) = "".
Proof.
  destruct q as [id addr [i o br] cl]. intros [_ [Hi Ho]]. simpl in *. subst.
  unfold drained, wrote, incoming, set_conn. simpl. by rewrite sapp_nil_l.
Qed.

Lemma pump_run {D} r1 (h1 : Host D) r2 h2 q1 q2 s :
  idle q1 → idle q2 → ht_conns h1 !! r1 = Some (wrote s q1) → ht_conns h2 !! r2 = Some q2 →
  pump r1 h1 r2 h2 = (set_ht_conns (<[r1 := q1]> (ht_conns h1)) h1,
                      set_ht_conns (<[r2 := incoming s q2]> (ht_conns h2)) h2).
Proof.
  intros Hi1 Hi2 H1 H2. unfold pump. rewrite H1, H2.
  destruct (idle_shapes q1 s Hi1) as (-> & _ & -> & _). destruct (idle_shapes q2 s Hi2) as (_ & _ & _ & ->).
  by rewrite sapp_nil_l.
Qed.

Section Rounds.
Context `{C : Crypto, CL : !CryptoLaws, F : FloatFmt, FL : !FloatLaws, O : MapOrder}.
Context {D : Type} `{HD : DB D, HDR : DBRep D, HDL : !DBLaws D}.
Implicit Types (p : PoA (Node D)) (n : Node D) (h f g : Host D).

(** One request and its answer: [f] follows, [g] leads. *)
Definition round p pg rf rg (s : Host D * Host D) : Host D * Host D :=
  let '(f, g) := pump rf s.1 rg s.2 in
  let '(g, f) := pump rg (read_step (main_handlers pg) rg g).1 rf f in
  ((read_step (main_handlers p) rf f).1, g).

Definition request_after (t : Block) : string := frame (request_text (hdr_Height (blk_Header t) + 1)).

(** The follower takes in one response. *)
Lemma follow_response p f r q chain t w bs bs1 v w' :
  poa_ok p → at_tip (ht_node f) chain t w → certified p t w bs w' →
  Forall2 block_in_transit bs bs1 → Forall (λ b, valid_Block b ∧ encodable b) bs →
  (∀ b i, b ∈ bs → hdr_Timestamp (blk_Header b) ≤ addi64 (ht_clock f i) maxBlockTimeDrift) →
  hdr_Height (blk_Header t) + Z.of_nat (length bs) < max_int64 →
  BlocksResponse_enc bs1 = Some v → zlen (message_text MsgBlocks v) <= maxMessageSize →
  idle q → ht_conns f !! r = Some (incoming (frame (message_text MsgBlocks v) +:+ "") q) →
  (∃ f' bs', read_step (main_handlers p) r f = (f', Ret true) ∧
     Forall2 block_in_transit bs bs' ∧ at_tip (ht_node f') (chain ++ bs') (default t (last bs)) w' ∧
     ht_conns f' !! r =
       Some (if bool_decide (50 ≤ length bs)%nat then wrote (request_after (default t (last bs))) q else q) ∧
     ∃ k, ht_clock f' = later k (ht_clock f)) ∨
  collision_in (header_text <$> chain ++ bs).
Proof.
  intros Hp Hat Hc Ht1 Hall Hclk Hmax Ev Hsz Hi Hq.
  assert (Forall (λ b, valid_Block b ∧ encodable b) bs1) as [Hv1 He1]%Forall_and.
  { apply Forall_lookup_2. intros i b' Hb'. destruct (Forall2_lookup_r _ _ _ _ _ Ht1 Hb') as (b & Hb & Htr).
    destruct (proj1 (Forall_lookup _ _) Hall _ _ Hb) as [Hv He].
    split; [by eapply valid_transit|by eapply encodable_transit]. }
  destruct (BlocksResponse_transit bs1 Hv1 He1) as (v' & Ev' & Hw & Hes & bs' & Hdec & Ht2).
  rewrite Ev in Ev'. injection Ev' as <-.
  assert (Forall2 block_in_transit bs bs') as Ht by (by etrans).
  pose proof Hi as [Hl _].
  set (f1 := set_ht_conns (<[r := incoming "" q]> (ht_conns f)) f).
  destruct (sync_blocks_run p f1 chain t w bs bs' w') as [(f2 & E & Hat2 & Ec & _ & Hk)|]; try done; [lia| |by right].
  left. destruct (idle_shapes q "" Hi) as (_ & Hq0 & _).
  assert (ht_conns f2 !! r = Some q) as Hr2.
  { rewrite Ec. unfold f1. simpl. rewrite Hq0. apply list_lookup_insert_eq. by eapply lookup_lt_Some. }
  assert (length bs' = length bs) as Hlen by (symmetry; by eapply Forall2_length).
  set (last_b := default t (last bs)) in *.
  assert (next_height f2 = hdr_Height (blk_Header last_b) + 1) as Hnext.
  { unfold next_height. simpl. rewrite (at_height _ _ _ _ Hat2). apply addi64_exact.
    pose proof (at_i64 _ _ _ _ Hat) as Hti. unfold last_b. rewrite (certified_height _ _ _ _ _ Hc Hti) by lia.
    unfold is_i64 in *. lia. }
  set (f3 := if bool_decide (50 ≤ length bs)%nat
             then set_ht_conns (<[r := wrote (request_after last_b) q]> (ht_conns f2)) f2 else f2).
  exists f3, bs'. split; [|split; [done|split; [|split]]].
  - rewrite (read_step_message (main_handlers p) r f q MsgBlocks v "" (handleBlocks (main_syncer p)) Hq Hl eq_refl Hw Hes Hsz eq_refl).
    fold f1. assert (handleBlocks (main_syncer p) r (mkMessage MsgBlocks (print v)) f1 = (f3, Ret tt)) as E3.
    { unfold handleBlocks. cbn [msg_Payload]. rewrite Hdec. erewrite bind_Ret by exact E.
      rewrite length_fmap, Hlen, andb_true_l. unfold f3, request_after. rewrite <- Hnext.
      case_bool_decide; [|done]. by apply SyncWithPeer_run. }
    by erewrite bind_Ret by exact E3.
  - unfold f3. by destruct (bool_decide _).
  - unfold f3. case_bool_decide; [|done]. simpl. apply list_lookup_insert_eq. by eapply lookup_lt_Some.
  - unfold f3. by destruct (bool_decide _).
Qed.

(** Every response the leader can give to this stretch fits in a message. *)
Definition fits (seg : list Block) : Prop := ∀ i bs v,
  Forall2 block_in_transit (take 50 (drop i seg)) bs → BlocksResponse_enc bs = Some v →
  zlen (message_text MsgBlocks v) <= maxMessageSize.

Lemma fits_drop k seg : fits seg → fits (drop k seg).
Proof. intros H i bs v. rewrite drop_drop. apply H. Qed.

(** What the two hosts of the theorem below look like before a round. *)
Record ready rf rg qf qg f g chain pre t seg w : Prop := {
  rd_at : at_tip (ht_node f) chain t w;
  rd_chain : bc_ok (nd_chain (ht_node g)) (pre ++ t :: seg);
  rd_healthy : st_healthy (ht_node g);
  rd_request : ht_conns f !! rf = Some (wrote (request_after t) qf);
  rd_idle : ht_conns g !! rg = Some qg;
  rd_clock b i : b ∈ seg → hdr_Timestamp (blk_Header b) ≤ addi64 (ht_clock f i) maxBlockTimeDrift;
  rd_height : hdr_Height (blk_Header t) + Z.of_nat (length seg) + 51 ≤ max_int64;
  rd_fits : fits seg
}.

Lemma round_run p pg rf rg qf qg f g chain pre t seg w w1 :
  poa_ok p → idle qf → idle qg → ready rf rg qf qg f g chain pre t seg w →
  certified p t w (take 50 seg) w1 →
  (∃ f' g' bs', round p pg rf rg (f, g) = (f', g') ∧
     Forall2 block_in_transit (take 50 seg) bs' ∧
     at_tip (ht_node f') (chain ++ bs') (default t (last (take 50 seg))) w1 ∧
     ht_node g' = ht_node g ∧ ht_conns g' !! rg = Some qg ∧
     ht_conns f' !! rf = Some (if bool_decide (50 ≤ length seg)%nat
       then wrote (request_after (default t (last (take 50 seg)))) qf else qf) ∧
     ∃ k, ht_clock f' = later k (ht_clock f)) ∨
  collision_in (header_text <$> chain ++ take 50 seg).
Proof.
  intros Hp Hif Hig [Hat Hok Hh Hreq Hg Hclk Hmax Hfit] Hc. unfold round. cbn [fst snd].
  rewrite (pump_run rf f rg g qf qg (request_after t) Hif Hig Hreq Hg).
  set (f1 := set_ht_conns (<[rf := qf]> (ht_conns f)) f).
  set (g1 := set_ht_conns (<[rg := incoming (request_after t) qg]> (ht_conns g)) g).
  assert (ht_conns g1 !! rg = Some (incoming (frame (request_text (hdr_Height (blk_Header t) + 1)) +:+ "") qg)) as Hg1.
  { unfold g1, request_after. rewrite sapp_nil_r. simpl. apply list_lookup_insert_eq. by eapply lookup_lt_Some. }
  pose proof (at_i64 _ _ _ _ Hat) as Hti.
  destruct (serve_request pg g1 rg qg pre t seg Hok Hh) as (bs & v & Ht & Ev & Hwf & Hes & ->);
    [unfold is_i64 in *; lia|lia|done|apply Hig|].
  destruct (idle_shapes qg "" Hig) as (_ & Hqg & _). rewrite Hqg. cbn [fst].
  set (g2 := set_ht_conns _ g1).
  assert (ht_conns g2 !! rg = Some (wrote (frame (message_text MsgBlocks v)) qg)) as Hg2.
  { unfold g2. simpl. apply list_lookup_insert_eq. by eapply lookup_lt_Some. }
  assert (ht_conns f1 !! rf = Some qf) as Hf1.
  { unfold f1. simpl. apply list_lookup_insert_eq. by eapply lookup_lt_Some. }
  rewrite (pump_run rg g2 rf f1 qg qf _ Hig Hif Hg2 Hf1).
  set (f2 := set_ht_conns _ f1). set (g3 := set_ht_conns _ g2).
  destruct (follow_response p f2 rf qf chain t w (take 50 seg) bs v w1) as [(f3 & bs' & -> & H1 & H2 & H3 & H4)|];
    try done; [..|by right].
  - apply Forall_take. pose proof (bco_good _ _ Hok) as Hgood. apply Forall_app in Hgood as [_ Hgood].
    apply Forall_cons in Hgood as [_ Hgood]. apply Forall_forall. intros b Hb.
    rewrite Forall_forall in Hgood. split; [by apply Hgood|].
    eapply encodable_stored; [apply Hok|]. apply elem_of_app. right. by apply elem_of_cons; right.
  - intros b i Hb. apply Hclk. apply list_elem_of_lookup in Hb as [j [Hj _]%lookup_take_Some].
    by eapply list_elem_of_lookup_2.
  - rewrite length_take. lia.
  - by apply (Hfit 0%nat bs).
  - unfold f2. simpl. rewrite list_lookup_insert_eq by (by eapply lookup_lt_Some). by rewrite sapp_nil_r.
  - left. exists f3, g3, bs'. split_and!; try done.
    + unfold g3. simpl. apply list_lookup_insert_eq. by eapply lookup_lt_Some.
    + rewrite H3. f_equal. rewrite length_take.
      by rewrite (bool_decide_ext (50 ≤ 50 `min` length seg)%nat (50 ≤ length seg)%nat) by lia.
Qed.

Fixpoint rounds (k : nat) p pg rf rg (s : Host D * Host D) : Host D * Host D :=
  match k with 0%nat => s | S k => rounds k p pg rf rg (round p pg rf rg s) end.

Lemma catch_up_run k p pg rf rg qf qg f g chain pre t seg w w' :
  poa_ok p → idle qf → idle qg → ready rf rg qf qg f g chain pre t seg w → certified p t w seg w' →
  (length seg / 50 = k)%nat →
  (∃ f' g' bs', rounds (S k) p pg rf rg (f, g) = (f', g') ∧ Forall2 block_in_transit seg bs' ∧
     at_tip (ht_node f') (chain ++ bs') (default t (last seg)) w' ∧ ht_node g' = ht_node g ∧
     ht_conns f' !! rf = Some qf) ∨
  collision_in (header_text <$> chain ++ seg).
Proof.
  intros Hp Hif Hig. revert f g chain pre t seg w. induction k as [|k IH]; intros f g chain pre t seg w Hr Hc Hk.
  - assert (length seg < 50)%nat as Hlt by (by apply Nat.div_small_iff in Hk).
    assert (take 50 seg = seg) as Etk by (apply take_ge; lia).
    destruct (round_run p pg rf rg qf qg f g chain pre t seg w w') as [H|H]; rewrite ?Etk in *; try done; [|by right].
    left. destruct H as (f' & g' & bs' & E & H1 & H2 & H3 & _ & H5 & _). exists f', g', bs'.
    rewrite bool_decide_eq_false_2 in H5 by lia. split_and!; [by cbn [rounds]|done..].
  - assert (50 ≤ length seg)%nat as Hge.
    { destruct (decide (length seg < 50)%nat) as [Hs|]; [|lia]. apply Nat.div_small in Hs. lia. }
    assert (length (take 50 seg) = 50%nat) as Hl by (rewrite length_take; lia).
    assert (take 50 seg ≠ []) as Hne by (intros E; by rewrite E in Hl).
    destruct (exists_last Hne) as (l & b & El). set (rest := drop 50 seg).
    assert (seg = l ++ b :: rest) as Eseg.
    { rewrite <- (take_drop 50 seg) at 1. by rewrite El, <- app_assoc. }
    rewrite El in Hl.
    pose proof Hc as Hc0. rewrite Eseg in Hc0. apply certified_app in Hc0 as (w1 & Hc1 & Hc2).
    pose proof (round_run p pg rf rg qf qg f g chain pre t seg w w1 Hp Hif Hig Hr) as Hround. rewrite El in Hround.
    destruct (Hround Hc1) as [(f1 & g1 & bs1 & E1 & Ht1 & Hat1 & Hg1 & Hidle1 & Hreq1 & i & Hclk1)|Hcol]; clear Hround.
    2: { right. eapply collision_in_mono; [|exact Hcol]. rewrite Eseg. intros x. set_solver. }
    rewrite last_snoc in Hat1, Hreq1. simpl default in Hat1, Hreq1. rewrite bool_decide_eq_true_2 in Hreq1 by done.
    destruct Hr as [Hat Hok Hh _ _ Hclk Hmax Hfit]. pose proof (at_i64 _ _ _ _ Hat) as Hti.
    pose proof (certified_height _ _ _ _ _ Hc1 Hti) as Hhb. rewrite Hl, last_snoc in Hhb. simpl default in Hhb.
    assert (length rest = (length seg - 50)%nat) as Hrest by (unfold rest; by rewrite length_drop).
    destruct (IH f1 g1 (chain ++ bs1) (pre ++ t :: l) b rest w1) as [(f2 & g2 & bs2 & E2 & Ht2 & Hat2 & Hg2 & Hf2)|Hcol].
    + split; try done.
      * rewrite Hg1, <- app_assoc. simpl. by rewrite <- Eseg.
      * by rewrite Hg1.
      * intros x j Hx. rewrite Hclk1. apply Hclk. rewrite Eseg. set_solver.
      * rewrite Hhb by lia. lia.
      * by apply fits_drop.
    + done.
    + rewrite Hrest. replace (length seg) with (length seg - 50 + 1 * 50)%nat in Hk by lia.
      rewrite Nat.div_add in Hk by lia. lia.
    + left. exists f2, g2, (bs1 ++ bs2). rewrite app_assoc. split_and!; [| | |congruence|done].
      * rewrite <- E2. change (rounds (S k) p pg rf rg (round p pg rf rg (f, g)) = rounds (S k) p pg rf rg (f1, g1)).
        by rewrite E1.
      * rewrite Eseg, cons_middle, app_assoc. by apply Forall2_app.
      * rewrite Eseg, last_app_cons, default_last_cons. exact Hat2.
    + right. rewrite Eseg, cons_middle, app_assoc. rewrite !fmap_app in *. rewrite (header_text_transit _ _ Ht1) in Hcol.
      rewrite fmap_app in Hcol. rewrite <- !app_assoc in *. exact Hcol.
Qed.
End Rounds.

(** ** Properties *)

Section Properties.
Context `{C : Crypto, CL : !CryptoLaws, F : FloatFmt, FL : !FloatLaws, O : MapOrder}.
Context {D : Type} `{HD : DB D, HDR : DBRep D, HDL : !DBLaws D}.
Implicit Types (p : PoA (Node D)) (f g : Host D).

Lemma first_request f rf qf chain t w :
  at_tip (ht_node f) chain t w → hdr_Height (blk_Header t) < max_int64 →
  ht_conns f !! rf = Some qf → idle qf →
  let f1 := (SyncWithPeer rf f).1 in
  ht_node f1 = ht_node f ∧ ht_clock f1 = ht_clock f ∧ ht_conns f1 !! rf = Some (wrote (request_after t) qf).
Proof.
  intros Hat Hlt Hf [Hl _]. cbn zeta. rewrite (SyncWithPeer_run f rf qf Hf Hl). simpl. split; [done|]. split; [done|].
  rewrite list_lookup_insert_eq by (by eapply lookup_lt_Some). unfold request_after, next_height. simpl.
  rewrite (at_height _ _ _ _ Hat). pose proof (at_i64 _ _ _ _ Hat). rewrite addi64_exact; [done|].
  unfold is_i64 in *. lia.
Qed.

(** C3: synchronisation: a follower whose tip and world are those the leader
    had at some block [t] of its chain asks the leader for blocks and, fifty at
    a time, after exactly [n / 50 + 1] exchanges for the [n] blocks that follow
    [t], has the leader's tip, chain (payloads in stored form) and world, and
    sends no more requests; provided that each of those blocks is valid after
    the one before it, that its time is not ahead of the follower's clock, and
    that the answers fit in a message.  (Or two headers are a SHA-256
    collision.) *)
Theorem follower_catches_up p pg rf rg qf qg f g chain pre t seg w w' :
  poa_ok p → idle qf → idle qg → ht_conns f !! rf = Some qf → ht_conns g !! rg = Some qg →
  at_tip (ht_node f) chain t w → certified p t w seg w' →
  bc_ok (nd_chain (ht_node g)) (pre ++ t :: seg) → st_healthy (ht_node g) →
  (∀ b i, b ∈ seg → hdr_Timestamp (blk_Header b) ≤ addi64 (ht_clock f i) maxBlockTimeDrift) →
  hdr_Height (blk_Header t) + Z.of_nat (length seg) + 51 ≤ max_int64 → fits seg →
  (∃ f' g' bs', rounds (S (length seg / 50)) p pg rf rg ((SyncWithPeer rf f).1, g) = (f', g') ∧
     Forall2 block_in_transit seg bs' ∧ at_tip (ht_node f') (chain ++ bs') (default t (last seg)) w' ∧
     ht_node g' = ht_node g ∧ ht_conns f' !! rf = Some qf) ∨
  collision_in (header_text <$> chain ++ seg).
Proof.
  intros Hp Hif Hig Hf Hg Hat Hc Hok Hh Hclk Hmax Hfit.
  destruct (first_request f rf qf chain t w Hat) as (En & Ec & Er); [lia|done|done|].
  eapply catch_up_run; [done|exact Hif|exact Hig| |done|done].
  split; rewrite ?En, ?Ec; try done.
Qed.

(** A block that was produced leads from one world to the next. *)
Lemma produced_certified p now n chain n' b t p2 :
  poa_ok p → node_ok n chain → st_healthy n → is_i64 now → nd_height n < max_int64 →
  ProduceBlock p now n = (n', Ret b) → nd_tip n = Some t → hdr_Timestamp (blk_Header t) ≤ now →
  cfg_Validators (poa_cfg p2) = cfg_Validators (poa_cfg p) →
  gen_ChainID (cfg_Genesis (poa_cfg p2)) = gen_ChainID (cfg_Genesis (poa_cfg p)) →
  certified p2 t (world_at n) [b] (world_at n') ∧ st_healthy n' ∧ hdr_Timestamp (blk_Header b) = now ∧
  (node_ok n' (chain ++ [b]) ∨ collision_in (header_text <$> chain ++ [b])).
Proof.
  intros Hp Hok Hh Hnow Hlt E Et Hts Hv Hg.
  destruct (ProduceBlock_cases _ _ _ _ _ _ Hp Hok Hnow E) as [H|[H _]]; [|done].
  destruct H as (txs & b' & root & Hi & _ & [= <-] & Hs & Hsl & _ & _ & _ & _ & Hrun & Hok').
  destruct (Hrun Hh) as (Hh' & -> & Hr). destruct (sealed_valid_after p now txs n chain b (world_root (world_at n')) t p2) as [Hb Hva]; try done.
  split_and!; try done. eapply cert_cons; [by apply Hva| | |apply cert_nil].
  - rewrite (sl_txs _ _ _ _ Hsl), next_block_txs. by rewrite (run_txs_root _ _ _ _ _ (sl_header _ _ _ _ Hsl)).
  - right. by rewrite (sl_header _ _ _ _ Hsl).
Qed.

(** C2: replication: a block that the leader produces from its mempool reaches
    a follower that was at the leader's tip and world: after one exchange the
    follower has the block as its tip (payloads in stored form), and the
    leader's world.  (Or two headers are a SHA-256 collision.) *)
Theorem produced_block_replicates p pg now rf rg qf qg f g g' b chain pre t w :
  poa_ok p → poa_ok pg → idle qf → idle qg → ht_conns f !! rf = Some qf → ht_conns g !! rg = Some qg →
  cfg_Validators (poa_cfg p) = cfg_Validators (poa_cfg pg) →
  gen_ChainID (cfg_Genesis (poa_cfg p)) = gen_ChainID (cfg_Genesis (poa_cfg pg)) →
  at_tip (ht_node f) chain t w → at_tip (ht_node g) (pre ++ [t]) t w → nd_tip (ht_node g) = Some t →
  hdr_Height (blk_Header t) + 52 ≤ max_int64 → is_i64 now → hdr_Timestamp (blk_Header t) ≤ now →
  on_node (ProduceBlock pg now) g = (g', Ret b) →
  (∀ i, now ≤ addi64 (ht_clock f i) maxBlockTimeDrift) → fits [b] →
  (∃ f2 g2 b', round p pg rf rg ((SyncWithPeer rf f).1, g') = (f2, g2) ∧ block_in_transit b b' ∧
     at_tip (ht_node f2) (chain ++ [b']) b (world_at (ht_node g'))) ∨
  collision_in (header_text <$> pre ++ [t; b]) ∨ collision_in (header_text <$> chain ++ [b]).
Proof.
  intros Hp Hpg Hif Hig Hf Hg Hv Hci Hat Hatg Etip Hmax Hnow Hts E Hclk Hfit.
  revert E. unfold on_node, on_part. destruct (ProduceBlock pg now (ht_node g)) as [n' o] eqn:E. intros [= <- ->].
  pose proof (at_height _ _ _ _ Hatg) as Hhg. destruct Hatg as [Hok Hh _ Hw].
  destruct (produced_certified pg now (ht_node g) _ n' b t p Hpg Hok Hh Hnow) as (Hc & Hh' & Hbt & [Hok'|Hcol]);
    try done; [lia| |by right; left; rewrite <- app_assoc in Hcol].
  rewrite Hw in Hc. destruct (first_request f rf qf chain t w Hat) as (En & Ec & Er); [lia|done|done|].
  destruct (catch_up_run 0 p pg rf rg qf qg (SyncWithPeer rf f).1 (set_ht_node n' g) chain pre t [b] w (world_at n'))
    as [(f2 & g2 & bs' & E2 & Ht & Hat2 & _)|Hcol]; try done; [| |by right; right].
  - split; rewrite ?En, ?Ec; try done.
    + simpl. pose proof (no_chain _ _ Hok') as H. by rewrite <- app_assoc in H.
    + intros x i ->%list_elem_of_singleton. by rewrite Hbt.
    + simpl length. lia.
  - left. apply Forall2_cons_inv_l in Ht as (b' & ? & Hb' & ->%Forall2_nil_inv_l & ->).
    exists f2, g2, b'. split_and!; done.
Qed.
End Properties.
