(* ===== verification/Rpc.v ===== *)
(** * The JSON-RPC interface

    Models [src/rpc/types.go], [src/rpc/handler.go] and the request handling of
    [src/rpc/server.go].  The handler's pointers to the blockchain, the state,
    the mempool and the indexer are the parts of the [Node] its methods run on.
    A panic is left to [net/http], which drops the connection.  Writing the
    response is modelled in [Wire]; listening and timeouts are left out. *)
From Stdlib Require Import Ascii Lia ZArith.
From stdpp Require Import base gmap strings list.
From S2P Require Import Prelude Crypto Json JsonFacts JsonParse JsonTyped Types Transaction Block.
From S2P Require Import State DB StateDB Events Vm Executor Ledger Mempool Blockchain Transit Node Frame Indexer.

Record Request : Type := mkRequest {
  rq_JSONRPC : string;
  rq_ID : anyv;
  rq_Method : string;
  rq_Params : string
}.

(** What a method returns; nil is the absent result. *)
Inductive rpc_result : Type :=
| RHeight (z : Z)
| RBlock (b : Block)
| RBalance (address : string) (balance nonce : Z)
| RAsset (a : Asset)
| RSession (s : Session)
| RListing (l : MarketListing)
| RIDs (ids : option (list string))
| RTxID (id : string)
| RSize (z : Z).

Record Response : Type := mkResponse {
  rs_JSONRPC : string;
  rs_ID : anyv;
  rs_Result : option rpc_result;
  rs_Error : option (Z * error)
}.

Definition CodeParseError : Z := -32700.
Definition CodeInvalidRequest : Z := -32600.
Definition CodeMethodNotFound : Z := -32601.
Definition CodeInvalidParams : Z := -32602.
Definition CodeInternalError : Z := -32603.
Definition CodeUnauthorized : Z := -32000.

Definition errResponse (id : anyv) (code : Z) (e : error) : Response :=
  mkResponse "2.0" id None (Some (code, e)).
Definition okResponse (id : anyv) (result : option rpc_result) : Response :=
  mkResponse "2.0" id result None.

(** ** Parameters *)

Definition dec_one (name : string) : string → jv → option string := dec_struct [(name, dec_string)].

(** [Height *int64] *)
Definition dec_i64_ptr (old : option Z) (v : jv) : option (option Z) :=
  match v with VNull => Some None | _ => Some <$> dec_i64 (default 0 old) v end.
Definition getBlock_params : string * option Z → jv → option (string * option Z) := dec_struct [
  ("hash", λ q v, x ← dec_string q.1 v; Some (x, q.2));
  ("height", λ q v, x ← dec_i64_ptr q.2 v; Some (q.1, x))].

Section Rpc.
Context `{C : Crypto, F : FloatFmt, O : MapOrder} {D : Type} `{HD : DB D}.
Implicit Types (n : Node D) (req : Request).

(** [if err := json.Unmarshal(req.Params, &params); err != nil] *)
Definition with_params {A} (dec : A → jv → option A) (zero : A) req
    (k : A → M (Node D) Response) : M (Node D) Response :=
  match Unmarshal dec zero (rq_Params req) with
  | None => mret (errResponse (rq_ID req) CodeInvalidParams (EMsg "json"))
  | Some params => k params
  end.

(** [if err != nil] on the result of a lookup. *)
Definition reply {A} req (m : M (Node D) A) (f : A → option rpc_result) : M (Node D) Response :=
  o ← attempt m;
  match o with
  | Ret a => mret (okResponse (rq_ID req) (f a))
  | Fail e => mret (errResponse (rq_ID req) CodeInternalError e)
  | Panic msg => panic msg
  end.

(** A method with one string parameter, which must not be empty. *)
Definition by_key {A} (name msg : string) req (m : string → M (Node D) A)
    (f : string → A → option rpc_result) : M (Node D) Response :=
  with_params (dec_one name) "" req (λ x,
    if bool_decide (x = "") then mret (errResponse (rq_ID req) CodeInvalidParams (EMsg msg))
    else reply req (m x) (f x)).

Definition getBlock req : M (Node D) Response :=
  with_params getBlock_params ("", None) req (λ q,
    if bool_decide (q.1 ≠ "") then reply req (on_chain (bc_GetBlock q.1)) (λ b, Some (RBlock b))
    else match q.2 with
    | Some height => reply req (on_chain (bc_GetBlockByHeight height)) (λ b, Some (RBlock b))
    | None => λ n, (n, Ret (okResponse (rq_ID req) (RBlock <$> Tip (nd_chain n))))
    end).

Definition getBalance req : M (Node D) Response :=
  by_key "address" "address is required" req GetAccount
    (λ address acc, Some (RBalance address (acc_Balance acc) (acc_Nonce acc))).
Definition getAsset req : M (Node D) Response :=
  by_key "id" "id is required" req GetAsset (λ _ a, Some (RAsset a)).
Definition getSession req : M (Node D) Response :=
  by_key "id" "id is required" req GetSession (λ _ s, Some (RSession s)).
Definition getListing req : M (Node D) Response :=
  by_key "id" "id is required" req GetListing (λ _ l, Some (RListing l)).
Definition getAssetsByOwner req : M (Node D) Response :=
  by_key "owner" "owner is required" req (λ owner, on_db (GetAssetsByOwner owner)) (λ _ ids, Some (RIDs ids)).

Definition sendTx (chainID : string) (now : Z) req : M (Node D) Response :=
  with_params Transaction_dec Transaction_zero req (λ tx,
    if bool_decide (tx_ChainID tx ≠ chainID)
    then mret (errResponse (rq_ID req) CodeInvalidParams (EMsg "chain ID mismatch"))
    else
      id ← liftO (tx_Hash tx);
      let tx := set_ID tx id in
      reply req (on_pool (Add now tx)) (λ _, Some (RTxID (tx_ID tx)))).

Definition Dispatch (chainID : string) (now : Z) req : M (Node D) Response := λ n,
  let m := rq_Method req in
  (if bool_decide (m = "getBlockHeight") then mret (okResponse (rq_ID req) (Some (RHeight (Height (nd_chain n)))))
   else if bool_decide (m = "getBlock") then getBlock req
   else if bool_decide (m = "getBalance") then getBalance req
   else if bool_decide (m = "getAsset") then getAsset req
   else if bool_decide (m = "getSession") then getSession req
   else if bool_decide (m = "getListing") then getListing req
   else if bool_decide (m = "getAssetsByOwner") then getAssetsByOwner req
   else if bool_decide (m = "sendTx") then sendTx chainID now req
   else if bool_decide (m = "getMempoolSize") then mret (okResponse (rq_ID req) (Some (RSize (Size (nd_pool n)))))
   else mret (errResponse (rq_ID req) CodeMethodNotFound (EMsg "method not found"))) n.

(** ** The server *)

Definition dec_any (old : anyv) (v : jv) : option anyv := any_of v.
Definition Request_zero : Request := mkRequest "" ANil "" "".
Definition Request_dec : Request → jv → option Request := dec_struct [
  ("jsonrpc", λ q v, x ← dec_string (rq_JSONRPC q) v; Some (mkRequest x (rq_ID q) (rq_Method q) (rq_Params q)));
  ("id", λ q v, x ← dec_any (rq_ID q) v; Some (mkRequest (rq_JSONRPC q) x (rq_Method q) (rq_Params q)));
  ("method", λ q v, x ← dec_string (rq_Method q) v; Some (mkRequest (rq_JSONRPC q) (rq_ID q) x (rq_Params q)));
  ("params", λ q v, x ← dec_raw (rq_Params q) v; Some (mkRequest (rq_JSONRPC q) (rq_ID q) (rq_Method q) x))].

(** The part of an HTTP request the server looks at. *)
Record HTTPRequest : Type := mkHTTP { hq_Method : string; hq_Authorization : string; hq_Body : string }.

Inductive HTTPReply : Type :=
| MethodNotAllowed
| Unauthorized (r : Response)
| OK (r : Response).

Definition maxBody : Z := 1 * 1024 * 1024.

(** [json.NewDecoder(r.Body).Decode(&req)]: the first value of the body, of
    which at most [maxBody] bytes are read. *)
Definition decode_body (body : string) : option Request :=
  let s := string_take (Z.to_nat maxBody) body in
  '(v, _) ← parse_value (S (2 * String.length s)) s;
  Request_dec Request_zero v.

Definition serveHTTP (authToken chainID : string) (now : Z) (r : HTTPRequest) : M (Node D) HTTPReply :=
  if bool_decide (hq_Method r ≠ "POST") then mret MethodNotAllowed
  else if bool_decide (authToken ≠ "" ∧ hq_Authorization r ≠ "Bearer " +:+ authToken)
  then mret (Unauthorized (errResponse ANil CodeUnauthorized (EMsg "unauthorized")))
  else match decode_body (hq_Body r) with
  | None => mret (OK (errResponse ANil CodeParseError (EMsg "json")))
  | Some req =>
      if bool_decide (rq_JSONRPC req ≠ "2.0")
      then mret (OK (errResponse (rq_ID req) CodeInvalidRequest (EMsg "jsonrpc must be '2.0'")))
      else resp ← Dispatch chainID now req; mret (OK resp)
  end.
End Rpc.

(** ** Reading leaves the node as it is *)

Definition reads {W A} (m : M W A) : Prop := ∀ w, (m w).1 = w.

Section Reads.
Context {W : Type}.

Lemma reads_ret {A} (a : A) : reads (W := W) (mret a).
Proof. done. Qed.
Lemma reads_liftO {A} (o : outcome A) : reads (W := W) (liftO o).
Proof. done. Qed.
Lemma reads_bind {A B} (m : M W A) (f : A → M W B) : reads m → (∀ a, reads (f a)) → reads (m ≫= f).
Proof.
  intros Hm Hf w. specialize (Hm w). unfold mbind, M_bind. destruct (m w) as [w' [a| |]]; simpl in *; subst; [|done..].
  apply Hf.
Qed.
Lemma reads_attempt {A} (m : M W A) : reads m → reads (attempt m).
Proof. intros Hm w. specialize (Hm w). unfold attempt. by destruct (m w). Qed.
End Reads.

Section Facts.
Context `{C : Crypto, F : FloatFmt, FL : !FloatLaws, O : MapOrder}.
Context {D : Type} `{HD : DB D, HDR : DBRep D, HDL : !DBLaws D}.
Implicit Types (n : Node D) (req : Request).

Lemma reads_db_Get k : reads (W := D) (db_Get k).
Proof. intros d. by destruct (Get_law k d) as [->|(_ & e & -> & _)]. Qed.

Lemma reads_sdb_get k : reads (W := StateDB D) (sdb_get k).
Proof.
  intros s. unfold sdb_get, on_part. case_match; [done|]. case_match; [done|].
  pose proof (reads_db_Get k (sdb_db s)) as Hr. destruct (db_Get k (sdb_db s)). simpl in *. subst. by destruct s.
Qed.

Lemma reads_decoded {A} k (f : string → outcome A) : reads (W := StateDB D) (data ← sdb_get k; liftO (f data)).
Proof. apply reads_bind; [apply reads_sdb_get|]. intros. apply reads_liftO. Qed.

Lemma reads_GetAccount a : reads (W := StateDB D) (sdb_GetAccount a).
Proof.
  intros s. pose proof (reads_sdb_get (prefixAccount +:+ a) s) as H. unfold sdb_GetAccount.
  destruct (sdb_get _ s) as [s' [|e|]]; [done| |done]. by destruct (is_not_found e).
Qed.

Lemma reads_on_state {A} (m : M (StateDB D) A) : reads m → reads (on_state m).
Proof.
  intros Hm n. unfold on_state, on_part. specialize (Hm (nd_state n)). destruct (m (nd_state n)).
  simpl in *. subst. by destruct n.
Qed.
Lemma reads_on_db {A} (m : M D A) : reads m → reads (on_db m).
Proof.
  intros Hm n. unfold on_db, on_part. specialize (Hm (nd_db n)). destruct (m (nd_db n)).
  simpl in *. subst. by destruct n as [[] ? ? ? ?].
Qed.
Lemma reads_on_chain {A} (m : M (Blockchain D) A) : reads m → reads (on_chain m).
Proof.
  intros Hm n. unfold on_chain, on_part. specialize (Hm (nd_chain n)). destruct (m (nd_chain n)).
  simpl in *. subst. by destruct n as [[] ? ? ? ?].
Qed.
Lemma reads_store_op {A} (m : M D A) : reads m → reads (store_op m).
Proof.
  intros Hm bc. unfold store_op, on_part. specialize (Hm (bc_store bc)). destruct (m (bc_store bc)).
  simpl in *. subst. by destruct bc.
Qed.

Lemma reads_GetBlock hash : reads (bc_GetBlock (S := D) hash).
Proof. apply reads_store_op, reads_bind; [apply reads_db_Get|]. intros. apply reads_liftO. Qed.
Lemma reads_GetBlockByHeight z : reads (bc_GetBlockByHeight (S := D) z).
Proof.
  apply reads_store_op, reads_bind; [apply reads_db_Get|]. intros hash.
  apply reads_bind; [apply reads_db_Get|]. intros. apply reads_liftO.
Qed.
Lemma reads_getList key : reads (W := D) (idx_getList key).
Proof.
  intros d. pose proof (reads_db_Get key d) as H. unfold idx_getList.
  destruct (db_Get key d) as [d' [|e|]]; [done| |done]. by destruct (is_not_found e).
Qed.

Lemma reads_reply {A} req (m : M (Node D) A) f : reads m → reads (reply req m f).
Proof. intros Hm. apply reads_bind; [by apply reads_attempt|]. by intros [| |]. Qed.

Lemma reads_with_params {A} (dec : A → jv → option A) zero req (k : A → M (Node D) Response) :
  (∀ a, reads (k a)) → reads (with_params dec zero req k).
Proof. intros Hk. unfold with_params. destruct (Unmarshal _ _ _); [apply Hk|apply reads_ret]. Qed.

Lemma reads_by_key {A} name msg req (m : string → M (Node D) A) f :
  (∀ x, reads (m x)) → reads (by_key name msg req m f).
Proof.
  intros Hm. apply reads_with_params. intros x. case_bool_decide; [apply reads_ret|]. by apply reads_reply.
Qed.

(** A method answers, over a healthy store, with what the world holds. *)
Lemma query_run {A} (Q : A → Prop) (m : M (Node D) A) (q : world → outcome A) n :
  refines Q m (query q) → reads m → st_inv n → st_healthy n → m n = (n, q (world_at n)).
Proof.
  intros Hm Hr Hn Hh. specialize (Hr n). destruct (m n) as [n' o] eqn:E. simpl in Hr. subst n'.
  destruct (Hm n n o Hn E) as (_ & _ & _ & [[Hq _]|[Hu _]]); [|by destruct Hu]. unfold query in Hq.
  injection Hq as <-. done.
Qed.

Lemma one_param name x :
  valid_utf8 x = true → esc_html name = name → unquote name = name → wf_raw name = true →
  Unmarshal (dec_one name) "" (print (VObj [(name, enc_string x)])) = Some x.
Proof.
  intros Hx He Hn Hw. apply Unmarshal_print; [cbn [wf_jv forallb]; by rewrite Hw, wf_enc_string|].
  unfold dec_one, dec_struct.
  erewrite (dec_members_at _ 0); [reflexivity|done| |reflexivity|by apply dec_enc_string].
  apply list_find_Some. split_and!; [done|done|]. intros j y Hy Hj. lia.
Qed.

Lemma sendTx_cases chainID now req n n' o :
  sendTx chainID now req n = (n', o) →
  n' = n ∨ ∃ tx pool, valid_Transaction tx ∧ tx_ChainID tx = chainID ∧ tx_Hash tx = Ret (tx_ID tx) ∧
    Add now tx (nd_pool n) = (pool, Ret tt) ∧ n' = set_nd_pool pool n ∧
    o = Ret (okResponse (rq_ID req) (Some (RTxID (tx_ID tx)))).
Proof.
  unfold sendTx, with_params. destruct (Unmarshal _ _ _) as [tx|] eqn:Ed; [|intros [= <- _]; by left].
  apply Transaction_read_valid in Ed. case_bool_decide as Hc; [intros [= <- _]; by left|]. unfold mbind at 1, M_bind at 1, liftO.
  destruct (tx_Hash tx) as [id|e|msg] eqn:Eh; [|intros [= <- _]; by left..].
  unfold reply, attempt, mbind, M_bind, on_pool, on_part.
  destruct (Add now (set_ID tx id) (nd_pool n)) as [pool o1] eqn:Ea.
  destruct o1 as [[]|e|msg].
  - intros [= <- <-]. right. exists (set_ID tx id), pool. split_and!; try done.
    unfold valid_Transaction in *. destruct_and!. split_and!; try done.
    unfold tx_Hash in Eh. destruct (signingBody_enc _); [|done]. injection Eh as <-. apply Hash_valid.
  - apply Add_error in Ea as ->; [|done]. intros [= <- _]. left. by destruct n.
  - apply Add_error in Ea as ->; [|done]. intros [= <- _]. left. by destruct n.
Qed.

Lemma Dispatch_cases chainID now req n n' o :
  Dispatch chainID now req n = (n', o) →
  n' = n ∨ rq_Method req = "sendTx" ∧
  ∃ tx pool, valid_Transaction tx ∧ tx_ChainID tx = chainID ∧ tx_Hash tx = Ret (tx_ID tx) ∧
    Add now tx (nd_pool n) = (pool, Ret tt) ∧ n' = set_nd_pool pool n ∧
    o = Ret (okResponse (rq_ID req) (Some (RTxID (tx_ID tx)))).
Proof.
  unfold Dispatch. intros E.
  assert (∀ m : M (Node D) Response, reads m → m n = (n', o) → n' = n) as Hr by (intros m Hm Em; specialize (Hm n); by rewrite Em in Hm).
  repeat case_bool_decide; try (left; by injection E).
  - left. eapply Hr, E. apply reads_with_params. intros q. case_bool_decide;
      [apply reads_reply, reads_on_chain, reads_GetBlock|].
    destruct q.2; [apply reads_reply, reads_on_chain, reads_GetBlockByHeight|done].
  - left. eapply Hr, E. apply reads_by_key. intros x. apply reads_on_state, reads_GetAccount.
  - left. eapply Hr, E. apply reads_by_key. intros x. apply reads_on_state, reads_decoded.
  - left. eapply Hr, E. apply reads_by_key. intros x. apply reads_on_state, reads_decoded.
  - left. eapply Hr, E. apply reads_by_key. intros x. apply reads_on_state, reads_decoded.
  - left. eapply Hr, E. apply reads_by_key. intros x. apply reads_on_db, reads_getList.
  - destruct (sendTx_cases _ _ _ _ _ _ E) as [|H']; [by left|by right].
Qed.

Lemma serveHTTP_cases authToken chainID now r n n' o :
  serveHTTP authToken chainID now r n = (n', o) →
  n' = n ∨
  (hq_Method r = "POST" ∧ (authToken = "" ∨ hq_Authorization r = "Bearer " +:+ authToken) ∧
   ∃ req tx pool, decode_body (hq_Body r) = Some req ∧ rq_Method req = "sendTx" ∧
     valid_Transaction tx ∧ tx_ChainID tx = chainID ∧ tx_Hash tx = Ret (tx_ID tx) ∧
     Add now tx (nd_pool n) = (pool, Ret tt) ∧ n' = set_nd_pool pool n ∧
     o = Ret (OK (okResponse (rq_ID req) (Some (RTxID (tx_ID tx)))))).
Proof.
  unfold serveHTTP. case_bool_decide as Hm; [intros [= <- _]; by left|].
  case_bool_decide as Ha; [intros [= <- _]; by left|].
  destruct (decode_body (hq_Body r)) as [req|] eqn:Ed; [|intros [= <- _]; by left].
  case_bool_decide; [intros [= <- _]; by left|]. unfold mbind, M_bind.
  destruct (Dispatch chainID now req n) as [n1 o1] eqn:E. intros E2.
  assert (n' = n1) as -> by (destruct o1; by injection E2).
  destruct (Dispatch_cases _ _ _ _ _ _ E) as [->|(Hs & tx & pool & Hv & H1 & H2 & H3 & -> & ->)]; [by left|right].
  split; [done|]. split; [|exists req, tx, pool; injection E2 as <-; by split_and!].
  destruct (decide (authToken = "")); [by left|right].
  destruct (decide (hq_Authorization r = "Bearer " +:+ authToken)); [done|by destruct Ha].
Qed.
End Facts.

(** ** Properties *)

Section Properties.
Context `{C : Crypto, F : FloatFmt, FL : !FloatLaws, O : MapOrder}.
Context {D : Type} `{HD : DB D, HDR : DBRep D, HDL : !DBLaws D}.
Implicit Types (n : Node D) (req : Request).

(** C39: no request changes the chain or the state.  Whatever is posted to the
    server, the node is as before, but for an authorised [sendTx] with a
    transaction of this chain that [Add] accepts, whose ID is the hash the
    server computed; then that transaction, and nothing else, is new in the
    pool. *)
Theorem rpc_changes_pool_only authToken chainID now r n n' o :
  serveHTTP authToken chainID now r n = (n', o) →
  n' = n ∨
  (hq_Method r = "POST" ∧ (authToken = "" ∨ hq_Authorization r = "Bearer " +:+ authToken) ∧
   ∃ req tx pool, decode_body (hq_Body r) = Some req ∧ rq_Method req = "sendTx" ∧
     tx_ChainID tx = chainID ∧ tx_Hash tx = Ret (tx_ID tx) ∧
     Add now tx (nd_pool n) = (pool, Ret tt) ∧ n' = set_nd_pool pool n ∧
     o = Ret (OK (okResponse (rq_ID req) (Some (RTxID (tx_ID tx)))))).
Proof.
  intros [->|(H1 & H2 & req & tx & pool & H3 & H4 & _ & H5)]%serveHTTP_cases; [by left|right].
  split; [done|]. split; [done|]. by exists req, tx, pool.
Qed.

(** The read methods answer with the node's world: balance and nonce of an
    address (zero for one that never occurred), and the asset, session or
    listing of an ID, or an error when there is none. *)
Lemma read_methods chainID now id x n :
  st_inv n → st_healthy n → valid_utf8 x = true → x ≠ "" →
  let w := world_at n in
  let request method name := mkRequest "2.0" id method (print (VObj [(name, enc_string x)])) in
  let found {A} (o : option A) (f : A → rpc_result) :=
    match o with Some a => okResponse id (Some (f a)) | None => errResponse id CodeInternalError ErrNotFound end in
  Dispatch chainID now (request "getBalance" "address") n =
    (n, Ret (okResponse id (Some (RBalance x (balance w x) (nonce w x))))) ∧
  Dispatch chainID now (request "getAsset" "id") n = (n, Ret (found (assets w !! x) RAsset)) ∧
  Dispatch chainID now (request "getSession" "id") n = (n, Ret (found (sessions w !! x) RSession)) ∧
  Dispatch chainID now (request "getListing" "id") n = (n, Ret (found (listings w !! x) RListing)).
Proof.
  intros Hn Hh Hx Hne w request found.
  assert (∀ {A} name msg method (m : string → M (Node D) A) (f : string → A → option rpc_result) o,
    esc_html name = name → unquote name = name → wf_raw name = true → m x n = (n, o) →
    by_key name msg (request method name) m f n =
    (match o with
     | Ret a => (n, Ret (okResponse id (f x a)))
     | Fail e => (n, Ret (errResponse id CodeInternalError e))
     | Panic p => (n, Panic p) end)) as Hkey.
  { intros A name msg method m f o H1 H2 H3 Em. unfold by_key, with_params. cbn [rq_Params request].
    rewrite one_param by done. rewrite bool_decide_eq_false_2 by done.
    unfold reply, attempt, mbind, M_bind. rewrite Em. by destruct o. }
  split_and!.
  - transitivity (getBalance (request "getBalance" "address") n); [done|]. unfold getBalance.
    erewrite Hkey; [|done..|].
    2: exact (query_run _ _ _ _ (GetAccount_ref x Hx) (reads_on_state _ (reads_GetAccount x)) Hn Hh).
    done.
  - transitivity (getAsset (request "getAsset" "id") n); [done|]. unfold getAsset.
    erewrite Hkey; [|done..|].
    2: exact (query_run _ _ _ _ (GetAsset_ref x) (reads_on_state _ (reads_decoded _ _)) Hn Hh).
    fold w. by destruct (assets w !! x).
  - transitivity (getSession (request "getSession" "id") n); [done|]. unfold getSession.
    erewrite Hkey; [|done..|].
    2: exact (query_run _ _ _ _ (GetSession_ref x) (reads_on_state _ (reads_decoded _ _)) Hn Hh).
    fold w. by destruct (sessions w !! x).
  - transitivity (getListing (request "getListing" "id") n); [done|]. unfold getListing.
    erewrite Hkey; [|done..|].
    2: exact (query_run _ _ _ _ (GetListing_ref x) (reads_on_state _ (reads_decoded _ _)) Hn Hh).
    fold w. by destruct (listings w !! x).
Qed.
End Properties.
