(* ===== verification/Wire.v ===== *)
(** * The RPC server on the wire

    Models [src/rpc/server.go]: starting and stopping the server, and what it
    writes for a request: the rendering of a [Response] ([src/rpc/types.go]),
    [writeJSON], and the [http.ResponseWriter] it goes through.  Headers that
    are set after the status was written are lost.  The text of an error
    ([err.Error()]) is an argument; the time limits are left out. *)
From Stdlib Require Import Ascii Lia ZArith.
From stdpp Require Import base gmap strings list.
From S2P Require Import Prelude Crypto Json JsonFacts JsonParse JsonTyped Types Transaction Block.
From S2P Require Import State DB StateDB Events Vm Executor Ledger Mempool Blockchain Transit Node Frame Indexer Peer Rpc.

(** ** The response writer of net/http *)

Record ResponseWriter : Type := mkRW {
  rw_header : gmap string string;
  rw_sent : option (Z * gmap string string);
  rw_body : string
}.

Definition NewResponse : ResponseWriter := mkRW ∅ None "".

Definition StatusOK : Z := 200.
Definition StatusUnauthorized : Z := 401.
Definition StatusMethodNotAllowed : Z := 405.

(** [w.Header().Set(key, value)] *)
Definition header_Set (key value : string) (w : ResponseWriter) : ResponseWriter :=
  mkRW (<[key := value]> (rw_header w)) (rw_sent w) (rw_body w).

(** The first call fixes status and headers. *)
Definition WriteHeader (code : Z) (w : ResponseWriter) : ResponseWriter :=
  match rw_sent w with
  | Some _ => w
  | None => mkRW (rw_header w) (Some (code, rw_header w)) (rw_body w)
  end.

Definition rw_Write (data : string) (w : ResponseWriter) : ResponseWriter :=
  let w := WriteHeader StatusOK w in mkRW (rw_header w) (rw_sent w) (rw_body w +:+ data).

Definition http_Error (msg : string) (code : Z) (w : ResponseWriter) : ResponseWriter :=
  rw_Write (msg +:+ c_newline)
    (WriteHeader code
      (header_Set "X-Content-Type-Options" "nosniff" (header_Set "Content-Type" "text/plain; charset=utf-8" w))).

(** ** Rendering *)

(** [Result any]: a nil slice of strings is [null]. *)
Definition result_enc (r : rpc_result) : option jv :=
  match r with
  | RHeight z => Some (enc_int z)
  | RBlock b => Block_enc b
  | RBalance address balance nonce =>
      Some (VObj [("address", enc_string address); ("balance", enc_int balance); ("nonce", enc_int nonce)])
  | RAsset a => Some (Asset_enc a)
  | RSession s => Some (Session_enc s)
  | RListing l => Some (MarketListing_enc l)
  | RIDs None => Some VNull
  | RIDs (Some ids) => Some (VArr (map enc_string ids))
  | RTxID id => Some (VObj [("tx_id", enc_string id)])
  | RSize z => Some (enc_int z)
  end.

Section Wire.
Context (show : error → string).

Definition error_enc (e : Z * error) : jv :=
  VObj [("code", enc_int e.1); ("message", enc_string (show e.2))].

(** [Result] and [Error] are left out when nil. *)
Definition Response_enc (r : Response) : option jv :=
  result ← match rs_Result r with None => Some [] | Some x => v ← result_enc x; Some [("result", v)] end;
  Some (VObj ([("jsonrpc", enc_string (rs_JSONRPC r)); ("id", jv_of_any (rs_ID r))] ++ result ++
              match rs_Error r with None => [] | Some e => [("error", error_enc e)] end)).

(** [json.NewEncoder(w).Encode(v)] writes the text and a newline, or nothing
    when [v] cannot be marshalled. *)
Definition writeJSON (r : Response) (w : ResponseWriter) : ResponseWriter :=
  let w := header_Set "Content-Type" "application/json" w in
  match Response_enc r with
  | Some v => rw_Write (print v +:+ c_newline) w
  | None => w
  end.

Definition respond (reply : HTTPReply) (w : ResponseWriter) : ResponseWriter :=
  match reply with
  | MethodNotAllowed => http_Error "only POST allowed" StatusMethodNotAllowed w
  | Unauthorized r => writeJSON r (WriteHeader StatusUnauthorized w)
  | OK r => writeJSON r w
  end.

Context `{C : Crypto, F : FloatFmt, O : MapOrder} {D : Type} `{HD : DB D}.

(** The whole handler: what happens to the node, and what is written. *)
Definition server_ServeHTTP (authToken chainID : string) (now : Z) (r : HTTPRequest) : M (Node D) ResponseWriter :=
  reply ← serveHTTP authToken chainID now r;
  mret (respond reply NewResponse).

(** *** The server itself *)

Record Server : Type := mkServer {
  srv_addr : string;
  srv_chainID : string;  (* of its handler *)
  srv_authToken : string;
  srv_ln : option string;
  srv_shutdown : bool
}.

Definition NewServer (addr chainID authToken : string) : Server := mkServer addr chainID authToken None false.

(** [Start] binds the port before it returns. *)
Definition Server_Start (net : Net) (s : Server) : outcome Server :=
  ln ← net_Listen net (srv_addr s);
  Ret (mkServer (srv_addr s) (srv_chainID s) (srv_authToken s) (Some ln) (srv_shutdown s)).

Definition Server_Addr (s : Server) : option string := srv_ln s.

(** [Stop] lets [http.Server] close the listener; it does not serve again. *)
Definition Server_Stop (s : Server) : Server :=
  mkServer (srv_addr s) (srv_chainID s) (srv_authToken s) (srv_ln s) true.

(** A request from outside is answered between [Start] and [Stop]. *)
Definition answer (s : Server) (now : Z) (r : HTTPRequest) : M (Node D) (option ResponseWriter) :=
  match srv_ln s, srv_shutdown s with
  | Some _, false => w ← server_ServeHTTP (srv_authToken s) (srv_chainID s) now r; mret (Some w)
  | _, _ => mret None
  end.
End Wire.

(** ** Facts *)

Lemma parse_newline v : wf_jv v = true → parse (print v +:+ c_newline) = Some v.
Proof.
  intros Hw. pose proof (reads_print v Hw) as [_ H]. unfold parse. rewrite H; [done| |done].
  rewrite slength_app. lia.
Qed.

(** A rendered response is labelled as JSON and reads back as its tree. *)
Lemma respond_OK show r v :
  Response_enc show r = Some v → wf_jv v = true →
  let w := respond show (OK r) NewResponse in
  rw_sent w = Some (StatusOK, {["Content-Type" := "application/json"]}) ∧ parse (rw_body w) = Some v.
Proof.
  intros E Hw. cbn zeta. unfold respond, writeJSON. rewrite E. split; [done|].
  cbn [rw_body rw_Write WriteHeader header_Set NewResponse rw_sent rw_header]. by apply parse_newline.
Qed.

Section Facts.
Context `{C : Crypto, F : FloatFmt, FL : !FloatLaws, O : MapOrder}.

(** A request as a client writes it. *)
Definition request_tree (id : anyv) (method : string) (params : jv) : jv :=
  VObj [("jsonrpc", enc_string "2.0"); ("id", jv_of_any id); ("method", enc_string method); ("params", params)].

Lemma request_wf id method params : valid_any id → wf_jv params = true → wf_jv (request_tree id method params) = true.
Proof. intros Hi Hp. unfold request_tree. cbn [wf_jv forallb]. by rewrite !wf_enc_string, wf_jv_of_any, Hp. Qed.

Lemma string_take_all n s : (String.length s ≤ n)%nat → string_take n s = s.
Proof. revert n. induction s as [|c s IH]; intros [|n]; simpl; try done; [lia|]. intros H. f_equal. apply IH. lia. Qed.

Lemma decode_request id method params :
  valid_any id → valid_utf8 method = true → wf_jv params = true →
  zlen (print (request_tree id method params)) ≤ maxBody →
  decode_body (print (request_tree id method params)) = Some (mkRequest "2.0" id method (print params)).
Proof.
  intros Hi Hm Hp Hl. unfold decode_body. rewrite string_take_all by (unfold zlen in Hl; lia).
  pose proof (reads_print _ (request_wf id method params Hi Hp)) as [_ H].
  set (t := print _) in *. specialize (H (S (2 * String.length t)) ""). rewrite sapp_nil_r in H.
  rewrite H by (done || lia). cbn [mbind option_bind].
  unfold request_tree, Request_dec, dec_struct, Request_zero.
  dec_field_step; [|rewrite dec_enc_string by done; simpl; reflexivity].
  dec_field_step; [|unfold dec_any; rewrite any_of_jv by done; simpl; reflexivity].
  dec_field_step; [|rewrite dec_enc_string by done; simpl; reflexivity].
  dec_field_step; [|simpl; reflexivity]. reflexivity.
Qed.

(** The last member of an answer. *)
Definition result_member (v : jv) : list (string * jv) := [("result", v)].
Definition error_member (show : error → string) (code : Z) (e : error) : list (string * jv) :=
  [("error", error_enc show (code, e))].

Context {D : Type} `{HD : DB D, HDR : DBRep D, HDL : !DBLaws D}.
Implicit Types (n : Node D).

Ltac wf_members := unfold result_member, error_member, error_enc; cbn [forallb wf_jv fst snd].

(** One exchange: the request reaches [Dispatch], and what it answers is
    written with status 200, labelled and readable. *)
Lemma exchange show token chainID now id method params n resp v :
  valid_any id → valid_utf8 method = true → wf_jv params = true →
  Dispatch chainID now (mkRequest "2.0" id method (print params)) n = (n, Ret resp) →
  Response_enc show resp = Some v → wf_jv v = true →
  zlen (print (request_tree id method params)) ≤ maxBody →
  ∃ w, server_ServeHTTP show token chainID now
         (mkHTTP "POST" ("Bearer " +:+ token) (print (request_tree id method params))) n = (n, Ret w) ∧
    rw_sent w = Some (StatusOK, {["Content-Type" := "application/json"]}) ∧ parse (rw_body w) = Some v.
Proof.
  intros Hi Hm Hp Ed Ev Hw Hl. exists (respond show (OK resp) NewResponse).
  split; [|by apply respond_OK]. unfold server_ServeHTTP, serveHTTP. cbn [hq_Method hq_Authorization hq_Body].
  rewrite bool_decide_eq_false_2 by tauto. rewrite bool_decide_eq_false_2 by tauto.
  rewrite decode_request by done. cbn [rq_JSONRPC]. rewrite bool_decide_eq_false_2 by tauto.
  unfold mbind, M_bind. by rewrite Ed.
Qed.

Lemma answer_wf id m :
  valid_any id → forallb (λ '(k, x), wf_raw k && wf_jv x) m = true →
  wf_jv (VObj ([("jsonrpc", enc_string "2.0"); ("id", jv_of_any id)] ++ m)) = true.
Proof. intros Hi Hm. cbn [wf_jv app forallb]. by rewrite wf_enc_string, wf_jv_of_any, Hm. Qed.

(** C40: a client that posts [getBalance], [getAsset], [getSession] or
    [getListing] with the server's token, in at most 1 MB, gets status 200 and
    a JSON text that carries its id and, as result, what the node's world
    holds: balance and nonce of an address (zero for one that never occurred),
    the asset, session or listing of an ID, or an internal error with the text
    of [ErrNotFound] when there is none.  The node is left as it was. *)
Theorem rpc_answers_world show token chainID now id x n :
  st_inv n → st_healthy n → valid_any id → valid_utf8 x = true → x ≠ "" →
  let w := world_at n in
  let found {A} (o : option A) (enc : A → jv) :=
    match o with
    | Some a => result_member (enc a)
    | None => error_member show CodeInternalError ErrNotFound
    end in
  let answers method name members :=
    let text := print (request_tree id method (VObj [(name, enc_string x)])) in
    zlen text ≤ maxBody →
    ∃ rw, server_ServeHTTP show token chainID now (mkHTTP "POST" ("Bearer " +:+ token) text) n = (n, Ret rw) ∧
      rw_sent rw = Some (StatusOK, {["Content-Type" := "application/json"]}) ∧
      parse (rw_body rw) = Some (VObj ([("jsonrpc", enc_string "2.0"); ("id", jv_of_any id)] ++ members)) in
  answers "getBalance" "address" (result_member (VObj
    [("address", enc_string x); ("balance", enc_int (balance w x)); ("nonce", enc_int (nonce w x))])) ∧
  answers "getAsset" "id" (found (assets w !! x) Asset_enc) ∧
  answers "getSession" "id" (found (sessions w !! x) Session_enc) ∧
  answers "getListing" "id" (found (listings w !! x) MarketListing_enc).
Proof.
  intros Hn Hh Hi Hx Hne w found answers.
  pose proof (read_methods chainID now id x n Hn Hh Hx Hne) as (H1 & H2 & H3 & H4).
  destruct (st_wf n Hn) as [Hwf _].
  assert (∀ method name resp m, valid_utf8 method = true → wf_raw name = true →
    Dispatch chainID now (mkRequest "2.0" id method (print (VObj [(name, enc_string x)]))) n = (n, Ret resp) →
    Response_enc show resp = Some (VObj ([("jsonrpc", enc_string "2.0"); ("id", jv_of_any id)] ++ m)) →
    forallb (λ '(k, x), wf_raw k && wf_jv x) m = true → answers method name m) as Ha.
  { intros method name resp m Hm Hk Ed Ev Hw Hl.
    eapply exchange; try done; [cbn [wf_jv forallb]; by rewrite Hk, wf_enc_string|by apply answer_wf]. }
  split_and!.
  - eapply Ha; [done|done|exact H1|done|]. wf_members. by rewrite wf_enc_string, !wf_enc_int.
  - eapply Ha; [done|done|exact H2| |]; subst w found; destruct (assets (world_at n) !! x) as [a|] eqn:E; try done.
    + apply (wf_assets _ Hwf) in E as [_ Hv]. wf_members. by rewrite Asset_wf.
    + wf_members. by rewrite wf_enc_string, wf_enc_int.
  - eapply Ha; [done|done|exact H3| |]; subst w found; destruct (sessions (world_at n) !! x) as [a|] eqn:E; try done.
    + wf_members. by rewrite Session_wf.
    + wf_members. by rewrite wf_enc_string, wf_enc_int.
  - eapply Ha; [done|done|exact H4| |]; subst w found; destruct (listings (world_at n) !! x) as [a|] eqn:E; try done.
    + wf_members. by rewrite MarketListing_wf.
    + wf_members. by rewrite wf_enc_string, wf_enc_int.
Qed.

(** A refused client is told so in JSON, but not in a response labelled as
    JSON: [writeJSON] sets the header after the status was written. *)
Lemma unauthorized_unlabelled show token chainID now auth text n :
  token ≠ "" → auth ≠ "Bearer " +:+ token →
  ∃ rw, server_ServeHTTP show token chainID now (mkHTTP "POST" auth text) n = (n, Ret rw) ∧
    rw_sent rw = Some (StatusUnauthorized, ∅) ∧
    parse (rw_body rw) = Some (VObj ([("jsonrpc", enc_string "2.0"); ("id", VNull)] ++
                                     error_member show CodeUnauthorized (EMsg "unauthorized"))).
Proof.
  intros Ht Ha. eexists. split.
  { unfold server_ServeHTTP, serveHTTP. cbn [hq_Method hq_Authorization hq_Body].
    rewrite bool_decide_eq_false_2 by tauto. rewrite bool_decide_eq_true_2 by done. reflexivity. }
  split; [done|]. refine (parse_newline (VObj (_ ++ _)) _).
  apply (answer_wf ANil (error_member show CodeUnauthorized (EMsg "unauthorized"))); [done|].
  wf_members. by rewrite wf_enc_string, wf_enc_int.
Qed.
End Facts.
