(* ===== verification/Wallet.v ===== *)
(** * The wallet

    Models [src/wallet/wallet.go] (building and signing transactions) and
    [src/wallet/keystore.go] (the encrypted key file).  PBKDF2 and AES-GCM are
    the operations of the class [KeyCipher]; [KeyCipherLaws] states the length of
    a derived key and that what was sealed can be opened with the same key and
    nonce.  The random source is an argument: the bytes it yields, or nothing
    when it fails. *)
From Stdlib Require Import Ascii Lia ZArith.
From stdpp Require Import base gmap strings list.
From S2P Require Import Prelude Crypto Json JsonFacts JsonParse JsonTyped Types Transaction Block.
From S2P Require Import State Events Vm Economy Executor Ledger Mempool Files.

(** ** Building transactions *)

Record Wallet : Type := mkWallet { wal_priv : string; wal_pub : string }.

Section Wallet.
Context `{C : Crypto}.

Definition wallet_New (priv : string) : outcome Wallet :=
  pub ← Public priv; Ret (mkWallet priv pub).

Definition wallet_Generate (rand : option string) : outcome Wallet :=
  kp ← GenerateKeyPair rand; wallet_New kp.1.

Definition PrivKey (w : Wallet) : string := wal_priv w.
Definition PubKey (w : Wallet) : string := PublicKey_Hex (wal_pub w).
Definition wallet_Address (w : Wallet) : string := Address (wal_pub w).

Definition NewTx (now : Z) (w : Wallet) (chainID typ : string) (nonce fee : Z) (payload : option jv)
    : outcome Transaction :=
  tx ← NewTransaction now chainID typ (PublicKey_Hex (wal_pub w)) nonce fee payload;
  tx_Sign (wal_priv w) tx.

Definition wallet_Transfer (now : Z) (w : Wallet) (chainID to : string) (amount nonce fee : Z)
    : outcome Transaction :=
  NewTx now w chainID TxTransfer nonce fee (Some (TransferPayload_enc (mkTransferPayload to amount))).
End Wallet.

(** ** The keystore *)

Class KeyCipher := {
  (** password, salt, iterations, length of the key *)
  pbkdf2_Key : string → string → Z → nat → string;
  (** key, nonce, plaintext *)
  gcm_Seal : string → string → string → string;
  (** key, nonce, ciphertext; nothing when authentication fails *)
  gcm_Open : string → string → string → option string
}.

Definition gcm_NonceSize : nat := 12.

Class KeyCipherLaws `{K : KeyCipher} : Prop := {
  pbkdf2_length pw salt n len : String.length (pbkdf2_Key pw salt n len) = len;
  gcm_open_seal key nonce text :
    String.length key = 32%nat → String.length nonce = gcm_NonceSize →
    gcm_Open key nonce (gcm_Seal key nonce text) = Some text
}.

Record keystoreFile : Type := mkKeystore {
  ks_PubKey : string;
  ks_Salt : string;
  ks_Nonce : string;
  ks_CipherText : string
}.

Definition keystoreFile_enc (k : keystoreFile) : jv := VObj [
  ("pub_key", enc_string (ks_PubKey k));
  ("salt", enc_string (ks_Salt k));
  ("nonce", enc_string (ks_Nonce k));
  ("cipher_text", enc_string (ks_CipherText k))].

Definition keystoreFile_dec : keystoreFile → jv → option keystoreFile := dec_struct [
  ("pub_key", λ k v, x ← dec_string (ks_PubKey k) v;
     Some (mkKeystore x (ks_Salt k) (ks_Nonce k) (ks_CipherText k)));
  ("salt", λ k v, x ← dec_string (ks_Salt k) v;
     Some (mkKeystore (ks_PubKey k) x (ks_Nonce k) (ks_CipherText k)));
  ("nonce", λ k v, x ← dec_string (ks_Nonce k) v;
     Some (mkKeystore (ks_PubKey k) (ks_Salt k) x (ks_CipherText k)));
  ("cipher_text", λ k v, x ← dec_string (ks_CipherText k) v;
     Some (mkKeystore (ks_PubKey k) (ks_Salt k) (ks_Nonce k) x))].

Definition keystoreFile_zero : keystoreFile := mkKeystore "" "" "" "".

Section Keystore.
Context `{C : Crypto, K : KeyCipher}.

Definition deriveKey (password salt : string) : string := pbkdf2_Key password salt 210000 32.

(** [aes.NewCipher] accepts keys of 16, 24 and 32 bytes; [cipher.NewGCM] does
    not fail on an AES block. *)
Definition aes_NewCipher (key : string) : outcome string :=
  if bool_decide (String.length key ∈ [16; 24; 32]%nat) then Ret key
  else Fail (EMsg "crypto/aes: invalid key size").

(** [gcm.Open] panics on a nonce of the wrong length. *)
Definition open_sealed (key nonce cipherText : string) : outcome string :=
  if bool_decide (String.length nonce ≠ gcm_NonceSize)
  then Panic "crypto/cipher: incorrect nonce length given to GCM"
  else match gcm_Open key nonce cipherText with
       | Some text => Ret text
       | None => Fail (EMsg "wrong password or corrupted keystore")
       end.

(** [salt] and [nonce] are what the random source yields, [fault] what becomes
    of the write. *)
Definition SaveKey (salt nonce : option string) (fault : option write_fault)
    (path password priv : string) : M Files unit :=
  salt ← liftO (of_option (EMsg "rand") salt);
  key ← liftO (aes_NewCipher (deriveKey password salt));
  nonce ← liftO (of_option (EMsg "rand") nonce);
  let cipherText := gcm_Seal key nonce priv in
  pub ← liftO (Public priv);
  let ks := mkKeystore (PublicKey_Hex pub) (hex_EncodeToString salt) (hex_EncodeToString nonce)
              (hex_EncodeToString cipherText) in
  WriteFile fault path (MarshalIndent (keystoreFile_enc ks)).

Definition LoadKey (path password : string) : M Files string :=
  data ← ReadFile path;
  ks ← liftO (of_option (EMsg "json") (Unmarshal keystoreFile_dec keystoreFile_zero data));
  salt ← liftO (of_option (EMsg "hex") (hex_DecodeString (ks_Salt ks)));
  nonce ← liftO (of_option (EMsg "hex") (hex_DecodeString (ks_Nonce ks)));
  cipherText ← liftO (of_option (EMsg "hex") (hex_DecodeString (ks_CipherText ks)));
  key ← liftO (aes_NewCipher (deriveKey password salt));
  liftO (open_sealed key nonce cipherText).
End Keystore.

(** ** Facts *)

Lemma keystore_dec_enc k :
  valid_utf8 (ks_PubKey k) = true → valid_utf8 (ks_Salt k) = true →
  valid_utf8 (ks_Nonce k) = true → valid_utf8 (ks_CipherText k) = true →
  keystoreFile_dec keystoreFile_zero (keystoreFile_enc k) = Some k.
Proof.
  intros ? ? ? ?. destruct k. unfold keystoreFile_dec, keystoreFile_enc, dec_struct. simpl in *.
  repeat (dec_field_step; [|rewrite dec_enc_string by done; simpl; reflexivity]). done.
Qed.

Lemma keystore_wf k : wf_jv (keystoreFile_enc k) = true.
Proof. unfold keystoreFile_enc. cbn [wf_jv forallb]. by rewrite !wf_enc_string. Qed.

(** Hexadecimal text is written as it is. *)
Lemma hex_digit_plain z :
  0 ≤ z < 16 → esc_ascii (hex_digit z) = String (hex_digit z) "" ∧ byte_val (hex_digit z) < 125.
Proof.
  intros Hz.
  assert (z ∈ [0; 1; 2; 3; 4; 5; 6; 7; 8; 9; 10; 11; 12; 13; 14; 15]) as Hin.
  { rewrite !elem_of_cons. lia. }
  repeat (apply elem_of_cons in Hin as [->|Hin]; [by vm_compute|]). by apply elem_of_nil in Hin.
Qed.

Lemma quote_hex s : quote (hex_EncodeToString s) = hex_EncodeToString s ∧ no_brace (hex_EncodeToString s) = true.
Proof.
  assert (∀ z r, 0 ≤ z < 16 → quote (String (hex_digit z) r) = String (hex_digit z) (quote r) ∧
    no_brace (String (hex_digit z) r) = no_brace r) as Hd.
  { intros z r Hz. destruct (hex_digit_plain z Hz) as [He Hb]. split.
    - cbn [quote]. unfold utf8_width. rewrite bool_decide_eq_true_2 by lia. by rewrite He.
    - unfold no_brace. cbn [string_forall]. rewrite bool_decide_eq_true_2; [done|].
      intros E. rewrite E in Hb. vm_compute in Hb. done. }
  induction s as [|c s [IH1 IH2]]; [done|]. cbn [hex_EncodeToString].
  pose proof (byte_val_range c) as Hc.
  assert (0 ≤ byte_val c / 16 < 16) as H1 by (split; [apply Z.div_pos; lia|apply Z.div_lt_upper_bound; lia]).
  assert (0 ≤ byte_val c mod 16 < 16) as H2 by (apply Z.mod_pos_bound; lia).
  split.
  - rewrite (proj1 (Hd _ _ H1)), (proj1 (Hd _ _ H2)). by rewrite IH1.
  - rewrite (proj2 (Hd _ _ H1)), (proj2 (Hd _ _ H2)). exact IH2.
Qed.

(** A keystore file that breaks off is not JSON. *)
Lemma keystore_broken pub salt nonce text n :
  let file := MarshalIndent (keystoreFile_enc (mkKeystore (hex_EncodeToString pub) (hex_EncodeToString salt)
                (hex_EncodeToString nonce) (hex_EncodeToString text))) in
  (n < String.length file)%nat → parse (string_take n file) = None.
Proof.
  intros file Hn.
  assert (∃ body, file = String "{" (body +:+ "}") ∧ no_brace body = true) as (body & E & Hb).
  { unfold file, MarshalIndent, keystoreFile_enc, enc_string. cbn [ks_PubKey ks_Salt ks_Nonce ks_CipherText].
    destruct (quote_hex pub) as [-> H1], (quote_hex salt) as [-> H2], (quote_hex nonce) as [-> H3], (quote_hex text) as [-> H4].
    cbn [print_indent map join]. eexists. split; [f_equal; symmetry; apply sapp_assoc|].
    unfold no_brace, print, quoted in *. repeat (rewrite string_forall_app || cbn [string_forall]).
    by rewrite H1, H2, H3, H4. }
  rewrite E in Hn |- *. destruct n as [|n]; [done|]. cbn [string_take].
  apply parse_open_object. cbn [String.length] in Hn. rewrite slength_app in Hn. simpl in Hn.
  assert (n ≤ String.length body)%nat as Hle by lia. clear -Hb Hle. revert n Hle.
  induction body as [|c body IH]; intros [|n] Hle; try done; simpl in Hle; [lia|].
  apply no_brace_head in Hb as [Hc Hb]. rewrite sapp_cons. cbn [string_take]. unfold no_brace. cbn [string_forall].
  rewrite bool_decide_eq_true_2 by done. apply IH; [done|lia].
Qed.

Section KeystoreFacts.
Context `{C : Crypto, K : KeyCipher, KL : !KeyCipherLaws}.

Lemma derived_key_accepted password salt : aes_NewCipher (deriveKey password salt) = Ret (deriveKey password salt).
Proof.
  unfold aes_NewCipher. rewrite bool_decide_eq_true_2; [done|].
  unfold deriveKey. rewrite pbkdf2_length. set_solver.
Qed.

(** What [LoadKey] does once the file is parsed and its fields decoded. *)
Lemma LoadKey_run path password d k salt nonce text :
  d !! path = Some (MarshalIndent (keystoreFile_enc k)) →
  keystoreFile_dec keystoreFile_zero (keystoreFile_enc k) = Some k →
  hex_DecodeString (ks_Salt k) = Some salt → hex_DecodeString (ks_Nonce k) = Some nonce →
  hex_DecodeString (ks_CipherText k) = Some text →
  LoadKey path password d = (d, open_sealed (deriveKey password salt) nonce text).
Proof.
  intros Hd Hk Hs Hn Ht. unfold LoadKey, ReadFile. erewrite bind_Ret by (by rewrite Hd).
  rewrite Unmarshal_MarshalIndent by apply keystore_wf. rewrite Hk.
  erewrite bind_Ret by done. rewrite Hs. erewrite bind_Ret by done. rewrite Hn.
  erewrite bind_Ret by done. rewrite Ht. erewrite bind_Ret by done.
  rewrite derived_key_accepted. by erewrite bind_Ret by done.
Qed.

Lemma SaveKey_run salt nonce fault path password priv pub d :
  Public priv = Ret pub →
  SaveKey (Some salt) (Some nonce) fault path password priv d =
  WriteFile fault path (MarshalIndent (keystoreFile_enc
    (mkKeystore (PublicKey_Hex pub) (hex_EncodeToString salt) (hex_EncodeToString nonce)
       (hex_EncodeToString (gcm_Seal (deriveKey password salt) nonce priv))))) d.
Proof.
  intros HP. unfold SaveKey. erewrite bind_Ret by done. rewrite derived_key_accepted.
  do 2 erewrite bind_Ret by done. rewrite HP. by erewrite bind_Ret by done.
Qed.

(** The text of a saved key. *)
Definition keystore_text (salt nonce password priv pub : string) : string :=
  MarshalIndent (keystoreFile_enc
    (mkKeystore (PublicKey_Hex pub) (hex_EncodeToString salt) (hex_EncodeToString nonce)
       (hex_EncodeToString (gcm_Seal (deriveKey password salt) nonce priv)))).

Lemma SaveKey_LoadKey salt nonce fault path password priv pub d d' o :
  String.length nonce = gcm_NonceSize → Public priv = Ret pub →
  SaveKey (Some salt) (Some nonce) fault path password priv d = (d', o) →
  let text := keystore_text salt nonce password priv pub in
  (∀ path', path' ≠ path → d' !! path' = d !! path') ∧
  match fault with
  | None => o = Ret tt ∧ d' !! path = Some text ∧ LoadKey path password d' = (d', Ret priv)
  | Some OpenFails => d' = d ∧ ∃ e, o = Fail e
  | Some (WriteStops n) => d' !! path = Some (string_take n text) ∧ (∃ e, o = Fail e) ∧
      ((n < String.length text)%nat → ∀ pw, ∃ e, LoadKey path pw d' = (d', Fail e))
  end.
Proof.
  intros Hn HP E. cbn zeta. rewrite (SaveKey_run _ _ _ _ _ _ _ _ HP) in E.
  fold (keystore_text salt nonce password priv pub) in E. split.
  { intros path'. by eapply WriteFile_other. }
  destruct fault as [[|n]|]; simpl in E; injection E as <- <-; [by eauto|rewrite lookup_insert_eq|rewrite lookup_insert_eq].
  - split_and!; [done|by eauto|]. intros Hlt pw. unfold LoadKey, ReadFile, mbind, M_bind. rewrite lookup_insert_eq.
    unfold Unmarshal, keystore_text. rewrite keystore_broken by exact Hlt. by eexists.
  - split_and!; [done|done|].
    erewrite LoadKey_run; [|apply lookup_insert_eq|apply keystore_dec_enc; apply hex_valid|apply hex_decode_encode..].
    unfold open_sealed. rewrite bool_decide_eq_false_2 by (by intros []).
    rewrite gcm_open_seal; [done| |done]. apply pbkdf2_length.
Qed.

(** C37: a key saved under a password is loaded again with that password,
    whatever was in the file before, and gives the wallet it came from; the
    other files are untouched.  A save that fails leaves them untouched too.
    If the file could not be opened, it is as it was; but a write that stops
    midway leaves the first bytes of the new text in place of the former one,
    and unless these are all of it, no password loads any key from the file any
    more: the key that was there is gone. *)
Theorem keystore_round_trip salt nonce fault path password priv pub d d' o :
  String.length nonce = gcm_NonceSize → Public priv = Ret pub →
  SaveKey (Some salt) (Some nonce) fault path password priv d = (d', o) →
  let text := keystore_text salt nonce password priv pub in
  (∀ path', path' ≠ path → d' !! path' = d !! path') ∧
  match fault with
  | None => o = Ret tt ∧ d' !! path = Some text ∧ LoadKey path password d' = (d', Ret priv) ∧
      wallet_New priv = Ret (mkWallet priv pub)
  | Some OpenFails => d' = d ∧ ∃ e, o = Fail e
  | Some (WriteStops n) => d' !! path = Some (string_take n text) ∧ (∃ e, o = Fail e) ∧
      ((n < String.length text)%nat → ∀ pw, ∃ e, LoadKey path pw d' = (d', Fail e))
  end.
Proof.
  intros Hn HP E. destruct (SaveKey_LoadKey _ _ _ _ _ _ _ _ _ _ Hn HP E) as [Hother H]. split; [done|].
  destruct fault as [[|n]|]; [done|done|]. destruct H as (? & ? & ?). split_and!; try done.
  unfold wallet_New. by rewrite HP.
Qed.

(** A keystore whose nonce does not have twelve bytes makes [LoadKey]
    panic, although it is meant to report a corrupted keystore. *)
Theorem bad_nonce_panics path password d k salt nonce text :
  d !! path = Some (MarshalIndent (keystoreFile_enc k)) → valid_utf8 (ks_PubKey k) = true →
  hex_DecodeString (ks_Salt k) = Some salt → hex_DecodeString (ks_Nonce k) = Some nonce →
  hex_DecodeString (ks_CipherText k) = Some text → String.length nonce ≠ gcm_NonceSize →
  ∃ msg, LoadKey path password d = (d, Panic msg).
Proof.
  intros Hd Hp Hs Hn Ht Hl. eexists.
  erewrite LoadKey_run; [|done| |done..].
  - unfold open_sealed. by rewrite bool_decide_eq_true_2.
  - apply keystore_dec_enc; [done|by eapply hex_decode_valid..].
Qed.
End KeystoreFacts.

(** ** Paying *)

Section Payments.
Context `{F : FloatFmt, FL : !FloatLaws, C : Crypto, CL : !CryptoLaws, O : MapOrder}.
Implicit Types (b : Block) (tx : Transaction) (w : world).

(** An account that can pay the fee of a transaction with its next nonce. *)
Record can_pay b tx w : Prop := {
  cp_nonce : nonce w (tx_From tx) = tx_Nonce tx;
  cp_last : tx_Nonce tx ≠ max_uint64;
  cp_fee : 0 ≤ tx_Fee tx ≤ balance w (tx_From tx);
  cp_proposer : balance w (hdr_Proposer (blk_Header b)) + tx_Fee tx ≤ max_uint64
}.

Lemma get_account_run (w : world) l a : GetAccount a (mkAbs w l) = (mkAbs w l, Ret (account_at w a)).
Proof. done. Qed.

Lemma set_account_run (w : world) l x :
  SetAccount x (mkAbs w l) = (mkAbs (put_account (acc_Address x) (acc_Balance x) (acc_Nonce x) w) l, Ret tt).
Proof. by destruct x. Qed.

(** A check of a handler that is not triggered, and an access to an account. *)
#[local] Ltac pass :=
  erewrite bind_Ret by (apply reject_run, bool_decide_eq_false_2; first [congruence | lia]).
#[local] Ltac get a w :=
  first [ erewrite bind_Ret by apply (get_account_run w)
        | erewrite bind_Ret by (apply wrap_Ret_inv, (get_account_run w)) ];
  fold (nonce w a) (balance w a).
#[local] Ltac put := erewrite bind_Ret by apply set_account_run; cbn [acc_Address acc_Balance acc_Nonce].

Lemma charge_runs b tx w l :
  wf_world w → can_pay b tx w → ∃ s, charge b tx (mkAbs w l) = (s, Ret tt).
Proof.
  intros Hw [Hn Hl [Hf0 Hf] Hp]. unfold charge. get (tx_From tx) w. do 3 pass.
  destruct (bool_decide (tx_Fee tx > 0 ∧ _ ∧ _)) eqn:E; [|by eexists].
  apply bool_decide_eq_true in E as (_ & _ & Hne). put.
  rewrite account_at_address by done.
  erewrite bind_Ret by (apply wrap_Ret_inv, get_account_run).
  rewrite account_at_put, decide_False by done.
  fold (balance w (hdr_Proposer (blk_Header b))). pass. by eexists.
Qed.

Lemma transfer_runs b tx p w l payload :
  wf_world w → Unmarshal TransferPayload_dec TransferPayload_zero payload = Some p →
  0 < tp_Amount p ≤ balance w (tx_From tx) → (∃ pub, PubKeyFromHex (tp_To p) = Ret pub) →
  balance w (tp_To p) + tp_Amount p ≤ max_uint64 →
  ∃ s, handleTransfer (ctx_of b tx) payload (mkAbs w l) = (s, Ret tt).
Proof.
  intros Hw Hp Ham [pub Hpub] Hto. pose proof (PubKeyFromHex_nonempty _ _ Hpub) as Hne.
  pose proof (balance_range w (tx_From tx) Hw) as Hr. unfold is_u64 in Hr.
  unfold handleTransfer, decode_payload. rewrite Hp. erewrite bind_Ret by done.
  do 2 pass. rewrite Hpub. erewrite bind_Ret by done. cbn [ctx_of ctx_Tx].
  get (tx_From tx) w. pass. put. rewrite account_at_address by done.
  rewrite sub64_exact by (unfold is_u64; lia).
  erewrite bind_Ret by apply get_account_run.
  erewrite bind_Ret; [|apply reject_run, bool_decide_eq_false_2].
  2: { rewrite account_at_put. case_decide as Hd; [rewrite Hd in *; cbn [acc_Balance]|];
       fold (balance w (tp_To p)); lia. }
  put. by eexists.
Qed.

(** An account receives at most the fee, and only the sender pays it. *)
Lemma balance_fee_range b tx w a :
  0 ≤ tx_Fee tx → ∃ tip, 0 ≤ tip ≤ tx_Fee tx ∧
  balance (fee_effect b tx w) a = balance w a - (if decide (tx_From tx = a) then tx_Fee tx else 0) + tip.
Proof.
  intros Hf. unfold fee_effect, put_balance.
  generalize (tx_From tx) (hdr_Proposer (blk_Header b)). intros from proposer. case_bool_decide.
  - exists (if decide (proposer = a) then tx_Fee tx else 0).
    split; [case_decide; lia|]. rewrite !balance_put. repeat case_decide; subst; try lia; congruence.
  - exists 0. split; [lia|]. rewrite balance_put. repeat case_decide; subst; try lia; congruence.
Qed.

Lemma registry_transfer : reg_handlers (globalRegistry (W := AbsState)) !! TxTransfer = Some handleTransfer.
Proof.
  rewrite globalRegistry_eq. apply elem_of_list_to_map_1; [|unfold handler_list; set_solver].
  apply (bool_decide_unpack _). vm_compute. exact I.
Qed.

(** A transfer the sender can pay for succeeds. *)
Lemma transfer_executes b tx p w :
  block_ok b → wf_world w → tx_Verify tx = Ret tt → tx_Type tx = TxTransfer →
  Unmarshal TransferPayload_dec TransferPayload_zero (tx_Payload tx) = Some p →
  is_u64 (tx_Fee tx) → can_pay b tx w → 0 < tp_Amount p →
  tp_Amount p + tx_Fee tx ≤ balance w (tx_From tx) →
  balance w (tp_To p) + tp_Amount p + tx_Fee tx ≤ max_uint64 → (∃ pub, PubKeyFromHex (tp_To p) = Ret pub) →
  run_tx b tx w = (move (tx_From tx) (tp_To p) (tp_Amount p) (fee_effect b tx w), Ret tt).
Proof.
  intros Hb Hw HV Hty Hp Hfee Hpay Hpos Hbal Hover Hto.
  pose proof (tx_Verify_From_valid _ HV) as Hf. pose proof (tx_Verify_Ret_inv _ HV) as (Hne & _).
  destruct (charge_runs b tx w [] Hw Hpay) as [s Hs].
  pose proof (charge_wf _ _ _ _ _ Hb Hf (wf_mkAbs w Hw) Hs) as [Hw1 _].
  pose proof (charge_effect b tx _ _ (wf_mkAbs w Hw) Hfee Hne Hs) as (_ & _ & _ & ->).
  cbn [abs_world abs_snaps] in *. destruct Hfee as [Hfee0 _].
  destruct (balance_fee_range b tx w (tx_From tx) Hfee0) as (t1 & Ht1 & Hb1).
  destruct (balance_fee_range b tx w (tp_To p) Hfee0) as (t2 & Ht2 & Hb2).
  rewrite decide_True in Hb1 by done.
  assert (balance (fee_effect b tx w) (tp_To p) ≤ balance w (tp_To p) + tx_Fee tx) by (case_decide; lia).
  destruct (transfer_runs b tx p (fee_effect b tx w) [] (tx_Payload tx)) as [s' Hs']; [done|done|lia|done|lia|].
  unfold run_tx. rewrite HV. unfold applyTx. erewrite bind_Ret by done.
  unfold reg_Execute. rewrite Hty. change (mkContext b tx (ex_emitter abs_executor)) with (ctx_of b tx).
  replace (reg_handlers (ex_registry abs_executor) !! TxTransfer) with (Some (handleTransfer (W := AbsState)))
    by (symmetry; apply registry_transfer).
  rewrite Hs'. apply (transfer_effect b tx) in Hs' as (p' & Hp' & _ & _ & ->); [|done|done].
  assert (p' = p) as -> by congruence. done.
Qed.

(** C19: a payment built with the wallet goes through.  The transaction is the
    sender's, signed, and passes [Verify]; a pool with room takes it in the time
    window; and executed where the sender has the nonce, the fee and the amount
    and no balance overflows, it succeeds: the fee is charged and the amount moved
    to the recipient, and nothing else changes. *)
Theorem wallet_payment_executes now priv wal chain to amount nonce fee :
  is_keypair priv → wallet_New priv = Ret wal → is_u64 fee → is_i64 now →
  is_u64 amount → 0 < amount → (∃ pub, PubKeyFromHex to = Ret pub) →
  ∃ tx, wallet_Transfer now wal chain to amount nonce fee = Ret tx ∧
    tx_From tx = PubKey wal ∧ tx_Nonce tx = nonce ∧ tx_Fee tx = fee ∧ tx_Verify tx = Ret tt ∧
    (∀ now' m, now ≤ now' ≤ now + maxTxAge → is_i64 now' → Size m < maxMempoolSize →
       mp_txs m !! tx_ID tx = None → ∃ m', Add now' tx m = (m', Ret tt)) ∧
    (∀ b w, block_ok b → wf_world w → can_pay b tx w → amount + fee ≤ balance w (PubKey wal) →
       balance w to + amount + fee ≤ max_uint64 →
       run_tx b tx w = (move (PubKey wal) to amount (fee_effect b tx w), Ret tt)).
Proof.
  intros Hk Hw Hfe Hnow Hamt Hpos Hto.
  unfold wallet_New in Hw. destruct (Public priv) as [pub| |] eqn:HP; try done. injection Hw as <-.
  unfold wallet_Transfer, NewTx, NewTransaction. cbn [wal_pub wal_priv mbind outcome_bind].
  change (PubKey (mkWallet priv pub)) with (PublicKey_Hex pub).
  set (p := mkTransferPayload to amount).
  assert (parse (print (TransferPayload_enc p)) = Some (TransferPayload_enc p)) as Hparse
    by apply parse_print, TransferPayload_wf.
  remember (print (TransferPayload_enc p)) as text eqn:Etext. clear Etext.
  destruct (tx_Sign_Verify priv pub
    (mkTransaction "" chain TxTransfer (PublicKey_Hex pub) nonce fee now text ""))
    as (tx & Hs & HV & Hb); [done..| |].
  { unfold enc_raw. cbn [tx_Payload]. rewrite Hparse. case_bool_decide; simpl; eauto. }
  exists tx. destruct tx as [id chain' typ from nonce' fee' ts pl sig]. unfold body_of in Hb.
  cbn [tx_ChainID tx_Type tx_From tx_Nonce tx_Fee tx_Timestamp tx_Payload] in Hb.
  injection Hb as -> -> -> -> -> -> ->.
  split; [exact Hs|]. split_and!; try done.
  - intros now' m Ht Hn' Hsz Hnew. eexists. apply Add_run; try done; cbn [tx_Timestamp].
    + intros [_ H]. rewrite subi64_exact in H by (unfold is_i64, maxTxAge, min_int64, max_int64 in *; lia).
      unfold maxTxAge in *. lia.
    + intros [? _]. lia.
  - intros b w Hb Hwf Hpay Hbal Hover.
    assert (valid_TransferPayload p) as Hvp.
    { split; [|done]. destruct Hto as [q Hq]. by eapply PubKeyFromHex_valid. }
    assert (Unmarshal TransferPayload_dec TransferPayload_zero text = Some p) as Hp.
    { unfold Unmarshal. rewrite Hparse. by apply TransferPayload_roundtrip. }
    by apply (transfer_executes b (mkTransaction id chain TxTransfer (PublicKey_Hex pub) nonce fee now text sig) p w).
Qed.
End Payments.
