(* ===== verification/Main.v ===== *)
(** * The main program

    Models [main] and [loadConfig] of [src/cmd/node/main.go]: generating a key
    or certificates, bringing a node up from its configuration file, its
    keystore and its store to the point where the seed peers are connected, and
    running it until it is told to stop.  Parsed flags are an argument, and so
    is what the outside world yields ([Env]): the password, random bytes, the
    clocks, the opened database, the network. *)
From Stdlib Require Import Ascii Lia ZArith.
From stdpp Require Import base gmap strings list.
From S2P Require Import Prelude Crypto Json JsonFacts JsonParse JsonTyped Types Transaction Block.
From S2P Require Import State DB StateDB Events Vm Executor Ledger Invariants.
From S2P Require Import Mempool Blockchain Files Config Transit Node Frame Indexer Consensus.
From S2P Require Import Startup Peer Network Sync Rpc Wire Wallet Tls Certgen.

(** ** main *)

(** [os.IsNotExist], on the errors of [Load]. *)
Definition IsNotExist (e : error) : bool := bool_decide (e = EMsg "no such file").

Definition loadConfig (path : string) : M Files Config := λ d,
  match Load (ReadFile path d).2 with
  | Fail e => if IsNotExist e then (d, Ret DefaultConfig) else (d, Fail e)
  | o => (d, o)
  end.

Section Main.
Context `{C : Crypto, K : KeyCipher, P : PEM, X : X509, F : FloatFmt, O : MapOrder} {D : Type} `{HD : DB D}.

(** The mode [-genkey]; the random source yields a seed, a salt and a nonce. *)
Definition genkey (seed salt nonce : option string) (fault : option write_fault)
    (keyPath password : string) : M Files string :=
  w ← liftO (wallet_Generate seed);
  SaveKey salt nonce fault keyPath password (PrivKey w);;
  mret (PubKey w).

(** The mode [-gencerts dir]. *)
Definition gencerts (mkdir : outcome unit) (dr : Draws) (clock : nat → Z) (faults : nat → option pem_fault)
    (cfgPath dir : string) : M Files unit :=
  cfg ← loadConfig cfgPath errorf "config";
  GenerateAll mkdir dr clock faults dir (cfg_NodeID cfg) None errorf "gencerts".

(** What runs once the seed peers are connected. *)
Record Running : Type := mkRunning {
  run_cfg : Config;
  run_poa : PoA (Node D);
  run_host : Host D;
  run_handlers : Handlers D;
  run_tls : option tls_Config
}.

(** [fmt.Sprintf(":%d", port)] *)
Definition port_addr (port : Z) : string := ":" +:+ dec_of_Z port.

(** [main] without flags.  [mkdir] and [OpenFile] are what making a directory
    and opening a database yield, [clock] the readings of the clock after the
    one genesis is stamped with. *)
Definition launch (now : Z) (clock : nat → Z) (cfgPath keyPath password : string)
    (mkdir : string → outcome unit) (OpenFile : string → outcome D) (net : Net) : M Files Running :=
  cfg ← loadConfig cfgPath errorf "config";
  privKey ← LoadKey keyPath password errorf "load key";
  liftO (mkdir (cfg_DataDir cfg)) errorf "mkdir data dir";;
  db ← liftO (NewLevelDB OpenFile (cfg_DataDir cfg +:+ "/chain")) errorf "open db";
  let '(n, started) := start now cfg privKey db in
  liftO started;;
  let emitter := idx_New NewEmitter in
  poa ← liftO (poa_New cfg (mkExecutor globalRegistry (Some emitter)) emitter privKey);
  tlsCfg ← LoadTLSConfig (cfg_TLS cfg) errorf "tls";
  let '(h, listening) := Start net tlsCfg (port_addr (cfg_P2PPort cfg)) (NewHost n clock) in
  liftO listening errorf "p2p start";;
  let '(h, o) := connect_seeds (cfg_NodeID cfg) (λ sp, dial net tlsCfg (sp_Addr sp)) (cfg_SeedPeers cfg) h in
  liftO o;;
  mret (mkRunning cfg poa h (main_handlers poa) tlsCfg).

(** The flags, with their defaults. *)
Record Flags : Type := mkFlags { fl_config : string; fl_key : string; fl_genkey : bool; fl_gencerts : string }.
Definition default_flags : Flags := mkFlags "config.json" "validator.key" false "".

(** What the outside world yields during a run: random bytes, the faults of
    the files, the clocks, the password in the environment, the database and
    the connections. *)
Record Env : Type := mkEnv {
  env_password : string;
  env_seed : option string; env_salt : option string; env_nonce : option string;
  env_keyFault : option write_fault;
  env_mkdir : string → outcome unit; env_draws : Draws; env_ticks : nat → Z; env_pemFaults : nat → option pem_fault;
  env_now : Z; env_clock : nat → Z;
  env_OpenFile : string → outcome D; env_net : Net
}.

Inductive Ran : Type :=
| RanGenKey (pub : string)
| RanGenCerts
| RanNode (run : Running).

(** [main] up to the connected seed peers; [log.Fatal] is the failure. *)
Definition main (fl : Flags) (env : Env) : M Files Ran :=
  if fl_genkey fl then
    pub ← genkey (env_seed env) (env_salt env) (env_nonce env) (env_keyFault env) (fl_key fl) (env_password env);
    mret (RanGenKey pub)
  else if bool_decide (fl_gencerts fl ≠ "") then
    gencerts (env_mkdir env (fl_gencerts fl)) (env_draws env) (env_ticks env) (env_pemFaults env) (fl_config fl) (fl_gencerts fl);;
    mret RanGenCerts
  else
    run ← launch (env_now env) (env_clock env) (fl_config fl) (fl_key fl) (env_password env)
            (env_mkdir env) (env_OpenFile env) (env_net env);
    mret (RanNode run).

(** What follows: the RPC server starts, the production loop runs until a
    signal comes (it has seen [ticks] by then), and the deferred calls stop the
    server, stop the node and close the database. *)
Definition main_server (cfg : Config) : Server :=
  NewServer (port_addr (cfg_RPCPort cfg)) (gen_ChainID (cfg_Genesis cfg)) (cfg_RPCAuthToken cfg).
Definition serve (net : Net) (ticks : list Z) (run : Running) : M (Host D) Server :=
  srv ← liftO (Server_Start net (main_server (run_cfg run))) errorf "rpc start";
  on_node (Run (run_poa run) ticks);;
  let srv := Server_Stop srv in
  Stop;;
  logged (on_node (on_db db_Close));;
  mret srv.
End Main.
Arguments Running : clear implicits.
Arguments Ran : clear implicits.
Arguments Env : clear implicits.

(** ** Facts *)

(** What the outside world grants a node: its data directory and the database
    in it, a port for its peers, and dialling that may fail but not panic. *)
Record granted {D} (cfg : Config) (mkdir : string → outcome unit) (OpenFile : string → outcome D) (net : Net) (d : D)
    : Prop := {
  gr_mkdir : mkdir (cfg_DataDir cfg) = Ret tt;
  gr_open : OpenFile (cfg_DataDir cfg +:+ "/chain") = Ret d;
  gr_listen : ∀ tls, ∃ addr, listen net tls (port_addr (cfg_P2PPort cfg)) = Ret addr;
  gr_dial : ∀ tls addr msg, dial net tls addr ≠ Panic msg
}.

Section Seeds.
Context `{C : Crypto, F : FloatFmt, O : MapOrder} {D : Type} `{HD : DB D}.
Implicit Type h : Host D.

Lemma send_quietly r msg h p :
  ht_conns h !! r = Some p →
  ∃ h', logged (on_peer r (Send msg)) h = (h', Ret tt) ∧ io_only true h h' ∧ ht_node h' = ht_node h.
Proof.
  intros Hp. pose proof (keeps_logged _ _ (io_Send r msg true h) h (io_only_refl _ _)) as Hio.
  revert Hio. unfold logged. rewrite (on_peer_Some _ _ _ _ Hp).
  destruct (Send_cases msg p) as [(data & _ & _ & E)|(_ & e & E)]; rewrite E; simpl; eauto.
Qed.

Lemma Start_run net tls addr ln h :
  listen net tls addr = Ret ln →
  Start net tls addr h =
    (mkHost (ht_node h) (ht_conns h) (ht_peers h) (ht_stopped h) (ht_clock h) (Some (mkListener ln false)), Ret tt).
Proof. intros E. unfold Start. rewrite E. done. Qed.

Lemma connect_seed_run nodeID dial sp h :
  table_ok h → (∀ msg, dial sp ≠ Panic msg) →
  ∃ h', connect_seed nodeID dial sp h = (h', Ret tt) ∧ table_ok h' ∧ ht_node h' = ht_node h.
Proof.
  intros Ht Hd. unfold connect_seed, attempt, mbind, M_bind.
  destruct (dial sp) as [conn|e|msg]; [|by exists h|by destruct (Hd msg)].
  rewrite AddPeer_run. set (p := NewPeer (sp_ID sp) (sp_Addr sp) conn).
  pose proof (table_joined p h Ht) as Htj.
  assert (ht_conns (joined p h) !! length (ht_conns h) = Some p) as Hp.
  { unfold joined. simpl. by rewrite lookup_app_r, Nat.sub_diag by done. }
  destruct (send_quietly (length (ht_conns h)) (mkMessage MsgHello (print (VObj [("node_id", enc_string nodeID)]))) _ _ Hp)
    as (h1 & -> & Hio & Hn1). pose proof (table_io _ _ _ Hio Htj) as Ht1.
  unfold lookup_peer, peer_by_id. destruct (ht_peers h1 !! sp_ID sp) as [r|] eqn:Er.
  - destruct (Ht1 _ _ Er) as (q & Hq & _). unfold SyncWithPeer, RequestBlocks.
    destruct (send_quietly r (request_msg (next_height h1)) _ _ Hq) as (h2 & -> & Hio2 & Hn2).
    exists h2. split; [done|]. split; [by eapply table_io|]. by rewrite Hn2, Hn1.
  - exists h1. by split_and!.
Qed.

Lemma connect_seeds_run nodeID dial sps h :
  table_ok h → (∀ sp msg, dial sp ≠ Panic msg) →
  ∃ h', connect_seeds nodeID dial sps h = (h', Ret tt) ∧ table_ok h' ∧ ht_node h' = ht_node h.
Proof.
  intros Ht Hd. unfold connect_seeds. revert h Ht. induction sps as [|sp sps IH]; intros h Ht; [by exists h|].
  destruct (connect_seed_run nodeID dial sp h Ht (Hd sp)) as (h1 & E1 & Ht1 & Hn1).
  destruct (IH h1 Ht1) as (h2 & E2 & Ht2 & Hn2). exists h2. rewrite <- Hn1.
  split; [|done]. cbn [for_each]. by erewrite bind_Ret by exact E1.
Qed.
End Seeds.

Lemma valid_startable cfg : valid_Config cfg → startable cfg.
Proof.
  intros Hc. split; [apply Hc|]. intros a z Ha. unfold alloc_of in Ha.
  pose proof (vc_Alloc _ Hc) as H. destruct (gen_Alloc (cfg_Genesis cfg)); [by apply (H a z)|].
  change ((∅ : gmap string Z) !! a = Some z) in Ha. by rewrite lookup_empty in Ha.
Qed.

Lemma scheduled_single v z : scheduled [v] z = Ret v.
Proof. unfold scheduled. change (Z.of_nat (length [v])) with 1. by rewrite Z.rem_1_r. Qed.

(** The wallet [genkey] makes, and the file it leaves. *)
Lemma genkey_run `{C : Crypto, K : KeyCipher, CL : !CryptoLaws, KL : !KeyCipherLaws} seed salt nonce path pw d d' pub :
  String.length seed = 32%nat → String.length nonce = gcm_NonceSize →
  genkey (Some seed) (Some salt) (Some nonce) None path pw d = (d', Ret pub) →
  let priv := seed +:+ ed25519_pub_of_seed seed in
  is_keypair priv ∧ Public priv = Ret (ed25519_pub_of_seed seed) ∧
  pub = PublicKey_Hex (ed25519_pub_of_seed seed) ∧ LoadKey path pw d' = (d', Ret priv) ∧
  (∀ path', path' ≠ path → d' !! path' = d !! path').
Proof.
  intros Hs Hn. cbn zeta. assert (is_keypair (seed +:+ ed25519_pub_of_seed seed)) as Hk by by exists seed.
  destruct (keypair_Public _ Hk) as (seed' & Hs' & E & HP). apply sapp_inj_len in E as [<- _]; [|lia].
  unfold genkey, wallet_Generate, GenerateKeyPair, wallet_New. cbn [mbind outcome_bind fst].
  rewrite HP. cbn [mbind outcome_bind]. erewrite bind_Ret by done. cbn [PrivKey wal_priv].
  intros (d1 & [] & E1 & E2)%bind_Ret_inv. injection E2 as -> <-.
  destruct (SaveKey_LoadKey salt nonce None path pw _ _ d d' (Ret tt) Hn HP E1) as (Ho & _ & _ & HL).
  by split_and!.
Qed.

Section Properties.
Context `{C : Crypto, CL : !CryptoLaws, K : KeyCipher, KL : !KeyCipherLaws, P : PEM}.
Context `{F : FloatFmt, FL : !FloatLaws, O : MapOrder} {D : Type} `{HD : DB D, HDR : DBRep D, HDL : !DBLaws D}.

(** A launch, given what the files hold and how the node starts on the store. *)
Lemma launch_from cfg priv pub cfgPath keyPath pw files now clock (d : D) mkdir OpenFile net tls n :
  valid_Config cfg → is_keypair priv → Public priv = Ret pub →
  loadConfig cfgPath files = (files, Ret cfg) → LoadKey keyPath pw files = (files, Ret priv) →
  LoadTLSConfig (cfg_TLS cfg) files = (files, Ret tls) → granted cfg mkdir OpenFile net d →
  start now cfg priv d = (n, Ret tt) →
  ∃ run, launch now clock cfgPath keyPath pw mkdir OpenFile net files = (files, Ret run) ∧
    run_cfg run = cfg ∧ run_tls run = tls ∧ poa_ok (run_poa run) ∧
    PublicKey_Hex (poa_pubKey (run_poa run)) = PublicKey_Hex pub ∧ ht_node (run_host run) = n ∧
    table_ok (run_host run) ∧ run_handlers run = main_handlers (run_poa run) ∧
    (cfg_Validators cfg = [PublicKey_Hex pub] → IsProposer (run_poa run) n = Ret true).
Proof.
  intros Hc Hk HP El Hload Htls [Hmk Hop Hln Hdial] Es. destruct (Hln tls) as [addr Ha].
  set (poa := mkPoA cfg (mkExecutor globalRegistry (Some (idx_New NewEmitter))) (idx_New NewEmitter) priv pub
              : PoA (Node D)).
  set (h0 := mkHost n [] ∅ false clock (Some (mkListener addr false))).
  destruct (connect_seeds_run (cfg_NodeID cfg) (λ sp, dial net tls (sp_Addr sp)) (cfg_SeedPeers cfg) h0)
    as (h & Eh & Hth & Hnh); [done|intros sp; apply Hdial|].
  exists (mkRunning cfg poa h (main_handlers poa) tls). split.
  - unfold launch. erewrite bind_Ret by (apply wrap_Ret_inv; exact El).
    erewrite bind_Ret by (apply wrap_Ret_inv; exact Hload). rewrite Hmk. erewrite bind_Ret by done.
    unfold NewLevelDB. rewrite Hop. erewrite bind_Ret by done. rewrite Es. erewrite bind_Ret by done.
    unfold poa_New. rewrite HP. erewrite bind_Ret by done.
    erewrite bind_Ret by (apply wrap_Ret_inv; exact Htls).
    rewrite (Start_run _ _ _ _ _ Ha). erewrite bind_Ret by done. change (mkHost _ _ _ _ _ _) with h0. rewrite Eh. by erewrite bind_Ret by done.
  - cbn [run_cfg run_poa run_host run_handlers run_tls]. split_and!; try done.
    + split; try done. apply indexer_quiet, quiet_new. apply Hc.
    + intros Hvs. unfold IsProposer. cbn [poa_cfg poa]. rewrite Hvs.
      rewrite bool_decide_eq_false_2 by done. rewrite scheduled_single.
      cbn [mbind outcome_bind]. by rewrite bool_decide_eq_true_2.
Qed.

(** The files after saving a configuration and generating a key. *)
Lemma setup_files cfg seed salt nonce cfgPath keyPath pw files0 files1 files2 pub :
  valid_Config cfg → Validate cfg = Ret tt → cfgPath ≠ keyPath →
  String.length seed = 32%nat → String.length nonce = gcm_NonceSize →
  Save None cfg cfgPath files0 = (files1, Ret tt) →
  genkey (Some seed) (Some salt) (Some nonce) None keyPath pw files1 = (files2, Ret pub) →
  ∃ priv pk, is_keypair priv ∧ Public priv = Ret pk ∧ pub = PublicKey_Hex pk ∧
    files2 !! cfgPath = Some (MarshalIndent (Config_enc cfg)) ∧ LoadKey keyPath pw files2 = (files2, Ret priv).
Proof.
  intros Hc Hv Hpaths Hseed Hnonce Hsave Hgen.
  destruct (genkey_run _ _ _ _ _ _ _ _ Hseed Hnonce Hgen) as (Hk & HP & -> & Hload & Hother).
  eexists _, _. split; [exact Hk|]. split; [exact HP|]. split; [done|]. split; [|done].
  rewrite (Hother _ Hpaths). by destruct (WriteFile_Ret _ _ _ _ _ Hsave).
Qed.

Lemma loadConfig_saved cfg path files :
  valid_Config cfg → Validate cfg = Ret tt → files !! path = Some (MarshalIndent (Config_enc cfg)) →
  loadConfig path files = (files, Ret cfg).
Proof. intros Hc Hv Hf. unfold loadConfig. by rewrite (Load_saved cfg). Qed.

(** C21: setting up and launching.  After saving a valid configuration and
    generating a key, a node launched with that password on an empty store runs
    that configuration with that key: its engine is well-formed, its chain is
    the genesis block and its world the allocation, and it registers the
    handlers of the syncer, whatever becomes of dialling the seed peers; if it
    is the only validator the next block is its to propose. *)
Theorem setup_then_launch cfg seed salt nonce cfgPath keyPath pw files0 files1 files2 pub
    now clock (d : D) mkdir OpenFile net :
  valid_Config cfg → Validate cfg = Ret tt → no_tls (cfg_TLS cfg) = true → cfgPath ≠ keyPath →
  String.length seed = 32%nat → String.length nonce = gcm_NonceSize → is_i64 now →
  Save None cfg cfgPath files0 = (files1, Ret tt) →
  genkey (Some seed) (Some salt) (Some nonce) None keyPath pw files1 = (files2, Ret pub) →
  granted cfg mkdir OpenFile net d → db_contents d = ∅ → db_healthy d →
  ∃ run g, launch now clock cfgPath keyPath pw mkdir OpenFile net files2 = (files2, Ret run) ∧
    run_cfg run = cfg ∧ poa_ok (run_poa run) ∧ PublicKey_Hex (poa_pubKey (run_poa run)) = pub ∧
    node_ok (ht_node (run_host run)) [g] ∧ nd_tip (ht_node (run_host run)) = Some g ∧
    world_at (ht_node (run_host run)) = genesis_world (alloc_of cfg) ∧
    table_ok (run_host run) ∧ run_handlers run = main_handlers (run_poa run) ∧
    (cfg_Validators cfg = [pub] → IsProposer (run_poa run) (ht_node (run_host run)) = Ret true).
Proof.
  intros Hc Hv Htls Hpaths Hseed Hnonce Hnow Hsave Hgen Hgr Hd Hh.
  destruct (setup_files _ _ _ _ _ _ _ _ _ _ _ Hc Hv Hpaths Hseed Hnonce Hsave Hgen)
    as (priv & pk & Hk & HP & -> & Hf & Hload).
  destruct (start_fresh now cfg priv _ d Hk HP (valid_startable _ Hc) Hnow Hd Hh)
    as (n & g & Es & Hn & _ & _ & Htip & Hhd & _ & _ & Hw).
  destruct (launch_from cfg priv pk cfgPath keyPath pw files2 now clock d mkdir OpenFile net None n)
    as (run & E & H1 & _ & H3 & H4 & Hrn & H); try done; [by apply loadConfig_saved|by apply no_tls_run|].
  exists run, g. rewrite Hrn. destruct_and!. by split_and!.
Qed.

(** A node launched without a configuration file runs the defaults, which
    [Validate] would refuse: they name no validator, so it never proposes a
    block and accepts none. *)
Theorem unconfigured_node_idles now clock cfgPath keyPath pw mkdir OpenFile net files files' run :
  files !! cfgPath = None →
  launch (D := D) now clock cfgPath keyPath pw mkdir OpenFile net files = (files', Ret run) →
  run_cfg run = DefaultConfig ∧ Validate (run_cfg run) ≠ Ret tt ∧
  ∀ t pb n, IsProposer (run_poa run) n = Ret false ∧ ∃ e, ValidateBlock (run_poa run) t pb n = Fail e.
Proof.
  intros Hf. unfold launch.
  assert (loadConfig cfgPath files = (files, Ret DefaultConfig)) as El.
  { unfold loadConfig, ReadFile. by rewrite Hf. }
  erewrite bind_Ret by (apply wrap_Ret_inv; exact El).
  intros (d1 & key & _ & (d2 & u & _ & (d3 & db & _ & E)%bind_Ret_inv)%bind_Ret_inv)%bind_Ret_inv.
  destruct (start now DefaultConfig key db) as [n0 o0].
  apply bind_Ret_inv in E as (d4 & u' & _ & (d5 & poa & Hpoa & (d6 & tls & _ & E)%bind_Ret_inv)%bind_Ret_inv).
  destruct (Start _ _ _ _) as [h0 ol]. apply bind_Ret_inv in E as (d7 & u7 & _ & E).
  destruct (connect_seeds _ _ _ _) as [h o]. apply bind_Ret_inv in E as (d8 & u8 & _ & [= _ <-]).
  apply liftO_Ret_inv in Hpoa as [Hpoa _]. unfold poa_New in Hpoa.
  destruct (Public key) as [pk| |]; try done. injection Hpoa as <-.
  split; [done|]. split; [by vm_compute|]. intros t pb n. split; [done|]. by eexists.
Qed.
End Properties.

(** ** Shutting down *)

Section Shutdown.
Context `{C : Crypto, F : FloatFmt, O : MapOrder} {D : Type} `{HD : DB D}.
Implicit Type h : Host D.

Lemma close_all (l : list (string * nat)) h :
  (∀ r, r ∈ l.*2 → is_Some (ht_conns h !! r)) →
  ∃ h', for_each (λ q : string * nat, on_peer q.2 Close) l h = (h', Ret tt) ∧ ht_node h' = ht_node h ∧
    ht_peers h' = ht_peers h ∧ ht_stopped h' = ht_stopped h ∧ ht_listener h' = ht_listener h ∧
    ∀ r p, ht_conns h !! r = Some p → ∃ p', ht_conns h' !! r = Some p' ∧ peer_ID p' = peer_ID p ∧
      (r ∈ l.*2 ∨ peer_closed p = true → peer_closed p' = true).
Proof.
  revert h. induction l as [|[id r0] l IH]; intros h Hall.
  { exists h. split_and!; try done. intros r p Hp. exists p. split_and!; try done. by intros [?%elem_of_nil|]. }
  destruct (Hall r0) as [p0 Hp0]; [set_solver|]. destruct (Close_cases p0) as (Ec & Hid0 & Hc0).
  set (h1 := set_ht_conns (<[r0 := (Close p0).1]> (ht_conns h)) h).
  assert (on_peer r0 Close h = (h1, Ret tt)) as E1 by (rewrite (on_peer_Some _ _ _ _ Hp0), Ec; done).
  assert (∀ r p, ht_conns h !! r = Some p → ∃ p1, ht_conns h1 !! r = Some p1 ∧ peer_ID p1 = peer_ID p ∧
    (r = r0 ∨ peer_closed p = true → peer_closed p1 = true)) as H1.
  { intros r p Hp. simpl. destruct (decide (r = r0)) as [->|Hr].
    - rewrite Hp0 in Hp. injection Hp as <-. rewrite list_lookup_insert_eq by (by eapply lookup_lt_Some). eauto.
    - rewrite list_lookup_insert_ne by done. exists p. split_and!; try done. by intros [|]. }
  destruct (IH h1) as (h' & E & Hn & Hps & Hst & Hln & Hcl).
  { intros r Hr. destruct (Hall r) as [p Hp]; [set_solver|]. destruct (H1 _ _ Hp) as (p1 & -> & _). eauto. }
  exists h'. split; [cbn [for_each]; by erewrite bind_Ret by exact E1|]. split_and!; try done.
  intros r p Hp. destruct (H1 _ _ Hp) as (p1 & Hp1 & Hid1 & Hc1). destruct (Hcl _ _ Hp1) as (p' & Hp' & Hid' & Hc').
  exists p'. split; [done|]. split; [congruence|]. set_solver.
Qed.

Context `{CL : !CryptoLaws, FL : !FloatLaws, HDR : DBRep D, HDL : !DBLaws D}.

(** What [serve] leaves when the production loop ends at [n']. *)
Definition shut_down n' h' (srv : Server) : Prop :=
  (ht_node h' = set_nd_db (db_Close (nd_db n')).1 n' ∧ db_contents (nd_db (ht_node h')) = db_contents (nd_db n')) ∧
  ht_stopped h' = true ∧ srv_shutdown srv = true ∧ (∀ ln, ht_listener h' = Some ln → ln_closed ln = true) ∧
  ∀ id r, ht_peers h' !! id = Some r → ∃ p, ht_conns h' !! r = Some p ∧ peer_ID p = id ∧ peer_closed p = true.

Lemma serve_run net ticks (run : Running D) h n' addr :
  table_ok h → ht_stopped h = false → Run (run_poa run) ticks (ht_node h) = (n', Ret tt) →
  net_Listen net (port_addr (cfg_RPCPort (run_cfg run))) = Ret addr →
  ∃ h' srv, serve net ticks run h = (h', Ret srv) ∧ shut_down n' h' srv.
Proof.
  intros Ht Hst E Ea.
  set (h1 := set_ht_node n' h). assert (table_ok h1) as Ht1 by done.
  destruct (table_refs h1 (range 0 (ht_peers h1)) Ht1 (range_perm _ _)) as [_ Hin].
  set (h2 := mkHost n' (ht_conns h1) (ht_peers h1) true (ht_clock h1)
               ((λ ln, mkListener (ln_Addr ln) true) <$> ht_listener h1)).
  destruct (close_all (range 0 (ht_peers h1)) h2) as (h3 & Ec & Hn & Hps & Hs & Hln & Hcl).
  { intros r (p & Hp & _)%Hin. exists p. exact Hp. }
  destruct (Close_law (nd_db n')) as [Hd Hp]. destruct (db_Close (nd_db n')) as [d oc] eqn:Ed.
  exists (set_ht_node (set_nd_db d n') h3). eexists. split.
  - unfold serve. unfold Server_Start at 1. cbn [srv_addr main_server NewServer]. rewrite Ea.
    erewrite bind_Ret by done. erewrite bind_Ret by (unfold on_node, on_part; by rewrite E).
    erewrite bind_Ret by (unfold Stop; cbn [ht_stopped set_ht_node]; rewrite Hst; exact Ec).
    erewrite bind_Ret; [reflexivity|]. unfold logged, on_node, on_db, on_part. rewrite Hn. cbn [ht_node h2].
    rewrite Ed. by destruct oc; [..|destruct (Hp msg)].
  - unfold shut_down. rewrite Ed. split_and!; try done.
    + intros ln. cbn [ht_listener set_ht_node]. rewrite Hln. simpl. by intros (ln' & _ & ->)%fmap_Some.
    + cbn [ht_peers ht_conns set_ht_node]. rewrite Hps. intros id r Hr.
      destruct (Ht1 id r Hr) as (p & Hp0 & <-). destruct (Hcl r p Hp0) as (p' & Hp' & Hid & Hc).
      exists p'. split; [done|]. split; [done|]. apply Hc. left. apply Hin. eauto.
Qed.
End Shutdown.

(** ** A restart *)

Section Restart.
Context `{C : Crypto, CL : !CryptoLaws, K : KeyCipher, KL : !KeyCipherLaws, P : PEM}.
Context `{F : FloatFmt, FL : !FloatLaws, O : MapOrder} {D : Type} `{HD : DB D, HDR : DBRep D, HDL : !DBLaws D}.
Implicit Type h : Host D.

(** Another handle on the same contents starts the same node. *)
Lemma start_reopened now cfg priv (n : Node D) l t d :
  bc_ok (nd_chain n) (l ++ [t]) → st_inv (NewNode (nd_db n)) →
  db_contents d = db_contents (nd_db n) → db_healthy d →
  ∃ n' t', start now cfg priv d = (n', Ret tt) ∧ block_in_transit t t' ∧ nd_tip n' = Some t' ∧
    node_ok n' (l ++ [t']) ∧ clean n' ∧ nd_height n' = nd_height n ∧ world_at n' = world_at (NewNode (nd_db n)).
Proof.
  intros Hc Hi Hd Hh. set (n2 := mkNode (NewStateDB d) (nd_tip n) (nd_height n) NewMempool false).
  assert (bc_ok (nd_chain n2) (l ++ [t])) as Hc2.
  { destruct Hc as [H1 H2 H3 H4 H5]. split; [|done..]. simpl. unfold nd_db at 1. simpl. by rewrite Hd. }
  destruct (clean_inv (NewNode (nd_db n)) d) as [Hi2 Hw]; [done|exact Hi| |].
  { intros k _. by rewrite Hd. }
  destruct (start_again now cfg priv n2 l t Hc2 Hh Hi2) as (n' & t' & H1 & H2 & H3 & H4 & H5 & _ & [H6 _] & H7).
  exists n', t'. split_and!; try done. by rewrite H7.
Qed.

(** C22: a node that is told to stop closes its listener, its server, its peers
    and its database, and loses nothing: launched again on the same database it
    has the same chain (the tip's payloads in stored form) and height, and the
    world that was flushed, which is the world at the stop when nothing was
    buffered. *)
Theorem stop_then_launch net ticks (run : Running D) h n' l t addr :
  table_ok h → ht_stopped h = false → Run (run_poa run) ticks (ht_node h) = (n', Ret tt) →
  net_Listen net (port_addr (cfg_RPCPort (run_cfg run))) = Ret addr →
  node_ok n' (l ++ [t]) → st_inv (NewNode (nd_db n')) →
  ∃ h' srv, serve net ticks run h = (h', Ret srv) ∧ shut_down n' h' srv ∧
  ∀ cfg priv pub cfgPath keyPath pw files now clock d mkdir OpenFile,
    valid_Config cfg → Validate cfg = Ret tt → no_tls (cfg_TLS cfg) = true → is_keypair priv → Public priv = Ret pub →
    files !! cfgPath = Some (MarshalIndent (Config_enc cfg)) → LoadKey keyPath pw files = (files, Ret priv) →
    granted cfg mkdir OpenFile net d → db_contents d = db_contents (nd_db (ht_node h')) → db_healthy d →
    ∃ run' t', launch now clock cfgPath keyPath pw mkdir OpenFile net files = (files, Ret run') ∧
      let n2 := ht_node (run_host run') in
      block_in_transit t t' ∧ node_ok n2 (l ++ [t']) ∧ clean n2 ∧ nd_height n2 = nd_height n' ∧
      world_at n2 = world_at (NewNode (nd_db n')) ∧ (clean n' → world_at n2 = world_at n').
Proof.
  intros Ht Hst E Ea [Hn Hc _ _] Hi. destruct (serve_run net ticks run h n' addr Ht Hst E Ea) as (h' & srv & Es & Hsd).
  exists h', srv. split; [done|]. split; [done|]. destruct Hsd as ((_ & Hdb) & _).
  intros cfg priv pub cfgPath keyPath pw files now clock d mkdir OpenFile Hcf Hv Htls Hk HP Hf Hload Hgr Hd Hh.
  rewrite Hdb in Hd.
  destruct (start_reopened now cfg priv n' l t d Hc Hi Hd Hh) as (n2 & t' & Hs2 & H1 & _ & H2 & H3 & H4 & H5).
  destruct (launch_from cfg priv pub cfgPath keyPath pw files now clock d mkdir OpenFile net None n2)
    as (run' & El & _ & _ & _ & _ & Hrn & _); try done; [by apply loadConfig_saved|by apply no_tls_run|].
  exists run', t'. split; [done|]. cbn zeta. rewrite Hrn. split_and!; try done.
  intros Hcl. rewrite H5. by apply (clean_inv n').
Qed.
End Restart.

(** ** A secured node *)

Section Secured.
Context `{C : Crypto, CL : !CryptoLaws, K : KeyCipher, KL : !KeyCipherLaws, P : PEM, X : X509, XL : !X509Laws}.
Context `{F : FloatFmt, FL : !FloatLaws, O : MapOrder} {D : Type} `{HD : DB D, HDR : DBRep D, HDL : !DBLaws D}.

Lemma LoadKey_ext path pw (d d' : Files) k :
  d' !! path = d !! path → LoadKey path pw d = (d, Ret k) → LoadKey path pw d' = (d', Ret k).
Proof.
  intros E H. unfold LoadKey, mbind, M_bind, ReadFile, liftO in *. rewrite E.
  destruct (d !! path) as [data|]; [|done]. destruct (of_option _ (Unmarshal _ _ data)) as [ks| |]; [|done..].
  destruct (of_option _ (hex_DecodeString (ks_Salt ks))); [|done..].
  destruct (of_option _ (hex_DecodeString (ks_Nonce ks))); [|done..].
  destruct (of_option _ (hex_DecodeString (ks_CipherText ks))); [|done..].
  destruct (aes_NewCipher _); [|done..]. by injection H as ->.
Qed.

(** Configuration, key and certificates made, a launched node speaks mutual
    TLS with the certificate of its authority. *)
Theorem secured_launch cfg dir seed salt nonce cfgPath keyPath pw made_dir dr tick faults
    files0 files1 files2 files3 pub now clock (d : D) mkdir OpenFile net :
  let path x := filepath_Join dir x in
  let nodeID := cfg_NodeID cfg in
  let made := path <$> ["ca.crt"; "ca.key"; nodeID +:+ ".crt"; nodeID +:+ ".key"] in
  valid_Config cfg → Validate cfg = Ret tt → cfgPath ≠ keyPath → cfgPath ∉ made → keyPath ∉ made →
  node_name nodeID → nodeID ≠ "ca" →
  cfg_TLS cfg = Some (mkTLS (path "ca.crt") (path (nodeID +:+ ".crt")) (path (nodeID +:+ ".key"))) →
  String.length seed = 32%nat → String.length nonce = gcm_NonceSize → is_i64 now →
  Save None cfg cfgPath files0 = (files1, Ret tt) →
  genkey (Some seed) (Some salt) (Some nonce) None keyPath pw files1 = (files2, Ret pub) →
  gencerts made_dir dr tick faults cfgPath dir files2 = (files3, Ret tt) →
  granted cfg mkdir OpenFile net d → db_contents d = ∅ → db_healthy d →
  ∃ run caDER nodeDER, launch now clock cfgPath keyPath pw mkdir OpenFile net files3 = (files3, Ret run) ∧
    run_cfg run = cfg ∧
    run_tls run = Some (mkTLSConfig [nodeDER] caDER caDER RequireAndVerifyClientCert VersionTLS13) ∧
    PublicKey_Hex (poa_pubKey (run_poa run)) = pub.
Proof.
  intros path nodeID made Hc Hv Hpaths Hcm Hkm Hn Hca Htls Hseed Hnonce Hnow Hsave Hgen Hcerts Hgr Hd Hh.
  destruct (setup_files _ _ _ _ _ _ _ _ _ _ _ Hc Hv Hpaths Hseed Hnonce Hsave Hgen)
    as (priv & pk & Hk & HP & -> & Hf & Hload).
  unfold gencerts in Hcerts. erewrite bind_Ret in Hcerts by (apply wrap_Ret_inv; by apply loadConfig_saved).
  apply wrap_Ret_inv in Hcerts.
  destruct (certs_load made_dir dr tick faults dir nodeID None files2 files3 Hn Hca Hcerts)
    as (caDER & ca & nodeDER & node & HL & _ & _ & _ & _ & _ & _ & _ & _ & _ & Hother).
  destruct (start_fresh now cfg priv _ d Hk HP (valid_startable _ Hc) Hnow Hd Hh) as (n & g & Es & _).
  destruct (launch_from cfg priv pk cfgPath keyPath pw files3 now clock d mkdir OpenFile net
    (Some (mkTLSConfig [nodeDER] caDER caDER RequireAndVerifyClientCert VersionTLS13)) n)
    as (run & E & H1 & H2 & _ & H3 & _); try done.
  - apply loadConfig_saved; [done..|]. by rewrite Hother.
  - eapply LoadKey_ext, Hload. by apply Hother.
  - by rewrite Htls.
  - by exists run, caDER, nodeDER.
Qed.
End Secured.
