(* ===== verification/Life.v ===== *)
(** * The life of a node

    Everything that can happen to a running node, in any order and for any
    time: the production loop ticks, requests are posted to the RPC server,
    peers connect and send bytes, the read loops handle what arrived, and the
    process dies between two of these steps and starts again over its store.
    [sound] is what a node keeps throughout.  It speaks of two worlds, the one
    the node answers from and the one in its store ([flushed]), which is all a
    crash leaves. *)
From Stdlib Require Import Ascii Lia ZArith.
From stdpp Require Import base gmap strings list.
From S2P Require Import Prelude Crypto Json JsonFacts JsonParse JsonTyped Types Transaction Block.
From S2P Require Import State DB StateDB Events Vm Executor Ledger Invariants.
From S2P Require Import Mempool Blockchain Config Transit Node Frame Indexer Consensus.
From S2P Require Import Startup Peer Network Sync Rpc.

Section Life.
Context `{C : Crypto, F : FloatFmt, O : MapOrder} {D : Type} `{HD : DB D}.
Implicit Types (p : PoA (Node D)) (h : Host D).

(** What happens next: a tick of the production loop; a request to the server;
    a connection made or accepted; bytes that arrive on a connection; an
    iteration of its read loop; the end of that loop; a transaction handed to
    [BroadcastTx]; the process killed and started again. *)
Inductive event : Type :=
| Tick (now : Z)
| Post (authToken : string) (now : Z) (r : HTTPRequest)
| Dialled (nodeID id addr : string) (dialled : outcome Conn)
| Accepted (remote : string) (conn : Conn)
| Arrive (r : nat) (data : string)
| ReadNext (r : nat)
| Hangup (r : nat)
| Gossip (tx : Transaction)
| Crash (now : Z) (priv : string).

(** More bytes to read on a connection. *)
Definition arrive (r : nat) (data : string) : M (Host D) unit :=
  on_peer r (on_conn (λ c, (mkConn (cn_in c +:+ data) (cn_out c) (cn_broken c), Ret tt))).

(** Killed between two steps and started again: only the store is left.  A step
    that was begun is finished first; what a crash leaves when it comes between
    the storing of a block and the flush of its state is the subject of
    [Startup.crash_before_commit]. *)
Definition restarted (p : PoA (Node D)) (now : Z) (priv : string) h : Host D :=
  NewHost (start now (poa_cfg p) priv (nd_db (ht_node h))).1 (ht_clock h).

Definition happens p (ev : event) h : Host D :=
  match ev with
  | Tick now => (on_node (produce_tick p now) h).1
  | Post authToken now r =>
      (on_node (serveHTTP authToken (gen_ChainID (cfg_Genesis (poa_cfg p))) now r) h).1
  | Dialled nodeID id addr dialled => (AddPeer nodeID id addr dialled h).1
  | Accepted remote conn => (accept DefaultMaxPeers remote conn h).1
  | Arrive r data => (arrive r data h).1
  | ReadNext r => (read_step (main_handlers p) r h).1
  | Hangup r => (drop_peer r h).1
  | Gossip tx => (BroadcastTx tx h).1
  | Crash now priv => restarted p now priv h
  end.

Definition live_on p (evs : list event) h : Host D := foldl (λ h ev, happens p ev h) h evs.

(** The headers a step brings into play: that of a block just produced, those
    of the blocks in a message just read. *)
Definition sent_blocks (msg : Message) : list Block :=
  match Unmarshal BlocksResponse_dec [] (msg_Payload msg) with Some bs => omap id bs | None => [] end.

Definition new_headers p (ev : event) h : list string :=
  match ev with
  | Tick now => match (ProduceBlock p now (ht_node h)).2 with Ret b => [header_text b] | _ => [] end
  | ReadNext r => match (on_peer r Receive h).2 with Ret msg => header_text <$> sent_blocks msg | _ => [] end
  | _ => []
  end.

Fixpoint headers_seen p (evs : list event) h : list string :=
  match evs with
  | [] => []
  | ev :: evs' => new_headers p ev h ++ headers_seen p evs' (happens p ev h)
  end.

(** Clocks run within 64 bits. *)
Definition event_ok (ev : event) : Prop := match ev with Tick now => is_i64 now | _ => True end.
End Life.

(** ** The invariant *)

(** Worlds that successful transactions, each in a block with a proposer, lead
    to from the allocation. *)
Definition from_genesis `{C : Crypto, F : FloatFmt, O : MapOrder} (alloc : gmap string Z) (w : world) : Prop :=
  (∃ txs, executes (genesis_world alloc) txs w) ∧ supply w = msum (λ z, z) alloc.

(** Sealed by the validator whose turn it was. *)
Record authorised `{C : Crypto} {W} (p : PoA W) (b : Block) : Prop := {
  au_chain : hdr_ChainID (blk_Header b) = gen_ChainID (cfg_Genesis (poa_cfg p));
  au_turn : scheduled (cfg_Validators (poa_cfg p)) (hdr_Height (blk_Header b)) = Ret (hdr_Proposer (blk_Header b));
  au_seal : ∃ pub, PubKeyFromHex (hdr_Proposer (blk_Header b)) = Ret pub ∧ blk_Verify b pub = Ret tt;
  au_root : ComputeTxRoot (blk_Transactions b) = Ret (hdr_TxRoot (blk_Header b))
}.

(** The node a new process finds in the store. *)
Definition flushed {D} (n : Node D) : Node D := NewNode (nd_db n).

Record sound `{C : Crypto, F : FloatFmt, O : MapOrder} {D} `{HD : DB D, HDR : DBRep D}
    (p : PoA (Node D)) (alloc : gmap string Z) (head : BlockHeader) (n : Node D) (chain : list Block) : Prop := {
  sn_node : node_ok n chain;
  sn_healthy : st_healthy n;
  sn_running : nd_exited n = false;
  sn_world : from_genesis alloc (world_at n);
  sn_stored : st_inv (flushed n) ∧ from_genesis alloc (world_at (flushed n));
  sn_chain : ∃ g rest, chain = g :: rest ∧ blk_Header g = head ∧ Forall (authorised p) rest;
  sn_root : ∀ t, nd_tip n = Some t →
    hdr_StateRoot (blk_Header t) = "" ∨ hdr_StateRoot (blk_Header t) = world_root (world_at (flushed n))
}.

Section Worlds.
Context `{C : Crypto, CL : !CryptoLaws, F : FloatFmt, FL : !FloatLaws, O : MapOrder}.
Context {D : Type} `{HD : DB D, HDR : DBRep D, HDL : !DBLaws D}.
Implicit Types (p : PoA (Node D)) (n : Node D) (b : Block) (w : world).

Lemma executes_app w1 l1 w2 l2 w3 : executes w1 l1 w2 → executes w2 l2 w3 → executes w1 (l1 ++ l2) w3.
Proof. induction 1 as [|w tx w' l w'' Hs _ IH]; [done|]. intros H. econstructor; [exact Hs|]. by apply IH. Qed.

Lemma from_genesis_run alloc b txs w w' o :
  block_ok b → hdr_Proposer (blk_Header b) ≠ "" → Forall tx_ok txs → wf_world w → from_genesis alloc w →
  run_txs b (Some <$> txs) w = (w', o) → from_genesis alloc w'.
Proof.
  intros Hb Hp Ht Hw [[l Hl] Hs] Hr. destruct (run_txs_executes _ _ _ _ _ Hb Ht Hr) as (l' & _ & He).
  split; [exists (l ++ l'); by eapply executes_app|]. rewrite <- Hs.
  eapply (run_txs_supply b (Some <$> txs)); [done| |done..].
  apply Forall_fmap. eapply Forall_impl; [exact Ht|]. intros tx [Hf _] tx' [= <-]. apply Hf.
Qed.

Lemma world_wf n : st_inv n → wf_world (world_at n).
Proof. intros Hn. by destruct (st_wf n Hn). Qed.

Lemma valid_block_txs b ts : valid_Block b → blk_Transactions b = Some <$> ts → Forall tx_ok ts.
Proof.
  intros (_ & Ht & _) E. rewrite E in Ht. apply Forall_fmap in Ht. eapply Forall_impl; [exact Ht|].
  intros tx Hv. simpl in Hv. unfold valid_Transaction in Hv. destruct_and!. by split.
Qed.

(** *** What is in the store *)

Lemma flushed_unflushed n n' :
  unflushed n n' → st_inv (flushed n) → st_inv (flushed n') ∧ world_at (flushed n') = world_at (flushed n).
Proof. intros Hu Hi. by apply (clean_inv (flushed n) (nd_db n')). Qed.

Lemma flushed_clean n : clean n → st_inv n → st_inv (flushed n) ∧ world_at (flushed n) = world_at n.
Proof. intros Hc Hi. by apply clean_inv. Qed.

(** *** Who seals *)

Lemma valid_after_authorised p t b : valid_after p t b → authorised p b.
Proof. by intros []. Qed.

Lemma sealed_authorised p now txs n chain b root t :
  poa_ok p → bc_ok (nd_chain n) chain → IsProposer p n = Ret true → nd_tip n = Some t →
  sealed p (next_block p now txs n) b root → authorised p b.
Proof.
  intros Hp Hc Hi Et [Sh St _ Sv _]. apply IsProposer_scheduled in Hi as [_ Hi].
  pose proof (bco_height _ _ Hc t) as Hh. rewrite <- (bco_tip _ _ Hc) in Hh. simpl in Hh. specialize (Hh Et).
  unfold next_block, next_position in Sh, St. rewrite Et in Sh, St. simpl in Sh, St. unfold set_StateRoot in Sh. simpl in Sh.
  rewrite Hh in Hi. split; rewrite ?St, ?ComputeTxRoot_Some, ?Sh; try done.
  exists (poa_pubKey p). split; [by apply poa_Hex|done].
Qed.

Lemma authorised_transit p b b' : block_in_transit b b' → authorised p b → authorised p b'.
Proof.
  intros Ht [H1 H2 (pub & H3 & Hv) H4]. pose proof (ComputeHash_transit _ _ Ht) as Hc. destruct Ht as [Hh Hhs Hsg Htx].
  split; rewrite ?Hh; try done.
  - exists pub. split; [done|]. unfold blk_Verify. rewrite Hhs, Hsg, Hc. exact Hv.
  - by rewrite <- (tx_root_transit _ _ Htx).
Qed.

Lemma authorised_proposer p b : authorised p b → hdr_Proposer (blk_Header b) ≠ "".
Proof. intros [_ _ (pub & Hp & _) _]. by eapply PubKeyFromHex_nonempty. Qed.

(** *** Steps that leave chain, tip and store alone *)

Lemma sound_extend p alloc head n n' chain b :
  sound p alloc head n chain → authorised p b → node_ok n' (chain ++ [b]) → st_healthy n' → nd_exited n' = false →
  clean n' → from_genesis alloc (world_at n') → nd_tip n' = Some b →
  hdr_StateRoot (blk_Header b) = "" ∨ hdr_StateRoot (blk_Header b) = world_root (world_at n') →
  sound p alloc head n' (chain ++ [b]).
Proof.
  intros [_ _ _ _ _ (g & rest & -> & Hg & Hr) _] Ha Hok Hh Hx Hc Hw Et Hroot.
  destruct (flushed_clean n' Hc (no_state _ _ Hok)) as [Hi Hf]. split; try done.
  - by rewrite Hf.
  - exists g, (rest ++ [b]). split; [done|]. split; [done|]. apply Forall_app. split; [done|]. by constructor.
  - intros t. rewrite Et, Hf. by intros [= <-].
Qed.

Lemma sound_stay p alloc head n n' chain :
  sound p alloc head n chain → node_ok n' chain → st_healthy n' → nd_exited n' = nd_exited n →
  nd_tip n' = nd_tip n → unflushed n n' → from_genesis alloc (world_at n') → sound p alloc head n' chain.
Proof.
  intros [_ _ Hx _ [Hi Hf] Hc Hroot] Hok Hh Ex Et Hu Hw.
  destruct (flushed_unflushed n n' Hu Hi) as [Hi' Ef]. split; try done.
  - congruence.
  - by rewrite Ef.
  - intros t. rewrite Et, Ef. apply Hroot.
Qed.
End Worlds.

(** ** One step *)

Section Steps.
Context `{C : Crypto, CL : !CryptoLaws, F : FloatFmt, FL : !FloatLaws, O : MapOrder}.
Context {D : Type} `{HD : DB D, HDR : DBRep D, HDL : !DBLaws D}.
Implicit Types (p : PoA (Node D)) (n : Node D) (h : Host D) (b : Block).

Lemma sound_tip p alloc head n chain : sound p alloc head n chain → ∃ t, nd_tip n = Some t.
Proof.
  intros [[_ Hc _ _] _ _ _ _ (g & rest & -> & _) _]. pose proof (bco_tip _ _ Hc) as Ht. simpl in Ht.
  rewrite Ht. destruct (last (g :: rest)) as [t|] eqn:E; [eauto|]. by apply last_None in E.
Qed.

(** *** The production loop *)

(** However far it gets, the transactions it executed are of the pool. *)
Lemma store_block_world p now txs n n' o :
  poa_ok p → st_inv n → st_healthy n → is_i64 now → store_block p now txs n = (n', o) →
  ∃ o', run_txs (next_block p now txs n) (Some <$> txs) (world_at n) = (world_at n', o').
Proof.
  intros Hp Hn Hh Hnow. rewrite store_block_steps.
  destruct (ExecuteBlock (poa_exec p) (next_block p now txs n) n) as [n1 o1] eqn:E1.
  destruct (ExecuteBlock_ref _ _ _ _ _ (poa_executor_ok _ Hp) (next_block_ok p now txs n Hnow) Hn E1)
    as (Hn1 & _ & _ & [Hr|[]]); [|done]. rewrite next_block_txs in Hr.
  destruct o1 as [[]|e|msg]; [|intros [= <- _]; eauto..].
  destruct (blk_Sign _ _) as [b|e|msg]; [|intros [= <- _]; eauto..].
  destruct (on_chain (AddBlock b) n1) as [n2 o2] eqn:E2.
  destruct (on_chain_AddBlock _ _ _ _ Hn1 E2) as (_ & Ha & _).
  intros E. assert (n' = n2) as -> by (by destruct o2; injection E). exists (Ret tt).
  unfold world_at. by rewrite Ha.
Qed.

Lemma next_block_proposer p now txs n : poa_ok p → hdr_Proposer (blk_Header (next_block p now txs n)) ≠ "".
Proof.
  intros Hp. assert (hdr_Proposer (blk_Header (next_block p now txs n)) = PublicKey_Hex (poa_pubKey p)) as ->
    by (unfold next_block; by destruct (next_position _)).
  by eapply PubKeyFromHex_nonempty, poa_Hex.
Qed.

Lemma next_world p alloc now txs n w o :
  poa_ok p → st_inv n → is_i64 now → Forall sound_tx txs → from_genesis alloc (world_at n) →
  run_txs (next_block p now txs n) (Some <$> txs) (world_at n) = (w, o) → from_genesis alloc w.
Proof.
  intros Hp Hn Hnow Ht Hw. apply from_genesis_run; try done; [by apply next_block_ok|by apply next_block_proposer| |by apply world_wf].
  eapply Forall_impl; [exact Ht|]. apply sound_tx_ok.
Qed.

Lemma produce_tick_run p now n :
  (produce_tick p now n).1 = match IsProposer p n with Ret true => (ProduceBlock p now n).1 | _ => n end.
Proof.
  unfold produce_tick, liftO, mbind, M_bind. destruct (IsProposer p n) as [[]| |]; [|done..].
  unfold logged. by destruct (ProduceBlock p now n) as [? [| |]].
Qed.

Lemma tick_sound p alloc head now n chain :
  poa_ok p → is_i64 now → sound p alloc head n chain →
  let n' := (produce_tick p now n).1 in
  sound p alloc head n' chain ∨
  ∃ b, (ProduceBlock p now n).2 = Ret b ∧
    (sound p alloc head n' (chain ++ [b]) ∨ collision_in (header_text <$> chain ++ [b])).
Proof.
  intros Hp Hnow Hs. cbn zeta. rewrite produce_tick_run.
  destruct (IsProposer p n) as [[]|e|msg] eqn:Ei; [|by left..].
  destruct (sound_tip _ _ _ _ _ Hs) as [t Et]. pose proof Hs as [Hok Hh Hx Hw _ _ _].
  destruct (ProduceBlock p now n) as [n' o] eqn:E. cbn [fst snd].
  destruct (ProduceBlock_cases _ _ _ _ _ _ Hp Hok Hnow E) as [H|[Ho H]].
  - destruct H as (txs & b & root & _ & _ & -> & Ht & Hsl & Htip & Hcl & _ & Hx' & Hrun & Hok').
    destruct (Hrun Hh) as (Hh' & -> & Hr). right. exists b. split; [done|].
    destruct Hok' as [Hok'|]; [left|by right]. eapply sound_extend; try done.
    + eapply sealed_authorised; [done|apply Hok|done..].
    + congruence.
    + by eapply next_world, Hr; [|apply Hok|..].
    + right. by rewrite (sl_header _ _ _ _ Hsl).
  - left. destruct H as [[_ []]|(Hok' & Htip & _)]; [done|].
    destruct (Pending_sound n chain (block_limit p) Hok (block_limit_pos p)) as (txs & Et' & Ht).
    rewrite (ProduceBlock_steps _ _ _ _ Ei Et') in E.
    destruct (store_block p now txs n) as [n1 o1] eqn:E1. pose proof Hok as [Hn Hc _ _].
    destruct (store_block_world _ _ _ _ _ _ Hp Hn Hh Hnow E1) as [o' Hr].
    destruct (store_block_cases _ _ _ _ _ _ _ Hp Hn Hc Hnow Ht E1) as (Hn1 & Hh1 & _ & Hx1 & Hk & _).
    assert (n' = n1) as ->.
    { destruct o1 as [b| |]; [|by injection E..]. destruct (commit_or_die n1) as [n2 o2] eqn:E2.
      destruct (commit_or_die_cases _ _ _ Hn1 E2) as (_ & _ & _ & _ & _ & _ & [(-> & _)|(Hu & _)]);
        [by injection E as _ <-|by destruct Hu; auto]. }
    eapply sound_stay; try done; [by apply Hh1|]. by eapply next_world, Hr.
Qed.

(** *** Blocks from a peer *)

(** A block that was not accepted may have been executed in part. *)
Lemma sync_block_world p now b n n' o :
  poa_ok p → st_inv n → st_healthy n → valid_Block b →
  sync_block (main_syncer p) now (Some b) n = (n', o) →
  world_at n' = world_at n ∨
  ValidateBlock p now (Some b) n = Ret tt ∧ ∃ o', run_txs b (blk_Transactions b) (world_at n) = (world_at n', o').
Proof.
  intros Hp Hn Hh Hv. unfold sync_block. cbn [sy_validator main_syncer applied_by sy_state sy_exec].
  destruct (ValidateBlock p now (Some b) n) as [[]|e|msg]; [|intros [= <- _]; by left..].
  destruct (Snapshot_ref n Hn) as (n1 & E1 & Hi1 & Ha1 & Hh1). unfold attempt, mbind, M_bind. rewrite E1. cbn [liftO deref].
  destruct (ExecuteBlock (poa_exec p) b n1) as [n2 o2] eqn:E2.
  destruct (ExecuteBlock_ref _ _ _ _ _ (poa_executor_ok _ Hp) (valid_block_ok _ Hv) Hi1 E2)
    as (Hi2 & Hh2 & [l Hs2] & [Hr|[Hu _]]); [|by destruct Hu; auto].
  assert (saved n1 = saved n ++ [world_at n] ∧ world_at n1 = world_at n) as [Hs1 Hw1].
  { unfold saved, world_at. by rewrite Ha1. }
  rewrite Hs1, <- app_assoc in Hs2. rewrite Hw1 in Hr. fold (saved n).
  assert (∀ n3, st_inv n3 → saved n3 = saved n2 → ∃ n4, revert_or_die (Z.of_nat (length (saved n))) n3 = (n4, Ret tt) ∧
    world_at n4 = world_at n) as Hrev.
  { intros n3 Hi3 Hs3. rewrite Hs2 in Hs3. destruct (revert_or_die_run n n3 l Hi3 Hs3) as (n4 & E4 & _ & Ha4 & _).
    exists n4. split; [done|]. unfold world_at. by rewrite Ha4. }
  destruct o2 as [[]|e|msg].
  - unfold read_root. case_bool_decide.
    { destruct (Hrev n2 Hi2 eq_refl) as (n4 & -> & Hw). intros [= <- _]. by left. }
    unfold store_synced, attempt, mbind, M_bind. destruct (on_chain (AddBlock b) n2) as [n3 o3] eqn:E3.
    destruct (on_chain_AddBlock _ _ _ _ Hi2 E3) as (Hi3 & Ha3 & _).
    assert (world_at n3 = world_at n2 ∧ saved n3 = saved n2) as [Hw3 Hs3] by (unfold world_at, saved; by rewrite Ha3).
    destruct o3 as [[]|e|msg].
    + destruct (commit_or_die n3) as [n4 o4] eqn:E4.
      destruct (commit_or_die_cases _ _ _ Hi3 E4) as (_ & _ & _ & _ & _ & Hw4 & _).
      intros E. assert (n' = n4) as -> by (by destruct o4; injection E). right. split; [done|].
      exists (Ret tt). by rewrite Hw4, Hw3.
    + destruct (Hrev n3 Hi3 Hs3) as (n4 & -> & Hw). intros [= <- _]. by left.
    + intros [= <- _]. right. split; [done|]. exists (Ret tt). by rewrite Hw3.
  - destruct (Hrev n2 Hi2 eq_refl) as (n4 & -> & Hw). intros [= <- _]. by left.
  - intros [= <- _]. right. split; [done|]. by eexists.
Qed.

Lemma sync_block_sound p alloc head now pb n chain n' o :
  poa_ok p → sound p alloc head n chain → match pb with Some b => valid_Block b | None => True end →
  sync_block (main_syncer p) now pb n = (n', o) →
  sound p alloc head n' chain ∨
  ∃ b, pb = Some b ∧ (sound p alloc head n' (chain ++ [b]) ∨ collision_in (header_text <$> chain ++ [b])).
Proof.
  intros Hp Hs Hv E. destruct pb as [b|].
  2: { destruct (sync_nil_block p now n) as [msg E']. rewrite E' in E. injection E as <- _. by left. }
  destruct (sound_tip _ _ _ _ _ Hs) as [t Et]. pose proof Hs as [Hok Hh Hx Hw _ _ _].
  assert (∀ ts o' n1, ValidateBlock p now (Some b) n = Ret tt → blk_Transactions b = Some <$> ts →
    run_txs b (blk_Transactions b) (world_at n) = (world_at n1, o') → from_genesis alloc (world_at n1)) as Hrun.
  { intros ts o' n1 EV Ets Hr. apply (ValidateBlock_spec _ _ _ _ _ Et) in EV as [Hva _]. rewrite Ets in Hr.
    eapply from_genesis_run, Hr; [by apply valid_block_ok| |by eapply valid_block_txs|apply world_wf, Hok|done].
    by eapply authorised_proposer, valid_after_authorised. }
  destruct (sync_block_cases _ _ _ _ _ _ _ Hp Hok Hv E) as [(-> & EV & Hacc)|[[Href Hu]|(_ & [] & _)]]; [| |done].
  - destruct Hacc as (Et' & Hcl & _ & Hx' & Hr & Hok'). destruct (Hr Hh) as (Hh' & Hrb & Hroot).
    destruct (ValidateBlock_Ret _ _ _ _ EV) as (_ & ts & Ets). right. exists b. split; [done|].
    destruct Hok' as [Hok'|]; [left|by right]. eapply sound_extend; try done; [|congruence|by eapply Hrun].
    apply (ValidateBlock_spec _ _ _ _ _ Et) in EV as [Hva _]. by eapply valid_after_authorised.
  - left. destruct Href as (Hok' & Et' & _ & Hx' & Hh' & _). eapply sound_stay; try done; [by apply Hh'|].
    destruct (sync_block_world _ _ _ _ _ _ Hp (no_state _ _ Hok) Hh Hv E) as [->|(EV & o' & Hr)]; [done|].
    destruct (ValidateBlock_Ret _ _ _ _ EV) as (_ & ts & Ets). by eapply Hrun.
Qed.

Lemma sync_blocks_sound p alloc head pbs h chain h' o :
  poa_ok p → sound p alloc head (ht_node h) chain →
  Forall (λ q, match q with Some b => valid_Block b | None => True end) pbs →
  sync_blocks (main_syncer p) pbs h = (h', o) →
  (∃ bs, bs ⊆ omap id pbs ∧ sound p alloc head (ht_node h') (chain ++ bs)) ∨
  collision_in (header_text <$> chain ++ omap id pbs).
Proof.
  intros Hp Hs Hv. revert h chain Hs. induction Hv as [|q pbs Hq _ IH]; intros h chain Hs.
  { intros [= <- _]. left. exists []. rewrite app_nil_r. split; [set_solver|done]. }
  cbn [sync_blocks]. erewrite bind_Ret by reflexivity. unfold mbind, M_bind, on_node, on_part. cbn [ht_node].
  destruct (sync_block (main_syncer p) (ht_clock h 0%nat) q (ht_node h)) as [n1 o1] eqn:E1.
  set (h1 := set_ht_node n1 _). intros E.
  assert (h' = h1 ∨ sync_blocks (main_syncer p) pbs h1 = (h', o)) as HE
    by (destruct o1 as [[]| |]; [by right|left; by injection E..]).
  destruct (sync_block_sound _ _ _ _ _ _ _ _ _ Hp Hs Hq E1) as [Hs1|(b & -> & [Hs1|Hc])].
  - destruct HE as [->|HE]; [left; exists []; rewrite app_nil_r; split; [set_solver|done]|].
    destruct (IH h1 chain Hs1 HE) as [(bs & Hsub & Hs2)|Hc].
    + left. exists bs. split; [|done]. destruct q; set_solver.
    + right. eapply collision_in_mono, Hc. intros x. destruct q; set_solver.
  - destruct HE as [->|HE]; [left; exists [b]; split; [set_solver|done]|].
    destruct (IH h1 _ Hs1 HE) as [(bs & Hsub & Hs2)|Hc].
    + left. exists (b :: bs). rewrite <- app_assoc in Hs2. split; [set_solver|done].
    + right. by rewrite <- app_assoc in Hc.
  - right. eapply collision_in_mono, Hc. set_solver.
Qed.
End Steps.

(** ** Any number of steps *)

Definition alive `{C : Crypto, F : FloatFmt, O : MapOrder} {D} `{HD : DB D, HDR : DBRep D}
    (p : PoA (Node D)) (alloc : gmap string Z) (head : BlockHeader) (seen : list string) (h : Host D) : Prop :=
  table_ok h ∧ ∃ chain, sound p alloc head (ht_node h) chain ∧ header_text <$> chain ⊆ seen.

Section Alive.
Context `{C : Crypto, CL : !CryptoLaws, F : FloatFmt, FL : !FloatLaws, O : MapOrder}.
Context {D : Type} `{HD : DB D, HDR : DBRep D, HDL : !DBLaws D}.
Implicit Types (p : PoA (Node D)) (n : Node D) (h : Host D) (b : Block).

(** *** The mempool *)

Lemma sound_pool p alloc head n chain m :
  sound p alloc head n chain → mp_ok m → map_Forall (λ _ tx, valid_Transaction tx) (mp_txs m) →
  sound p alloc head (set_nd_pool m n) chain.
Proof. intros [[H1 H2 _ _] ? ? ? ? ? ?] Hm Hv. split; try done. Qed.

Lemma Add_sound p alloc head n chain now tx m o :
  sound p alloc head n chain → valid_Transaction tx → Add now tx (nd_pool n) = (m, o) →
  sound p alloc head (set_nd_pool m n) chain.
Proof.
  intros Hs Ht E. destruct (sn_node _ _ _ _ _ Hs) as [_ _ Hm Hv].
  apply sound_pool; [done|by eapply mp_ok_Add|]. destruct o as [[]|e|msg].
  - apply Add_Ret_inv in E as (_ & _ & _ & _ & _ & ->). simpl. by apply map_Forall_insert_2.
  - by apply Add_error in E as ->.
  - by apply Add_error in E as ->.
Qed.

(** *** The handlers *)

Lemma on_peer_node {A} r (m : M Peer A) h : ht_node (on_peer r m h).1 = ht_node h.
Proof. unfold on_peer. destruct (ht_conns h !! r) as [q|]; [|done]. by destruct (m q). Qed.

Lemma logged_fst {S A} (m : M S A) s : (logged m s).1 = (m s).1.
Proof. unfold logged. by destruct (m s) as [? [| |]]. Qed.

Lemma SyncWithPeer_node r h : ht_node (SyncWithPeer r h).1 = ht_node h.
Proof. unfold SyncWithPeer, RequestBlocks. rewrite logged_fst. apply on_peer_node. Qed.

Lemma reads_collect fuel z stop : reads (collect_blocks (D := D) fuel z stop).
Proof.
  revert z. induction fuel as [|k IH]; intros z; [apply reads_ret|]. cbn [collect_blocks].
  case_bool_decide; [|apply reads_ret]. apply reads_bind; [apply reads_attempt, reads_GetBlockByHeight|].
  intros [b|e|msg]; [|apply reads_ret|done]. apply reads_bind; [apply IH|]. intros bs. apply reads_ret.
Qed.

Lemma handleGetBlocks_node r msg h : ht_node (handleGetBlocks r msg h).1 = ht_node h.
Proof.
  unfold handleGetBlocks. destruct (Unmarshal _ _ _) as [req|]; [|done]. cbn zeta. unfold mbind, M_bind, on_node, on_part.
  pose proof (reads_on_chain _ (reads_collect (Z.to_nat (served_limit (gr_Limit req))) (gr_FromHeight req)
    (addi64 (gr_FromHeight req) (served_limit (gr_Limit req)))) (ht_node h)) as Hr.
  destruct (on_chain _ (ht_node h)) as [n o]. simpl in Hr. subst n. destruct o as [bs|e|m]; [|done..].
  destruct (BlocksResponse_enc bs); [|done]. rewrite logged_fst. by rewrite on_peer_node.
Qed.

Lemma handleTx_sound p alloc head r msg h chain :
  sound p alloc head (ht_node h) chain → sound p alloc head (ht_node (handleTx r msg h).1) chain.
Proof.
  intros Hs. unfold handleTx. destruct (Unmarshal _ _ _) as [tx|] eqn:E; [|done].
  apply Transaction_read_valid in E. unfold mbind, M_bind, read_clock. rewrite logged_fst.
  unfold on_node, on_pool, on_part. cbn [ht_node]. destruct (Add _ tx _) as [m o] eqn:Ea. simpl.
  by eapply Add_sound.
Qed.

Lemma handleBlocks_sound p alloc head r msg h chain :
  poa_ok p → sound p alloc head (ht_node h) chain →
  (∃ bs, bs ⊆ sent_blocks msg ∧ sound p alloc head (ht_node (handleBlocks (main_syncer p) r msg h).1) (chain ++ bs)) ∨
  collision_in (header_text <$> chain ++ sent_blocks msg).
Proof.
  intros Hp Hs. unfold handleBlocks, sent_blocks. destruct (Unmarshal _ _ _) as [bs|] eqn:E.
  2: { left. exists []. rewrite app_nil_r. split; [set_solver|done]. }
  apply response_valid in E. unfold mbind, M_bind.
  destruct (sync_blocks (main_syncer p) bs h) as [h1 o1] eqn:E1.
  assert (ht_node (match o1 with
    | Ret more => (if more && bool_decide (50 ≤ length bs)%nat then SyncWithPeer r else mret tt) h1
    | Fail e => (h1, Fail e) | Panic m => (h1, Panic m) end).1 = ht_node h1) as ->.
  { destruct o1 as [more| |]; [|done..]. destruct (more && _); [apply SyncWithPeer_node|done]. }
  by eapply sync_blocks_sound.
Qed.

Lemma main_handlers_cases p typ hd :
  main_handlers p !! typ = Some hd →
  hd = handleBlocks (main_syncer p) ∨ hd = handleGetBlocks ∨ hd = handleHello ∨ hd = handleTx.
Proof.
  unfold main_handlers, NewSyncer, default_handlers, Handle. rewrite !lookup_insert, lookup_empty.
  repeat case_decide; intros [= <-]; auto.
Qed.

Lemma handler_sound p alloc head typ hd r msg h chain :
  poa_ok p → main_handlers p !! typ = Some hd → sound p alloc head (ht_node h) chain →
  (∃ bs, bs ⊆ sent_blocks msg ∧ sound p alloc head (ht_node (hd r msg h).1) (chain ++ bs)) ∨
  collision_in (header_text <$> chain ++ sent_blocks msg).
Proof.
  intros Hp Hhd Hs.
  assert (∀ h', sound p alloc head (ht_node h') chain →
    ∃ bs, bs ⊆ sent_blocks msg ∧ sound p alloc head (ht_node h') (chain ++ bs)) as Hstay.
  { intros h' Hs'. exists []. rewrite app_nil_r. split; [set_solver|done]. }
  apply main_handlers_cases in Hhd as [->|[->|[->| ->]]].
  - by apply handleBlocks_sound.
  - left. apply Hstay. by rewrite handleGetBlocks_node.
  - left. apply Hstay. unfold handleHello. by rewrite SyncWithPeer_node.
  - left. by apply Hstay, handleTx_sound.
Qed.

Lemma read_step_sound p alloc head r h chain :
  poa_ok p → sound p alloc head (ht_node h) chain →
  let sent := match (on_peer r Receive h).2 with Ret msg => sent_blocks msg | _ => [] end in
  (∃ bs, bs ⊆ sent ∧ sound p alloc head (ht_node (read_step (main_handlers p) r h).1) (chain ++ bs)) ∨
  collision_in (header_text <$> chain ++ sent).
Proof.
  intros Hp Hs. cbn zeta. unfold read_step, attempt. unfold mbind at 1, M_bind at 1.
  pose proof (on_peer_node r Receive h) as Hn. destruct (on_peer r Receive h) as [h1 o1]. simpl in Hn |- *.
  rewrite <- Hn in Hs.
  assert (∃ bs : list Block, bs ⊆ [] ∧ sound p alloc head (ht_node h1) (chain ++ bs)) as Hstay.
  { exists []. rewrite app_nil_r. split; [set_solver|done]. }
  destruct o1 as [msg|e|m]; [|by left..]. destruct (main_handlers p !! msg_Type msg) as [hd|] eqn:Ehd.
  - unfold mbind, M_bind.
    destruct (handler_sound p alloc head _ hd r msg h1 chain Hp Ehd Hs) as [(bs & Hb & Hs')|]; [left|by right].
    exists bs. split; [done|]. by destruct (hd r msg h1) as [h2 [| |]].
  - left. destruct Hstay as (bs & Hb & Hs'). exists bs. split; [set_solver|done].
Qed.

(** *** The table of peers *)

Lemma arrive_table r data h : table_ok h → table_ok (arrive r data h).1.
Proof.
  intros Ht. unfold arrive, on_peer. destruct (ht_conns h !! r) as [q|] eqn:Hq; [|done]. simpl.
  eapply table_ext, Ht; [done|]. intros r' q' Hq'. simpl. rewrite list_lookup_insert. case_decide as Hr.
  - destruct Hr as [<- _]. rewrite Hq in Hq'. injection Hq' as <-. by eexists.
  - by eexists.
Qed.

Lemma drop_peer_table r h : table_ok h → table_ok (drop_peer r h).1 ∧ ht_node (drop_peer r h).1 = ht_node h.
Proof.
  intros Ht. destruct (ht_conns h !! r) as [q|] eqn:Hq.
  - rewrite (drop_peer_run _ _ _ Hq). split; [|done]. intros id r' Hr. cbn [ht_peers set_ht_peers fst] in Hr.
    apply lookup_delete_Some in Hr as [Hne Hr]. destruct (Ht id r' Hr) as (q' & Hq' & Hid).
    exists q'. simpl. rewrite list_lookup_insert_ne; [done|]. intros ->. congruence.
  - unfold drop_peer, mbind, M_bind, on_peer. by rewrite Hq.
Qed.

Lemma Broadcast_node msg h : ht_node (Broadcast msg h).1 = ht_node h.
Proof.
  unfold Broadcast. enough (∀ l h', ht_node h' = ht_node h →
    ht_node (for_each (λ q : string * nat, logged (on_peer q.2 (Send msg))) l h').1 = ht_node h) as H by by apply H.
  intros l. apply (keeps_for_each (λ h', ht_node h' = ht_node h)). intros q _ h' Hh'.
  by rewrite logged_fst, on_peer_node.
Qed.

Lemma BroadcastTx_alive p alloc head seen tx h :
  alive p alloc head seen h → alive p alloc head seen (BroadcastTx tx h).1.
Proof.
  intros [Ht Hs]. unfold BroadcastTx. destruct (Transaction_enc tx) as [v|]; [|done]. split.
  - eapply table_io, Ht. by apply (io_Broadcast _ true h h), io_only_refl.
  - by rewrite Broadcast_node.
Qed.

Lemma AddPeer_alive p alloc head seen nodeID id addr dialled h :
  alive p alloc head seen h → alive p alloc head seen (AddPeer nodeID id addr dialled h).1.
Proof.
  intros [Ht Hs]. destruct dialled as [conn|e|msg]; [|done..]. rewrite AddPeer_run, logged_fst.
  set (q := NewPeer id addr conn). split; [|by rewrite on_peer_node].
  eapply table_io; [|exact (table_joined q h Ht)]. apply (io_Send _ _ true), io_only_refl.
Qed.

(** *** Restarting *)

Lemma crash_alive p alloc head seen now priv h :
  alive p alloc head seen h → alive p alloc head seen (restarted p now priv h).
Proof.
  intros [_ (chain & [Hok Hh Hx Hw [Hi Hf] (g & rest & Hchain & Hg & Hr) Hroot] & Hin)]. split; [done|].
  assert (∃ l t, chain = l ++ [t]) as (l & t & Ec).
  { rewrite Hchain. destruct (exists_last (l := g :: rest)) as (l & t & E); [done|]. eauto. }
  destruct (start_again now (poa_cfg p) priv (ht_node h) l t) as (n' & t' & E & Ht & Et & Hok' & Hc' & Hh' & [_ Hx'] & Hw');
    [by rewrite <- Ec; apply Hok|done|done|].
  assert (nd_tip (ht_node h) = Some t) as Etip.
  { pose proof (bco_tip _ _ (no_chain _ _ Hok)) as E1. simpl in E1. rewrite E1, Ec. apply last_snoc. }
  unfold restarted. rewrite E. cbn [fst ht_node NewHost]. fold (flushed (ht_node h)) in Hw'.
  destruct (flushed_clean n' Hc' (no_state _ _ Hok')) as [Hi' Hf'].
  exists (l ++ [t']). split; [split|].
  - done.
  - done.
  - done.
  - by rewrite Hw'.
  - by rewrite Hf', Hw'.
  - rewrite Ec in Hchain. destruct l as [|g' l']; simplify_eq/=.
    + exists t', []. split_and!; [done|by rewrite (bt_header _ _ Ht)|done].
    + exists g, (l' ++ [t']). split; [done|]. split; [done|]. apply Forall_app in Hr as [Hr1 Hr2].
      apply Forall_app. split; [done|]. constructor; [|done]. by eapply authorised_transit, Forall_inv, Hr2.
  - intros t0. rewrite Et, Hf', Hw'. intros [= <-]. rewrite (bt_header _ _ Ht). by apply Hroot.
  - rewrite Ec in Hin. rewrite fmap_app in *. simpl in *. unfold header_text at 2. by rewrite (bt_header _ _ Ht).
Qed.

(** *** Every step *)

Lemma alive_mono p alloc head seen seen' h : seen ⊆ seen' → alive p alloc head seen h → alive p alloc head seen' h.
Proof. intros Hs [Ht (chain & Hc & Hin)]. split; [done|]. exists chain. split; [done|]. set_solver. Qed.

(** A step that may have extended the chain with some of [new]. *)
Lemma alive_extended p alloc head seen new h chain :
  table_ok h → header_text <$> chain ⊆ seen →
  (∃ bs, bs ⊆ new ∧ sound p alloc head (ht_node h) (chain ++ bs)) ∨ collision_in (header_text <$> chain ++ new) →
  alive p alloc head (seen ++ (header_text <$> new)) h ∨ collision_in (seen ++ (header_text <$> new)).
Proof.
  intros Ht Hin [(bs & Hb & Hs)|Hc]; [left|right].
  - split; [done|]. exists (chain ++ bs). split; [done|]. rewrite fmap_app. set_solver.
  - eapply collision_in_mono, Hc. rewrite fmap_app. set_solver.
Qed.

Lemma step_alive p alloc head seen ev h :
  poa_ok p → event_ok ev → alive p alloc head seen h →
  alive p alloc head (seen ++ new_headers p ev h) (happens p ev h) ∨ collision_in (seen ++ new_headers p ev h).
Proof.
  intros Hp Hev Ha. pose proof Ha as [Ht (chain & Hs & Hin)].
  destruct ev as [now|authToken now r|nodeID id addr dialled|remote conn|r data|r|r|tx|now priv]; simpl in Hev |- *;
    rewrite ?app_nil_r.
  - unfold on_node, on_part. pose proof (tick_sound p alloc head now (ht_node h) chain Hp Hev Hs) as H.
    destruct (produce_tick p now (ht_node h)) as [n' o]. simpl in H |- *.
    destruct (ProduceBlock p now (ht_node h)) as [n1 o1]. simpl in H |- *.
    assert (∀ new, sound p alloc head n' chain → alive p alloc head (seen ++ new) (set_ht_node n' h)) as Hstay.
    { intros new Hs'. split; [done|]. exists chain. split; [done|]. set_solver. }
    destruct H as [Hs'|(b & -> & H)]; [left; by apply Hstay|].
    apply (alive_extended p alloc head seen [b] (set_ht_node n' h) chain Ht Hin).
    destruct H as [Hs'|]; [left; exists [b]; by split|by right].
  - left. split; [by unfold on_node, on_part; destruct (serveHTTP _ _ _ _ _)|]. exists chain. split; [|done].
    unfold on_node, on_part. destruct (serveHTTP _ _ _ _ _) as [n' o] eqn:E. simpl.
    apply serveHTTP_cases in E as [->|(_ & _ & req & tx & pool & _ & _ & Hv & _ & _ & Ea & -> & _)]; [done|].
    by eapply Add_sound.
  - left. by apply AddPeer_alive.
  - left. rewrite accept_run. case_bool_decide; [done|]. split; [by apply table_joined|]. by exists chain.
  - left. split; [by apply arrive_table|]. exists chain. split; [|done]. unfold arrive. by rewrite on_peer_node.
  - destruct (read_step_sound p alloc head r h chain Hp Hs) as [(bs & Hb & Hs')|Hc].
    + left. split; [by eapply table_io, Ht; apply read_step_io, tame_main_handlers|].
      exists (chain ++ bs). split; [done|]. rewrite fmap_app.
      destruct (on_peer r Receive h).2; set_solver.
    + right. eapply collision_in_mono, Hc. rewrite fmap_app. destruct (on_peer r Receive h).2; set_solver.
  - left. destruct (drop_peer_table r h Ht) as [Ht' Hn]. split; [done|]. exists chain. by rewrite Hn.
  - left. by apply BroadcastTx_alive.
  - left. by apply crash_alive.
Qed.

Lemma life_alive p alloc head evs seen h :
  poa_ok p → Forall event_ok evs → alive p alloc head seen h →
  alive p alloc head (seen ++ headers_seen p evs h) (live_on p evs h) ∨ collision_in (seen ++ headers_seen p evs h).
Proof.
  intros Hp Hevs. revert seen h. induction Hevs as [|ev evs Hev _ IH]; intros seen h Ha.
  { left. by rewrite app_nil_r. }
  cbn [headers_seen]. rewrite app_assoc. destruct (step_alive p alloc head seen ev h Hp Hev Ha) as [Ha'|Hc].
  - exact (IH _ _ Ha').
  - right. eapply collision_in_mono, Hc. set_solver.
Qed.

(** *** Establishing the invariant *)

Lemma genesis_market_free cfg : startable cfg → market_free (genesis_world (alloc_of cfg)).
Proof.
  intros [_ Ha]. split; [|done]. split; simpl; try by apply map_Forall_empty.
  intros a x. unfold genesis_accounts. rewrite map_lookup_imap. intros (z & Hz & [= <-])%bind_Some.
  destruct (Ha _ _ Hz). split; [done|]. by split_and!.
Qed.

Lemma fresh_alive p now cfg priv pub (d : D) clock n :
  is_keypair priv → Public priv = Ret pub → startable cfg → is_i64 now → db_contents d = ∅ → db_healthy d →
  start now cfg priv d = (n, Ret tt) →
  alive p (alloc_of cfg) (genesis_header now cfg pub) [print (BlockHeader_enc (genesis_header now cfg pub))] (NewHost n clock).
Proof.
  intros Hk HP Hst Hnow Hd Hh E. destruct (start_fresh now cfg priv pub d Hk HP Hst Hnow Hd Hh)
    as (n' & g & E' & Hok & Hcl & [Hh' Hx] & Htip & Hg & _ & _ & Hw).
  rewrite E in E'. injection E' as <-. destruct (flushed_clean n Hcl (no_state _ _ Hok)) as [Hi Hf].
  assert (from_genesis (alloc_of cfg) (genesis_world (alloc_of cfg))) as Hgen.
  { split; [exists []; constructor|apply supply_genesis]. }
  split; [done|]. exists [g]. split; [|simpl; unfold header_text; by rewrite Hg].
  change (ht_node (NewHost n clock)) with n. split; try done.
  - by rewrite Hw.
  - by rewrite Hf, Hw.
  - by exists g, [].
  - intros t. rewrite Htip, Hf, Hw. intros [= <-]. rewrite Hg. by right.
Qed.
End Alive.

(** ** Properties *)

Section Properties.
Context `{C : Crypto, CL : !CryptoLaws, F : FloatFmt, FL : !FloatLaws, O : MapOrder}.
Context {D : Type} `{HD : DB D, HDR : DBRep D, HDL : !DBLaws D}.
Implicit Types (p : PoA (Node D)) (h : Host D).

(** C1: the life of a node.  Started on an empty, healthy store, and then
    through any sequence of ticks, requests, connections, received bytes,
    handled messages, gossip, and crashes between two such steps: the process is
    never ended by a failed commit or revert; pool, state, chain and table of peers are
    consistent; the chain starts with the genesis block, its blocks are linked
    and each is sealed by the validator of its height; the world is reached
    from the allocation by successful transactions, its supply is that of the
    allocation and its market is consistent; and what the store holds has the
    root the tip names, unless it names none (an empty root), so that a crash
    between steps loses nothing the chain promises.  Otherwise two texts hashed on the way are a SHA-256 collision. *)
Theorem node_life p now cfg priv pub d clock n evs :
  poa_ok p → is_keypair priv → Public priv = Ret pub → startable cfg → is_i64 now →
  db_contents d = ∅ → db_healthy d → start now cfg priv d = (n, Ret tt) → Forall event_ok evs →
  let h0 := NewHost n clock in
  let h := live_on p evs h0 in
  (∃ g rest t txs,
     node_ok (ht_node h) (g :: rest) ∧ nd_exited (ht_node h) = false ∧ table_ok h ∧
     blk_Header g = genesis_header now cfg pub ∧ Forall (authorised p) rest ∧
     nd_tip (ht_node h) = Some t ∧
     (hdr_StateRoot (blk_Header t) = "" ∨
      hdr_StateRoot (blk_Header t) = world_root (world_at (flushed (ht_node h)))) ∧
     executes (genesis_world (alloc_of cfg)) txs (world_at (ht_node h)) ∧
     supply (world_at (ht_node h)) = msum (λ z, z) (alloc_of cfg) ∧
     (market_ok (world_at (ht_node h)) ∨ collision_in (all_messages txs))) ∨
  collision_in (print (BlockHeader_enc (genesis_header now cfg pub)) :: headers_seen p evs h0).
Proof.
  intros Hp Hk HP Hst Hnow Hd Hh E Hevs. cbn zeta.
  pose proof (fresh_alive p now cfg priv pub d clock n Hk HP Hst Hnow Hd Hh E) as Ha.
  destruct (life_alive _ _ _ _ _ _ Hp Hevs Ha) as [[Ht (chain & Hs & _)]|Hc]; [left|by right].
  destruct (sound_tip _ _ _ _ _ Hs) as [t Et].
  pose proof Hs as [Hok Hh' Hx [[txs He] Hsup] _ (g & rest & -> & Hg & Hr) Hroot].
  exists g, rest, t, txs. split_and!; try done; [by apply Hroot|].
  destruct (market_from_free _ _ _ (genesis_market_free cfg Hst) He) as [(_ & ? & _)|]; [by left|by right].
Qed.
End Properties.
