(* ===== verification/Instances.v ===== *)
(** * A concrete machine

    Concrete instances of the classes the development is generic in, small
    enough to run: a hash with 32-byte digests, a signature scheme in which a
    signature is the public key followed by the digest, number literals kept as
    they are, maps ranged over in their internal order.  On top of them a
    scenario: two users, funded accounts, signed transactions of the modules,
    and the blocks that carry them.  [Witnesses.v] evaluates the theorems here. *)
From Stdlib Require Import Ascii Lia ZArith.
From stdpp Require Import base gmap strings list.
From S2P Require Import Prelude Crypto Json JsonFacts JsonParse JsonTyped Types Transaction Block.
From S2P Require Import State DB StateDB Events Vm AssetModule Market Executor Ledger Invariants.

(** ** Instances *)

Fixpoint bytes_of (n : nat) (z : Z) : string :=
  match n with
  | O => ""
  | S n' => String (byte_of z) (bytes_of n' (Z.shiftr z 8))
  end.

Fixpoint poly (acc : Z) (s : string) : Z :=
  match s with
  | EmptyString => acc
  | String c s' => poly (Z.land (acc * 257 + byte_val c + 1) 18446744073709551615) s'
  end.

Definition toy_sum (m : string) : string := bytes_of 32 (poly 7 m).

#[export] Instance toy_crypto : Crypto := {
  sha256_Sum256 := toy_sum;
  ed25519_pub_of_seed seed := seed;
  ed25519_Sign priv m := string_drop 32 priv +:+ toy_sum m;
  ed25519_Verify pub m sig := bool_decide (sig = pub +:+ toy_sum m)
}.

Lemma bytes_of_length n z : String.length (bytes_of n z) = n.
Proof. revert z. induction n as [|n IH]; intros z; simpl; [done|]. by rewrite IH. Qed.

#[export] Instance toy_crypto_laws : CryptoLaws.
Proof.
  split; cbn [sha256_Sum256 ed25519_pub_of_seed ed25519_Sign ed25519_Verify toy_crypto]; unfold toy_sum.
  - intros m. exact (bytes_of_length 32 (poly 7 m)).
  - by intros seed.
  - intros priv m Hp. rewrite slength_app, string_drop_length, Hp. unfold toy_sum.
    by rewrite (bytes_of_length 32 (poly 7 m)).
  - intros seed m Hs. apply bool_decide_eq_true_2. f_equal. rewrite <- Hs. apply string_drop_app.
Qed.

#[export] Instance toy_float : FloatFmt := λ lit, if valid_number lit then Some lit else None.
#[export] Instance toy_float_laws : FloatLaws.
Proof.
  split; unfold float_norm, toy_float; intros l l'; destruct (valid_number l) eqn:E; try done;
    intros [= <-]; by rewrite ?E.
Qed.

#[export] Instance map_order : MapOrder := {
  range A _ m := map_to_list m; range_perm A _ m := Permutation_refl (map_to_list m)
}.

(** ** Users *)

Definition seed_of (c : ascii) : string := String.concat "" (replicate 32 (String c "")).
Definition key_of (c : ascii) : string := seed_of c +:+ seed_of c.
Definition user (c : ascii) : string := PublicKey_Hex (seed_of c).

Definition alice_key : string := Eval vm_compute in key_of "A".
Definition bob_key : string := Eval vm_compute in key_of "B".
Definition alice_pub : string := Eval vm_compute in seed_of "A".
Definition alice : string := Eval vm_compute in user "A".
Definition bob : string := Eval vm_compute in user "B".

Lemma alice_keypair : is_keypair alice_key.
Proof. by exists (seed_of "A"). Qed.

Definition signed (priv : string) (tx : Transaction) : Transaction :=
  match tx_Sign priv tx with Ret t => t | _ => tx end.

Definition mk_tx (priv from typ : string) (nonce fee : Z) (payload : string) : Transaction :=
  signed priv (mkTransaction "" "toychain" typ from nonce fee 1000 payload "").

(** ** A scenario

    Alice registers a template, mints an asset and lists it; Bob buys it; Alice
    opens a session that both join, and closes it. *)

Definition tx_template : Transaction := Eval vm_compute in
  mk_tx alice_key alice TxRegisterTemplate 0 2
    (print (VObj [("id", enc_string "sword"); ("name", enc_string "Sword");
                  ("schema", VObj []); ("tradeable", enc_bool true)])).

Definition tx_mint : Transaction := Eval vm_compute in
  mk_tx alice_key alice TxMintAsset 1 2
    (print (VObj [("template_id", enc_string "sword"); ("properties", VObj [])])).

Definition sword : string := Eval vm_compute in asset_id (tx_ID tx_mint) "sword".

Definition tx_list : Transaction := Eval vm_compute in
  mk_tx alice_key alice TxListMarket 2 0
    (print (VObj [("asset_id", enc_string sword); ("price", enc_int 30)])).

Definition offer : string := Eval vm_compute in listing_id (tx_ID tx_list) sword.

Definition tx_buy : Transaction := Eval vm_compute in
  mk_tx bob_key bob TxBuyMarket 0 1 (print (VObj [("listing_id", enc_string offer)])).

Definition tx_open : Transaction := Eval vm_compute in
  mk_tx alice_key alice TxSessionOpen 3 0
    (print (VObj [("session_id", enc_string "game"); ("game_id", enc_string "chess");
                  ("players", VArr [enc_string alice; enc_string bob]); ("stakes", enc_int 10)])).

Definition tx_result : Transaction := Eval vm_compute in
  mk_tx alice_key alice TxSessionResult 4 0
    (print (VObj [("session_id", enc_string "game"); ("outcome", VObj [(bob, enc_int 20)])])).

(** Bob pays more than he has. *)
Definition tx_broke : Transaction := Eval vm_compute in
  mk_tx bob_key bob TxTransfer 0 1 (print (VObj [("to", enc_string alice); ("amount", enc_int 5000)])).

Definition scenario : list Transaction := [tx_template; tx_mint; tx_list; tx_buy; tx_open; tx_result].

Definition funded : world :=
  mkWorld (<[alice := mkAccount alice 1000 0]> (<[bob := mkAccount bob 500 0]> ∅)) ∅ ∅ ∅ ∅.

Definition some_block (txs : list Transaction) : Block :=
  match NewBlock 2000 "toychain" 1 "" bob (Some <$> txs) with Ret b => b | _ => Block_zero end.
Definition the_block : Block := Eval vm_compute in some_block scenario.

Lemma the_block_ok : block_ok the_block.
Proof. split; [|done]. unfold is_i64, min_int64, max_int64. simpl. lia. Qed.

(** The worlds between the transactions. *)
Fixpoint world_after (txs : list Transaction) (w : world) : option world :=
  match txs with
  | [] => Some w
  | tx :: txs' =>
      match run_tx the_block tx w with
      | (w', Ret _) => world_after txs' w'
      | _ => None
      end
  end.

Lemma scenario_runs : is_Some (world_after scenario funded).
Proof. vm_compute. by eexists. Qed.

(** ** Transactions and worlds of the scenario *)

Lemma scenario_ok : Forall tx_ok scenario.
Proof. repeat constructor; vm_compute; done. Qed.

Lemma world_after_executes txs w w' :
  Forall tx_ok txs → world_after txs w = Some w' → executes w txs w'.
Proof.
  intros Hok. revert w. induction Hok as [|tx txs Htx _ IH]; intros w; simpl.
  - intros [= <-]. constructor.
  - destruct (run_tx the_block tx w) as [w1 [[]| |]] eqn:E; [|done..]. intros H.
    apply (ex_cons w tx w1); [|by apply IH]. exists the_block. by split_and!; [apply the_block_ok| |].
Qed.

Lemma world_after_app txs1 txs2 w :
  world_after (txs1 ++ txs2) w = world_after txs1 w ≫= world_after txs2.
Proof.
  revert w. induction txs1 as [|tx txs1 IH]; intros w; simpl; [done|].
  destruct (run_tx the_block tx w) as [w1 [| |]]; [apply IH|done..].
Qed.

(** The world after the first [n] transactions. *)
Definition stage (n : nat) : world := default funded (world_after (take n scenario) funded).

Lemma stage_Some n : world_after (take n scenario) funded = Some (stage n).
Proof.
  destruct scenario_runs as [w Hw]. rewrite <- (take_drop n scenario), world_after_app in Hw.
  unfold stage. by destruct (world_after (take n scenario) funded).
Qed.

Lemma stage_executes n : executes funded (take n scenario) (stage n).
Proof. apply world_after_executes; [apply Forall_take, scenario_ok|apply stage_Some]. Qed.

Lemma stage_runs n tx : scenario !! n = Some tx → run_tx the_block tx (stage n) = (stage (S n), Ret tt).
Proof.
  intros Hn. pose proof (stage_Some (S n)) as H. erewrite take_S_r in H by done.
  rewrite world_after_app, stage_Some in H. simpl in H.
  destruct (run_tx the_block tx (stage n)) as [w' [[]| |]] eqn:E; [|discriminate H..]. apply (inj Some) in H. by rewrite <- H.
Qed.

Lemma stage_tx_ok n tx : scenario !! n = Some tx → tx_ok tx.
Proof. apply Forall_lookup_1, scenario_ok. Qed.

Lemma stage_next n tx : scenario !! n = Some tx → tx_step (stage n) tx (stage (S n)).
Proof.
  intros Hn. exists the_block. split_and!; [apply the_block_ok|by eapply stage_tx_ok|by apply stage_runs].
Qed.

Lemma funded_wf : wf_world funded.
Proof.
  split; simpl; try apply map_Forall_empty.
  apply map_Forall_insert_2; [done|]. apply map_Forall_insert_2; [done|]. apply map_Forall_empty.
Qed.

Lemma stage_wf n : wf_world (stage n).
Proof. by destruct (executes_nonce _ _ _ alice funded_wf (stage_executes n)). Qed.

(** ** The same in a state database *)

Definition fresh_db : StateDB MemDB := NewStateDB NewMemDB.

Lemma fresh_db_inv : st_inv fresh_db.
Proof.
  split; [|constructor]. split; [by intros ? ?|by intros ? ?|].
  change (canonical_kv (overlay ∅ ∅ ∅)). rewrite overlay_empty.
  by split; intros a v; rewrite lookup_empty.
Qed.

(** Alice and Bob are funded, in the buffer of the state database. *)
Definition funding : M (StateDB MemDB) unit :=
  SetAccount (mkAccount bob 500 0);; SetAccount (mkAccount alice 1000 0).
Definition funded_db : StateDB MemDB := (funding fresh_db).1.

Lemma SetAccount_st_inv (a : Account) (s : StateDB MemDB) :
  valid_Account a → st_inv s → st_inv (SetAccount a s).1.
Proof.
  intros Ha Hs. destruct (SetAccount a s) as [s' o] eqn:E.
  by destruct (SetAccount_ref a Ha _ _ _ Hs E).
Qed.

Lemma funded_db_inv : st_inv funded_db.
Proof. apply (SetAccount_st_inv (mkAccount alice 1000 0)); [done|]. by apply SetAccount_st_inv, fresh_db_inv. Qed.

Lemma funded_db_world : abs_world (st_abs funded_db) = funded.
Proof. vm_compute. reflexivity. Qed.

(** The executor the node runs, with an emitter nobody listens to. *)
Definition machine : Executor (StateDB MemDB) := mkExecutor globalRegistry (Some NewEmitter).

Lemma machine_ok : executor_ok machine.
Proof.
  split; [apply globalRegistry_ref|]. intros e typ h ev w [= <-] Hh. simpl in Hh.
  rewrite lookup_empty in Hh. by apply elem_of_nil in Hh.
Qed.
