(* ===== verification/Witnesses.v ===== *)
(** * The theorems on concrete inputs

    One lemma per theorem with hypotheses: the theorem applied on the concrete
    machine of [Instances.v], so that its hypotheses hold together there. *)
From Stdlib Require Import Ascii Lia ZArith.
From stdpp Require Import base gmap strings list.
From S2P Require Import Prelude Crypto Json JsonFacts JsonParse JsonTyped Types Transaction Block.
From S2P Require Import State DB StateDB Events Vm AssetModule Market SessionModule Executor Ledger.
From S2P Require Import Invariants Determinism Mempool Blockchain Config Instances.

Ltac evaluate := vm_compute; first [reflexivity | intuition discriminate].

(** ** Transactions *)

(** [tx_template] with its payload laid out differently. *)
Definition tx_spaced : Transaction := Eval vm_compute in
  mkTransaction (tx_ID tx_template) (tx_ChainID tx_template) (tx_Type tx_template) (tx_From tx_template)
    (tx_Nonce tx_template) (tx_Fee tx_template) (tx_Timestamp tx_template)
    (" " +:+ tx_Payload tx_template) (tx_Signature tx_template).

Lemma tx_id_binds_request_witness :
  same_request tx_template tx_spaced ∨ collision_in (body_text tx_template ++ body_text tx_spaced).
Proof. apply tx_id_binds_request; evaluate. Defined.

Definition tx_unsigned : Transaction :=
  mkTransaction "" "toychain" TxBurnAsset alice 0 1 1000 (print (VObj [("asset_id", enc_string "x")])) "".

Lemma tx_sign_then_verify_witness :
  ∃ tx', tx_Sign alice_key tx_unsigned = Ret tx' ∧ tx_Verify tx' = Ret tt ∧ body_of tx' = body_of tx_unsigned.
Proof.
  apply (tx_sign_then_verify alice_key alice_pub).
  - exact alice_keypair.
  - reflexivity.
  - reflexivity.
  - vm_compute. by eexists.
Defined.

Lemma tx_json_transit_witness :
  ∃ v p t', Transaction_enc tx_spaced = Some v ∧ enc_raw (tx_Payload tx_spaced) = Some p ∧
    t' = with_payload tx_spaced (print p) ∧
    Unmarshal Transaction_dec Transaction_zero (print v) = Some t' ∧
    tx_Hash t' = tx_Hash tx_spaced ∧ tx_Verify t' = tx_Verify tx_spaced.
Proof.
  destruct (Transaction_enc tx_spaced) as [v|] eqn:E; [|vm_compute in E; discriminate E].
  exists v. destruct (tx_json_transit tx_spaced v) as (p & t' & H); [|exact E|].
  - split_and!; evaluate.
  - exists p, t'. split; [reflexivity|exact H].
Defined.

(** ** Blocks *)

(** The first block of a chain, proposed by Bob. *)
Definition block1 : Block := Eval vm_compute in
  match NewBlock 2000 "toychain" 1 GenesisHash bob (Some <$> scenario) with
  | Ret b => match blk_Sign bob_key (mkBlock (set_StateRoot (blk_Header b) "root") (blk_Transactions b) "" "") with
             | Ret b' => b'
             | _ => b
             end
  | _ => Block_zero
  end.

Lemma block1_valid : valid_Block block1.
Proof.
  split; [split_and!; evaluate|]. split; [|split; evaluate].
  repeat (apply Forall_cons_2; [split_and!; evaluate|]). constructor.
Qed.

Lemma scenario_short : short_ids scenario.
Proof. repeat (apply Forall_cons_2; [evaluate|]). constructor. Qed.

Lemma block_hash_binds_contents_witness :
  (blk_Header block1 = blk_Header block1 ∧ tx_ID <$> scenario = tx_ID <$> scenario) ∨
  collision_in [header_text block1; header_text block1; root_text scenario; root_text scenario].
Proof.
  apply (block_hash_binds_contents block1 block1 scenario scenario).
  1-2: exact (proj1 block1_valid).
  1-2: reflexivity.
  1-2: exact scenario_short.
  all: vm_compute; reflexivity.
Defined.

Definition nil_block : Block := Eval vm_compute in
  let b := mkBlock BlockHeader_zero [Some tx_template; None] "" "" in
  mkBlock (blk_Header b) (blk_Transactions b) (ComputeHash b) "".

Lemma nil_transaction_panics_witness : ∃ msg, VerifyIntegrity nil_block = Panic msg.
Proof. apply nil_transaction_panics; [|evaluate]. right. left. Defined.

Lemma new_block_signed_verifies_witness :
  ∃ b b', NewBlock 2000 "toychain" 1 GenesisHash alice (Some <$> scenario) = Ret b ∧
    blk_Sign alice_key (mkBlock (set_StateRoot (blk_Header b) "root") (blk_Transactions b) "" "") = Ret b' ∧
    blk_Verify b' alice_pub = Ret tt ∧ VerifyIntegrity b' = Ret tt.
Proof. apply new_block_signed_verifies; [exact alice_keypair|reflexivity]. Defined.

Lemma block_json_transit_witness :
  ∃ v b', Block_enc block1 = Some v ∧
    Unmarshal Block_dec Block_zero (print v) = Some b' ∧ block_in_transit block1 b' ∧
    (∀ pub, blk_Verify b' pub = blk_Verify block1 pub) ∧ VerifyIntegrity b' = VerifyIntegrity block1.
Proof.
  destruct (Block_enc block1) as [v|] eqn:E; [|vm_compute in E; discriminate E].
  exists v. destruct (block_json_transit block1 v block1_valid E) as [b' H]. exists b'.
  split; [reflexivity|exact H].
Defined.

(** ** State *)

Lemma statedb_implements_state_witness : StateLaws (StateDB MemDB).
Proof. apply statedb_implements_state. Defined.

(** The funded state, flushed to the store. *)
Definition flushed_db : StateDB MemDB := (sdb_Commit funded_db).1.

Lemma flushed_db_inv : st_inv flushed_db.
Proof.
  destruct (Commit_ref funded_db funded_db_inv) as (w' & o & E & Hi & _). unfold flushed_db.
  change (sdb_Commit funded_db) with (Commit funded_db). by rewrite E.
Qed.

Lemma short_check kv :
  bool_decide (map_Forall (λ k v, zlen k < 4294967296 ∧ zlen v < 4294967296) kv) = true → short_entries kv.
Proof. apply bool_decide_eq_true_1. Qed.

Lemma state_root_binds_world_witness :
  sdb_ComputeRoot funded_db = sdb_ComputeRoot flushed_db.
Proof.
  apply (state_root_binds_world funded_db flushed_db).
  - exact funded_db_inv.
  - exact flushed_db_inv.
  - exact I.
  - exact I.
  - apply short_check. vm_compute. reflexivity.
  - apply short_check. vm_compute. reflexivity.
  - vm_compute. reflexivity.
Defined.

(** A full disk: it answers reads and refuses writes. *)
Record FullDisk : Type := mkFull { full_data : gmap string string }.

#[local] Instance FullDisk_DB : DB FullDisk := {
  db_Get k := λ d, (d, of_option ErrNotFound (full_data d !! k));
  db_Set _ _ := fail (EMsg "no space left on device");
  db_Delete _ := fail (EMsg "no space left on device");
  db_Scan p d := (filter (λ kv, has_prefix p kv.1 = true) (map_to_list (full_data d)), None);
  db_Write _ := fail (EMsg "no space left on device");
  db_Close := mret tt
}.
#[local] Instance FullDisk_Rep : DBRep FullDisk := { db_contents := full_data; db_healthy _ := False }.

#[local] Instance FullDisk_laws : DBLaws FullDisk.
Proof.
  assert (∀ f, write_spec (D := FullDisk) f (fail (EMsg "no space left on device"))) as Hw.
  { intros f d. eexists _, _. split; [done|]. right. split; [by intros []|]. split; [by eexists|done]. }
  split; simpl; intros; first [by left | apply Hw | done].
Qed.

(** A credited account and a snapshot, on the full disk. *)
Definition full_db : StateDB FullDisk :=
  ((SetAccount (mkAccount bob 500 0);; Snapshot) (mkStateDB (mkFull ∅) ∅ ∅ [])).1.

Lemma full_db_inv : st_inv full_db.
Proof.
  assert (st_inv (mkStateDB (mkFull ∅) ∅ ∅ [])) as H0.
  { split; [|constructor]. split; [by intros ? ?|by intros ? ?|]. change (canonical_kv (overlay ∅ ∅ ∅)). rewrite overlay_empty.
    by split; intros a v; rewrite lookup_empty. }
  assert (valid_Account (mkAccount bob 500 0)) as Hb by done.
  destruct (SetAccount (mkAccount bob 500 0) (mkStateDB (mkFull ∅) ∅ ∅ [])) as [s o] eqn:E.
  destruct (SetAccount_ref (mkAccount bob 500 0) Hb _ _ _ H0 E) as (H1 & _).
  destruct (Snapshot_ref s H1) as (s' & E' & H2 & _).
  assert (o = Ret tt) as -> by (apply (f_equal snd) in E; symmetry; exact E).
  assert (full_db = s') as -> by (unfold full_db, mbind, M_bind; rewrite E, E'; done). exact H2.
Qed.

(** Flushing the funded state; failing to flush to the full disk. *)
Lemma commit_preserves_state_witness :
  (visible flushed_db = visible funded_db ∧ sdb_dirty flushed_db = ∅ ∧
   sdb_ComputeRoot flushed_db = sdb_ComputeRoot funded_db) ∧
  (length (sdb_snapshots (sdb_Commit full_db).1) = 1%nat ∧ st_abs (sdb_Commit full_db).1 = st_abs full_db).
Proof.
  split.
  - destruct (commit_preserves_state funded_db flushed_db (Ret tt) funded_db_inv) as (_ & Hv & Hr & _).
    + vm_compute. reflexivity.
    + destruct (Hr eq_refl) as (Hd & _ & _ & _ & Hc). destruct (Hc I) as [_ Hroot].
      split; [exact Hv|]. split; [exact Hd|exact Hroot].
  - destruct (commit_preserves_state full_db (sdb_Commit full_db).1 (Fail (EMsg "no space left on device"))
      full_db_inv) as (_ & _ & _ & Hf & _).
    + reflexivity.
    + destruct (Hf ltac:(discriminate)) as (_ & _ & Hs & _ & Ha). split; [rewrite Hs; reflexivity|exact Ha].
Defined.

(** ** Execution *)

Lemma failed_tx_changes_nothing_witness :
  let r := ExecuteTx machine the_block tx_broke funded_db in r.2 ≠ Ret tt ∧ st_abs r.1 = st_abs funded_db.
Proof.
  cbn zeta.
  assert ((ExecuteTx machine the_block tx_broke funded_db).2 ≠ Ret tt) as Ho
    by (vm_compute; discriminate).
  destruct (ExecuteTx machine the_block tx_broke funded_db) as [w' o] eqn:E.
  split; [exact Ho|].
  exact (proj2 (failed_tx_changes_nothing machine the_block tx_broke funded_db w' o
    machine_ok the_block_ok funded_db_inv E Ho)).
Defined.

Lemma execute_tx_refines_witness :
  let r := ExecuteTx machine the_block tx_template funded_db in
  run_tx the_block tx_template (world_at funded_db) = (world_at r.1, r.2) ∧ r.2 = Ret tt.
Proof.
  cbn zeta.
  assert ((ExecuteTx machine the_block tx_template funded_db).2 = Ret tt) as Ho by (vm_compute; reflexivity).
  destruct (ExecuteTx machine the_block tx_template funded_db) as [w' o] eqn:E.
  split; [|exact Ho].
  destruct (execute_tx_refines machine the_block tx_template funded_db w' o
    machine_ok the_block_ok funded_db_inv E) as (_ & _ & _ & [[H _]|[H _]] & _); [exact H|].
  destruct (H I).
Defined.

Lemma execute_block_refines_witness :
  let r := ExecuteBlock machine the_block funded_db in
  run_txs the_block (blk_Transactions the_block) (world_at funded_db) = (world_at r.1, r.2) ∧ r.2 = Ret tt.
Proof.
  cbn zeta.
  assert ((ExecuteBlock machine the_block funded_db).2 = Ret tt) as Ho by (vm_compute; reflexivity).
  destruct (ExecuteBlock machine the_block funded_db) as [w' o] eqn:E.
  split; [|exact Ho].
  destruct (execute_block_refines machine the_block funded_db w' o
    machine_ok the_block_ok funded_db_inv E) as (_ & _ & H). exact (proj2 (H I)).
Defined.

(** ** Invariants of the ledger *)

Lemma the_block_fees :
  Forall (λ p, ∀ tx, p = Some tx → is_u64 (tx_Fee tx)) (blk_Transactions the_block).
Proof.
  change (blk_Transactions the_block) with (Some <$> scenario). apply Forall_fmap.
  eapply Forall_impl; [apply scenario_ok|]. intros tx [Hf _] t [= <-]. exact Hf.
Qed.

Lemma block_conserves_supply_witness :
  supply (world_at (ExecuteBlock machine the_block funded_db).1) = supply (world_at funded_db).
Proof.
  destruct (ExecuteBlock machine the_block funded_db) as [w' o] eqn:E.
  apply (block_conserves_supply machine the_block funded_db w' o);
    [exact machine_ok|exact the_block_ok|discriminate|exact the_block_fees|exact funded_db_inv|exact I|exact E].
Defined.

(** A block without a proposer: the fee of its transaction is burned. *)
Definition ownerless_block : Block :=
  mkBlock (mkBlockHeader "toychain" 1 "" "" "" 2000 "") [Some tx_template] "" "".

Lemma tx_supply_change_witness :
  let r := run_tx ownerless_block tx_template funded in r.2 = Ret tt ∧ supply r.1 = supply funded - 2.
Proof.
  cbn zeta.
  assert ((run_tx ownerless_block tx_template funded).2 = Ret tt) as Ho by (vm_compute; reflexivity).
  destruct (run_tx ownerless_block tx_template funded) as [w' o] eqn:E. simpl in Ho. subst o.
  split; [reflexivity|]. apply (tx_supply_change ownerless_block tx_template funded w').
  - split; [|reflexivity]. split; vm_compute; discriminate.
  - exact (Forall_inv scenario_ok).
  - exact funded_wf.
  - exact E.
Defined.

Lemma replay_rejected_witness :
  nonce (stage 0) alice = 0 ∧ ∀ w', run_tx the_block tx_template (stage 2) ≠ (w', Ret tt).
Proof.
  apply (replay_rejected (stage 0) tx_template (stage 1) [tx_mint] (stage 2) the_block).
  - exact (stage_wf 0).
  - exact (stage_next 0 _ eq_refl).
  - eapply ex_cons; [exact (stage_next 1 _ eq_refl)|constructor].
  - exact the_block_ok.
Defined.

Lemma funded_free : market_free funded.
Proof. split; [exact funded_wf|done]. Qed.

(** After the listing: there is an active one, and an asset that points to it. *)
Lemma market_invariant_witness :
  is_Some (listings (stage 3) !! offer) ∧
  (market_ok (stage 3) ∨ collision_in (all_messages (take 3 scenario))).
Proof.
  split; [vm_compute; eexists; reflexivity|].
  exact (market_invariant funded (take 3 scenario) (stage 3) funded_free (stage_executes 3)).
Defined.

Lemma asset_control_witness :
  ∃ a, assets (stage 3) !! sword = Some a ∧ ast_Owner a = alice ∧
  ((assets (stage 4) !! sword = None ∧ tx_Type tx_buy = TxBurnAsset ∧ tx_From tx_buy = ast_Owner a ∧
      ast_ActiveListingID a = "") ∨
   (∃ a', assets (stage 4) !! sword = Some a' ∧
      (ast_Owner a' = ast_Owner a ∨
       (tx_Type tx_buy = TxTransferAsset ∧ tx_From tx_buy = ast_Owner a ∧ ast_Tradeable a = true ∧
          ast_ActiveListingID a = "") ∨
       (tx_Type tx_buy = TxBuyMarket ∧ ast_Owner a' = tx_From tx_buy ∧ ast_Tradeable a = true ∧
          ∃ l, listings (stage 3) !! ast_ActiveListingID a = Some l ∧ lst_Seller l = ast_Owner a ∧
            balance (stage 3) (ast_Owner a) + lst_Price l ≤ balance (stage 4) (ast_Owner a)))) ∨
   collision_in (all_messages (take 3 scenario ++ [tx_buy]))).
Proof.
  assert (∃ a, assets (stage 3) !! sword = Some a ∧ ast_Owner a = alice) as (a & Ha & Ho)
    by (vm_compute; eexists; split; reflexivity).
  exists a. split; [exact Ha|]. split; [exact Ho|].
  exact (asset_control funded (take 3 scenario) (stage 3) tx_buy (stage 4) sword a funded_free
    (stage_executes 3) (stage_next 3 tx_buy eq_refl) Ha).
Defined.


Lemma templates_immutable_witness :
  ∃ t, templates (stage 1) !! "sword" = Some t ∧ templates (stage 2) !! "sword" = Some t.
Proof.
  assert (is_Some (templates (stage 1) !! "sword")) as [t Ht] by (vm_compute; eexists; reflexivity).
  exists t. split; [exact Ht|].
  apply (templates_immutable (stage 1) [tx_mint] (stage 2)).
  - exact (stage_wf 1).
  - eapply ex_cons; [exact (stage_next 1 _ eq_refl)|constructor].
  - exact Ht.
Defined.

(** A node that ranges over maps the other way round. *)
Definition reverse_order : MapOrder :=
  {| range A _ m := reverse (map_to_list m); range_perm A _ m := reverse_Permutation (map_to_list m) |}.

Lemma block_result_deterministic_witness :
  (run_txs (O := map_order) the_block (blk_Transactions the_block) funded).1 =
  (run_txs (O := reverse_order) the_block (blk_Transactions the_block) funded).1.
Proof. apply block_result_deterministic; [exact the_block_ok|exact the_block_fees|exact funded_wf]. Defined.

(** ** The mempool *)

Definition pool1 : Mempool := (Add 2000 tx_template NewMempool).1.
Definition pool2 : Mempool := (Add 2000 tx_mint pool1).1.

(** The first is removed, a third arrives. *)
Definition pool3 : Mempool := (Add 2000 tx_buy (Remove [tx_ID tx_template] pool2).1).1.
Definition pool_log : list pool_event :=
  [Arrived tx_template; Arrived tx_mint; Removed [tx_ID tx_template]; Arrived tx_buy].

Lemma pool3_history : history pool_log pool3.
Proof.
  assert (history [Arrived tx_template] pool1) as H1.
  { apply (hist_accept [] 2000 tx_template NewMempool); [constructor|vm_compute; reflexivity]. }
  assert (history [Arrived tx_template; Arrived tx_mint] pool2) as H2.
  { apply (hist_accept [Arrived tx_template] 2000 tx_mint pool1); [exact H1|vm_compute; reflexivity]. }
  apply (hist_accept (take 3 pool_log) 2000 tx_buy (Remove [tx_ID tx_template] pool2).1); [|vm_compute; reflexivity].
  apply (hist_remove (take 2 pool_log) [tx_ID tx_template] pool2 _ (Ret tt)); [exact H2|reflexivity].
Qed.

Lemma mempool_invariant_witness :
  mp_ok pool3 ∧ Size pool3 = 2 ∧ Pending 1 pool3 = Ret [tx_mint] ∧ Pending 5 pool3 = Ret [tx_mint; tx_buy].
Proof.
  assert (waiting pool_log = [tx_mint; tx_buy]) as Hw by (vm_compute; reflexivity).
  destruct (mempool_invariant pool_log pool3 1 pool3_history) as (H1 & H2 & _ & _ & H3); [lia|].
  destruct (mempool_invariant pool_log pool3 5 pool3_history) as (_ & _ & _ & _ & H5); [lia|].
  rewrite Hw in H2, H3, H5. split; [exact H1|]. split; [exact H2|]. split; [exact H3|exact H5].
Defined.

Lemma add_time_window_witness :
  2000 - tx_Timestamp tx_template ≤ maxTxAge ∧ tx_Timestamp tx_template - 2000 ≤ maxTxFuture.
Proof.
  apply (add_time_window 2000 tx_template NewMempool pool1).
  - split; vm_compute; discriminate.
  - split; vm_compute; discriminate.
  - vm_compute. reflexivity.
Defined.

(** A transaction dated 292 years before the epoch. *)
Definition tx_ancient : Transaction := Eval vm_compute in
  signed alice_key (mkTransaction "" "toychain" TxBurnAsset alice 0 0 (-9223372036854775000)
    (print (VObj [])) "").

Lemma add_accepts_ancient_witness : ∃ m', Add 1700000000000000000 tx_ancient NewMempool = (m', Ret tt).
Proof.
  apply add_accepts_ancient.
  - split; vm_compute; discriminate.
  - split; vm_compute; discriminate.
  - vm_compute. reflexivity.
  - vm_compute. reflexivity.
  - vm_compute. reflexivity.
  - reflexivity.
Defined.

(** ** The chain *)

Definition empty_chain : Blockchain MemDB := NewBlockchain NewMemDB.
Definition chain1 : Blockchain MemDB := (AddBlock block1 empty_chain).1.

Lemma block1_good : good_block block1.
Proof. split; [exact block1_valid|]. vm_compute. reflexivity. Qed.

Lemma chain1_grown : grown chain1 [block1].
Proof.
  apply (grown_accept empty_chain [] block1); [by apply grown_new|exact block1_good|].
  unfold chain1. rewrite (surjective_pairing (AddBlock block1 empty_chain)) at 1. f_equal.
Qed.

Lemma chain_is_linked_and_readable_witness :
  (linked [block1] ∧ Tip chain1 = last [block1] ∧
   ∀ b, b ∈ [block1] →
     ∃ b', block_in_transit b b' ∧ bc_GetBlock (blk_Hash b) chain1 = (chain1, Ret b') ∧
       bc_GetBlockByHeight (hdr_Height (blk_Header b)) chain1 = (chain1, Ret b')) ∨
  collision_in (header_text <$> [block1]).
Proof. exact (chain_is_linked_and_readable chain1 [block1] chain1_grown I). Defined.

Lemma init_restores_chain_witness :
  (∃ bc', Init (NewBlockchain (bc_store chain1)) = (bc', Ret tt) ∧ bc_store bc' = bc_store chain1 ∧
     ∃ t', bc_tip bc' = Some t' ∧ block_in_transit block1 t' ∧ bc_height bc' = bc_height chain1) ∨
  collision_in (header_text <$> [block1]).
Proof. exact (init_restores_chain chain1 [block1] chain1_grown I). Defined.
