(* ===== verification/NodeWitnesses.v ===== *)
(** * The theorems about nodes on concrete inputs

    A node over the in-memory store, run on the scenario of [Instances.v]. *)
From Stdlib Require Import Ascii Lia ZArith.
From stdpp Require Import base gmap strings list.
From S2P Require Import Prelude Crypto Json JsonFacts JsonParse JsonTyped Types Transaction Block.
From S2P Require Import State DB StateDB Events Vm AssetModule Market SessionModule Executor Ledger.
From S2P Require Import Invariants Determinism Mempool Blockchain Config Node Indexer Instances.

(** ** The indexer *)

(** A node whose state database holds the funded accounts. *)
Definition funded_node : Node MemDB := mkNode funded_db None 0 NewMempool false.

Lemma funded_node_inv : st_inv funded_node.
Proof. exact funded_db_inv. Qed.

(** The node after the first transactions of the scenario. *)
Fixpoint node_after (txs : list Transaction) (n : Node MemDB) : Node MemDB :=
  match txs with
  | [] => n
  | tx :: txs' => node_after txs' (ExecuteTx node_executor the_block tx n).1
  end.

Lemma node_after_inv txs n : st_inv n → st_inv (node_after txs n).
Proof.
  revert n. induction txs as [|tx txs IH]; intros n Hn; [done|]. simpl. apply IH.
  destruct (ExecuteTx node_executor the_block tx n) as [n' o] eqn:E.
  by destruct (ExecuteTx_ref _ _ _ _ _ _ node_executor_ok the_block_ok Hn E).
Qed.

Definition node3 : Node MemDB := node_after (take 3 scenario) funded_node.

Lemma purchases_not_indexed_witness :
  ∃ n', ExecuteTx node_executor the_block tx_buy node3 = (n', Ret tt) ∧
    db_contents (nd_db n') = db_contents (nd_db node3) ∧
    ∃ lid l a', listings (world_at node3) !! lid = Some l ∧ lst_Active l = true ∧ lst_Seller l ≠ tx_From tx_buy ∧
      assets (world_at n') !! lst_AssetID l = Some a' ∧ ast_Owner a' = tx_From tx_buy.
Proof.
  assert ((ExecuteTx node_executor the_block tx_buy node3).2 = Ret tt) as Ho by (vm_compute; reflexivity).
  destruct (ExecuteTx node_executor the_block tx_buy node3) as [n' o] eqn:E. simpl in Ho. subst o.
  exists n'. split; [reflexivity|].
  apply (purchases_not_indexed the_block tx_buy node3 n').
  - exact the_block_ok.
  - split; vm_compute; discriminate.
  - exact (node_after_inv _ _ funded_node_inv).
  - exact I.
  - reflexivity.
  - exact E.
Defined.

(** The mint of the scenario, on a node that knows the template. *)
Definition node1 : Node MemDB := node_after (take 1 scenario) funded_node.

Lemma empty_index : index_ok (db_contents (nd_db node1)).
Proof.
  assert (db_contents (nd_db node1) = ∅) as E by (vm_compute; reflexivity).
  intros o data H. rewrite E, lookup_empty in H. discriminate H.
Qed.

Lemma index_follows_events_witness :
  ∃ n', ExecuteTx node_executor the_block tx_mint node1 = (n', Ret tt) ∧
    (∃ id a, assets (world_at n') !! id = Some a ∧ id ∈ owned (db_contents (nd_db n')) (ast_Owner a)) ∧
    owned (db_contents (nd_db n')) alice = [sword].
Proof.
  assert ((ExecuteTx node_executor the_block tx_mint node1).2 = Ret tt) as Ho by (vm_compute; reflexivity).
  assert (owned (db_contents (nd_db (ExecuteTx node_executor the_block tx_mint node1).1)) alice = [sword]) as Hl
    by (vm_compute; reflexivity).
  destruct (ExecuteTx node_executor the_block tx_mint node1) as [n' o] eqn:E. simpl in Ho, Hl. subst o.
  exists n'. split; [reflexivity|]. split; [|exact Hl].
  destruct (index_follows_events the_block tx_mint node1 n') as (_ & Hm & _).
  - exact the_block_ok.
  - split; vm_compute; discriminate.
  - exact (node_after_inv _ _ funded_node_inv).
  - exact I.
  - exact empty_index.
  - vm_compute. reflexivity.
  - exact E.
  - destruct (Hm eq_refl) as (p & a & _ & Ha & H). eexists _, a. split; [exact Ha|].
    apply (proj2 (H (ast_Owner a) _)). right. split; reflexivity.
Defined.

(** Bob's list of sessions, after a block that opens one with him. *)
Lemma sessions_never_indexed_witness :
  (ExecuteBlock node_executor the_block funded_node).2 = Ret tt ∧
  db_contents (nd_db (ExecuteBlock node_executor the_block funded_node).1) !! (prefixPlayerSession +:+ bob) =
  db_contents (nd_db funded_node) !! (prefixPlayerSession +:+ bob).
Proof.
  split; [vm_compute; reflexivity|]. exact (sessions_never_indexed the_block funded_node bob).
Defined.
