(* ===== verification/ChainWitnesses.v ===== *)
(** * The theorems about chains on concrete inputs

    A chain of one validator, Alice, over the in-memory store: she starts a
    node, a payment of hers waits in its pool, she produces a block, restarts,
    and serves a follower. *)
From Stdlib Require Import Ascii Lia ZArith.
From stdpp Require Import base gmap strings list.
From S2P Require Import Prelude Crypto Json JsonFacts JsonParse JsonTyped Types Transaction Block.
From S2P Require Import State DB StateDB Events Vm AssetModule Market SessionModule Executor Ledger.
From S2P Require Import Invariants Determinism Mempool Blockchain Files Config Transit Node Frame Indexer.
From S2P Require Import Consensus Startup Peer Network Sync Catchup Instances.

(** ** Alice's node *)

Definition toy_config : Config :=
  mkConfig "n1" "./data" 8545 30303 500 [alice]
    (mkGenesis "toychain" (Some (<[alice := 1000]> (<[bob := 500]> ∅)))) [] None "".

Lemma in_i64 z : bool_decide (is_i64 z) = true → is_i64 z.
Proof. apply bool_decide_eq_true_1. Qed.


Lemma toy_config_valid : valid_Config toy_config.
Proof.
  split.
  3-5: apply in_i64; vm_compute; reflexivity.
  1-2,4,8: vm_compute; reflexivity.
  - constructor; [vm_compute; reflexivity|constructor].
  - intros k z [[<- <-]|[_ [[<- <-]|[_ H]]%lookup_insert_Some]]%lookup_insert_Some.
    1-2: split; [vm_compute; reflexivity|split; vm_compute; discriminate].
    rewrite lookup_empty in H. discriminate H.
  - constructor.
  - intros t H. discriminate H.
Qed.

Lemma toy_startable : startable toy_config.
Proof.
  split; [apply toy_config_valid|]. intros k z Hk. exact (vc_Alloc _ toy_config_valid k z Hk).
Qed.

Definition toy_emitter : Emitter (Node MemDB) := idx_New NewEmitter.
Definition toy_poa : PoA (Node MemDB) :=
  mkPoA toy_config (mkExecutor globalRegistry (Some toy_emitter)) toy_emitter alice_key alice_pub.

Lemma toy_poa_ok : poa_ok toy_poa.
Proof.
  split; [reflexivity|reflexivity|apply indexer_quiet, quiet_new|exact alice_keypair|reflexivity|reflexivity].
Qed.

Definition alice_node : Node MemDB := (start 100 toy_config alice_key NewMemDB).1.
Definition genesis : Block := default Block_zero (nd_tip alice_node).

Lemma NewMemDB_healthy : db_healthy NewMemDB.
Proof. exact I. Qed.

Lemma alice_node_ok :
  node_ok alice_node [genesis] ∧ clean alice_node ∧ st_healthy alice_node ∧ nd_tip alice_node = Some genesis ∧
  blk_Header genesis = genesis_header 100 toy_config alice_pub ∧ world_at alice_node = genesis_world (alloc_of toy_config).
Proof.
  destruct (start_fresh 100 toy_config alice_key alice_pub NewMemDB)
    as (n & b & E & Hn & Hc & [Hh _] & Ht & Hb & _ & _ & Hw);
    [exact alice_keypair|reflexivity|exact toy_startable|by apply in_i64|reflexivity|exact NewMemDB_healthy|].
  unfold genesis, alice_node. rewrite E. cbn [fst]. rewrite Ht. by split_and!.
Qed.

(** Her payment to Bob, in the pool. *)
Definition tx_pay : Transaction := Eval vm_compute in
  mk_tx alice_key alice TxTransfer 0 2 (print (VObj [("to", enc_string bob); ("amount", enc_int 30)])).

Definition pool_of (txs : list Transaction) : Mempool :=
  foldl (λ m tx, (Add 2000 tx m).1) NewMempool txs.

Definition with_pool (txs : list Transaction) (n : Node MemDB) : Node MemDB := set_nd_pool (pool_of txs) n.

Lemma pool_of_ok txs : mp_ok (pool_of txs).
Proof.
  unfold pool_of. assert (mp_ok NewMempool) as H by apply new_pool_ok. revert H. generalize NewMempool.
  induction txs as [|tx txs IH]; intros m Hm; [exact Hm|]. simpl. apply IH.
  destruct (Add 2000 tx m) as [m' o] eqn:E. by eapply mp_ok_Add.
Qed.

Lemma with_pool_ok txs n chain :
  map_Forall (λ _ tx, valid_Transaction tx) (mp_txs (pool_of txs)) →
  node_ok n chain → node_ok (with_pool txs n) chain.
Proof. intros Hv [Hs Hc _ _]. split; [exact Hs|exact Hc|apply pool_of_ok|exact Hv]. Qed.

Definition waiting : Node MemDB := with_pool [tx_pay] alice_node.

Lemma tx_pay_valid : valid_Transaction tx_pay.
Proof. split_and!; first [vm_compute; reflexivity | vm_compute; split; discriminate]. Qed.

Lemma pool_pay : pool_of [tx_pay] = mkMempool {[tx_ID tx_pay := tx_pay]} [tx_ID tx_pay].
Proof. vm_compute. reflexivity. Qed.

Lemma waiting_ok : node_ok waiting [genesis].
Proof.
  apply with_pool_ok; [|apply alice_node_ok]. rewrite pool_pay. cbn [mp_txs].
  apply map_Forall_singleton, tx_pay_valid.
Qed.

(** ** Producing blocks *)

Lemma Ret_inj {A} (x y : A) : Ret x = Ret y → x = y.
Proof. congruence. Qed.

Lemma waiting_turn : IsProposer toy_poa waiting = Ret true.
Proof. vm_compute. reflexivity. Qed.

Lemma waiting_pending : Pending (block_limit toy_poa) (nd_pool waiting) = Ret [tx_pay].
Proof. vm_compute. reflexivity. Qed.

(** The world the payment leads to. *)
Definition paid : world := (run_txs (next_block toy_poa 2000 [tx_pay] waiting) [Some tx_pay] (world_at waiting)).1.

Lemma paid_run :
  run_txs (next_block toy_poa 2000 [tx_pay] waiting) [Some tx_pay] (world_at waiting) = (paid, Ret tt).
Proof.
  unfold paid. destruct (run_txs _ _ _) as [w o] eqn:E. cbn [fst]. f_equal.
  transitivity (run_txs (next_block toy_poa 2000 [tx_pay] waiting) [Some tx_pay] (world_at waiting)).2;
    [by rewrite E|]. vm_compute. reflexivity.
Qed.

Lemma waiting_height : nd_height waiting < max_int64.
Proof. vm_compute. reflexivity. Qed.

Lemma produces_block_witness :
  ∃ n' b, ProduceBlock toy_poa 2000 waiting = (n', Ret b) ∧ world_at n' = paid ∧ nd_tip n' = Some b ∧
    balance paid bob = 530.
Proof.
  destruct (produces_block toy_poa 2000 waiting [genesis] [tx_pay] paid) as (n' & b & E & Hw & _ & Ht & _).
  - exact toy_poa_ok.
  - exact waiting_ok.
  - exact NewMemDB_healthy.
  - by apply in_i64.
  - exact waiting_height.
  - exact waiting_turn.
  - exact waiting_pending.
  - exact paid_run.
  - exists n', b. split; [exact E|]. split; [exact Hw|]. split; [exact Ht|]. vm_compute. reflexivity.
Defined.

(** The node after the block, and the block. *)
Definition producer : Node MemDB := (ProduceBlock toy_poa 2000 waiting).1.
Definition block_1 : Block := match (ProduceBlock toy_poa 2000 waiting).2 with Ret b => b | _ => Block_zero end.

Lemma producer_run : ProduceBlock toy_poa 2000 waiting = (producer, Ret block_1).
Proof.
  unfold producer, block_1. destruct (ProduceBlock toy_poa 2000 waiting) as [n o] eqn:E. cbn [fst snd].
  f_equal. assert (is_ret (ProduceBlock toy_poa 2000 waiting).2 = true) as H by (vm_compute; reflexivity).
  rewrite E in H. cbn [snd] in H. destruct o; [reflexivity|discriminate H..].
Qed.

Lemma produce_block_outcome_witness :
  nd_tip producer = Some block_1 ∧ clean producer ∧
  (node_ok producer [genesis; block_1] ∨ collision_in (header_text <$> [genesis; block_1])).
Proof.
  destruct (produce_block_outcome toy_poa 2000 waiting [genesis] producer (Ret block_1) toy_poa_ok waiting_ok)
    as [(txs & b & root & _ & Hb & _ & Ht & Hc & _ & _ & Hok)|[H _]].
  - by apply in_i64.
  - exact producer_run.
  - apply Ret_inj in Hb. subst b. split; [exact Ht|]. split; [exact Hc|exact Hok].
  - discriminate H.
Defined.

Lemma produced_block_validates_witness :
  ValidateBlock toy_poa 1900 (Some block_1) alice_node = Ret tt ∧ 2000 ≤ addi64 1900 maxBlockTimeDrift.
Proof.
  pose proof alice_node_ok as (_ & _ & _ & Ht & _).
  pose proof (produced_block_validates toy_poa 2000 waiting [genesis] producer block_1 genesis toy_poa 1900
    alice_node genesis toy_poa_ok waiting_ok (in_i64 2000 eq_refl) waiting_height producer_run Ht eq_refl eq_refl
    Ht eq_refl eq_refl) as H.
  assert (2000 ≤ addi64 1900 maxBlockTimeDrift ∧ hdr_Timestamp (blk_Header genesis) ≤ 2000) as Hc
    by (split; vm_compute; discriminate).
  split; [exact (proj2 H Hc)|exact (proj1 Hc)].
Defined.

(** A payment Bob cannot make waits behind one of Alice's: no block is made any
    more. *)
Definition blocked : Node MemDB := with_pool [tx_pay; tx_broke] alice_node.

Lemma pool_blocked_valid : map_Forall (λ _ tx, valid_Transaction tx) (mp_txs (pool_of [tx_pay; tx_broke])).
Proof.
  intros id tx H. assert (tx = tx_pay ∨ tx = tx_broke) as [->| ->].
  { revert H. replace (pool_of [tx_pay; tx_broke])
      with (mkMempool (<[tx_ID tx_broke := tx_broke]> {[tx_ID tx_pay := tx_pay]}) [tx_ID tx_pay; tx_ID tx_broke])
      by (vm_compute; reflexivity).
    cbn [mp_txs]. intros [[_ <-]|[_ [_ <-]%lookup_singleton_Some]]%lookup_insert_Some; auto. }
  - exact tx_pay_valid.
  - split_and!; first [vm_compute; reflexivity | vm_compute; split; discriminate].
Qed.

Lemma blocked_ok : node_ok blocked [genesis].
Proof. apply with_pool_ok; [exact pool_blocked_valid|apply alice_node_ok]. Qed.

Lemma failed_block_stalls_witness :
  let n' := (Run toy_poa [3000; 4000] (produce_tick toy_poa 2000 blocked).1).1 in
  nd_tip n' = nd_tip blocked ∧ nd_pool n' = nd_pool blocked ∧ nonce (world_at n') alice > tx_Nonce tx_pay.
Proof.
  set (b := next_block toy_poa 2000 [tx_pay; tx_broke] blocked).
  destruct (run_tx b tx_pay (world_at blocked)) as [w1 o1] eqn:E1.
  assert (o1 = Ret tt) as ->.
  { transitivity (run_tx b tx_pay (world_at blocked)).2; [by rewrite E1|vm_compute; reflexivity]. }
  destruct (run_txs b [Some tx_broke] w1) as [w2 o2] eqn:E2.
  assert (∃ e, o2 = Fail e) as [e ->].
  { assert (match (run_txs b [Some tx_broke] (run_tx b tx_pay (world_at blocked)).1).2 with Fail _ => true | _ => false end
            = true) as H by (vm_compute; reflexivity).
    rewrite E1 in H. cbn [fst] in H. rewrite E2 in H. cbn [snd] in H. destruct o2; [discriminate H|by eexists|discriminate H]. }
  destruct (failed_block_stalls toy_poa 2000 [3000; 4000] blocked [genesis] tx_pay [tx_broke] w1 w2 e) as (H1 & H2 & _ & H3).
  - exact toy_poa_ok.
  - exact blocked_ok.
  - exact NewMemDB_healthy.
  - by apply in_i64.
  - repeat constructor; vm_compute; discriminate.
  - vm_compute. reflexivity.
  - vm_compute. reflexivity.
  - exact E1.
  - exact E2.
  - split; [exact H1|]. split; [exact H2|]. apply Z.lt_gt. exact H3.
Defined.

(** ** Restarting *)

Lemma fresh_start_witness :
  ∃ n b, start 100 toy_config alice_key NewMemDB = (n, Ret tt) ∧ nd_tip n = Some b ∧ clean n ∧
    supply (world_at n) = 1500.
Proof.
  destruct (fresh_start 100 toy_config alice_key alice_pub NewMemDB) as (n & b & E & _ & Hc & Ht & _ & _ & _ & Hs).
  - exact alice_keypair.
  - reflexivity.
  - exact toy_startable.
  - by apply in_i64.
  - reflexivity.
  - exact NewMemDB_healthy.
  - exists n, b. split; [exact E|]. split; [exact Ht|]. split; [exact Hc|]. rewrite Hs. vm_compute. reflexivity.
Defined.

Lemma restart_continues_witness :
  ∃ n' t', start 900 toy_config alice_key (nd_db alice_node) = (n', Ret tt) ∧ block_in_transit genesis t' ∧
    nd_height n' = nd_height alice_node ∧ world_at n' = world_at alice_node.
Proof.
  destruct alice_node_ok as (Hok & Hc & Hh & _).
  destruct (restart_continues 900 toy_config alice_key alice_node [] genesis Hok Hc Hh)
    as (n' & t' & E & Ht & _ & _ & Hn & Hw).
  exists n', t'. split; [exact E|]. split; [exact Ht|]. split; [exact Hn|exact Hw].
Defined.

(** The node between storing the block and flushing the state. *)
Definition dying : Node MemDB := (store_block toy_poa 2000 [tx_pay] waiting).1.

Lemma short_world (w : world) :
  bool_decide (map_Forall (λ k v, zlen k < 4294967296 ∧ zlen v < 4294967296) (encode_world w)) = true →
  short_entries (encode_world w).
Proof. apply bool_decide_eq_true_1. Qed.

Lemma crash_before_commit_witness :
  (∃ b n2 b', start 900 toy_config alice_key (nd_db dying) = (n2, Ret tt) ∧ nd_tip n2 = Some b' ∧
     block_in_transit b b' ∧ world_at n2 = world_at waiting) ∨
  ∃ b, collision_in (header_text <$> [genesis; b]).
Proof.
  destruct (store_block toy_poa 2000 [tx_pay] waiting) as [n o] eqn:E.
  assert (dying = n) as Hn by (unfold dying; rewrite E; reflexivity).
  assert (∃ b, o = Ret b) as [b ->].
  { assert (is_ret (store_block toy_poa 2000 [tx_pay] waiting).2 = true) as H by (vm_compute; reflexivity).
    rewrite E in H. destruct o; [by eexists|discriminate H..]. }
  rewrite <- Hn in E.
  destruct (crash_before_commit toy_poa 2000 [tx_pay] waiting [genesis] dying b 900 toy_config alice_key)
    as [(n2 & b' & H1 & H2 & H3 & H4 & _)|H].
  - exact toy_poa_ok.
  - exact waiting_ok.
  - exact (proj1 (proj2 alice_node_ok)).
  - exact NewMemDB_healthy.
  - by apply in_i64.
  - constructor; [|constructor]. split; [exact tx_pay_valid|vm_compute; reflexivity].
  - exact E.
  - apply short_world. vm_compute. reflexivity.
  - apply short_world. vm_compute. reflexivity.
  - left. exists b, n2, b'. split; [exact H1|]. split; [exact H2|]. split; [exact H3|exact H4].
  - right. exists b. exact H.
Defined.

(** ** Synchronising *)

Lemma no_collision (t1 t2 : string) : toy_sum t1 ≠ toy_sum t2 → ¬ collision_in [t1; t2].
Proof.
  intros Hne (m1 & m2 & H1 & H2 & Hm & E). change (toy_sum m1 = toy_sum m2) in E.
  rewrite !elem_of_cons, elem_of_nil in H1, H2. destruct H1 as [->|[->|[]]], H2 as [->|[->|[]]]; congruence.
Qed.

Lemma producer_ok : node_ok producer [genesis; block_1].
Proof.
  destruct (ProduceBlock_cases toy_poa 2000 waiting [genesis] producer (Ret block_1) toy_poa_ok waiting_ok
    (in_i64 2000 eq_refl) producer_run) as [(txs & b & root & _ & _ & Hb & _ & _ & _ & _ & _ & _ & _ & Hok)|[H _]];
    [|discriminate H].
  apply Ret_inj in Hb. subst b. destruct Hok as [Hok|Hcol]; [exact Hok|exfalso].
  revert Hcol. apply no_collision. vm_compute. discriminate.
Qed.

(** A block has one stored form. *)
Lemma transit_fun b b1 b2 : block_in_transit b b1 → block_in_transit b b2 → b1 = b2.
Proof.
  intros [H1 H2 H3 H4] [K1 K2 K3 K4]. destruct b1 as [h1 l1 hs1 s1], b2 as [h2 l2 hs2 s2]. simpl in *.
  assert (l1 = l2) as ->; [|congruence]. clear -H4 K4. revert l2 K4.
  induction H4 as [|p p1 l l1 Hp _ IH]; intros l2 K4; inversion K4 as [|? p2 ? l2' Kp Kl]; subst; [done|].
  f_equal; [|by apply IH]. destruct p as [t|], p1 as [t1|], p2 as [t2|]; try done.
  destruct Hp as (v & Hv & ->), Kp as (v' & Hv' & ->). congruence.
Qed.

Lemma block_1_stored : block_in_transit block_1 block_1.
Proof.
  split; [reflexivity..|].
  assert (blk_Transactions block_1 = [Some tx_pay]) as -> by (vm_compute; reflexivity).
  constructor; [|constructor]. destruct (enc_raw (tx_Payload tx_pay)) as [v|] eqn:E; [|vm_compute in E; discriminate E].
  exists v. split; [exact E|]. vm_compute in E. injection E as <-. vm_compute. reflexivity.
Qed.

Lemma fits_block_1 : fits [block_1].
Proof.
  assert (∀ bs, bs = [] ∨ bs = [block_1] →
    match BlocksResponse_enc bs with Some v => bool_decide (zlen (message_text MsgBlocks v) <= maxMessageSize) | None => true end
    = true) as Hsize by (intros bs [-> | ->]; vm_compute; reflexivity).
  intros i bs v Hbs Hv. specialize (Hsize bs). rewrite Hv in Hsize.
  apply (bool_decide_eq_true_1 (zlen (message_text MsgBlocks v) <= maxMessageSize)), Hsize.
  destruct i as [|i].
  - right. apply Forall2_cons_inv_l in Hbs as (b & bs' & Hb & Hbs & ->). apply Forall2_nil_inv_l in Hbs as ->.
    by rewrite (transit_fun _ _ _ Hb block_1_stored).
  - left. cbn [drop] in Hbs. rewrite drop_nil in Hbs. by apply Forall2_nil_inv_l in Hbs.
Qed.

(** The two ends of a connection, the follower's clock at 5000. *)
Definition link : Peer := mkPeer "peer" "addr" (mkConn "" "" false) false.
Definition follower : Host MemDB := mkHost alice_node [link] (<["peer" := 0%nat]> ∅) false (λ _, 5000) None.
Definition leading (n : Node MemDB) : Host MemDB := mkHost n [link] (<["peer" := 0%nat]> ∅) false (λ _, 5000) None.

Lemma link_idle : idle link.
Proof. by split_and!. Qed.

Lemma alice_at_tip : at_tip alice_node [genesis] genesis (world_at alice_node).
Proof. destruct alice_node_ok as (Hok & _ & Hh & Ht & _). split; [exact Hok|exact Hh| |reflexivity].
  exists genesis. split; [exact Ht|]. split; reflexivity.
Qed.

Lemma waiting_at_tip : at_tip waiting ([] ++ [genesis]) genesis (world_at alice_node).
Proof.
  destruct alice_node_ok as (_ & _ & _ & Ht & _).
  split; [exact waiting_ok|exact NewMemDB_healthy| |reflexivity].
  exists genesis. split; [exact Ht|]. split; reflexivity.
Qed.

Lemma produced_block_replicates_witness :
  ∃ g' b f2 g2 b', on_node (ProduceBlock toy_poa 2000) (leading waiting) = (g', Ret b) ∧
    round toy_poa toy_poa 0 0 ((SyncWithPeer 0 follower).1, g') = (f2, g2) ∧ block_in_transit b b' ∧
    nd_tip (ht_node f2) ≠ nd_tip (ht_node follower) ∧ world_at (ht_node f2) = world_at (ht_node g').
Proof.
  assert (on_node (ProduceBlock toy_poa 2000) (leading waiting) = (leading producer, Ret block_1)) as E.
  { unfold on_node, on_part. cbn [ht_node leading]. rewrite producer_run. reflexivity. }
  destruct (produced_block_replicates toy_poa toy_poa 2000 0 0 link link follower (leading waiting) (leading producer)
    block_1 [genesis] [] genesis (world_at alice_node)) as [(f2 & g2 & b' & H1 & H2 & H3)|[Hc|Hc]].
  - exact toy_poa_ok.
  - exact toy_poa_ok.
  - exact link_idle.
  - exact link_idle.
  - reflexivity.
  - reflexivity.
  - reflexivity.
  - reflexivity.
  - exact alice_at_tip.
  - exact waiting_at_tip.
  - destruct alice_node_ok as (_ & _ & _ & Ht & _). exact Ht.
  - vm_compute. discriminate.
  - by apply in_i64.
  - vm_compute. discriminate.
  - exact E.
  - intros i. vm_compute. discriminate.
  - exact fits_block_1.
  - exists (leading producer), block_1, f2, g2, b'. split; [exact E|]. split; [exact H1|]. split; [exact H2|].
    destruct H3 as [_ _ (t' & Ht & _ & Hh) Hw]. split; [|exact Hw]. rewrite Ht.
    destruct alice_node_ok as (_ & _ & _ & Hg & _). cbn [ht_node follower]. rewrite Hg.
    intros Hx. apply (inj Some) in Hx. rewrite Hx in Hh. apply (f_equal hdr_Height) in Hh.
    vm_compute in Hh. discriminate Hh.
  - exfalso. revert Hc. apply no_collision. vm_compute. discriminate.
  - exfalso. revert Hc. apply no_collision. vm_compute. discriminate.
Defined.

Lemma block_1_certified : certified toy_poa genesis (world_at alice_node) [block_1] (world_at producer).
Proof.
  destruct alice_node_ok as (_ & _ & _ & Ht & _).
  destruct (produced_certified toy_poa 2000 waiting [genesis] producer block_1 genesis toy_poa) as [H _].
  - exact toy_poa_ok.
  - exact waiting_ok.
  - exact NewMemDB_healthy.
  - by apply in_i64.
  - exact waiting_height.
  - exact producer_run.
  - exact Ht.
  - vm_compute. discriminate.
  - reflexivity.
  - reflexivity.
  - exact H.
Qed.

Lemma follower_catches_up_witness :
  ∃ f' g', rounds 1 toy_poa toy_poa 0 0 ((SyncWithPeer 0 follower).1, leading producer) = (f', g') ∧
    world_at (ht_node f') = world_at producer ∧ ht_conns f' !! 0%nat = Some link.
Proof.
  destruct (follower_catches_up toy_poa toy_poa 0 0 link link follower (leading producer) [genesis] [] genesis [block_1]
    (world_at alice_node) (world_at producer)) as [(f' & g' & bs' & E & _ & [_ _ _ Hw] & _ & Hl)|Hc].
  - exact toy_poa_ok.
  - exact link_idle.
  - exact link_idle.
  - reflexivity.
  - reflexivity.
  - exact alice_at_tip.
  - exact block_1_certified.
  - exact (no_chain _ _ producer_ok).
  - exact NewMemDB_healthy.
  - intros b i ->%list_elem_of_singleton. vm_compute. discriminate.
  - vm_compute. discriminate.
  - exact fits_block_1.
  - exists f', g'. split; [exact E|]. split; [exact Hw|exact Hl].
  - exfalso. revert Hc. apply no_collision. vm_compute. discriminate.
Defined.

(** A response with the block and a null. *)
Definition response : Message := Eval vm_compute in
  match Block_enc block_1 with
  | Some v => mkMessage MsgBlocks (print (VObj [("blocks", VArr [v; VNull])]))
  | None => Message_zero
  end.

Definition response_blocks : list (option Block) := Eval vm_compute in
  default [] (Unmarshal BlocksResponse_dec [] (msg_Payload response)).

(** What the follower is left with: the block is accepted although the null
    makes the handler panic. *)
Definition answered : Host MemDB * outcome unit := handleBlocks (main_syncer toy_poa) 0 response follower.

Lemma peer_blocks_safe_witness :
  (∃ msg, answered.2 = Panic msg) ∧
  ∃ bs w', bs ≠ [] ∧ (Some <$> bs) `sublist_of` response_blocks ∧ node_ok (ht_node answered.1) ([genesis] ++ bs) ∧
    certified toy_poa genesis (world_at alice_node) bs w'.
Proof.
  split; [vm_compute; eexists; reflexivity|].
  destruct alice_node_ok as (Hok & _ & Hh & Ht & _).
  assert (Unmarshal BlocksResponse_dec [] (msg_Payload response) = Some response_blocks) as Ed
    by (vm_compute; reflexivity).
  assert (handleBlocks (main_syncer toy_poa) 0 response follower = (answered.1, answered.2)) as E
    by (unfold answered; apply surjective_pairing).
  destruct (peer_blocks_safe toy_poa 0 response response_blocks follower [genesis] genesis answered.1 answered.2
    toy_poa_ok Hok Ht Ed E) as [(bs & w' & H1 & H2 & H3 & H4)|[H|[_ H]]].
  - exists bs, w'. split; [|split; [exact H1|split; [exact H2|exact (proj1 (proj2 (H4 Hh)))]]].
    intros ->. apply (f_equal (fmap (λ b, hdr_Height (blk_Header b)))) in H3. vm_compute in H3. discriminate H3.
  - exfalso. revert H. apply no_collision. vm_compute. discriminate.
  - exfalso. exact (H Hh).
Defined.

Definition sent : string := Eval vm_compute in match marshal_block block_1 with Ret data => data | _ => "" end.

Lemma received_block_well_typed_witness :
  ∃ b, Unmarshal Block_dec Block_zero sent = Some b ∧
    valid_Block b ∧ wf_world (world_at (ExecuteBlock machine b funded_db).1).
Proof.
  destruct (Unmarshal Block_dec Block_zero sent) as [b|] eqn:Ed; [|vm_compute in Ed; discriminate Ed].
  exists b. split; [reflexivity|].
  destruct (ExecuteBlock machine b funded_db) as [w' o] eqn:E. cbn [fst].
  destruct (received_block_well_typed machine sent b funded_db w' o machine_ok funded_db_inv Ed E) as (Hv & _ & Hw).
  split; [exact Hv|exact Hw].
Defined.
