(* ===== verification/EdgeWitnesses.v ===== *)
(** * The theorems about the edges of a node on concrete inputs

    Connections and gossip, the RPC server, the wallet, the files and the setup
    of Alice's node of [ChainWitnesses.v].  The sealing of the keystore is a
    checksum in front of the text. *)
From Stdlib Require Import Ascii Lia ZArith.
From stdpp Require Import base gmap strings list.
From S2P Require Import Prelude Crypto Json JsonFacts JsonParse JsonTyped Types Transaction Block.
From S2P Require Import State DB StateDB Events Vm AssetModule Market SessionModule Executor Ledger.
From S2P Require Import Invariants Determinism Mempool Blockchain Files Config Transit Node Frame Indexer.
From S2P Require Import Consensus Startup Peer Network Sync Catchup Rpc Wire Wallet Tls Main Instances ChainWitnesses.

(** ** Connections *)

Definition greeting : Message := mkMessage MsgHello (print (VObj [("node_id", enc_string "n1")])).
Definition request : Message := request_msg 1.

Lemma greeting_sendable : sendable greeting.
Proof. split; [vm_compute; reflexivity|]. eexists. split; [vm_compute; reflexivity|]. vm_compute. discriminate. Qed.

Lemma request_sendable : sendable request.
Proof. split; [vm_compute; reflexivity|]. eexists. split; [vm_compute; reflexivity|]. vm_compute. discriminate. Qed.

Lemma link_live : live link.
Proof. split; reflexivity. Qed.

Lemma messages_arrive_witness :
  ∃ wire ms', for_each Send [greeting; request] link = (wrote wire link, Ret tt) ∧
    Receive_n 2 (incoming (wire +:+ "tail") link) = (incoming "tail" link, Ret ms') ∧
    Forall2 msg_transit [greeting; request] ms'.
Proof.
  apply (messages_arrive [greeting; request] link link "tail").
  - exact link_live.
  - exact link_live.
  - constructor; [exact greeting_sendable|]. constructor; [exact request_sendable|]. constructor.
Defined.

(** A peer that sent something that is no message. *)
Definition noisy : Host MemDB :=
  mkHost alice_node [incoming "gibberish" link] (<["peer" := 0%nat]> ∅) false (λ _, 5000) None.

Lemma read_loop_ends_witness :
  ∃ h' o, readLoop 10 (main_handlers toy_poa) 0 noisy = (h', o) ∧ o ≠ Ret false.
Proof.
  destruct (read_loop_ends 10 (main_handlers toy_poa) 0 noisy (incoming "gibberish" link)) as (h' & o & E & Ho & _).
  - apply tame_main_handlers.
  - reflexivity.
  - vm_compute. lia.
  - exists h', o. split; [exact E|exact Ho].
Defined.

(** Two dialled peers at a host that accepts none. *)
Definition crowded : Host MemDB :=
  (AddPeer "n1" "b" "addr" (Ret (mkConn "" "" false))
    (AddPeer "n1" "a" "addr" (Ret (mkConn "" "" false)) (NewHost alice_node (λ _, 0))).1).1.

Lemma peer_table_invariant_witness :
  Z.of_nat (size (ht_peers crowded)) = 2 ∧ Z.of_nat (size (ht_peers crowded)) ≤ 0 + Z.of_nat 2.
Proof.
  split; [vm_compute; reflexivity|].
  destruct (peer_table_invariant (main_handlers toy_poa) 0 2 crowded) as (_ & _ & H).
  - apply tame_main_handlers.
  - reflexivity || lia.
  - apply rc_add, rc_add, rc_new.
  - exact H.
Defined.

Lemma crowded_table : table_ok crowded.
Proof.
  apply (table_inv (main_handlers toy_poa) 0 2); [apply tame_main_handlers|lia|]. apply rc_add, rc_add, rc_new.
Qed.

Lemma broadcast_reaches_peers_witness :
  ∃ h' data, marshal_msg request = Ret data ∧ Broadcast request crowded = (h', Ret tt) ∧
    ∃ p, ht_conns crowded !! 1%nat = Some p ∧ ht_conns h' !! 1%nat = Some (wrote (frame data) p).
Proof.
  destruct (marshal_msg request) as [data|e|m] eqn:E; [|vm_compute in E; discriminate E..].
  destruct (broadcast_reaches_peers request data crowded crowded_table E) as (h' & Eb & _ & Hc).
  exists h', data. split; [reflexivity|]. split; [exact Eb|].
  destruct (ht_conns crowded !! 1%nat) as [p|] eqn:Ep; [|vm_compute in Ep; discriminate Ep].
  exists p. split; [reflexivity|]. rewrite (Hc 1%nat p Ep).
  assert (ht_peers crowded !! peer_ID p = Some 1%nat ∧ live p) as Hl.
  { vm_compute in Ep. injection Ep as <-. split; [vm_compute; reflexivity|split; reflexivity]. }
  rewrite bool_decide_eq_true_2 by exact Hl. reflexivity.
Defined.

(** Alice broadcasts her payment; the host at the other end of the link reads
    it at time 2000. *)
Definition pay_tree : jv := match Transaction_enc tx_pay with Some v => v | None => VNull end.
Definition hearing : Host MemDB :=
  mkHost alice_node [incoming (frame (message_text MsgTx pay_tree) +:+ "") link] (<["peer" := 0%nat]> ∅) false
    (λ _, 2000) None.

Lemma leading_table (n : Node MemDB) : table_ok (leading n).
Proof.
  intros id r H. change ((<["peer" := 0%nat]> ∅ : gmap string nat) !! id = Some r) in H.
  apply lookup_insert_Some in H as [[<- <-]|[_ H]]; [exists link; split; reflexivity|].
  rewrite lookup_empty in H. discriminate H.
Qed.

Lemma gossip_reaches_pool_witness :
  ∃ h', read_step (main_handlers toy_poa) 0 hearing = (h', Ret true) ∧
    is_Some (mp_txs (nd_pool (ht_node h')) !! tx_ID tx_pay).
Proof.
  destruct (gossip_reaches_pool (main_handlers toy_poa) tx_pay pay_tree (leading alice_node) 0 link hearing 0 link "")
    as (_ & h2 & tx' & E & _ & _ & Hp).
  - exact (leading_table alice_node).
  - reflexivity.
  - reflexivity.
  - exact link_live.
  - exact tx_pay_valid.
  - vm_compute. reflexivity.
  - vm_compute. reflexivity.
  - vm_compute. discriminate.
  - reflexivity.
  - exact link_live.
  - reflexivity.
  - vm_compute. intros [_ H]. discriminate H.
  - vm_compute. intros [H _]. discriminate H.
  - vm_compute. reflexivity.
  - vm_compute. reflexivity.
  - exists h2. split; [exact E|]. exists tx'. exact Hp.
Defined.

(** ** RPC *)

Definition ask_balance : string := print (request_tree (AStr "q1") "getBalance" (VObj [("address", enc_string bob)])).

Lemma rpc_answers_world_witness :
  balance (world_at alice_node) bob = 500 ∧
  ∃ rw, server_ServeHTTP (λ _, "not found") "secret" "toychain" 2000 (mkHTTP "POST" "Bearer secret" ask_balance) alice_node =
          (alice_node, Ret rw) ∧
    rw_sent rw = Some (StatusOK, {["Content-Type" := "application/json"]}) ∧
    parse (rw_body rw) = Some (VObj ([("jsonrpc", enc_string "2.0"); ("id", enc_string "q1")] ++
      result_member (VObj [("address", enc_string bob); ("balance", enc_int (balance (world_at alice_node) bob));
                           ("nonce", enc_int (nonce (world_at alice_node) bob))]))).
Proof.
  split; [vm_compute; reflexivity|].
  destruct alice_node_ok as ([Hn _ _ _] & _).
  destruct (rpc_answers_world (λ _, "not found") "secret" "toychain" 2000 (AStr "q1") bob alice_node) as [H _].
  - exact Hn.
  - exact NewMemDB_healthy.
  - vm_compute. reflexivity.
  - vm_compute. reflexivity.
  - vm_compute. discriminate.
  - apply H. vm_compute. discriminate.
Defined.

(** Alice posts her payment. *)
Definition post : HTTPRequest := Eval vm_compute in
  mkHTTP "POST" "" (print (VObj [("jsonrpc", enc_string "2.0"); ("method", enc_string "sendTx"); ("id", enc_int 1);
                                 ("params", pay_tree)])).

Lemma rpc_changes_pool_only_witness :
  ∃ n', (serveHTTP "" "toychain" 2000 post alice_node).1 = n' ∧
    (n' = alice_node ∨ ∃ pool, n' = set_nd_pool pool alice_node) ∧
    is_Some (mp_txs (nd_pool n') !! tx_ID tx_pay).
Proof.
  destruct (serveHTTP "" "toychain" 2000 post alice_node) as [n' o] eqn:E.
  exists n'. split; [reflexivity|]. split.
  - destruct (rpc_changes_pool_only "" "toychain" 2000 post alice_node n' o E)
      as [->|(_ & _ & req & tx & pool & _ & _ & _ & _ & _ & H & _)]; [left; reflexivity|right; exists pool; exact H].
  - assert (is_Some (mp_txs (nd_pool (serveHTTP "" "toychain" 2000 post alice_node).1) !! tx_ID tx_pay)) as H
      by (vm_compute; by eexists).
    rewrite E in H. exact H.
Defined.

(** ** Files and wallet *)

#[export] Instance toy_cipher : KeyCipher := {
  pbkdf2_Key pw salt _ len := bytes_of len (poly 7 (pw +:+ salt));
  gcm_Seal key nonce text := toy_sum (key +:+ nonce +:+ text) +:+ text;
  gcm_Open key nonce sealed :=
    let text := string_drop 32 sealed in
    if bool_decide (string_take 32 sealed = toy_sum (key +:+ nonce +:+ text)) then Some text else None
}.

#[export] Instance toy_cipher_laws : KeyCipherLaws.
Proof.
  split; [intros; apply bytes_of_length|]. intros key nonce text _ _.
  cbn [gcm_Open gcm_Seal toy_cipher]. cbn zeta. set (tag := toy_sum _).
  assert (String.length tag = 32%nat) as Hl by apply (bytes_of_length 32).
  rewrite <- Hl. rewrite string_drop_app, string_take_app. fold tag.
  by rewrite bool_decide_eq_true_2.
Qed.

#[export] Instance toy_pem : PEM := { X509KeyPair cert key := Some (cert +:+ key); CertsFromPEM text := Some text }.

Lemma toy_config_accepted : Validate toy_config = Ret tt.
Proof. vm_compute. reflexivity. Qed.

Lemma saved_config_loads_witness :
  ∃ d', Save None toy_config "config.json" ∅ = (d', Ret tt) ∧ Load (ReadFile "config.json" d').2 = Ret toy_config.
Proof.
  destruct (Save None toy_config "config.json" ∅) as [d' o] eqn:E.
  destruct (saved_config_loads None toy_config "config.json" ∅ d' o toy_config_valid toy_config_accepted E)
    as [_ [Ho Hl]].
  exists d'. rewrite Ho. split; [reflexivity|exact Hl].
Defined.

(** A key is saved and loaded; a second save over it stops after ten bytes. *)
Lemma keystore_round_trip_witness :
  ∃ d' d'', SaveKey (Some "salt") (Some "twelve bytes") None "key" "secret" alice_key ∅ = (d', Ret tt) ∧
    LoadKey "key" "secret" d' = (d', Ret alice_key) ∧
    SaveKey (Some "salt") (Some "twelve bytes") (Some (WriteStops 10)) "key" "secret" alice_key d' =
      (d'', Fail (EMsg "write")) ∧
    ∀ pw, ∃ e, LoadKey "key" pw d'' = (d'', Fail e).
Proof.
  destruct (SaveKey (Some "salt") (Some "twelve bytes") None "key" "secret" alice_key ∅) as [d' o] eqn:E.
  destruct (keystore_round_trip "salt" "twelve bytes" None "key" "secret" alice_key alice_pub ∅ d' o eq_refl eq_refl E)
    as [_ (Ho & _ & Hl & _)].
  destruct (SaveKey (Some "salt") (Some "twelve bytes") (Some (WriteStops 10)) "key" "secret" alice_key d') as [d'' o'] eqn:E'.
  destruct (keystore_round_trip "salt" "twelve bytes" (Some (WriteStops 10)) "key" "secret" alice_key alice_pub d' d'' o'
    eq_refl eq_refl E') as [_ (_ & _ & Hg)].
  exists d', d''. rewrite Ho. split; [reflexivity|]. split; [exact Hl|]. split.
  - rewrite (SaveKey_run "salt" "twelve bytes" (Some (WriteStops 10)) "key" "secret" alice_key alice_pub d' eq_refl) in E'.
    injection E' as <- <-. reflexivity.
  - apply Hg. vm_compute. lia.
Defined.

Lemma wallet_payment_executes_witness :
  ∃ tx, wallet_Transfer 1000 (mkWallet alice_key alice_pub) "toychain" bob 30 0 2 = Ret tx ∧
    tx_Verify tx = Ret tt ∧ run_tx the_block tx funded = (move alice bob 30 (fee_effect the_block tx funded), Ret tt).
Proof.
  destruct (wallet_payment_executes 1000 alice_key (mkWallet alice_key alice_pub) "toychain" bob 30 0 2)
    as (tx & E & Hf & Hn & He & HV & _ & Hrun).
  - exact alice_keypair.
  - reflexivity.
  - split; vm_compute; discriminate.
  - by apply in_i64.
  - split; vm_compute; discriminate.
  - reflexivity.
  - exists (seed_of "B"). vm_compute. reflexivity.
  - exists tx. split; [exact E|]. split; [exact HV|]. apply Hrun.
    + exact the_block_ok.
    + exact funded_wf.
    + split; rewrite ?Hf, ?Hn, ?He; vm_compute; first [reflexivity | discriminate | split; discriminate].
    + vm_compute. discriminate.
    + vm_compute. discriminate.
Defined.

(** ** Setup *)

Definition setup : Files * outcome string :=
  match Save None toy_config "config.json" ∅ with
  | (d, _) => genkey (Some (seed_of "A")) (Some "salt") (Some "twelve bytes") None "validator.key" "secret" d
  end.

(** A network on which ports are free and nobody answers. *)
Definition quiet_net : Net :=
  mkNet (λ _, Fail (EMsg "refused")) (λ _ _, Fail (EMsg "refused")) (λ addr, Ret addr) (λ addr _, Ret addr).

Lemma quiet_granted (d : MemDB) : granted toy_config (λ _, Ret tt) (λ _, Ret d) quiet_net d.
Proof. split; [reflexivity|reflexivity|intros [c|]; eexists; reflexivity|intros [c|] addr msg; discriminate]. Qed.

Lemma setup_then_launch_witness :
  ∃ run, launch (D := MemDB) 100 (λ _, 0) "config.json" "validator.key" "secret" (λ _, Ret tt) (λ _, Ret NewMemDB)
           quiet_net setup.1 = (setup.1, Ret run) ∧
    run_cfg run = toy_config ∧ IsProposer (run_poa run) (ht_node (run_host run)) = Ret true.
Proof.
  destruct (Save None toy_config "config.json" ∅) as [d1 o1] eqn:E1.
  assert (o1 = Ret tt) as ->.
  { transitivity (Save None toy_config "config.json" ∅).2; [rewrite E1; reflexivity|reflexivity]. }
  destruct setup as [d2 o2] eqn:E2.
  assert (o2 = Ret alice) as ->.
  { transitivity setup.2; [rewrite E2; reflexivity|]. vm_compute. reflexivity. }
  destruct (setup_then_launch toy_config (seed_of "A") "salt" "twelve bytes" "config.json" "validator.key" "secret"
    ∅ d1 d2 alice 100 (λ _, 0) NewMemDB (λ _, Ret tt) (λ _, Ret NewMemDB) quiet_net)
    as (run & g & E & Hc & _ & _ & _ & _ & _ & _ & _ & Hturn).
  - exact toy_config_valid.
  - exact toy_config_accepted.
  - reflexivity.
  - discriminate.
  - reflexivity.
  - reflexivity.
  - by apply in_i64.
  - exact E1.
  - unfold setup in E2. rewrite E1 in E2. exact E2.
  - apply quiet_granted.
  - reflexivity.
  - exact NewMemDB_healthy.
  - exists run. split; [exact E|]. split; [exact Hc|]. apply Hturn. reflexivity.
Defined.

(** Alice stops her node and launches it again. *)
Definition alice_run : Running MemDB :=
  mkRunning toy_config toy_poa (NewHost alice_node (λ _, 5000)) (main_handlers toy_poa) None.

Lemma setup_key : LoadKey "validator.key" "secret" setup.1 = (setup.1, Ret alice_key).
Proof.
  assert (setup.2 = Ret alice) as E by (vm_compute; reflexivity). unfold setup in *.
  destruct (Save None toy_config "config.json" ∅) as [d o].
  destruct (genkey _ _ _ _ _ _ d) as [d2 o2] eqn:Eg. simpl in *. subst o2.
  destruct (genkey_run (seed_of "A") "salt" "twelve bytes" "validator.key" "secret" d d2 alice) as (_ & _ & _ & H & _); [reflexivity|reflexivity|exact Eg|exact H].
Qed.

Lemma stop_then_launch_witness :
  ∃ h' srv, serve quiet_net [] alice_run (run_host alice_run) = (h', Ret srv) ∧ shut_down alice_node h' srv ∧
  ∃ run' t', launch 900 (λ _, 5000) "config.json" "validator.key" "secret" (λ _, Ret tt)
               (λ _, Ret (nd_db (ht_node h'))) quiet_net setup.1 = (setup.1, Ret run') ∧
    block_in_transit genesis t' ∧ world_at (ht_node (run_host run')) = world_at alice_node.
Proof.
  destruct alice_node_ok as (Hok & Hcl & _).
  assert (table_ok (run_host alice_run)) as Ht.
  { intros id r Hr. change ((∅ : gmap string nat) !! id = Some r) in Hr. by rewrite lookup_empty in Hr. }
  destruct (stop_then_launch quiet_net [] alice_run (run_host alice_run) alice_node [] genesis ":8545" Ht eq_refl)
    as (h' & srv & E & Hs & Hl).
  - reflexivity.
  - reflexivity.
  - exact Hok.
  - apply (clean_inv alice_node); [exact Hcl|apply Hok|]. intros k _. reflexivity.
  - exists h', srv. split; [exact E|]. split; [exact Hs|].
    destruct (Hl toy_config alice_key alice_pub "config.json" "validator.key" "secret" setup.1 900 (λ _, 5000)
      (nd_db (ht_node h')) (λ _, Ret tt) (λ _, Ret (nd_db (ht_node h')))) as (run' & t' & El & Ht' & _ & _ & _ & _ & Hw).
    + exact toy_config_valid.
    + exact toy_config_accepted.
    + reflexivity.
    + exact alice_keypair.
    + reflexivity.
    + vm_compute. reflexivity.
    + exact setup_key.
    + apply quiet_granted.
    + reflexivity.
    + exact NewMemDB_healthy.
    + exists run', t'. split; [exact El|]. split; [exact Ht'|exact (Hw Hcl)].
Defined.
