(* ===== verification/LifeWitnesses.v ===== *)
(** * The life of a node on a concrete input

    Alice's payment is posted to her node, the next tick makes a block of it, a
    peer connects and sends bytes, and the process is killed and started
    again. *)
From Stdlib Require Import Ascii Lia ZArith.
From stdpp Require Import base gmap strings list.
From S2P Require Import Prelude Crypto Json JsonFacts JsonParse JsonTyped Types Transaction Block.
From S2P Require Import State DB StateDB Events Vm AssetModule Market SessionModule Executor Ledger.
From S2P Require Import Invariants Determinism Mempool Blockchain Files Config Transit Node Frame Indexer.
From S2P Require Import Consensus Startup Peer Network Sync Catchup Rpc Life Instances ChainWitnesses EdgeWitnesses.

Definition alice_day : list event :=
  [Post "" 1500 post; Tick 2000; Accepted "10.0.0.2" (mkConn "" "" false); Arrive 0 "hello"; ReadNext 0; Hangup 0;
   Crash 3000 alice_key].

Definition evening : Host MemDB := live_on toy_poa alice_day (NewHost alice_node (λ _, 0)).

Lemma alice_day_ok : Forall event_ok alice_day.
Proof. repeat constructor; vm_compute; discriminate. Qed.

Lemma evening_height : nd_height (ht_node evening) = 1.
Proof. vm_compute. reflexivity. Qed.

(** The header of the one block of that day. *)
Definition day_header : string := Eval vm_compute in
  default "" (head (headers_seen toy_poa alice_day (NewHost alice_node (λ _, 0)))).

Lemma day_headers : headers_seen toy_poa alice_day (NewHost alice_node (λ _, 0)) = [day_header].
Proof. vm_compute. reflexivity. Qed.

Lemma node_life_witness :
  nd_height (ht_node evening) = 1 ∧ nd_exited (ht_node evening) = false ∧
  supply (world_at (ht_node evening)) = 1500.
Proof.
  split; [exact evening_height|].
  destruct (node_life toy_poa 100 toy_config alice_key alice_pub NewMemDB (λ _, 0) alice_node alice_day)
    as [(g & rest & t & txs & _ & Hx & _ & _ & _ & _ & _ & _ & H & _)|H].
  - exact toy_poa_ok.
  - exact alice_keypair.
  - reflexivity.
  - exact toy_startable.
  - by apply in_i64.
  - reflexivity.
  - exact NewMemDB_healthy.
  - vm_compute. reflexivity.
  - exact alice_day_ok.
  - split; [exact Hx|]. unfold evening. rewrite H. vm_compute. reflexivity.
  - exfalso. rewrite day_headers in H. revert H. apply no_collision. vm_compute. discriminate.
Defined.
