(* ===== verification/CertWitnesses.v ===== *)
(** * Certificates on a concrete input

    An X.509 library that knows two certificates, those of a run for the node
    "n1", by name. *)
From Stdlib Require Import Ascii Lia ZArith.
From stdpp Require Import base gmap strings list.
From S2P Require Import Prelude Crypto Files Config Tls Certgen.

#[export] Instance ExtKeyUsage_eq_dec : EqDecision ExtKeyUsage.
Proof. solve_decision. Defined.
#[export] Instance Certificate_eq_dec : EqDecision Certificate.
Proof. solve_decision. Defined.

Definition known_ca : Certificate := caTemplate 7 0 0.
Definition known_node : Certificate := nodeTemplate "n1" None 8 0 0.

#[export] Instance known_x509 : X509 := {|
  ecdsa_Public key := "pub:" +:+ key;
  x509_CreateCertificate _ template parent pub priv :=
    if decide (template = known_ca ∧ parent = known_ca ∧ pub = "pub:" +:+ "ca" ∧ priv = "ca") then Some "ca"
    else if decide (template = known_node ∧ parent = known_ca ∧ pub = "pub:" +:+ "n1" ∧ priv = "ca") then Some "n1"
    else None;
  x509_ParseCertificate der :=
    if decide (der = "ca") then Some (mkParsed known_ca "TOL Chain CA" ("pub:" +:+ "ca"))
    else if decide (der = "n1") then Some (mkParsed known_node "TOL Chain CA" ("pub:" +:+ "n1"))
    else None;
  x509_CheckSignatureFrom child parent := bool_decide (child ∈ ["ca"; "n1"] ∧ parent = "ca");
  x509_MarshalECPrivateKey key := Some key
|}.

#[export] Instance known_pem : PEM := {|
  X509KeyPair cert key :=
    if decide (cert = pem_Encode "CERTIFICATE" "ca" ∧ key = pem_Encode "EC PRIVATE KEY" "ca") then Some "ca"
    else if decide (cert = pem_Encode "CERTIFICATE" "n1" ∧ key = pem_Encode "EC PRIVATE KEY" "n1") then Some "n1"
    else None;
  CertsFromPEM text :=
    if decide (text = pem_Encode "CERTIFICATE" "ca") then Some "ca"
    else if decide (text = pem_Encode "CERTIFICATE" "n1") then Some "n1"
    else None
|}.

Lemma toy_created (rnd : string) template parent pub (priv : string) der :
  x509_CreateCertificate rnd template parent pub priv = Some der →
  priv = "ca" ∧
  ((der = "ca" ∧ template = known_ca ∧ parent = known_ca ∧ pub = "pub:" +:+ "ca") ∨
   (der = "n1" ∧ template = known_node ∧ parent = known_ca ∧ pub = "pub:" +:+ "n1")).
Proof.
  unfold x509_CreateCertificate, known_x509. repeat case_decide; intros [= <-]; tauto.
Qed.

#[export] Instance known_x509_laws : X509Laws.
Proof.
  split.
  - intros rnd template parent pub priv der (_ & [(-> & -> & -> & ->)|(-> & -> & -> & ->)])%toy_created;
      eexists; (split; [reflexivity|by split_and!]).
  - intros rnd template parent pub priv der caDER ca (-> & Hder)%toy_created Hp Hk _.
    assert (caDER = "ca") as ->.
    { revert Hp. unfold x509_ParseCertificate, known_x509. repeat case_decide; [done| |done]. intros [= <-]. done. }
    apply bool_decide_eq_true_2. split; [|done]. destruct Hder as [(-> & _)|(-> & _)]; set_solver.
  - intros rnd template parent key priv der keyDER (_ & [(-> & _ & _ & E)|(-> & _ & _ & E)])%toy_created [= <-];
      apply (inj (String.append "pub:")) in E as ->; reflexivity.
  - intros der parsed. unfold x509_ParseCertificate, known_x509. repeat case_decide; intros [= <-]; subst; reflexivity.
Qed.

Definition toy_draws : Draws := mkDraws (Some "ca") (Some 7) "" (Some "n1") (Some 8) "".
Definition made_files : Files := (GenerateAll (Ret tt) toy_draws (λ _, 0) (λ _, None) "./certs/" "n1" None ∅).1.

Lemma generated_certs_load_witness :
  LoadTLSConfig (Some (mkTLS "certs/ca.crt" "certs/n1.crt" "certs/n1.key")) made_files =
    (made_files, Ret (Some (mkTLSConfig ["n1"] "ca" "ca" RequireAndVerifyClientCert VersionTLS13))) ∧
  (∃ node, x509_ParseCertificate "n1" = Some node ∧ ct_CommonName (pc_Certificate node) = "n1") ∧
  x509_CheckSignatureFrom "n1" "ca" = true.
Proof.
  destruct (generated_certs_load (Ret tt) toy_draws (λ _, 0) (λ _, None) "./certs/" "n1" None ∅ made_files)
    as (caDER & ca & nodeDER & node & H & _ & _ & Hp & _ & Hsig & _ & Hcn & _).
  - reflexivity.
  - discriminate.
  - vm_compute. reflexivity.
  - assert (nodeDER = "n1" ∧ caDER = "ca") as [-> ->].
    { assert (∀ c, LoadTLSConfig (Some (mkTLS (filepath_Join "./certs/" "ca.crt") (filepath_Join "./certs/" ("n1" +:+ ".crt"))
        (filepath_Join "./certs/" ("n1" +:+ ".key")))) made_files = (made_files, Ret (Some c)) →
        tc_Certificates c = ["n1"] ∧ tc_RootCAs c = "ca") as Hc.
      { intros c Hc. apply (f_equal snd) in Hc. vm_compute in Hc. injection Hc as <-. split; reflexivity. }
      destruct (Hc _ H) as [H1 H2]. cbn [tc_Certificates tc_RootCAs] in H1, H2. injection H1 as ->. split; [reflexivity|exact H2]. }
    split; [exact H|]. split; [exists node; split; [exact Hp|exact Hcn]|exact Hsig].
Defined.
