(* ===== verification/ThreadWitnesses.v ===== *)
(** * Goroutines on concrete inputs

    Alice's node produces a block of her payment while a peer's block comes in;
    and two peers answer it with the same empty block. *)
From Stdlib Require Import Ascii Lia ZArith.
From stdpp Require Import base gmap strings list.
From S2P Require Import Prelude Crypto Json JsonFacts JsonParse JsonTyped Types Transaction Block.
From S2P Require Import State DB StateDB Events Vm AssetModule Market SessionModule Executor Ledger.
From S2P Require Import Invariants Determinism Mempool Blockchain Files Config Transit Node Frame Indexer.
From S2P Require Import Consensus Startup Peer Network Sync Thread ThreadVm Threads Instances ChainWitnesses.

(** Another block for the same height. *)
Definition empty_block : Block := Eval vm_compute in
  match (ProduceBlock toy_poa 2000 alice_node).2 with Ret b => b | _ => Block_zero end.

Lemma empty_block_valid : valid_Block empty_block.
Proof.
  split; [|split; [constructor|split; vm_compute; reflexivity]].
  unfold valid_BlockHeader. split_and!; first [apply in_i64; vm_compute; reflexivity | vm_compute; reflexivity].
Qed.

(** *** In the middle of a transfer *)

(** A request adds a payment; the producer debits the sender and reads the
    recipient; now a read loop judges the empty block, takes its snapshot,
    computes a root from the half-done transfer and gives the block up; and the
    producer goes on. *)
Definition busy : list goroutine := [GoRun [2000]; GoAdd 1900 tx_pay; GoBlocks [(2000, Some empty_block)]].
Definition turns : list nat := 1%nat :: replicate 10 0%nat ++ replicate 6 2%nat ++ replicate 6 0%nat.
Definition half_done : system MemDB := schedule (take 11 turns) (mkSystem (body toy_poa <$> busy) alice_node []).
Definition interleaved : system MemDB := schedule turns (mkSystem (body toy_poa <$> busy) alice_node []).

Definition interleaved_headers : list string := Eval vm_compute in header_text <$> sys_offered interleaved.

Lemma interleaved_offered : header_text <$> sys_offered interleaved = interleaved_headers.
Proof. vm_compute. reflexivity. Qed.

Lemma interleaving_keeps_chain_witness :
  (nd_height (sys_node half_done) = 0 ∧
   balance (world_at (sys_node half_done)) (tx_From tx_pay) ≠ balance (world_at alice_node) (tx_From tx_pay)) ∧
  nd_height (sys_node interleaved) = 1 ∧ length (mp_ord (nd_pool (sys_node interleaved))) = 0%nat ∧
  ∃ chain, [genesis] `prefix_of` chain ∧ node_ok (sys_node interleaved) chain.
Proof.
  split; [vm_compute; split; [reflexivity|discriminate]|].
  split; [vm_compute; reflexivity|]. split; [vm_compute; reflexivity|].
  destruct (interleaving_keeps_chain toy_poa alice_node [genesis] busy turns) as [(chain & H1 & _ & H2)|H].
  - exact toy_poa_ok.
  - apply alice_node_ok.
  - constructor; [apply Forall_singleton; by apply in_i64|]. constructor; [exact tx_pay_valid|].
    apply Forall_singleton, Forall_singleton. intros b [= <-]. exact empty_block_valid.
  - exists chain. split; [exact H1|exact H2].
  - exfalso. assert (collision_in ((header_text <$> [genesis]) ++ interleaved_headers)) as Hc.
    { rewrite <- interleaved_offered, <- fmap_app. exact H. }
    revert Hc. apply no_collision. vm_compute. discriminate.
Defined.

(** *** The race *)

Lemma racing_readers_exit_witness :
  ∃ turns, nd_exited (sys_node (schedule turns
    (mkSystem (body toy_poa <$> [GoBlocks [(2000, Some empty_block)]; GoBlocks [(2001, Some empty_block)]])
       alice_node []))) = true.
Proof.
  destruct alice_node_ok as (Hok & _ & Hh & Ht & _).
  apply (racing_readers_exit toy_poa alice_node [genesis] genesis empty_block 2000 2001).
  - exact toy_poa_ok.
  - exact Hok.
  - exact Hh.
  - vm_compute. reflexivity.
  - vm_compute. reflexivity.
  - exact Ht.
  - vm_compute. reflexivity.
  - vm_compute. reflexivity.
  - exact empty_block_valid.
  - reflexivity.
  - right. vm_compute. reflexivity.
Defined.
